(* ===== verification/_CoqProject ===== *)
-Q . S2P
Prelude.v
Locks.v
MemoryRegions.v
Device.v
Lifecycle.v
Text.v
Mem.v
Packet.v
BufferPool.v
SecondaryQueue.v
SendQueue.v
McastSendQueue.v
ReceiveQueue.v
PacketManager.v
Tasks.v
Congestion.v
RequestCache.v
Posting.v
UdEndpoint.v
RcEndpoint.v
Multicast.v
McastLifecycle.v
Controller.v
Context.v
Reliable.v
ReliableSafety.v
Session.v
Handshake.v
ContextMcast.v
Unreliable.v
McastRound.v
Transfer.v
McastTransfer.v
ContextParts.v
HostSend.v
HostReceive.v
Hosts.v
McastHostSend.v
McastHostReceive.v
FileIO.v
FileTransfer.v
BenchBarrier.v
ProtocolTasks.v
Benchmark.v
