(* ===== verification/Prelude.v ===== *)
(** * RapidTransfer: a verification library

    RapidTransfer moves buffers between hosts over RDMA.  This library models its
    C++ code (under src/src/ and src/include/ of the repository, and the programs
    under src/example/) as executable Rocq functions over explicit state and proves what makes each part correct,
    and, where a part does not do what it means to do, exactly what it does
    instead.

    ** The program

    An application holds a [RapidTransfer] object.  It connects to a peer on first
    use: the [SessionManager] exchanges attributes (LID, GID, queue pair numbers)
    as JSON over an RPC.  Behind it is one of three protocols:

    - the reliable protocol hands whole buffers to reliable queue pairs;
    - the unreliable protocol sends packets over unreliable datagrams and makes
      them reliable itself: a send queue with a window and a cumulative
      acknowledgement, a receive queue that copies payloads into posted buffers,
      a retransmission timer and a congestion window;
    - the multicast protocol does the same towards a group of replicas, with a
      send queue that keeps one cumulative acknowledgement per replica.

    Packets live in a pool of blocks shared with the NIC; work requests live on
    the heap and return as completions.

    ** Files and what they model

    - Prelude: outcomes of C++ code ([outcome]), record update, machine integers,
      tactics and hint databases, generic lemmas.
    - Locks: concurrency.h.  The reader-writer spinlock and the ticket lock as
      step relations over any number of threads.
    - MemoryRegions, Device: protocols/common/rdma_context.  The table of memory
      regions; opening and closing the device over the resources of the process.
      Lifecycle: what the constructors and destructors of the datagram endpoints, of
      their store and of the controller acquire and release.
    - Text: the textual form of attributes ([ToString], [FromString], GIDs).
    - Mem, Packet: byte memory; packet headers and [PacketHandle]
      (packet_manager.h/.cpp).
    - BufferPool, SecondaryQueue, SendQueue, McastSendQueue, ReceiveQueue,
      PacketManager: the classes of the same names (packet_manager.h/.cpp).
    - Tasks: the completion test of [getStatus], over an interface that the three
      queues implement.
    - Congestion: timer and window of context.cpp and context_mcast.cpp.
    - RequestCache, Posting: rdma_endpoint.h and the posting loop shared by the
      endpoints.
    - UdEndpoint, RcEndpoint, Multicast: rdma_ud_endpoint(_store),
      rdma_rc_endpoint(_store), rdma_multicast under protocols/common/.
      McastLifecycle: the resources of a multicast group, from its construction
      through the events of its thread to its destruction.
    - Controller: rdma_unreliable/controller.  Peers, session ids, groups.
    - Context, ContextMcast: the classes [Context] and [ContextMcast], every
      method, over a state with memory, the heap of requests and what the NIC was
      given.  Unreliable wraps them as the protocols of impl.cpp, impl_mcast.cpp.
    - Reliable, ReliableSafety: rdma_reliable/impl, and its reachable states.
    - Session: session_manager, protocol.h (a type class with its laws) and
      rapid_transfer.cpp.  Handshake: two hosts connecting.
    - Transfer, McastTransfer: a sender and its receivers over a network that
      loses, duplicates and reorders, as step relations over the queues' own
      operations: the abstract specification of the data path.
    - ContextParts, HostSend, HostReceive, Hosts: two objects of class [Context] and
      the network between their NICs, and the simulation of that system by Transfer.
      McastRound, McastHostSend, McastHostReceive: the same for the methods of
      [ContextMcast] that send to a group and that process what arrives.
    - FileIO, FileTransfer: example/file_transfer.cpp, its system calls and the two
      programs, statement by statement, on top of a transfer.
    - ProtocolTasks: what a client may rely on about the tasks of a protocol (a type
      class, with [Context] as an instance).  Benchmark, BenchBarrier:
      example/benchmark.cpp over that class, and the synchronisation of its threads.

    State is a [Record] per class with the source's members; a method is a
    function from the state to an [outcome] of its return value and the new state.
    A [Trap] is the end of the process: a failed assertion (the build keeps
    them), [abort], a null access, an index out of range, a division by zero, an
    exception nothing catches.  Shared objects are modelled as such: packet
    blocks in one byte memory, requests in one heap, tasks with the references
    that keep them alive.

    ** What is shown

    - End to end: whatever the network does, the bytes a receiver's buffers hold
      are those the sender's buffers held at the acknowledged positions, and no
      packet makes the receiver abort ([transfer_delivers],
      [mcast_transfer_delivers], [transfer_never_aborts]).
    - That the code does this: every run of two contexts, with any results of the
      verbs, is a run of the transfer ([contexts_refine_transfer]), so that a task
      that [getStatus] reports as done is delivered ([contexts_deliver]); a round of
      sending to a group hands to the NIC exactly the packets that are due, with their
      content ([mcast_round_exact]), and the handlers of acknowledgements and data are
      steps of the transfer to a group ([mcast_ack_refines], [mcast_data_refines]).
    - The example programs: the file that is written is the file that was read, even
      though the sender reuses one buffer ([file_transfer_exact]); the benchmark has
      one live task per slot and its threads meet or all return
      ([bench_one_task_per_slot], [bench_ends_exact]).
    - Memory safety of the reliable protocol over every run
      ([reliable_never_traps]), and of the queues, the pool and the request cache
      over every sequence of operations ([*_run_safe],
      [pool_allocation_exclusive], [request_cache_safe]).
    - Exact behaviour of the operations on every branch ([*_exact],
      [mcast_ack_per_replica]), of opening and closing a device, of connecting queue
      pairs and groups, and of what their destructors leave behind
      ([device_cleanup_exact], [controller_teardown_exact], [mcast_teardown_leaks]).
    - The multicast queue with one replica behaves as the unicast queue
      ([mcast_refines_unicast]); the timer in 64-bit arithmetic equals its
      definition on unbounded integers ([rto_bounded_and_exact]).
    - Connecting: attributes survive their textual form, session ids lead to the
      right peer, sessions are exactly the peers that can be sent to, and the
      handshake of two hosts pairs their queue pairs, first against the interface
      of a protocol, then for the reliable protocol ([handshake_links_both],
      [reliable_handshake_pairs], [connection_handshake]).
    - Locks: mutual exclusion, and fairness of the ticket lock.
    - Behaviours that differ from what the code means: the theorems of kind
      error and liveness, and those that the documents of the repository
      contradict.

    ** Bounds and fuel

    Integers keep their width: every operation that can wrap is wrapped with
    [u8] ... [u64], [i32], [i64].  Loops that are not structural carry fuel:
    filling a queue takes at most window + 2 iterations
    ([send_fill_terminates]), removing regions at most one pass per region and
    one more, reading numbers at most one per character; each bound is proved
    never to be what stops the loop.  Worker loops are modelled by one iteration,
    and statements about them are about any number of iterations.

    ** Assumptions of the end-to-end theorems

    Applications submit buffers of matching lengths, do not write to buffers whose
    task is not complete and post disjoint buffers outside the packet pool.  The NIC
    reads a work request by the end of the call that posts it; an arriving packet is
    written when its completion is polled, into a posted packet.  A packet or an
    acknowledgement that arrives is not older than the 24-bit sequence space, and a
    queue carries fewer than 2^64 fragments in its life.  Hosts.v has one session per
    host, with data in one direction.

    ** Not modelled

    libibverbs, librdmacm, libnuma, the JSON and RPC libraries, the memory
    allocator and the clock are parameters, with their documented behaviour as
    hypotheses where a theorem needs it.  Log output, [RdmaContext::socketId] and
    [getSocketAddress] (they read the system's configuration) and the call of the
    verb that polls a completion queue are left out; polled completions are arguments.
    Methods run one at a time: the locks are verified on their own, and the one place
    where code releases a lock between a test and the action it guards is treated in
    MemoryRegions.  Of the example programs, parsing flags, listing devices, binding to
    a NUMA node and printing reports are left out; the tests under src/test are not
    modelled, and the glog headers are third-party code. *)

From stdpp Require Export base gmap list numbers strings relations sorting.
From Stdlib Require Export ZifyBool.

(** ** Outcomes of C++ code

    A function of the program either returns or stops the process: [abort()],
    a failed [assert] (the build does not define NDEBUG), an integer division
    by zero, a null dereference, the use of a pointer that was never set, an
    access outside a vector, an uncaught exception.  [TrapFuel] is not a behaviour of the program: it marks a
    bounded loop of the model that ran out of its bound, and every loop of the
    library is proved never to produce it. *)
Inductive trap : Type :=
| TrapAbort
| TrapAssert
| TrapDivZero
| TrapNull
| TrapWild
| TrapRange
| TrapThrow
| TrapFuel.

Inductive outcome (A : Type) : Type :=
| Ok (a : A)
| Trap (t : trap).
Arguments Ok {A} a.
Arguments Trap {A} t.

#[export] Instance outcome_ret : MRet outcome := fun A a => Ok a.
#[export] Instance outcome_bind : MBind outcome := fun A B f m =>
  match m with Ok a => f a | Trap t => Trap t end.

(** [vec[i]] where [i] must be in range. *)
Definition vec_at {A : Type} (l : list A) (i : nat) : outcome A :=
  match l !! i with Some a => Ok a | None => Trap TrapRange end.

(** ** Record update

    [r <| f := v |>] replaces field [f].  A record type opts in by giving its
    eta-expansion as an instance of [Fields]; the setter of a field is then
    computed by abstracting that field from the eta-expansion. *)
Record Fields (R : Type) := mkFields { fields_eta : R -> R }.
Arguments mkFields {R} _.
Existing Class Fields.
Record FieldSet {R E : Type} (proj : R -> E) := mkFieldSet { field_set : E -> R -> R }.
Arguments mkFieldSet {R E proj} _.
Arguments field_set {R E} proj {_} _ _.
Existing Class FieldSet.

Ltac derive_field_set :=
  match goal with
  | |- @FieldSet ?R ?E ?proj =>
      let inst := constr:(_ : Fields R) in
      let inst := eval hnf in inst in
      match inst with
      | mkFields ?body =>
          exact (mkFieldSet (fun (v : E) (r : R) =>
            ltac:(let t := eval cbv beta in (body r) in
                  lazymatch t with
                  | context [proj r] =>
                      match eval pattern (proj r) in t with
                      | ?f _ => let t' := eval cbv beta in (f v) in exact t'
                      end
                  | _ => fail "not a field"
                  end)))
      end
  end.
#[export] Hint Extern 1 (FieldSet _) => derive_field_set : typeclass_instances.

Declare Scope rt_scope.
Delimit Scope rt_scope with rt.
Notation "r <| f := v |>" := (field_set f v r)
  (at level 1, f at level 0, v at level 99, left associativity) : rt_scope.
Open Scope rt_scope.
Open Scope Z_scope.

(** ** Machine integers

    A [w]-bit value is a [Z]; each arithmetic operation of the source wraps
    explicitly.  Pointers and [size_t] are 64-bit, [int] is 32-bit. *)
Definition u8 (x : Z) : Z := x mod 0x100.
Definition u16 (x : Z) : Z := x mod 0x10000.
Definition u32 (x : Z) : Z := x mod 0x100000000.
Definition u64 (x : Z) : Z := x mod 0x10000000000000000.
Definition i32 (x : Z) : Z := (x + 0x80000000) mod 0x100000000 - 0x80000000.
Definition i64 (x : Z) : Z :=
  (x + 0x8000000000000000) mod 0x10000000000000000 - 0x8000000000000000.

Definition is_u8 (x : Z) : Prop := 0 <= x < 0x100.
Definition is_u16 (x : Z) : Prop := 0 <= x < 0x10000.
Definition is_u32 (x : Z) : Prop := 0 <= x < 0x100000000.
Definition is_u64 (x : Z) : Prop := 0 <= x < 0x10000000000000000.

#[global] Arguments u8 : simpl never.
#[global] Arguments u16 : simpl never.
#[global] Arguments u32 : simpl never.
#[global] Arguments u64 : simpl never.
#[global] Arguments i32 : simpl never.
#[global] Arguments i64 : simpl never.

(** Return code of an [int] function that signals an error. *)
Definition ERR : Z := -1.

(** ** Automation

    [word_lia] is [lia] after the machine-integer wrappers are unfolded and
    divisions and remainders by constants are turned into equations. *)
Ltac word_unfold :=
  unfold is_u8, is_u16, is_u32, is_u64, u8, u16, u32, u64, i32, i64 in *.
Ltac word_lia := word_unfold; Z.div_mod_to_equations; lia.

(** Inverts equations between outcomes and splits the binds they contain. *)
Ltac outcome_inv :=
  repeat match goal with
  | H : Ok _ = Ok _ |- _ => injection H as H
  | H : Ok _ = Trap _ |- _ => discriminate H
  | H : Trap _ = Ok _ |- _ => discriminate H
  | H : mbind _ ?e = Ok _ |- _ =>
      let E := fresh "E" in
      destruct e eqn:E; cbn [mbind outcome_bind] in H; [|discriminate H]
  end.

(** Executes a hypothesis [program = Ok result]: splits its binds, tests and
    pattern matches, and discards the branches that do not return. *)
Ltac outcome_run :=
  repeat first
    [ progress outcome_inv
    | match goal with
      | H : Some _ = None |- _ => discriminate H
      | H : None = Some _ |- _ => discriminate H
      | H : (let x := _ in _) = Ok _ |- _ => cbv zeta in H
      | H : match ?x with _ => _ end = Ok _ |- _ => destruct x eqn:?
      end ].

(** Splits every comparison of the goal. *)
Ltac leb_cases :=
  repeat match goal with
  | |- context [?a <=? ?b] => destruct (Z.leb_spec a b)
  | |- context [?a <? ?b] => destruct (Z.ltb_spec a b)
  end.

Create HintDb word.
Create HintDb rt.

(** ** Generic lemmas *)
Lemma u16_range x : is_u16 (u16 x).
Proof. word_lia. Qed.

Lemma u32_range x : is_u32 (u32 x).
Proof. word_lia. Qed.

Lemma u64_range x : is_u64 (u64 x).
Proof. word_lia. Qed.

Lemma u8_range x : is_u8 (u8 x).
Proof. word_lia. Qed.

Lemma u64_small x : is_u64 x -> u64 x = x.
Proof. word_lia. Qed.

Lemma u32_small x : is_u32 x -> u32 x = x.
Proof. word_lia. Qed.

Lemma u16_small x : is_u16 x -> u16 x = x.
Proof. word_lia. Qed.

Lemma u8_small x : is_u8 x -> u8 x = x.
Proof. word_lia. Qed.

#[export] Hint Resolve u8_range u16_range u32_range u64_range : word.
#[export] Hint Rewrite u8_small u16_small u32_small u64_small
  using (solve [word_lia]) : word.

(** Two indices that share a slot of a ring of [cap] entries and are less than
    [cap] apart are the same index. *)
Lemma ring_slot_inj (cap i j : Z) :
  0 < cap -> Z.abs (i - j) < cap -> i mod cap = j mod cap -> i = j.
Proof.
  intros Hc Hd He.
  assert (Hz : (i - j) mod cap = 0)
    by (rewrite Zminus_mod, He, Z.sub_diag, Z.mod_0_l; lia).
  apply Z.mod_divide in Hz; [|lia]. destruct Hz as [k Hk].
  assert (k = 0) by nia. lia.
Qed.

Lemma ring_slot_bound (cap i : Z) :
  0 < cap -> (Z.to_nat (i mod cap) < Z.to_nat cap)%nat.
Proof. intros Hc. pose proof (Z.mod_pos_bound i cap Hc). lia. Qed.

Lemma ring_slot_neq (cap i j : Z) :
  0 < cap -> Z.abs (i - j) < cap -> i <> j ->
  Z.to_nat (i mod cap) <> Z.to_nat (j mod cap).
Proof.
  intros Hc Hd Hne Heq. apply Hne, (ring_slot_inj cap); try done.
  pose proof (Z.mod_pos_bound i cap Hc). pose proof (Z.mod_pos_bound j cap Hc). lia.
Qed.

(** Reducing modulo a multiple first does not change the residue: a slot index
    may be computed from a truncated sequence number when the ring size divides
    the sequence space. *)
Lemma mod_of_mod (i big cap : Z) :
  0 < cap -> 0 < big -> (cap | big) -> (i mod big) mod cap = i mod cap.
Proof.
  intros Hc Hb [k ->]. rewrite (Z.mul_comm k cap).
  rewrite Z.rem_mul_r by nia.
  rewrite (Z.mul_comm cap), Z.mod_add by lia. apply Z.mod_mod. lia.
Qed.

Lemma vec_at_Some {A} (l : list A) i a : l !! i = Some a -> vec_at l i = Ok a.
Proof. unfold vec_at. by intros ->. Qed.

Lemma vec_at_lt {A} (l : list A) i :
  (i < length l)%nat -> exists a, vec_at l i = Ok a /\ l !! i = Some a.
Proof.
  intros [a Ha]%lookup_lt_is_Some. exists a. by rewrite (vec_at_Some _ _ a Ha).
Qed.

(** An element of a list, and the list with another in its place. *)
Lemma list_focus {A} (l : list A) i c :
  l !! i = Some c -> exists l1 l2, l = l1 ++ c :: l2 /\ forall c', <[i := c']> l = l1 ++ c' :: l2.
Proof.
  intros Hc. exists (take i l), (drop (S i) l). split; [by rewrite take_drop_middle|].
  intros c'. rewrite insert_take_drop; [done|]. by eapply lookup_lt_Some.
Qed.

(** A last step whose target is known up to evaluation. *)
Lemma rtc_step_eq {A} (R : relation A) x y z : R x y -> y = z -> rtc R x z.
Proof. intros H <-. by apply rtc_once. Qed.
