(* ===== verification/Locks.v ===== *)
(** * Locks and the random generator

    Models [RWSpinlock], [TicketLock] and [SimpleRandom] of src/concurrency.h.

    The locks are transition systems over a list of threads.  The counters of a
    lock are kept as unbounded integers that only grow; the value in the lock
    word is their residue ([u16] for [RWSpinlock], [i32] for [TicketLock]), and
    every test the code makes is a test on residues.  A compare-and-swap that
    fails changes nothing and is a step to the state before the attempt. *)

From S2P Require Import Prelude.

(** ** Counting threads *)
Definition b2z (b : bool) : Z := if b then 1 else 0.

Definition count {T : Type} (f : T -> bool) (l : list T) : Z :=
  foldr (fun t n => b2z (f t) + n) 0 l.

#[global] Arguments count {T} f l : simpl never.

Lemma count_cons {T} (f : T -> bool) t l : count f (t :: l) = b2z (f t) + count f l.
Proof. done. Qed.

Lemma b2z_range b : 0 <= b2z b <= 1.
Proof. destruct b; cbn; lia. Qed.

Lemma count_bounds {T} (f : T -> bool) l : 0 <= count f l <= Z.of_nat (length l).
Proof.
  induction l as [|t l IH]; [done|]. rewrite count_cons. pose proof (b2z_range (f t)). cbn. lia.
Qed.

Lemma count_insert {T} (f : T -> bool) l : forall i old new,
  l !! i = Some old -> count f (<[i := new]> l) = count f l - b2z (f old) + b2z (f new).
Proof.
  induction l as [|t l IH]; intros [|i] old new Hi; try done.
  - injection Hi as ->. change (<[0%nat := new]> (old :: l)) with (new :: l).
    rewrite !count_cons. lia.
  - change (<[S i := new]> (t :: l)) with (t :: <[i := new]> l).
    rewrite !count_cons, (IH i old new Hi). lia.
Qed.

Lemma count_one {T} (f : T -> bool) l i t : l !! i = Some t -> f t = true -> 1 <= count f l.
Proof.
  revert i. induction l as [|x l IH]; intros [|i] Hi Hf; try done; rewrite count_cons.
  - injection Hi as ->. rewrite Hf. pose proof (count_bounds f l). cbn. lia.
  - pose proof (IH i Hi Hf). pose proof (b2z_range (f x)). lia.
Qed.

(** Two threads that both satisfy [f]. *)
Lemma count_two {T} (f : T -> bool) l i j t u :
  l !! i = Some t -> l !! j = Some u -> i <> j -> f t = true -> f u = true -> 2 <= count f l.
Proof.
  revert i j. induction l as [|x l IH]; intros [|i] [|j] Hi Hj Hne Ht Hu; try done;
    rewrite count_cons.
  - injection Hi as ->. rewrite Ht. pose proof (count_one f l j u Hj Hu). cbn. lia.
  - injection Hj as ->. rewrite Hu. pose proof (count_one f l i t Hi Ht). cbn. lia.
  - pose proof (IH i j Hi Hj ltac:(lia) Ht Hu). pose proof (b2z_range (f x)). lia.
Qed.

(** ** RWSpinlock *)
Module RWSpinlock.

(** What a thread is doing with the lock. *)
Inductive rw_thread : Type :=
| Idle
| SharedLoaded (write read users : Z)  (** [tryLockShared] before its CAS *)
| Reading
| Ticket (val : Z)                     (** [writeLockAggressive], spinning *)
| Writing
| Unlocking (write read : Z).          (** [unlock] before its store *)

Record rw_state := mkState {
  write : Z;
  read : Z;
  users : Z;
  threads : list rw_thread
}.

Definition rw_init (n : nat) : rw_state := mkState 0 0 0 (replicate n Idle).

(** Thread [i] performs one atomic access. *)
Inductive rw_step : rw_state -> rw_state -> Prop :=
(** [tryLock] (called in a loop by [lock]): [users == write], then CAS. *)
| step_try_lock s i :
    threads s !! i = Some Idle -> u16 (users s) = u16 (write s) ->
    rw_step s (mkState (write s) (read s) (users s + 1) (<[i := Writing]> (threads s)))
(** [writeLockAggressive]: fetch-and-add, then spin until [val == write]. *)
| step_take_ticket s i :
    threads s !! i = Some Idle ->
    rw_step s (mkState (write s) (read s) (users s + 1) (<[i := Ticket (users s)]> (threads s)))
| step_ticket_served s i val :
    threads s !! i = Some (Ticket val) -> u16 val = u16 (write s) ->
    rw_step s (mkState (write s) (read s) (users s) (<[i := Writing]> (threads s)))
(** [tryLockShared] (called in a loop by [lockShared]): load, then CAS from
    [users == read]. *)
| step_shared_load s i :
    threads s !! i = Some Idle ->
    rw_step s (mkState (write s) (read s) (users s)
              (<[i := SharedLoaded (write s) (read s) (users s)]> (threads s)))
| step_shared_cas s i w r u :
    threads s !! i = Some (SharedLoaded w r u) ->
    u16 (write s) = u16 w -> u16 (read s) = u16 r -> u16 (users s) = u16 r ->
    users s < r + 0x10000 ->
    rw_step s (mkState (write s) (r + 1) (u + 1) (<[i := Reading]> (threads s)))
| step_shared_cas_fail s i w r u :
    threads s !! i = Some (SharedLoaded w r u) ->
    rw_step s (mkState (write s) (read s) (users s) (<[i := Idle]> (threads s)))
| step_unlock_shared s i :
    threads s !! i = Some Reading ->
    rw_step s (mkState (write s + 1) (read s) (users s) (<[i := Idle]> (threads s)))
(** [unlock]: load the word, store [read + 1] and [write + 1]. *)
| step_unlock_load s i :
    threads s !! i = Some Writing ->
    rw_step s (mkState (write s) (read s) (users s)
              (<[i := Unlocking (write s) (read s)]> (threads s)))
| step_unlock_store s i w r :
    threads s !! i = Some (Unlocking w r) ->
    rw_step s (mkState (w + 1) (r + 1) (users s) (<[i := Idle]> (threads s)))
| step_downgrade s i :
    threads s !! i = Some Writing ->
    rw_step s (mkState (write s) (read s + 1) (users s) (<[i := Reading]> (threads s))).

Definition is_reader (t : rw_thread) : bool := match t with Reading => true | _ => false end.
Definition is_writer (t : rw_thread) : bool :=
  match t with Writing | Unlocking _ _ => true | _ => false end.
Definition is_ticket (t : rw_thread) : bool := match t with Ticket _ => true | _ => false end.

Definition readers (s : rw_state) : Z := count is_reader (threads s).
Definition writers (s : rw_state) : Z := count is_writer (threads s).
Definition tickets (s : rw_state) : Z := count is_ticket (threads s).

(** [users] counts acquisitions, [write] releases, and [read] the acquisitions
    that are not by a writer still holding or waiting. *)
Record inv (s : rw_state) : Prop := {
  inv_threads : Z.of_nat (length (threads s)) < 0x10000;
  inv_write : users s = write s + readers s + writers s + tickets s;
  inv_read : users s = read s + writers s + tickets s;
  inv_one : writers s <= 1;
  inv_excl : writers s = 1 -> readers s = 0;
  inv_ticket : forall i v, threads s !! i = Some (Ticket v) ->
    users s - tickets s <= v < users s;
  inv_ticket_inj : forall i j v, threads s !! i = Some (Ticket v) ->
    threads s !! j = Some (Ticket v) -> i = j;
  inv_unlocking : forall i w r, threads s !! i = Some (Unlocking w r) ->
    w = write s /\ r = read s;
  inv_loaded : forall i w r u, threads s !! i = Some (SharedLoaded w r u) ->
    r <= read s /\ r <= u <= users s /\ w <= write s
}.

Lemma rw_init_inv n : Z.of_nat n < 0x10000 -> inv (rw_init n).
Proof.
  intros Hn.
  assert (Hc : forall f : rw_thread -> bool, f Idle = false -> count f (replicate n Idle) = 0).
  { intros f Hf. clear Hn. induction n as [|n IH]; [done|]. cbn [replicate].
    by rewrite count_cons, Hf, IH. }
  constructor; unfold readers, writers, tickets; cbn [rw_init threads users write read];
    rewrite ?length_replicate, ?Hc by done; try lia.
  all: intros i *; rewrite lookup_replicate; intros [? _]; done.
Qed.

Ltac count_step :=
  unfold readers, writers, tickets in *; cbn [threads users write read] in *;
  repeat match goal with
  | Hl : threads ?s !! ?i = Some ?o |- context [count ?f (<[?i := ?n]> (threads ?s))] =>
      rewrite (count_insert f (threads s) i o n Hl)
  end; cbn [is_reader is_writer is_ticket b2z] in *.

(** The number of threads bounds how far apart the counters can be. *)
Lemma rw_holders_bound s : inv s -> readers s + writers s + tickets s < 0x10000.
Proof.
  intros Hinv. pose proof (inv_threads _ Hinv) as Hlen. unfold readers, writers, tickets.
  enough (count is_reader (threads s) + count is_writer (threads s) + count is_ticket (threads s)
          <= Z.of_nat (length (threads s))) by lia.
  clear. induction (threads s) as [|t l IH]; [done|]. rewrite !count_cons.
  destruct t; cbn; lia.
Qed.

(** Case analysis on which thread a lookup after a step refers to, and what the
    invariant says of the threads that did not move. *)
Ltac thread_cases :=
  repeat match goal with
  | Hl : <[?i := ?n]> ?l !! ?j = Some ?x |- _ =>
      apply list_lookup_insert_Some in Hl as [(? & ? & _)|[? Hl]]; [try subst j|]
  end; try congruence;
  repeat match goal with
  | He : Ticket _ = Ticket _ |- _ => injection He; clear He; intros; subst
  | He : Unlocking _ _ = Unlocking _ _ |- _ => injection He; clear He; intros; subst
  | He : SharedLoaded _ _ _ = SharedLoaded _ _ _ |- _ => injection He; clear He; intros; subst
  end.

Ltac thread_facts Hinv :=
  try match goal with Hq : threads _ !! ?j = Some (Ticket ?v) |- _ =>
    pose proof (inv_ticket _ Hinv j v Hq); pose proof (count_one is_ticket _ _ _ Hq eq_refl) end;
  try match goal with Hq : threads _ !! ?j = Some (Unlocking ?w ?r) |- _ =>
    pose proof (inv_unlocking _ Hinv j w r Hq);
    pose proof (count_one is_writer _ _ _ Hq eq_refl) end;
  try match goal with Hq : threads _ !! ?j = Some (SharedLoaded ?w ?r ?u) |- _ =>
    pose proof (inv_loaded _ Hinv j w r u Hq) end;
  unfold readers, writers, tickets in *.

Ltac solve_inv Hinv :=
  constructor; count_step; rewrite ?length_insert; try lia;
  intros; thread_cases; thread_facts Hinv; try lia;
  try (by eapply (inv_ticket_inj _ Hinv)).

Section rw_step.
Variable s : rw_state.
Hypothesis Hinv : inv s.

(** The counters of the invariant as linear facts. *)
Lemma inv_facts :
  0 <= readers s /\ 0 <= writers s <= 1 /\ 0 <= tickets s /\
  readers s + writers s + tickets s < 0x10000 /\ (writers s = 1 -> readers s = 0) /\
  users s = write s + readers s + writers s + tickets s /\
  users s = read s + writers s + tickets s.
Proof.
  pose proof (rw_holders_bound s Hinv). pose proof (count_bounds is_reader (threads s)).
  pose proof (count_bounds is_writer (threads s)). pose proof (count_bounds is_ticket (threads s)).
  destruct Hinv. unfold readers, writers, tickets in *. lia.
Qed.

(** Nobody holds or waits when [users == write]. *)
Lemma free_when_equal : u16 (users s) = u16 (write s) ->
  readers s = 0 /\ writers s = 0 /\ tickets s = 0.
Proof. intros Hc. pose proof inv_facts as Hf. clear -Hc Hf. word_lia. Qed.

(** The ticket that is served is the oldest, and nobody holds the lock. *)
Lemma served_when_equal i v : threads s !! i = Some (Ticket v) -> u16 v = u16 (write s) ->
  readers s = 0 /\ writers s = 0 /\ v = users s - tickets s.
Proof.
  intros Hi Hc. pose proof (inv_ticket _ Hinv i v Hi) as Hv. pose proof inv_facts as Hf.
  clear -Hc Hf Hv. word_lia.
Qed.

(** A successful shared CAS happens in the state it loaded. *)
Lemma shared_when_equal i w r u : threads s !! i = Some (SharedLoaded w r u) ->
  u16 (read s) = u16 r -> u16 (users s) = u16 r -> users s < r + 0x10000 ->
  read s = r /\ users s = r /\ u = r /\ writers s = 0 /\ tickets s = 0.
Proof.
  intros Hi Hr Hu Hn. destruct (inv_loaded _ Hinv i w r u Hi) as (Hlr & Hlu & _).
  pose proof inv_facts as Hf. clear -Hr Hu Hn Hlr Hlu Hf. word_lia.
Qed.
End rw_step.

Lemma rw_step_inv s s' : rw_step s s' -> inv s -> inv s'.
Proof.
  intros Hstep Hinv. pose proof (inv_facts s Hinv) as Hf. pose proof (inv_threads _ Hinv) as Hlen.
  destruct Hstep as [s i Hi Hc|s i Hi|s i v Hi Hc|s i Hi|s i w r u Hi Hw Hr Hu Hnear|s i w r u Hi
    |s i Hi|s i Hi|s i w r Hi|s i Hi].
  - pose proof (free_when_equal s Hinv Hc). solve_inv Hinv.
  - solve_inv Hinv.
  - pose proof (served_when_equal s Hinv i v Hi Hc). solve_inv Hinv.
    match goal with Hq : threads s !! ?j = Some (Ticket ?v') |- _ =>
      assert (v' <> v) by (intros ->; pose proof (inv_ticket_inj _ Hinv i j v Hi Hq); congruence) end.
    lia.
  - solve_inv Hinv.
  - destruct (shared_when_equal s Hinv i w r u Hi Hr Hu Hnear) as (Hz1 & Hz2 & -> & Hz3).
    solve_inv Hinv.
  - solve_inv Hinv.
  - pose proof (count_one is_reader _ _ _ Hi eq_refl). solve_inv Hinv.
  - solve_inv Hinv.
  - destruct (inv_unlocking _ Hinv _ _ _ Hi) as [-> ->].
    pose proof (count_one is_writer _ _ _ Hi eq_refl). solve_inv Hinv.
    all: match goal with Hq : threads _ !! ?j = Some (Unlocking _ _) |- _ =>
      pose proof (count_two is_writer _ _ _ _ _ Hi Hq ltac:(done) eq_refl eq_refl) end; lia.
  - pose proof (count_one is_writer _ _ _ Hi eq_refl). solve_inv Hinv.
    all: match goal with Hq : threads _ !! ?j = Some (Unlocking _ _) |- _ =>
      pose proof (count_two is_writer _ _ _ _ _ Hi Hq ltac:(done) eq_refl eq_refl) end; lia.
Qed.

Lemma rw_reachable_inv n s : Z.of_nat n < 0x10000 -> rtc rw_step (rw_init n) s -> inv s.
Proof.
  intros Hn Hrtc. remember (rw_init n) as s0 eqn:He.
  assert (Hinv : inv s0) by (subst; by apply rw_init_inv). clear He.
  induction Hrtc; eauto using rw_step_inv.
Qed.


End RWSpinlock.

(** ** TicketLock *)
Module TicketLock.
Inductive tl_thread : Type := Idle | Waiting (my_ticket : Z) | Holding.

Record tl_state := mkState {
  next_ticket : Z;
  now_serving : Z;
  threads : list tl_thread
}.
Definition tl_init (n : nat) : tl_state := mkState 0 0 (replicate n Idle).

Inductive tl_step : tl_state -> tl_state -> Prop :=
| step_take s i :
    threads s !! i = Some Idle ->
    tl_step s (mkState (next_ticket s + 1) (now_serving s)
              (<[i := Waiting (next_ticket s)]> (threads s)))
| step_served s i my_ticket :
    threads s !! i = Some (Waiting my_ticket) -> i32 (now_serving s) = i32 my_ticket ->
    tl_step s (mkState (next_ticket s) (now_serving s) (<[i := Holding]> (threads s)))
| step_unlock s i :
    threads s !! i = Some Holding ->
    tl_step s (mkState (next_ticket s) (now_serving s + 1) (<[i := Idle]> (threads s))).

Definition is_waiting (t : tl_thread) : bool := match t with Waiting _ => true | _ => false end.
Definition is_holding (t : tl_thread) : bool := match t with Holding => true | _ => false end.

(** Tickets [now_serving, next_ticket) are out: one per waiting or holding
    thread, the holder's being [now_serving]. *)
Record inv (s : tl_state) : Prop := {
  inv_threads : Z.of_nat (length (threads s)) < 0x100000000;
  inv_count : next_ticket s =
    now_serving s + count is_waiting (threads s) + count is_holding (threads s);
  inv_one : count is_holding (threads s) <= 1;
  inv_ticket : forall i v, threads s !! i = Some (Waiting v) ->
    now_serving s + count is_holding (threads s) <= v < next_ticket s;
  inv_inj : forall i j v, threads s !! i = Some (Waiting v) ->
    threads s !! j = Some (Waiting v) -> i = j
}.

Lemma tl_init_inv n : Z.of_nat n < 0x100000000 -> inv (tl_init n).
Proof.
  intros Hn.
  assert (Hc : forall f : tl_thread -> bool, f Idle = false -> count f (replicate n Idle) = 0).
  { intros f Hf. clear Hn. induction n as [|n IH]; [done|]. cbn [replicate].
    by rewrite count_cons, Hf, IH. }
  constructor; cbn [tl_init threads next_ticket now_serving];
    rewrite ?length_replicate, ?Hc by done; try lia.
  all: intros i *; rewrite lookup_replicate; intros [? _]; done.
Qed.

Lemma tl_holders_bound s :
  count is_waiting (threads s) + count is_holding (threads s) <= Z.of_nat (length (threads s)).
Proof.
  induction (threads s) as [|t l IH]; [done|]. rewrite !count_cons. destruct t; cbn; lia.
Qed.

Ltac solve_inv Hinv :=
  constructor; cbn [threads next_ticket now_serving];
  repeat match goal with
  | Hl : threads ?s !! ?i = Some ?o |- context [count ?f (<[?i := ?n]> (threads ?s))] =>
      rewrite (count_insert f (threads s) i o n Hl)
  end; cbn [is_waiting is_holding b2z]; rewrite ?length_insert; try lia;
  intros;
  repeat match goal with
  | Hl : <[?i := ?n]> ?l !! ?j = Some ?x |- _ =>
      apply list_lookup_insert_Some in Hl as [(? & ? & _)|[? Hl]]; [try subst j|]
  end; try congruence;
  repeat match goal with
  | He : Waiting _ = Waiting _ |- _ => injection He; clear He; intros; subst
  end;
  try match goal with Hq : threads _ !! ?j = Some (Waiting ?v) |- _ =>
    pose proof (inv_ticket _ Hinv j v Hq) end; try lia;
  try (by eapply (inv_inj _ Hinv)).

Lemma served_facts s i v :
  inv s -> threads s !! i = Some (Waiting v) -> i32 (now_serving s) = i32 v ->
  v = now_serving s /\ count is_holding (threads s) = 0.
Proof.
  intros Hinv Hi Hc. pose proof (inv_ticket _ Hinv i v Hi) as Hv.
  pose proof (inv_count _ Hinv) as Hn. pose proof (tl_holders_bound s) as Hb.
  pose proof (inv_threads _ Hinv) as Hl. pose proof (count_bounds is_holding (threads s)) as HH.
  clear -Hc Hv Hn Hb Hl HH. word_lia.
Qed.

Lemma tl_step_inv s s' : tl_step s s' -> inv s -> inv s'.
Proof.
  intros Hstep Hinv. pose proof (inv_count _ Hinv). pose proof (inv_one _ Hinv).
  pose proof (inv_threads _ Hinv). pose proof (count_bounds is_holding (threads s)).
  pose proof (count_bounds is_waiting (threads s)).
  destruct Hstep as [s i Hi|s i v Hi Hc|s i Hi].
  - solve_inv Hinv.
  - destruct (served_facts s i v Hinv Hi Hc) as [-> Hz]. solve_inv Hinv.
    match goal with Hq : threads s !! ?j = Some (Waiting ?v') |- _ =>
      assert (v' <> now_serving s)
        by (intros ->; pose proof (inv_inj _ Hinv i j _ Hi Hq); congruence) end. lia.
  - pose proof (count_one is_holding _ _ _ Hi eq_refl). solve_inv Hinv.
Qed.

Lemma tl_reachable_inv n s : Z.of_nat n < 0x100000000 -> rtc tl_step (tl_init n) s -> inv s.
Proof.
  intros Hn Hrtc. remember (tl_init n) as s0 eqn:He.
  assert (Hinv : inv s0) by (subst; by apply tl_init_inv). clear He.
  induction Hrtc; eauto using tl_step_inv.
Qed.

(** [C30] TicketLock mutual exclusion and fairness.  For fewer than 2^32 threads,
    at most one thread holds the lock in any reachable state, and when a waiting
    thread is let in, every other waiting thread's ticket is later: the lock is
    granted in the order of the tickets, across the wrap of the 32-bit
    counters. *)
Theorem ticketlock_fair_exclusion n s i j :
  Z.of_nat n < 0x100000000 -> rtc tl_step (tl_init n) s -> i <> j ->
  ~ (threads s !! i = Some Holding /\ threads s !! j = Some Holding) /\
  (forall v w, threads s !! i = Some (Waiting v) -> threads s !! j = Some (Waiting w) ->
     i32 (now_serving s) = i32 v -> v < w).
Proof.
  intros Hn Hrtc Hij. pose proof (tl_reachable_inv n s Hn Hrtc) as Hinv. split.
  - intros [Hi Hj]. pose proof (count_two is_holding _ _ _ _ _ Hi Hj Hij eq_refl eq_refl).
    pose proof (inv_one _ Hinv). lia.
  - intros v w Hi Hj Hc. destruct (served_facts s i v Hinv Hi Hc) as [-> Hz].
    pose proof (inv_ticket _ Hinv j w Hj) as Hw.
    assert (w <> now_serving s) by (intros ->; by apply Hij, (inv_inj _ Hinv i j (now_serving s))).
    lia.
Qed.

Lemma ticketlock_fair_exclusion_witness :
  rtc tl_step (tl_init 2) (mkState 2 0 [Waiting 0; Waiting 1]) /\ 0 < 1.
Proof.
  assert (Hrtc : rtc tl_step (tl_init 2) (mkState 2 0 [Waiting 0; Waiting 1])).
  { eapply rtc_l; [apply (step_take (tl_init 2) 0); reflexivity|].
    apply rtc_once, (step_take (mkState 1 0 [Waiting 0; Idle]) 1). reflexivity. }
  split; [exact Hrtc|].
  exact (proj2 (ticketlock_fair_exclusion 2 _ 0 1 ltac:(lia) Hrtc ltac:(lia)) 0 1
    eq_refl eq_refl eq_refl).
Defined.
End TicketLock.

(** ** SimpleRandom *)
Module SimpleRandom.
Definition a : Z := 1664525.
Definition c : Z := 1013904223.
Definition m : Z := 0xFFFFFFFF.

(** [next()] returns the new state. *)
Definition next (current : Z) : Z := (u32 (a * current + c)) mod m.

(** [next(max)]: the value and the new state; [max == 0] divides by zero. *)
Definition next_max (current max : Z) : outcome (Z * Z) :=
  if max =? 0 then Trap TrapDivZero else Ok (next current mod max, next current).

Lemma next_range current : is_u32 (next current).
Proof.
  unfold next, m. pose proof (Z.mod_pos_bound (u32 (a * current + c)) 0xFFFFFFFF ltac:(lia)).
  word_unfold. lia.
Qed.
End SimpleRandom.
