(* ===== verification/MemoryRegions.v ===== *)
(** * Registered memory regions

    Models the memory-region table of [RdmaContext]
    (src/protocols/common/rdma_context.{h,cpp}): [registerMemoryRegion],
    [unregisterMemoryRegion] and [key].

    [ibv_reg_mr] and [ibv_dereg_mr] belong to libibverbs: they are arguments,
    and the hypothesis [reg_mr_spec] is their documented behaviour that a region
    returned by [ibv_reg_mr] has the address and length asked for.  Addresses
    are those of objects of the process, so [addr + length] does not wrap. *)

From S2P Require Import Prelude.

Record ibv_mr := mkMr {
  mr_addr : Z;
  mr_length : Z;
  mr_lkey : Z;
  mr_rkey : Z
}.

(** The test of [registerMemoryRegion] against one registered region. *)
Definition mr_overlaps (entry : ibv_mr) (addr length : Z) : bool :=
  let start_overlapped :=
    (mr_addr entry <=? addr) && (addr <? mr_addr entry + mr_length entry) in
  let end_overlapped :=
    (mr_addr entry <? addr + length) &&
    (addr + length <=? mr_addr entry + mr_length entry) in
  let covered :=
    (addr <=? mr_addr entry) && (mr_addr entry + mr_length entry <=? addr + length) in
  start_overlapped || end_overlapped || covered.

(** Whether [addr] lies in a region: the test of [unregisterMemoryRegion] and
    [key]. *)
Definition mr_contains (addr : Z) (entry : ibv_mr) : bool :=
  (mr_addr entry <=? addr) && (addr <? mr_addr entry + mr_length entry).

(** The first half of [registerMemoryRegion], under the read lock. *)
Definition registerMemoryRegion_check (list_ : list ibv_mr) (addr length : Z) : bool :=
  existsb (fun entry => mr_overlaps entry addr length) list_.

Section verbs.
Variable ibv_reg_mr : Z -> Z -> Z -> option ibv_mr.
Variable ibv_dereg_mr : ibv_mr -> Z.

(** The second half: [ibv_reg_mr], then insertion under the write lock. *)
Definition registerMemoryRegion_insert (list_ : list ibv_mr) (addr length access : Z)
  : Z * list ibv_mr :=
  match ibv_reg_mr addr length access with
  | None => (ERR, list_)
  | Some mr => (0, list_ ++ [mr])
  end.

Definition RdmaContext_registerMemoryRegion (list_ : list ibv_mr) (addr length access : Z)
  : Z * list ibv_mr :=
  if registerMemoryRegion_check list_ addr length then (ERR, list_)
  else registerMemoryRegion_insert list_ addr length access.

(** One pass of the do-while loop: deregister and erase the first region that
    contains [addr]; [None] if there is none. *)
Fixpoint unregister_pass (addr : Z) (list_ : list ibv_mr) : option (Z * list ibv_mr) :=
  match list_ with
  | [] => None
  | entry :: rest =>
      if mr_contains addr entry
      then if negb (ibv_dereg_mr entry =? 0) then Some (ERR, list_) else Some (0, rest)
      else match unregister_pass addr rest with
           | Some (rc, rest') => Some (rc, entry :: rest')
           | None => None
           end
  end.

Fixpoint unregister_loop (fuel : nat) (addr : Z) (list_ : list ibv_mr)
  : outcome (Z * list ibv_mr) :=
  match fuel with
  | O => Trap TrapFuel
  | S fuel =>
      match unregister_pass addr list_ with
      | None => Ok (0, list_)
      | Some (rc, list') =>
          if negb (rc =? 0) then Ok (ERR, list') else unregister_loop fuel addr list'
      end
  end.
Definition RdmaContext_unregisterMemoryRegion (list_ : list ibv_mr) (addr : Z)
  : outcome (Z * list ibv_mr) :=
  unregister_loop (S (length list_)) addr list_.

Definition RdmaContext_key (list_ : list ibv_mr) (addr : Z) : Z * Z :=
  match List.find (mr_contains addr) list_ with
  | Some mr => (mr_lkey mr, mr_rkey mr)
  | None => (0, 0)
  end.

End verbs.

(** ** Specification *)
Definition mr_in (addr : Z) (mr : ibv_mr) : Prop :=
  mr_addr mr <= addr < mr_addr mr + mr_length mr.

Definition mr_apart (a b : ibv_mr) : Prop :=
  mr_addr a + mr_length a <= mr_addr b \/ mr_addr b + mr_length b <= mr_addr a.

(** Nonempty regions, pairwise disjoint. *)
Definition regions_ok (l : list ibv_mr) : Prop :=
  Forall (fun mr => 0 < mr_length mr) l /\
  forall i j a b, l !! i = Some a -> l !! j = Some b -> i <> j -> mr_apart a b.

Lemma mr_contains_spec addr mr : mr_contains addr mr = true <-> mr_in addr mr.
Proof. unfold mr_contains, mr_in. lia. Qed.

(** On nonempty ranges the three-way test is exactly intersection. *)
Lemma mr_overlaps_spec entry addr len :
  0 < mr_length entry -> 0 < len ->
  mr_overlaps entry addr len = true <->
  exists x, mr_in x entry /\ addr <= x < addr + len.
Proof.
  intros He Hl. unfold mr_overlaps, mr_in. split.
  - intros H. exists (Z.max addr (mr_addr entry)). lia.
  - intros (x & Hx & Hy). lia.
Qed.

Lemma regions_ok_sublist l1 a l2 : regions_ok (l1 ++ a :: l2) -> regions_ok (l1 ++ l2).
Proof.
  intros [Hf Hd]. split; [rewrite Forall_app, Forall_cons in Hf; apply Forall_app; tauto|].
  assert (Hmap : forall k x, (l1 ++ l2) !! k = Some x -> exists k',
            (l1 ++ a :: l2) !! k' = Some x /\ k' = (if decide (k < length l1)%nat then k else S k)).
  { intros k x Hk. destruct (decide (k < length l1)%nat) as [Hlt|Hge].
    - exists k. split; [|done]. rewrite lookup_app_l in Hk |- * by done. done.
    - exists (S k). split; [|done]. rewrite lookup_app_r in Hk by lia.
      rewrite lookup_app_r by lia. replace (S k - length l1)%nat with (S (k - length l1)) by lia.
      done. }
  intros i j x y Hi Hj Hij.
  destruct (Hmap i x Hi) as (i' & Hi' & Ei). destruct (Hmap j y Hj) as (j' & Hj' & Ej).
  apply (Hd i' j' x y Hi' Hj'). subst. repeat case_decide; lia.
Qed.

Lemma regions_ok_snoc l mr :
  regions_ok l -> 0 < mr_length mr -> (forall a, a ∈ l -> mr_apart a mr) -> regions_ok (l ++ [mr]).
Proof.
  intros [Hf Hd] Hl Hap. split; [apply Forall_app; split; [done|by repeat constructor]|].
  intros i j a b Hi Hj Hij. apply lookup_snoc_Some in Hi, Hj.
  destruct Hi as [[_ Hi]|[-> <-]]; destruct Hj as [[_ Hj]|[-> <-]].
  - by apply (Hd i j).
  - by apply Hap, list_elem_of_lookup_2 with i.
  - assert (Hs : mr_apart b mr) by (by apply Hap, list_elem_of_lookup_2 with j).
    unfold mr_apart in *. tauto.
  - lia.
Qed.

Section unregister.
Variable ibv_dereg_mr : ibv_mr -> Z.

Lemma unregister_pass_spec addr l :
  match unregister_pass ibv_dereg_mr addr l with
  | None => forall mr, mr ∈ l -> ~ mr_in addr mr
  | Some (rc, l') => exists l1 a l2, l = l1 ++ a :: l2 /\ mr_in addr a /\
      ((rc = 0 /\ l' = l1 ++ l2) \/ (rc = ERR /\ l' = l /\ ibv_dereg_mr a <> 0))
  end.
Proof.
  induction l as [|a l IH]; cbn; [set_solver|].
  destruct (mr_contains addr a) eqn:Hc.
  - apply mr_contains_spec in Hc. destruct (ibv_dereg_mr a =? 0) eqn:Hd; cbn;
      exists [], a, l; split_and!; try done; [by left|right; split_and!; done || lia].
  - destruct (unregister_pass ibv_dereg_mr addr l) as [[rc l']|].
    + destruct IH as (l1 & b & l2 & -> & Hin & Hcase). exists (a :: l1), b, l2.
      split_and!; try done. destruct Hcase as [[-> ->]|(-> & -> & ?)]; [by left|by right].
    + intros mr [->|Hmr]%elem_of_cons; [|by apply IH]. rewrite <- mr_contains_spec. congruence.
Qed.

(** The loop removes one region per pass: its bound is enough. *)
Lemma unregister_loop_spec fuel addr : forall l,
  (length l < fuel)%nat -> regions_ok l ->
  exists rc l', unregister_loop ibv_dereg_mr fuel addr l = Ok (rc, l') /\ regions_ok l' /\ l' ⊆ l /\
    (rc = 0 -> (forall mr, mr ∈ l' <-> mr ∈ l /\ ~ mr_in addr mr)).
Proof.
  induction fuel as [|fuel IH]; intros l Hf Hok; [lia|]. cbn.
  pose proof (unregister_pass_spec addr l) as Hp.
  destruct (unregister_pass ibv_dereg_mr addr l) as [[rc l1]|].
  - destruct Hp as (la & a & lb & -> & Hin & [[-> ->]|(-> & -> & Hd)]); cbn.
    + destruct (IH (la ++ lb)) as (rc & l' & Hrun & Hok' & Hsub & Hex).
      * rewrite !length_app in *. cbn in Hf. lia.
      * by apply regions_ok_sublist in Hok.
      * exists rc, l'. split_and!; try done; [set_solver|]. intros Hrc mr.
        rewrite (Hex Hrc). set_solver.
    + eexists _, _. split_and!; done.
  - exists 0, l. split_and!; try done. intros _ mr. split; [|tauto]. intros Hmr. by split; [|apply Hp].
Qed.
End unregister.

(** What the process does with the table. *)
Inductive mr_op : Type :=
| MrRegister (addr length access : Z)
| MrUnregister (addr : Z).

Definition mr_run_op (reg : Z -> Z -> Z -> option ibv_mr) (dereg : ibv_mr -> Z) (op : mr_op)
    (l : list ibv_mr) : outcome (list ibv_mr) :=
  match op with
  | MrRegister a n acc => Ok (snd (RdmaContext_registerMemoryRegion reg l a n acc))
  | MrUnregister a => '(_, l') ← RdmaContext_unregisterMemoryRegion dereg l a; Ok l'
  end.

Fixpoint mr_run (reg : Z -> Z -> Z -> option ibv_mr) (dereg : ibv_mr -> Z) (ops : list mr_op)
    (l : list ibv_mr) : outcome (list ibv_mr) :=
  match ops with
  | [] => Ok l
  | op :: ops => l' ← mr_run_op reg dereg op l; mr_run reg dereg ops l'
  end.

Section safety.
Variable ibv_reg_mr : Z -> Z -> Z -> option ibv_mr.
Variable ibv_dereg_mr : ibv_mr -> Z.
Hypothesis reg_mr_spec : forall a n acc mr,
  ibv_reg_mr a n acc = Some mr -> mr_addr mr = a /\ mr_length mr = n.

Lemma register_ok l a n acc :
  regions_ok l -> 0 < n ->
  regions_ok (snd (RdmaContext_registerMemoryRegion ibv_reg_mr l a n acc)).
Proof using reg_mr_spec.
  intros Hok Hn. unfold RdmaContext_registerMemoryRegion, registerMemoryRegion_insert.
  destruct (registerMemoryRegion_check l a n) eqn:Hc; [done|].
  destruct (ibv_reg_mr a n acc) as [mr|] eqn:Hr; [|done]. cbn.
  destruct (reg_mr_spec _ _ _ _ Hr) as [Ha Hl]. apply regions_ok_snoc; [done|lia|].
  intros b Hb. pose proof (proj1 Hok) as Hf. rewrite Forall_forall in Hf.
  pose proof (Hf b Hb) as Hbl. destruct (mr_overlaps b a n) eqn:Ho.
  - exfalso. unfold registerMemoryRegion_check in Hc.
    apply not_true_iff_false in Hc. apply Hc, existsb_exists.
    exists b. split; [by apply list_elem_of_In|done].
  - unfold mr_overlaps in Ho. unfold mr_apart. lia.
Qed.

(** [C28] Registered regions stay disjoint.  Any sequence of registrations of
    nonempty ranges (successful or not) and deregistrations terminates and
    leaves pairwise disjoint regions; so an address lies in at most one region
    and [key] returns that region's keys, or {0, 0} when the address is in
    none. *)
Theorem memory_regions_disjoint ops :
  Forall (fun op => match op with MrRegister _ n _ => 0 < n | _ => True end) ops ->
  exists l, mr_run ibv_reg_mr ibv_dereg_mr ops [] = Ok l /\ regions_ok l /\
    (forall addr mr, mr ∈ l -> mr_in addr mr -> RdmaContext_key l addr = (mr_lkey mr, mr_rkey mr)) /\
    (forall addr, (forall mr, mr ∈ l -> ~ mr_in addr mr) -> RdmaContext_key l addr = (0, 0)).
Proof using reg_mr_spec.
  intros Hops.
  assert (Hrun : forall l, regions_ok l ->
            exists l', mr_run ibv_reg_mr ibv_dereg_mr ops l = Ok l' /\ regions_ok l').
  { induction Hops as [|op ops Hop _ IH]; intros l Hok; [by exists l|].
    destruct op as [a n acc|a]; cbn [mr_run mr_run_op mbind outcome_bind].
    - apply IH. by apply register_ok.
    - destruct (unregister_loop_spec ibv_dereg_mr (S (length l)) a l ltac:(lia) Hok)
        as (rc & l' & Hl & Hok' & _).
      unfold RdmaContext_unregisterMemoryRegion. rewrite Hl.
      cbn [mbind outcome_bind]. by apply IH. }
  destruct (Hrun []) as (l & Hl & Hok); [split; [constructor|done]|].
  exists l. split; [done|]. split; [done|]. unfold RdmaContext_key. split.
  - intros addr mr Hmr Hin. destruct (List.find (mr_contains addr) l) as [b|] eqn:Hf.
    + apply List.find_some in Hf as [Hb Hc]. apply list_elem_of_In in Hb.
      apply mr_contains_spec in Hc. apply list_elem_of_lookup in Hmr as [i Hi].
      apply list_elem_of_lookup in Hb as [j Hj]. destruct (decide (i = j)) as [->|Hij].
      * congruence.
      * pose proof (proj2 Hok i j _ _ Hi Hj Hij). unfold mr_apart, mr_in in *. lia.
    + exfalso. apply mr_contains_spec in Hin.
      rewrite (List.find_none _ _ Hf mr) in Hin; [done|by apply list_elem_of_In].
  - intros addr Hno. destruct (List.find (mr_contains addr) l) as [b|] eqn:Hf; [|done].
    apply List.find_some in Hf as [Hb Hc]. apply list_elem_of_In in Hb.
    apply mr_contains_spec in Hc. by apply Hno in Hc.
Qed.
End safety.

(** A NIC that accepts every region and gives it its address as key. *)
Definition demo_reg_mr (a n acc : Z) : option ibv_mr := Some (mkMr a n a a).

Lemma memory_regions_disjoint_witness : exists l,
  mr_run demo_reg_mr (fun _ => 0) [MrRegister 4096 100 1; MrRegister 4100 8 1;
    MrRegister 8192 10 1; MrUnregister 4099] [] = Ok l /\ regions_ok l /\
  RdmaContext_key l 8195 = (8192, 8192).
Proof.
  destruct (memory_regions_disjoint demo_reg_mr (fun _ => 0)
    ltac:(intros a n acc mr [= <-]; done)
    [MrRegister 4096 100 1; MrRegister 4100 8 1; MrRegister 8192 10 1; MrUnregister 4099])
    as (l & Hrun & Hok & Hkey & _).
  - repeat constructor; lia.
  - exists l. split; [exact Hrun|]. split; [exact Hok|]. injection Hrun as <-. reflexivity.
Defined.

(** The check and the insertion of [registerMemoryRegion] are separate
    critical sections.  When two threads interleave, each checking before either
    inserts, both overlapping registrations succeed and [key] can return the
    keys of a region that does not cover the buffer. *)
Theorem register_check_then_insert_race a1 n1 a2 n2 acc :
  0 < n1 -> 0 < n2 -> a1 <= a2 < a1 + n1 -> a1 <> a2 ->
  let check l a n := registerMemoryRegion_check l a n in
  let insert l a n := registerMemoryRegion_insert demo_reg_mr l a n acc in
  check [] a1 n1 = false /\ check [] a2 n2 = false /\
  let l1 := snd (insert [] a1 n1) in
  let l2 := snd (insert l1 a2 n2) in
  fst (insert [] a1 n1) = 0 /\ fst (insert l1 a2 n2) = 0 /\ ~ regions_ok l2 /\
  RdmaContext_key l2 a2 = (a1, a1).
Proof.
  intros H1 H2 Ha Hne. cbn. split_and!; try done.
  - intros [_ Hd]. pose proof (Hd 0%nat 1%nat _ _ eq_refl eq_refl ltac:(lia)) as Hap.
    unfold mr_apart in Hap. cbn in Hap. lia.
  - unfold RdmaContext_key. cbn. unfold mr_contains. cbn.
    by rewrite (proj2 (Z.leb_le _ _)), (proj2 (Z.ltb_lt _ _)) by lia.
Qed.

Lemma register_check_then_insert_race_witness :
  ~ regions_ok [mkMr 4096 100 4096 4096; mkMr 4100 8 4100 4100].
Proof.
  exact (proj1 (proj2 (proj2 (proj2 (proj2
    (register_check_then_insert_race 4096 100 4100 8 1
       ltac:(lia) ltac:(lia) ltac:(lia) ltac:(lia))))))).
Defined.
