(* ===== verification/Device.v ===== *)
(** * Opening and closing a device

    Models the life cycle of [RdmaContext]
    (src/protocols/common/rdma_context.{h,cpp}): [construct], [openRdmaDevice],
    [joinNonblockingPollList], [deconstruct] and the destructor, as operations on
    the resources of the process: the list of devices, the device context, the
    protection domain, completion channels, the epoll descriptor and completion
    queues.

    libibverbs, libc and the devices present are parameters: whether each call
    succeeds, the names of the devices and the attributes of a port.  A call that
    creates a resource returns a handle that is not in use; releasing a resource
    that is open succeeds (the code only logs a failure). *)

From S2P Require Import Prelude MemoryRegions.

(** The calls [construct] makes, and those that create, configure and destroy queue
    pairs on the device (Lifecycle.v).  [PortActive] is the state a successful
    [ibv_query_port] reports. *)
Inductive polled_fd : Type := AsyncFd | ChannelFd (i : nat).
Inductive verb : Type :=
| GetDeviceList | OpenDevice | QueryPort | PortActive | QueryDevice | QueryGid
| AllocPd | CreateChannel (i : nat) | EpollCreate
| FcntlGetfl (fd : polled_fd) | FcntlSetfl (fd : polled_fd) | EpollAdd (fd : polled_fd)
| CreateCq (i : nat)
| CreateQp (i : nat) | ModifyQp (i step : nat) | DestroyQp (i : nat).

(** The process: open resources, the next handle, and how many times a resource
    that is not open was released. *)
Record os := mkOs { os_live : gset Z; os_next : Z; os_bad_release : nat }.
#[export] Instance os_fields : Fields os := mkFields (fun o =>
  mkOs (os_live o) (os_next o) (os_bad_release o)).

Definition os_release (h : Z) (o : os) : os :=
  if decide (h ∈ os_live o) then o <| os_live := os_live o ∖ {[h]} |>
  else o <| os_bad_release := S (os_bad_release o) |>.

(** A call [v] that creates a resource; [ok]: which calls succeed. *)
Definition os_acquire {V : Type} (ok : V -> bool) (v : V) (o : os) : option Z * os :=
  if ok v
  then (Some (os_next o), o <| os_live := {[os_next o]} ∪ os_live o |> <| os_next := os_next o + 1 |>)
  else (None, o).

(** A null pointer and the descriptor -1 are [None]. *)
Record RdmaContext := mkRdmaContext {
  rx_device_name : string;
  rx_context : option Z;
  rx_pd : option Z;
  rx_event_fd : option Z;
  rx_num_comp_channel : nat;
  rx_comp_channel : option (list (option Z));
  rx_port : Z;
  rx_lid : Z;
  rx_gid_index : Z;
  rx_active_speed : Z;
  rx_active_mtu : Z;
  rx_gid : list Z;
  rx_memory_region_list : list ibv_mr;
  rx_cq_list : list (option Z);
  rx_next_comp_channel_index : Z;
  rx_next_comp_vector_index : Z
}.
#[export] Instance RdmaContext_fields : Fields RdmaContext := mkFields (fun c =>
  mkRdmaContext (rx_device_name c) (rx_context c) (rx_pd c) (rx_event_fd c) (rx_num_comp_channel c)
    (rx_comp_channel c) (rx_port c) (rx_lid c) (rx_gid_index c) (rx_active_speed c)
    (rx_active_mtu c) (rx_gid c) (rx_memory_region_list c) (rx_cq_list c)
    (rx_next_comp_channel_index c) (rx_next_comp_vector_index c)).
Definition RdmaContext_ctor : RdmaContext :=
  mkRdmaContext "" None None None 0 None 0 0 (-1) (-1) 0 [] [] [] 0 0.

Section verbs.
Variable ok : verb -> bool.
Variable devices : list string.
Variable query_port : Z -> Z * Z * Z.
Variable query_gid : Z -> Z -> list Z.
Variable num_comp_vectors : Z.

(** ** [openRdmaDevice] *)

(** The body of the loop for the device whose name matches: the handle of the
    device, or nothing when a query failed, the device being closed again. *)
Definition open_matching (o : os) : option Z * os :=
  let '(context, o1) := os_acquire ok OpenDevice o in
  match context with
  | None => (None, o1)
  | Some h =>
      if negb (ok QueryPort) then (None, os_release h o1)
      else if negb (ok PortActive) then (None, os_release h o1)
      else if negb (ok QueryDevice) then (None, os_release h o1)
      else if negb (ok QueryGid) then (None, os_release h o1)
      else (Some h, o1)
  end.

(** Every return after the first check frees the list of devices. *)
Definition RdmaContext_openRdmaDevice (c : RdmaContext) (device_name : string) (port gid_index : Z)
    (o : os) : Z * RdmaContext * os :=
  let '(list, o1) := os_acquire ok GetDeviceList o in
  match list with
  | None => (ERR, c, o1)
  | Some list =>
      match devices with
      | [] => (ERR, c, o1)
      | _ =>
          if negb (bool_decide (device_name ∈ devices)) then (ERR, c, os_release list o1)
          else
            match open_matching o1 with
            | (None, o2) => (ERR, c, os_release list o2)
            | (Some context, o2) =>
                let '(lid, mtu, speed) := query_port port in
                (0, c <| rx_context := Some context |> <| rx_port := port |> <| rx_lid := lid |>
                      <| rx_active_mtu := mtu |> <| rx_active_speed := speed |>
                      <| rx_gid := query_gid port gid_index |> <| rx_gid_index := gid_index |>,
                 os_release list o2)
            end
      end
  end.

(** ** [construct] *)

(** [joinNonblockingPollList]: a descriptor that cannot be added closes the epoll
    descriptor. *)
Definition RdmaContext_joinNonblockingPollList (event_fd : Z) (data_fd : polled_fd) (o : os)
  : Z * os :=
  if negb (ok (FcntlGetfl data_fd)) then (ERR, o)
  else if negb (ok (FcntlSetfl data_fd)) then (ERR, o)
  else if negb (ok (EpollAdd data_fd)) then (ERR, os_release event_fd o)
  else (0, o).

(** The loop that creates completion channels [i], ..., [i + n - 1]. *)
Fixpoint create_channels (n i : nat) (o : os) : bool * list (option Z) * os :=
  match n with
  | O => (true, [], o)
  | S n =>
      let '(h, o1) := os_acquire ok (CreateChannel i) o in
      match h with
      | None => (false, replicate (S n) None, o1)
      | Some _ => let '(r, l, o2) := create_channels n (S i) o1 in (r, h :: l, o2)
      end
  end.
Fixpoint join_channels (event_fd : Z) (n i : nat) (o : os) : Z * os :=
  match n with
  | O => (0, o)
  | S n =>
      let '(r, o1) := RdmaContext_joinNonblockingPollList event_fd (ChannelFd i) o in
      if negb (r =? 0) then (r, o1) else join_channels event_fd n (S i) o1
  end.

(** [compChannel] and [compVector]: round robin.  The first is the index of the
    channel. *)
Definition RdmaContext_compChannel (c : RdmaContext) : outcome (option Z * RdmaContext) :=
  if Nat.eqb (rx_num_comp_channel c) 0 then Trap TrapDivZero
  else
    let index := i32 (u64 (rx_next_comp_channel_index c) mod Z.of_nat (rx_num_comp_channel c)) in
    channels ← (match rx_comp_channel c with Some l => Ok l | None => Trap TrapNull end);
    h ← vec_at channels (Z.to_nat index);
    Ok (h, c <| rx_next_comp_channel_index := i32 (rx_next_comp_channel_index c + 1) |>).
Definition RdmaContext_compVector (c : RdmaContext) : outcome (Z * RdmaContext) :=
  if num_comp_vectors =? 0 then Trap TrapDivZero
  else Ok (Z.rem (rx_next_comp_vector_index c) num_comp_vectors,
           c <| rx_next_comp_vector_index := i32 (rx_next_comp_vector_index c + 1) |>).

(** The loop that fills completion queues [i], ..., [i + n - 1] of [cq_list_]. *)
Fixpoint create_cqs (n i : nat) (c : RdmaContext) (o : os) : outcome (Z * RdmaContext * os) :=
  match n with
  | O => Ok (0, c, o)
  | S n =>
      '(_, c1) ← RdmaContext_compChannel c;
      '(_, c2) ← RdmaContext_compVector c1;
      let '(h, o1) := os_acquire ok (CreateCq i) o in
      let c3 := c2 <| rx_cq_list := <[i := h]> (rx_cq_list c2) |> in
      match h with
      | None => Ok (ERR, c3, o1)
      | Some _ => create_cqs n (S i) c3 o1
      end
  end.

Definition RdmaContext_construct (c : RdmaContext) (device_name : string) (rdma_port gid_index : Z)
    (o : os) : outcome (Z * RdmaContext * os) :=
  let c1 := c <| rx_device_name := device_name |> <| rx_num_comp_channel := 1%nat |> in
  let '(ret, c2, o2) := RdmaContext_openRdmaDevice c1 device_name rdma_port gid_index o in
  if negb (ret =? 0) then Ok (ERR, c2, o2)
  else
    let '(pd, o3) := os_acquire ok AllocPd o2 in
    let c3 := c2 <| rx_pd := pd |> in
    match pd with
    | None => Ok (ERR, c3, o3)
    | Some _ =>
        let '(created, channels, o4) := create_channels (rx_num_comp_channel c3) 0 o3 in
        let c4 := c3 <| rx_comp_channel := Some channels |> in
        if negb created then Ok (ERR, c4, o4)
        else
          let '(fd, o5) := os_acquire ok EpollCreate o4 in
          let c5 := c4 <| rx_event_fd := fd |> in
          match fd with
          | None => Ok (ERR, c5, o5)
          | Some event_fd =>
              let '(r6, o6) := RdmaContext_joinNonblockingPollList event_fd AsyncFd o5 in
              if negb (r6 =? 0) then Ok (ERR, c5, o6)
              else
                let '(r7, o7) := join_channels event_fd (rx_num_comp_channel c5) 0 o6 in
                if negb (r7 =? 0) then Ok (ERR, c5, o7)
                else create_cqs 2 0 (c5 <| rx_cq_list := replicate 2 None |>) o7
          end
    end.

(** ** [deconstruct] *)

(** The loop over the completion queues: destroying a null one is a null access. *)
Fixpoint destroy_cqs (l : list (option Z)) (o : os) : outcome os :=
  match l with
  | [] => Ok o
  | None :: _ => Trap TrapNull
  | Some h :: l => destroy_cqs l (os_release h o)
  end.
Definition release_opt (h : option Z) (o : os) : os :=
  match h with Some h => os_release h o | None => o end.

Definition RdmaContext_deconstruct (c : RdmaContext) (o : os) : outcome (Z * RdmaContext * os) :=
  let c1 := c <| rx_memory_region_list := [] |> in
  o2 ← destroy_cqs (rx_cq_list c1) o;
  let c2 := c1 <| rx_cq_list := [] |> in
  let o3 := release_opt (rx_event_fd c2) o2 in
  let c3 := c2 <| rx_event_fd := None |> in
  let o4 := match rx_comp_channel c3 with
            | Some l => foldl (fun o h => release_opt h o) o3 (take (rx_num_comp_channel c3) l)
            | None => o3
            end in
  let c4 := c3 <| rx_comp_channel := None |> in
  let o5 := release_opt (rx_pd c4) o4 in
  let c5 := c4 <| rx_pd := None |> in
  let o6 := release_opt (rx_context c5) o5 in
  Ok (0, c5 <| rx_context := None |>, o6).

Definition RdmaContext_dtor (c : RdmaContext) (o : os) : outcome os :=
  match rx_context c with
  | None => Ok o
  | Some _ => '(_, _, o') ← RdmaContext_deconstruct c o; Ok o'
  end.

(** ** Where construction stops *)

(** The calls in the order of the source, and the first that fails. *)
Definition construct_calls : list verb :=
  [GetDeviceList; OpenDevice; QueryPort; PortActive; QueryDevice; QueryGid; AllocPd; CreateChannel 0;
   EpollCreate; FcntlGetfl AsyncFd; FcntlSetfl AsyncFd; EpollAdd AsyncFd;
   FcntlGetfl (ChannelFd 0); FcntlSetfl (ChannelFd 0); EpollAdd (ChannelFd 0);
   CreateCq 0; CreateCq 1].
Definition first_failure : option verb := List.find (fun v => negb (ok v)) construct_calls.
End verbs.

(** ** Releasing what was acquired *)
Lemma release_live h o (L : gset Z) :
  h ∉ L -> os_live o = {[h]} ∪ L -> os_release h o = mkOs L (os_next o) (os_bad_release o).
Proof.
  intros Hh Hlive. unfold os_release. rewrite decide_True by set_solver. cbn. f_equal. set_solver.
Qed.

Lemma release_all hs : forall o (L : gset Z),
  NoDup hs -> (forall h, h ∈ hs -> h ∉ L) -> os_live o = list_to_set hs ∪ L ->
  foldl (fun o h => os_release h o) o hs = mkOs L (os_next o) (os_bad_release o).
Proof.
  induction hs as [|h hs IH]; intros o L Hnd Hout Hlive; cbn [foldl].
  { destruct o. cbn in *. f_equal. set_solver. }
  apply NoDup_cons in Hnd as [Hh Hnd].
  rewrite (release_live h o (list_to_set hs ∪ L)) by set_solver.
  rewrite (IH _ L); [done|done|set_solver|done].
Qed.

Lemma acquire_yes {V} (ok : V -> bool) v L n bad :
  ok v = true -> os_acquire ok v (mkOs L n bad) = (Some n, mkOs ({[n]} ∪ L) (n + 1) bad).
Proof. unfold os_acquire. by intros ->. Qed.
Lemma acquire_no {V} (ok : V -> bool) v o : ok v = false -> os_acquire ok v o = (None, o).
Proof. unfold os_acquire. by intros ->. Qed.

Lemma release_bad hs : forall o,
  (forall h, h ∈ hs -> h ∉ os_live o) ->
  foldl (fun o h => os_release h o) o hs =
    mkOs (os_live o) (os_next o) (os_bad_release o + length hs).
Proof.
  induction hs as [|h hs IH]; intros o Hout; cbn [foldl length].
  { destruct o. cbn. by rewrite Nat.add_0_r. }
  unfold os_release at 2. rewrite decide_False by set_solver.
  rewrite IH by set_solver. cbn. f_equal. lia.
Qed.

(** Handles in use are below the next one. *)
Definition os_ok (o : os) : Prop := forall h, h ∈ os_live o -> h < os_next o.

(** [openRdmaDevice] on a device that exists: the open device is all that is
    left, or nothing is. *)
Lemma open_spec ok devices query_port query_gid c name port gid_index o :
  name ∈ devices -> os_ok o ->
  exists ret c' o', RdmaContext_openRdmaDevice ok devices query_port query_gid c name port gid_index o
      = (ret, c', o') /\ os_bad_release o' = os_bad_release o /\
    match List.find (fun v => negb (ok v)) (take 6 construct_calls) with
    | None => ret = 0 /\ (exists lid speed mtu gid, c' = c <| rx_context := Some (os_next o + 1) |>
          <| rx_port := port |> <| rx_lid := lid |> <| rx_active_mtu := mtu |>
          <| rx_active_speed := speed |> <| rx_gid := gid |> <| rx_gid_index := gid_index |>) /\
        os_live o' = {[os_next o + 1]} ∪ os_live o /\ os_next o' = os_next o + 2
    | Some _ => ret = ERR /\ c' = c /\ os_live o' = os_live o
    end.
Proof.
  intros Hname Hok. destruct o as [L n bad]. unfold os_ok in Hok. cbn [os_live os_next os_bad_release] in *.
  assert (Hfn : forall k, n <= k -> k ∉ L) by (intros k Hk Hin; specialize (Hok k Hin); lia).
  assert (Hn : n ∉ L) by (apply Hfn; lia).
  assert (Hn1 : n + 1 ∉ {[n]} ∪ L).
  { rewrite not_elem_of_union, not_elem_of_singleton. split; [lia|apply Hfn; lia]. }
  unfold RdmaContext_openRdmaDevice, open_matching. cbn [take construct_calls List.find].
  destruct (ok GetDeviceList) eqn:E0; cbn [negb];
    [rewrite acquire_yes by done|rewrite acquire_no by done; by eexists _, _, _].
  destruct devices as [|d ds]; [set_solver|]. rewrite bool_decide_eq_true_2 by done. cbn [negb].
  destruct (ok OpenDevice) eqn:E1; cbn [negb]; [rewrite acquire_yes by done|].
  2: { rewrite acquire_no by done. eexists _, _, _. split; [done|]. by rewrite (release_live _ _ L). }
  destruct (ok QueryPort), (ok PortActive), (ok QueryDevice), (ok QueryGid); cbn [negb].
  1: { destruct (query_port port) as [[lid mtu] speed].
       eexists _, _, _. split; [done|]. rewrite (release_live n _ ({[n + 1]} ∪ L)).
       - split_and!; try done; [by eexists _, _, _, _|cbn; lia].
       - set_solver.
       - cbn. set_solver. }
  all: eexists _, _, _; (split; [done|]);
    rewrite (release_live (n + 1) _ ({[n]} ∪ L)) by done; by rewrite (release_live n _ L).
Qed.

(** ** What the destructor releases *)
Definition rx_held (c : RdmaContext) : list Z :=
  omap id (rx_cq_list c) ++ option_list (rx_event_fd c) ++
  omap id (take (rx_num_comp_channel c) (default [] (rx_comp_channel c))) ++
  option_list (rx_pd c) ++ option_list (rx_context c).

Lemma destroy_cqs_spec l : forall o, Forall is_Some l ->
  destroy_cqs l o = Ok (foldl (fun o h => os_release h o) o (omap id l)).
Proof.
  induction l as [|h l IH]; intros o Hl; [done|]. apply Forall_cons in Hl as [[x ->] Hl].
  cbn. by apply IH.
Qed.
Lemma release_channels l : forall o,
  foldl (fun o h => release_opt h o) o l = foldl (fun o h => os_release h o) o (omap id l).
Proof. induction l as [|[h|] l IH]; intros o; [done|cbn; apply IH..]. Qed.
Lemma release_opt_spec h o : release_opt h o = foldl (fun o h => os_release h o) o (option_list h).
Proof. by destruct h. Qed.

(** The context after [deconstruct]. *)
Definition rx_closed (c : RdmaContext) : RdmaContext :=
  c <| rx_memory_region_list := [] |> <| rx_cq_list := [] |> <| rx_event_fd := None |>
    <| rx_comp_channel := None |> <| rx_pd := None |> <| rx_context := None |>.

Lemma deconstruct_releases c o :
  Forall is_Some (rx_cq_list c) ->
  RdmaContext_deconstruct c o = Ok (0, rx_closed c, foldl (fun o h => os_release h o) o (rx_held c)).
Proof.
  destruct c as [name ctx pd fd num channels ? ? ? ? ? ? ? cqs ? ?]. cbn [rx_cq_list].
  intros Hcq. unfold RdmaContext_deconstruct, rx_held, rx_closed.
  cbn -[destroy_cqs foldl]. rewrite destroy_cqs_spec by done. cbn -[foldl option_list].
  rewrite !release_opt_spec, !foldl_app.
  destruct channels as [l|]; cbn -[foldl option_list]; [by rewrite release_channels|by rewrite take_nil].
Qed.

Lemma closed_deconstruct c o :
  RdmaContext_deconstruct (rx_closed c) o = Ok (0, rx_closed c, o).
Proof. rewrite deconstruct_releases by (by destruct c). destruct c. unfold rx_held. cbn. by rewrite take_nil. Qed.

Lemma closed_dtor c o : RdmaContext_dtor (rx_closed c) o = Ok o.
Proof. by destruct c. Qed.

Lemma dtor_releases c o :
  is_Some (rx_context c) -> Forall is_Some (rx_cq_list c) ->
  RdmaContext_dtor c o = Ok (foldl (fun o h => os_release h o) o (rx_held c)).
Proof.
  intros [x Hx] Hcq. unfold RdmaContext_dtor. rewrite Hx, deconstruct_releases by done. done.
Qed.

Lemma dtor_clean c o (L : gset Z) :
  is_Some (rx_context c) -> Forall is_Some (rx_cq_list c) ->
  NoDup (rx_held c) -> (forall h, h ∈ rx_held c -> h ∉ L) -> os_live o = list_to_set (rx_held c) ∪ L ->
  RdmaContext_dtor c o = Ok (mkOs L (os_next o) (os_bad_release o)).
Proof. intros. rewrite dtor_releases by done. by rewrite (release_all _ _ L). Qed.

(** The epoll descriptor is closed already. *)
Lemma dtor_double_close c o fd (L : gset Z) :
  is_Some (rx_context c) -> rx_cq_list c = [] -> rx_event_fd c = Some fd ->
  NoDup (rx_held c) -> (forall h, h ∈ rx_held c -> h ∉ L) ->
  os_live o = list_to_set (tail (rx_held c)) ∪ L ->
  RdmaContext_dtor c o = Ok (mkOs L (os_next o) (S (os_bad_release o))).
Proof.
  intros Hx Hcq Hfd Hnd Hout Hlive. rewrite dtor_releases by (done || by rewrite Hcq).
  assert (Hh : rx_held c = fd :: tail (rx_held c)) by (unfold rx_held; by rewrite Hcq, Hfd).
  rewrite Hh in Hnd, Hout |- *. apply NoDup_cons in Hnd as [Hfr Hnd]. cbn [foldl].
  assert (Hr : os_release fd o = mkOs (os_live o) (os_next o) (S (os_bad_release o))).
  { unfold os_release. rewrite decide_False; [done|]. rewrite Hlive. set_solver. }
  rewrite Hr, (release_all _ _ L); try done. set_solver.
Qed.

(** What is left of [construct] and the destructor when construction stops at
    [failure]: [L] is what was open before. *)
Definition cleanup_spec (failure : option verb) (L : gset Z) (bad : nat) (c : RdmaContext) (o : os)
  : Prop :=
  match failure with
  | Some (CreateCq _) => RdmaContext_dtor c o = Trap TrapNull
  | Some (EpollAdd _) => exists next, RdmaContext_dtor c o = Ok (mkOs L next (S bad))
  | _ => exists next, RdmaContext_dtor c o = Ok (mkOs L next bad)
  end.

Lemma find_app {A} (f : A -> bool) l1 l2 :
  List.find f (l1 ++ l2) =
    match List.find f l1 with Some x => Some x | None => List.find f l2 end.
Proof. induction l1 as [|x l1 IH]; [done|]. cbn. by destruct (f x). Qed.

(** One completion queue on the only channel. *)
Lemma create_cqs_step ok vectors n i c o ch :
  rx_num_comp_channel c = 1%nat -> rx_comp_channel c = Some [ch] -> 0 < vectors ->
  create_cqs ok vectors (S n) i c o =
    let '(h, o1) := os_acquire ok (CreateCq i) o in
    let c3 := c <| rx_next_comp_channel_index := i32 (rx_next_comp_channel_index c + 1) |>
                <| rx_next_comp_vector_index := i32 (rx_next_comp_vector_index c + 1) |>
                <| rx_cq_list := <[i := h]> (rx_cq_list c) |> in
    match h with None => Ok (ERR, c3, o1) | Some _ => create_cqs ok vectors n (S i) c3 o1 end.
Proof.
  intros Hn Hc Hv. cbn [create_cqs]. unfold RdmaContext_compChannel, RdmaContext_compVector.
  rewrite Hn, Hc, (proj2 (Z.eqb_neq vectors 0)) by lia. cbn [Nat.eqb Z.of_nat Pos.of_succ_nat].
  rewrite Z.mod_1_r. by destruct c.
Qed.

(** Goals about a concrete list of handles. *)
Ltac handles :=
  unfold rx_held; cbn;
  match goal with
  | |- NoDup _ =>
      repeat (apply NoDup_cons; split; [rewrite ?elem_of_cons, elem_of_nil; lia|]); apply NoDup_nil_2
  | HL : forall x, x ∈ ?L -> _ |- forall h, h ∈ _ -> h ∉ ?L =>
      let h := fresh in let Hh := fresh in let Hin := fresh in
      intros h Hh Hin; specialize (HL h Hin); rewrite !elem_of_cons, elem_of_nil in Hh; lia
  | HL : forall x, x ∈ ?L -> _ |- _ ∉ _ ∪ _ =>
      let Hin := fresh in rewrite !not_elem_of_union, !not_elem_of_singleton; split_and!; try lia;
      intros Hin; specialize (HL _ Hin); lia
  | |- Forall _ _ => repeat constructor; by eexists
  | |- is_Some _ => by eexists
  | |- _ = _ => set_solver
  end.

(** Construction stops at the current call: what the destructor then does. *)
Ltac stops :=
  eexists _, _, _; split; [reflexivity|]; split; [done|];
  first [eexists; apply dtor_clean; handles
        |eexists; eapply dtor_double_close; (reflexivity || handles)
        |reflexivity].

Lemma construct_cases ok devices query_port query_gid vectors name port gid_index o :
  name ∈ devices -> 0 < vectors -> os_ok o ->
  exists ret c o', RdmaContext_construct ok devices query_port query_gid vectors RdmaContext_ctor name
      port gid_index o = Ok (ret, c, o') /\
    (ret = 0 <-> first_failure ok = None) /\
    cleanup_spec (first_failure ok) (os_live o) (os_bad_release o) c o'.
Proof.
  intros Hname Hvec Hok. unfold RdmaContext_construct. set (c0 := RdmaContext_ctor <| _ := _ |> <| _ := _ |>).
  destruct (open_spec ok devices query_port query_gid c0 name port gid_index o Hname Hok)
    as (ret & c2 & o2 & -> & Hbad & Hopen).
  unfold first_failure.
  change construct_calls with (take 6 construct_calls ++ drop 6 construct_calls). rewrite find_app.
  destruct (List.find _ (take 6 construct_calls)) as [v|] eqn:Hv.
  - destruct Hopen as (-> & -> & Hlive). eexists _, _, _. split; [reflexivity|]. split; [done|].
    apply List.find_some in Hv as [Hv _]. cbn in Hv.
    assert (Hclean : exists next, RdmaContext_dtor c0 o2 = Ok (mkOs (os_live o) next (os_bad_release o))).
    { exists (os_next o2). destruct o2. cbn in *. by subst. }
    by destruct_or? Hv; subst v.
  - destruct Hopen as (-> & (lid & speed & mtu & gid & ->) & Hlive & Hnext).
    destruct o as [L n bad], o2 as [L2 n2 bad2]. cbn in Hlive, Hnext, Hbad. subst L2 n2 bad2.
    unfold os_ok in Hok. cbn in Hok. cbn [os_live os_bad_release].
    unfold join_channels, RdmaContext_joinNonblockingPollList.
    cbn -[os_acquire union Z.add RdmaContext_dtor create_cqs cleanup_spec].
    destruct (ok AllocPd) eqn:E1; cbn [negb]; [rewrite acquire_yes by done|rewrite acquire_no by done; stops].
    destruct (ok (CreateChannel 0)) eqn:E2; cbn [negb];
      [rewrite acquire_yes by done|rewrite acquire_no by done; stops].
    cbn -[os_acquire union Z.add RdmaContext_dtor create_cqs cleanup_spec].
    destruct (ok EpollCreate) eqn:E3; cbn [negb]; [rewrite acquire_yes by done|rewrite acquire_no by done; stops].
    match goal with |- context [os_release (n + 2 + 1 + 1) ?o] =>
      pose proof (release_live (n + 2 + 1 + 1) o ({[n + 2 + 1]} ∪ ({[n + 2]} ∪ ({[n + 1]} ∪ L)))
        ltac:(handles) eq_refl) as Hrel end.
    rewrite Hrel.
    destruct (ok (FcntlGetfl AsyncFd)), (ok (FcntlSetfl AsyncFd)), (ok (EpollAdd AsyncFd));
      cbn -[union Z.add RdmaContext_dtor create_cqs cleanup_spec]; try stops.
    destruct (ok (FcntlGetfl (ChannelFd 0))), (ok (FcntlSetfl (ChannelFd 0))), (ok (EpollAdd (ChannelFd 0)));
      cbn -[union Z.add RdmaContext_dtor create_cqs cleanup_spec os_release]; rewrite ?Hrel; try stops.
    erewrite create_cqs_step by done. cbn -[os_acquire union Z.add RdmaContext_dtor cleanup_spec create_cqs].
    destruct (ok (CreateCq 0)) eqn:E4; cbn [negb]; [rewrite acquire_yes by done|rewrite acquire_no by done; stops].
    erewrite create_cqs_step by done. cbn -[os_acquire union Z.add RdmaContext_dtor cleanup_spec].
    destruct (ok (CreateCq 1)) eqn:E5; cbn [negb]; [rewrite acquire_yes by done|rewrite acquire_no by done]; stops.
Qed.

(** After a successful [construct] the context holds what was acquired. *)
Lemma construct_success ok devices query_port query_gid vectors name port gid_index o :
  name ∈ devices -> 0 < vectors -> os_ok o -> first_failure ok = None ->
  exists c o', RdmaContext_construct ok devices query_port query_gid vectors RdmaContext_ctor name
      port gid_index o = Ok (0, c, o') /\
    is_Some (rx_context c) /\ Forall is_Some (rx_cq_list c) /\
    NoDup (rx_held c) /\ (forall h, h ∈ rx_held c -> h ∉ os_live o) /\
    os_live o' = list_to_set (rx_held c) ∪ os_live o /\ os_ok o' /\
    os_bad_release o' = os_bad_release o.
Proof.
  intros Hname Hvec Hok Hff. unfold RdmaContext_construct. set (c0 := RdmaContext_ctor <| _ := _ |> <| _ := _ |>).
  destruct (open_spec ok devices query_port query_gid c0 name port gid_index o Hname Hok)
    as (ret & c2 & o2 & -> & Hbad & Hopen).
  assert (Hall : forall v, In v construct_calls -> ok v = true).
  { intros v Hv. pose proof (List.find_none _ _ Hff v Hv) as Hn. by apply negb_false_iff in Hn. }
  destruct (List.find _ (take 6 construct_calls)) as [v|] eqn:Hv.
  { apply List.find_some in Hv as [Hv Hn]. rewrite Hall in Hn; [done|].
    cbn in Hv. cbn. tauto. }
  destruct Hopen as (-> & (lid & speed & mtu & gid & ->) & Hlive & Hnext).
  destruct o as [L n bad], o2 as [L2 n2 bad2]. cbn in Hlive, Hnext, Hbad. subst L2 n2 bad2.
  unfold os_ok in Hok. cbn in Hok. cbn [os_live os_bad_release].
  unfold join_channels, RdmaContext_joinNonblockingPollList.
  cbn -[os_acquire union Z.add create_cqs rx_held].
  do 3 (rewrite acquire_yes by (apply Hall; cbn; tauto);
        cbn -[os_acquire union Z.add create_cqs rx_held]).
  rewrite !Hall by (cbn; tauto). cbn -[os_acquire union Z.add create_cqs rx_held].
  do 2 (erewrite create_cqs_step by done; rewrite acquire_yes by (apply Hall; cbn; tauto);
        cbn -[os_acquire union Z.add create_cqs rx_held]).
  eexists _, _. split; [reflexivity|]. split_and!; try by handles.
  unfold os_ok. cbn -[union Z.add]. intros h. rewrite !elem_of_union, !elem_of_singleton. intros Hh.
  destruct_or? Hh; try lia. specialize (Hok h Hh). lia.
Qed.

(** [C23] Opening and closing a device.  With the named device present,
    [construct] returns, with code 0 exactly when every call it makes succeeds.
    Destroying the context afterwards releases every resource that was acquired
    and nothing else, both after success and after a failure at any call, with
    two exceptions: when adding a descriptor to the epoll set failed, the epoll
    descriptor is closed a second time; when a completion queue could not be
    created, the destructor destroys a null completion queue. *)
Theorem device_cleanup_exact ok devices query_port query_gid vectors name port gid_index o :
  name ∈ devices -> 0 < vectors -> os_ok o ->
  exists ret c o', RdmaContext_construct ok devices query_port query_gid vectors RdmaContext_ctor name
      port gid_index o = Ok (ret, c, o') /\
    (ret = 0 <-> first_failure ok = None) /\
    cleanup_spec (first_failure ok) (os_live o) (os_bad_release o) c o'.
Proof. apply construct_cases. Qed.

(** The epoll set refuses the first descriptor. *)
Lemma device_cleanup_exact_witness : exists c o' next,
  RdmaContext_construct (fun v => match v with EpollAdd _ => false | _ => true end) ["mlx5_0"]
    (fun _ => (3, 4, 2)) (fun _ _ => []) 8 RdmaContext_ctor "mlx5_0" 1 3 (mkOs {[1; 2]} 3 0)
    = Ok (ERR, c, o') /\
  RdmaContext_dtor c o' = Ok (mkOs {[1; 2]} next 1).
Proof.
  destruct (device_cleanup_exact (fun v => match v with EpollAdd _ => false | _ => true end) ["mlx5_0"]
    (fun _ => (3, 4, 2)) (fun _ _ => []) 8 "mlx5_0" 1 3 (mkOs {[1; 2]} 3 0))
    as (ret & c & o' & Hrun & Hret & (next & Hd)).
  - set_solver.
  - lia.
  - intros h Hh. cbn in *. rewrite elem_of_union, !elem_of_singleton in Hh. lia.
  - exists c, o', next. split; [|exact Hd]. assert (Hr : ret = ERR) by (vm_compute in Hrun; by injection Hrun as <- _ _).
    by rewrite Hrun, Hr.
Defined.
