(* ===== verification/Lifecycle.v ===== *)
(** * The life of a controller

    Models the construction and destruction of [Controller]
    (src/protocols/rdma_unreliable/controller.{h,cpp}) with its members: the
    device context (Device.v) and the queue pairs of [RdmaUDEndPointStore]
    (src/protocols/common/rdma_ud_endpoint_store.{h,cpp}): [construct],
    [setupQueuePair], [deconstruct] and the destructors, which run [deconstruct]
    again.

    The constructor of [RdmaUDEndPointStore] does not set the pointers to its two
    arrays of counters; their value until [construct] is [Indeterminate]. *)

From S2P Require Import Prelude MemoryRegions Device.

Inductive int_array : Type := Indeterminate | NullArray | Allocated (l : list Z).
Definition delete_array (a : int_array) : outcome unit :=
  match a with Indeterminate => Trap TrapWild | _ => Ok tt end.

Record UdQueuePairs := mkUdQueuePairs {
  ud_qp_list : list (option Z);
  ud_send_wr_depth_list : int_array;
  ud_recv_wr_depth_list : int_array;
  ud_max_wr_depth : Z;
  ud_max_inline_bytes : Z
}.
#[export] Instance UdQueuePairs_fields : Fields UdQueuePairs := mkFields (fun s =>
  mkUdQueuePairs (ud_qp_list s) (ud_send_wr_depth_list s) (ud_recv_wr_depth_list s)
    (ud_max_wr_depth s) (ud_max_inline_bytes s)).
(** The constructor. *)
Definition UdQueuePairs_ctor : UdQueuePairs := mkUdQueuePairs [] Indeterminate Indeterminate 0 0.

Section verbs.
Variable ok : verb -> bool.

(** RESET, INIT, RTR, RTS: the first transition that fails ends it. *)
Definition RdmaUDEndPointStore_setupQueuePair (i : nat) : Z :=
  if negb (ok (ModifyQp i 0)) then ERR
  else if negb (ok (ModifyQp i 1)) then ERR
  else if negb (ok (ModifyQp i 2)) then ERR
  else if negb (ok (ModifyQp i 3)) then ERR
  else 0.

(** The loop of [construct] over queue pairs [i], ..., [i + n - 1]. *)
Fixpoint create_ud_qps (n i : nat) (l : list (option Z)) (o : os) : Z * list (option Z) * os :=
  match n with
  | O => (0, l, o)
  | S n =>
      let '(h, o1) := os_acquire ok (CreateQp i) o in
      let l1 := <[i := h]> l in
      match h with
      | None => (ERR, l1, o1)
      | Some _ =>
          if negb (RdmaUDEndPointStore_setupQueuePair i =? 0) then (ERR, l1, o1)
          else create_ud_qps n (S i) l1 o1
      end
  end.
Definition RdmaUDEndPointStore_construct (s : UdQueuePairs) (num_qp_per_endpoint : nat)
    (max_wr_per_qp max_inline_bytes : Z) (o : os) : Z * UdQueuePairs * os :=
  let '(ret, l, o1) := create_ud_qps num_qp_per_endpoint 0 (replicate num_qp_per_endpoint None) o in
  (ret, mkUdQueuePairs l (Allocated (replicate num_qp_per_endpoint 0))
          (Allocated (replicate num_qp_per_endpoint 0)) (i32 max_wr_per_qp) (i32 max_inline_bytes), o1).

(** The loop of [deconstruct] over queue pairs [i], ...: one that cannot be
    destroyed ends it, and the list keeps those already destroyed. *)
Fixpoint destroy_ud_qps (l : list (option Z)) (i : nat) (o : os) : outcome (Z * os) :=
  match l with
  | [] => Ok (0, o)
  | None :: _ => Trap TrapNull
  | Some h :: l =>
      if negb (ok (DestroyQp i)) then Ok (ERR, o) else destroy_ud_qps l (S i) (os_release h o)
  end.
Definition RdmaUDEndPointStore_deconstruct (s : UdQueuePairs) (o : os)
  : outcome (Z * UdQueuePairs * os) :=
  '(ret, o1) ← destroy_ud_qps (ud_qp_list s) 0 o;
  if negb (ret =? 0) then Ok (ERR, s, o1)
  else
    _ ← delete_array (ud_send_wr_depth_list s);
    _ ← delete_array (ud_recv_wr_depth_list s);
    Ok (0, s <| ud_qp_list := [] |> <| ud_send_wr_depth_list := NullArray |>
             <| ud_recv_wr_depth_list := NullArray |>, o1).

(** ** The controller *)
Record ControllerDevice := mkControllerDevice {
  cd_context : RdmaContext;
  cd_endpoint_store : UdQueuePairs
}.
Definition Controller_ctor : ControllerDevice := mkControllerDevice RdmaContext_ctor UdQueuePairs_ctor.

Section devices.
Variable devices : list string.
Variable query_port : Z -> Z * Z * Z.
Variable query_gid : Z -> Z -> list Z.
Variable num_comp_vectors : Z.
Variable num_qp_per_endpoint : nat.
Variables max_wr_per_qp max_inline_bytes : Z.

Definition Controller_construct (k : ControllerDevice) (device_name : string)
    (rdma_port gid_index : Z) (o : os) : outcome (Z * ControllerDevice * os) :=
  '(ret, c, o1) ← RdmaContext_construct ok devices query_port query_gid num_comp_vectors
                    (cd_context k) device_name rdma_port gid_index o;
  if negb (ret =? 0) then Ok (ret, mkControllerDevice c (cd_endpoint_store k), o1)
  else
    let '(ret2, s, o2) := RdmaUDEndPointStore_construct (cd_endpoint_store k) num_qp_per_endpoint
                            max_wr_per_qp max_inline_bytes o1 in
    Ok (ret2, mkControllerDevice c s, o2).
End devices.

Definition Controller_deconstruct (k : ControllerDevice) (o : os) : outcome (ControllerDevice * os) :=
  '(_, s, o1) ← RdmaUDEndPointStore_deconstruct (cd_endpoint_store k) o;
  '(_, c, o2) ← RdmaContext_deconstruct (cd_context k) o1;
  Ok (mkControllerDevice c s, o2).

(** The destructor, then those of the members in reverse order. *)
Definition Controller_dtor (k : ControllerDevice) (o : os) : outcome os :=
  '(k1, o1) ← Controller_deconstruct k o;
  '(_, _, o2) ← RdmaUDEndPointStore_deconstruct (cd_endpoint_store k1) o1;
  RdmaContext_dtor (cd_context k1) o2.

(** What happens to the controller of a protocol object: [Context::deconstruct]
    first, then the destructor. *)
Definition Controller_teardown (k : ControllerDevice) (o : os) : outcome os :=
  '(k1, o1) ← Controller_deconstruct k o;
  Controller_dtor k1 o1.
End verbs.

(** ** Queue pairs *)
Definition qp_usable (ok : verb -> bool) (i : nat) : Prop :=
  ok (CreateQp i) = true /\ RdmaUDEndPointStore_setupQueuePair ok i = 0.

Lemma create_ud_qps_all ok n : forall i l L next bad,
  (forall j, (i <= j < i + n)%nat -> qp_usable ok j) -> length l = (i + n)%nat ->
  create_ud_qps ok n i l (mkOs L next bad) =
    (0, take i l ++ (Some <$> seqZ next (Z.of_nat n)),
     mkOs (list_to_set (seqZ next (Z.of_nat n)) ∪ L) (next + Z.of_nat n) bad).
Proof.
  induction n as [|n IH]; intros i l L next bad Hok Hlen; cbn [create_ud_qps].
  { cbn. rewrite app_nil_r, take_ge, Z.add_0_r by lia. do 2 f_equal. set_solver. }
  destruct (Hok i ltac:(lia)) as [Hc Hs]. rewrite acquire_yes, Hs by done. cbn [Z.eqb negb].
  rewrite IH; [|intros j Hj; apply Hok; lia|rewrite length_insert; lia].
  rewrite (seqZ_cons next) by lia. replace (Z.pred (Z.of_nat (S n))) with (Z.of_nat n) by lia.
  replace (Z.succ next) with (next + 1) by lia.
  f_equal; [f_equal|].
  - rewrite (take_S_r _ _ (Some next)) by (apply list_lookup_insert_eq; lia).
    rewrite take_insert_ge by lia. cbn. by rewrite <- app_assoc.
  - f_equal; [cbn; set_solver|lia].
Qed.

(** A queue pair that cannot be created leaves a null pointer in the list. *)
Lemma create_ud_qps_fail ok n : forall i l o k,
  (k < n)%nat -> (forall j, (j < k)%nat -> qp_usable ok (i + j)) -> ok (CreateQp (i + k)) = false ->
  length l = (i + n)%nat ->
  exists l' o', create_ud_qps ok n i l o = (ERR, l', o') /\ None ∈ l'.
Proof.
  induction n as [|n IH]; intros i l [L next bad] k Hk Hok Hfail Hlen; [lia|]. cbn [create_ud_qps].
  destruct k as [|k].
  - rewrite Nat.add_0_r in Hfail. rewrite acquire_no by done. eexists _, _. split; [done|].
    apply list_elem_of_lookup. exists i. apply list_lookup_insert_eq. lia.
  - destruct (Hok 0%nat ltac:(lia)) as [Hc Hs]. rewrite Nat.add_0_r in Hc, Hs.
    rewrite acquire_yes, Hs by done. cbn [Z.eqb negb]. apply (IH _ _ _ k); [lia| | |].
    + intros j Hj. replace (S i + j)%nat with (i + S j)%nat by lia. apply Hok. lia.
    + by replace (S i + k)%nat with (i + S k)%nat by lia.
    + rewrite length_insert. lia.
Qed.

Lemma destroy_ud_null ok l :
  None ∈ l -> forall i o, (forall j, (i <= j)%nat -> ok (DestroyQp j) = true) ->
  destroy_ud_qps ok l i o = Trap TrapNull.
Proof.
  induction l as [|[h|] l IH]; intros Hn i o Hd; [by apply elem_of_nil in Hn| |done].
  cbn. rewrite Hd by lia. cbn [negb]. apply IH; [by apply elem_of_cons in Hn as [|]|].
  intros j Hj. apply Hd. lia.
Qed.
(** The first [n] queue pairs can be destroyed, the next one cannot. *)
Lemma destroy_ud_prefix ok hs : forall n i o,
  (n <= length hs)%nat -> (forall j, (j < n)%nat -> ok (DestroyQp (i + j)) = true) ->
  ((n < length hs)%nat -> ok (DestroyQp (i + n)) = false) ->
  destroy_ud_qps ok (Some <$> hs) i o =
    Ok (if (n <? length hs)%nat then ERR else 0, foldl (fun o h => os_release h o) o (take n hs)).
Proof.
  induction hs as [|h hs IH]; intros n i o Hn Hd Hf; [by rewrite take_nil; destruct n|].
  cbn [destroy_ud_qps fmap list_fmap length] in *. destruct n as [|n].
  - rewrite Nat.add_0_r in Hf. by rewrite Hf by lia.
  - rewrite <- (Nat.add_0_r i), Hd, Nat.add_0_r by lia. cbn [negb take foldl].
    rewrite (IH n); [done|lia| |].
    + intros j Hj. replace (S i + j)%nat with (i + S j)%nat by lia. apply Hd. lia.
    + intros Hl. replace (S i + n)%nat with (i + S n)%nat by lia. apply Hf. lia.
Qed.

(** ** Teardown *)
Lemma store_deconstruct_closed ok s o :
  ud_qp_list s = [] -> ud_send_wr_depth_list s = NullArray -> ud_recv_wr_depth_list s = NullArray ->
  RdmaUDEndPointStore_deconstruct ok s o = Ok (0, s, o).
Proof. destruct s. cbn. by intros -> -> ->. Qed.

(** A controller with queue pairs [hs] on an open device, over what else is open. *)
Record up (c : RdmaContext) (s : UdQueuePairs) (hs : list Z) (L : gset Z) (o : os) : Prop := {
  up_qps : ud_qp_list s = Some <$> hs;
  up_send : exists a, ud_send_wr_depth_list s = Allocated a;
  up_recv : exists a, ud_recv_wr_depth_list s = Allocated a;
  up_cqs : Forall is_Some (rx_cq_list c);
  up_nodup : NoDup (hs ++ rx_held c);
  up_fresh : forall h, h ∈ hs ++ rx_held c -> h ∉ L;
  up_live : os_live o = list_to_set (hs ++ rx_held c) ∪ L
}.

Lemma teardown_clean ok c s hs L o :
  up c s hs L o -> (forall i, (i < length hs)%nat -> ok (DestroyQp i) = true) ->
  Controller_teardown ok (mkControllerDevice c s) o = Ok (mkOs L (os_next o) (os_bad_release o)).
Proof.
  intros [Hq [a Ha] [b Hb] Hcq Hnd Hout Hlive] Hd. pose proof (deconstruct_releases c) as Hrel.
  pose proof (closed_deconstruct c) as Hcd. pose proof (closed_dtor c) as Hct.
  generalize dependent (rx_closed c). intros c' Hrel Hcd Hct.
  assert (Hfirst : Controller_deconstruct ok (mkControllerDevice c s) o =
    Ok (mkControllerDevice c' (mkUdQueuePairs [] NullArray NullArray (ud_max_wr_depth s)
          (ud_max_inline_bytes s)), mkOs L (os_next o) (os_bad_release o))).
  { unfold Controller_deconstruct, RdmaUDEndPointStore_deconstruct. cbn [cd_endpoint_store cd_context].
    rewrite Hq, Ha, Hb, (destroy_ud_prefix _ _ (length hs)), Nat.ltb_irrefl, firstn_all by (done || lia).
    cbn [mbind outcome_bind delete_array Z.eqb negb].
    rewrite Hrel by done. cbn [mbind outcome_bind].
    rewrite <- foldl_app, (release_all _ _ L) by done. done. }
  unfold Controller_teardown. rewrite Hfirst. cbn [mbind outcome_bind].
  unfold Controller_dtor, Controller_deconstruct. cbn [cd_endpoint_store cd_context].
  rewrite store_deconstruct_closed by done. cbn [mbind outcome_bind]. rewrite Hcd.
  cbn [mbind outcome_bind cd_endpoint_store cd_context].
  rewrite store_deconstruct_closed by done. cbn [mbind outcome_bind]. apply Hct.
Qed.

(** Queue pair [n] cannot be destroyed: each of the three runs of [deconstruct]
    destroys those before it. *)
Lemma teardown_stuck ok c s hs L o n :
  up c s hs L o -> (n < length hs)%nat -> (forall i, (i < n)%nat -> ok (DestroyQp i) = true) ->
  ok (DestroyQp n) = false ->
  Controller_teardown ok (mkControllerDevice c s) o =
    Ok (mkOs (list_to_set (drop n hs) ∪ L) (os_next o) (os_bad_release o + n + n)).
Proof.
  intros [Hq _ _ Hcq Hnd Hout Hlive] Hn Hd Hf. pose proof (deconstruct_releases c) as Hrel.
  pose proof (closed_deconstruct c) as Hcd. pose proof (closed_dtor c) as Hct.
  generalize dependent (rx_closed c). intros c' Hrel Hcd Hct.
  assert (Hstore : forall o, RdmaUDEndPointStore_deconstruct ok s o =
    Ok (ERR, s, foldl (fun o h => os_release h o) o (take n hs))).
  { intros o'. unfold RdmaUDEndPointStore_deconstruct.
    by rewrite Hq, (destroy_ud_prefix _ _ n), (proj2 (Nat.ltb_lt n _)) by (done || lia). }
  unfold Controller_teardown, Controller_dtor, Controller_deconstruct.
  cbn [cd_endpoint_store cd_context]. rewrite Hstore. cbn [mbind outcome_bind].
  rewrite Hrel by done. cbn [mbind outcome_bind cd_endpoint_store cd_context].
  rewrite Hstore. cbn [mbind outcome_bind]. rewrite Hcd.
  cbn [mbind outcome_bind cd_endpoint_store cd_context]. rewrite Hstore. cbn [mbind outcome_bind].
  rewrite Hct, <- (foldl_app _ (take n hs) (rx_held c)).
  rewrite <- (take_drop n hs), <- app_assoc in Hnd, Hout, Hlive.
  apply NoDup_app in Hnd as (Hnt & Hdis & (Hnd & Hdis2 & Hnh)%NoDup_app).
  rewrite (release_all (take n hs ++ rx_held c) o (list_to_set (drop n hs) ∪ L)).
  - assert (Hgone : forall h, h ∈ take n hs -> h ∉ list_to_set (drop n hs) ∪ L) by set_solver.
    rewrite <- foldl_app, release_bad by set_solver. cbn.
    rewrite length_app, length_take_le by lia. do 2 f_equal. lia.
  - apply NoDup_app. split_and!; [done| |done]. set_solver.
  - set_solver.
  - rewrite Hlive, !list_to_set_app_L. set_solver.
Qed.

Lemma teardown_unset ok k o :
  cd_endpoint_store k = UdQueuePairs_ctor -> Controller_teardown ok k o = Trap TrapWild.
Proof. destruct k. cbn. by intros ->. Qed.
Lemma teardown_null ok k o :
  None ∈ ud_qp_list (cd_endpoint_store k) -> (forall i, ok (DestroyQp i) = true) ->
  Controller_teardown ok k o = Trap TrapNull.
Proof.
  intros Hn Hd. unfold Controller_teardown, Controller_deconstruct, RdmaUDEndPointStore_deconstruct.
  by rewrite destroy_ud_null.
Qed.

(** A device and queue pairs that could all be set up. *)
Lemma construct_up ok devices query_port query_gid vectors num wr inline name port gid_index o :
  name ∈ devices -> 0 < vectors -> os_ok o -> first_failure ok = None ->
  (forall i, (i < num)%nat -> qp_usable ok i) ->
  exists c s hs o',
    Controller_construct ok devices query_port query_gid vectors num wr inline Controller_ctor name
      port gid_index o = Ok (0, mkControllerDevice c s, o') /\
    up c s hs (os_live o) o' /\ length hs = num /\ os_bad_release o' = os_bad_release o.
Proof.
  intros Hname Hvec Hok Hff Hall. unfold Controller_construct. cbn [Controller_ctor cd_context cd_endpoint_store].
  destruct (construct_success ok devices query_port query_gid vectors name port gid_index o Hname Hvec Hok Hff)
    as (c & [L next bad] & -> & Hx & Hcq & Hnd & Hout & Hlive & Hok' & Hbad).
  cbn [mbind outcome_bind Z.eqb negb]. unfold RdmaUDEndPointStore_construct.
  rewrite create_ud_qps_all; [|intros; apply Hall; lia|apply length_replicate].
  cbn [os_live os_bad_release] in Hlive, Hbad. subst bad.
  assert (Hfresh : forall h, h ∈ seqZ next (Z.of_nat num) -> h ∉ L).
  { intros h Hh%elem_of_seqZ Hin. specialize (Hok' h Hin). cbn in Hok'. lia. }
  exists c. eexists _, (seqZ next (Z.of_nat num)), _. split; [reflexivity|].
  split; [|rewrite length_seqZ; split; [lia|done]]. split; try done; try by eexists.
  - apply NoDup_app. split_and!; [apply NoDup_seqZ| |done]. intros h Hh Hc. apply (Hfresh h Hh).
    rewrite Hlive. set_solver.
  - intros h [Hh|Hh]%elem_of_app; [|by apply Hout]. intros Hin. apply (Hfresh h Hh). set_solver.
  - cbn. rewrite Hlive, list_to_set_app_L. set_solver.
Qed.

(** A queue pair that could not be created. *)
Lemma construct_null ok devices query_port query_gid vectors num wr inline name port gid_index o :
  name ∈ devices -> 0 < vectors -> os_ok o -> first_failure ok = None ->
  forall i, (i < num)%nat -> (forall j, (j < i)%nat -> qp_usable ok j) -> ok (CreateQp i) = false ->
  exists k o',
    Controller_construct ok devices query_port query_gid vectors num wr inline Controller_ctor name
      port gid_index o = Ok (ERR, k, o') /\ None ∈ ud_qp_list (cd_endpoint_store k).
Proof.
  intros Hname Hvec Hok Hff i Hi Hj Hfail. unfold Controller_construct. cbn [Controller_ctor cd_context].
  destruct (construct_success ok devices query_port query_gid vectors name port gid_index o
    Hname Hvec Hok Hff) as (c & o1 & -> & _).
  cbn [mbind outcome_bind Z.eqb negb]. unfold RdmaUDEndPointStore_construct.
  destruct (create_ud_qps_fail ok num 0 (replicate num None) o1 i)
    as (l' & o3 & -> & Hn); try done; [apply length_replicate|]. by eexists _, _.
Qed.


