(* ===== verification/Text.v ===== *)
(** * Textual connection attributes

    Peers exchange their queue pair numbers and GID as text.  Models [ToString]
    and [FromString] of src/protocols/rdma_unreliable/controller.cpp, the GID
    printer [RdmaContext::gid] of src/protocols/common/rdma_context.cpp and the
    GID parser that [Controller::setupConnection] and
    [RdmaUDEndPoint::setupConnection] contain, with the parts of the C++ stream
    library they use: formatted extraction of integers, [ignore], [sprintf]
    with [%02x] and insertion of unsigned integers. *)

From Stdlib Require Export Ascii.
From S2P Require Import Prelude.

Notation text := (list ascii).

Definition char_code (c : ascii) : Z := Z.of_nat (nat_of_ascii c).
Definition char_of (z : Z) : ascii := ascii_of_nat (Z.to_nat z).
Definition SPACE : ascii := char_of 32.
Definition COLON : ascii := char_of 58.

(** ** Digits *)
Definition digit_char (d : Z) : ascii := char_of (if d <? 10 then 48 + d else 87 + d).
Definition digit_val (c : ascii) : option Z :=
  let z := char_code c in
  if (48 <=? z) && (z <=? 57) then Some (z - 48)
  else if (97 <=? z) && (z <=? 102) then Some (z - 87)
  else if (65 <=? z) && (z <=? 70) then Some (z - 55)
  else None.

(** [isspace] of the C locale. *)
Definition is_space (c : ascii) : bool :=
  let z := char_code c in (z =? 32) || ((9 <=? z) && (z <=? 13)).

(** Printing [n] in base [base] in front of [tl]; [fuel] bounds the digits. *)
Fixpoint print_digits (fuel : nat) (base n : Z) (tl : text) : text :=
  match fuel with
  | O => tl
  | S fuel =>
      if n <? base then digit_char n :: tl
      else print_digits fuel base (n / base) (digit_char (n mod base) :: tl)
  end.

(** [oss << n] for an unsigned [n]. *)
Definition print_dec (n : Z) : text := print_digits (S (Z.to_nat (Z.log2 n))) 10 n [].

(** [sprintf(buf, "%02x", b)] for a byte. *)
Definition print_hex2 (b : Z) : text := [digit_char (b / 16); digit_char (b mod 16)].

(** ** Extraction

    The longest run of digits, its value, and the rest of the input. *)
Fixpoint scan_digits (base : Z) (l : text) (acc : Z) (seen : bool) : Z * bool * text :=
  match l with
  | [] => (acc, seen, [])
  | c :: rest =>
      match digit_val c with
      | Some d => if d <? base then scan_digits base rest (acc * base + d) true
                  else (acc, seen, l)
      | None => (acc, seen, l)
      end
  end.

Fixpoint skip_spaces (l : text) : text :=
  match l with
  | [] => []
  | c :: rest => if is_space c then skip_spaces rest else l
  end.

Definition skip_sign (l : text) : bool * text :=
  match l with
  | c :: rest =>
      if char_code c =? 45 then (true, rest)
      else if char_code c =? 43 then (false, rest) else (false, l)
  | [] => (false, [])
  end.

(** In base 16 the extraction also accepts a 0x prefix. *)
Definition skip_0x (l : text) : text :=
  match l with
  | z :: x :: rest =>
      if (char_code z =? 48) && ((char_code x =? 120) || (char_code x =? 88)) then rest else l
  | _ => l
  end.

(** [iss >> val] for a [uint32_t] in base 10: [None] when the extraction fails,
    else the value and the rest. *)
Definition extract_u32 (l : text) : option (Z * text) :=
  let '(neg, l1) := skip_sign (skip_spaces l) in
  let '(v, seen, rest) := scan_digits 10 l1 0 false in
  if negb seen then None
  else if 0xffffffff <? v then None
  else Some (u32 (if neg then - v else v), rest).

(** [iss >> std::hex >> value] for an [int]. *)
Definition extract_hex (l : text) : option (Z * text) :=
  let '(neg, l1) := skip_sign (skip_spaces l) in
  let '(v, seen, rest) := scan_digits 16 (skip_0x l1) 0 false in
  if negb seen then None
  else if (if neg then 0x80000000 else 0x7fffffff) <? v then None
  else Some (if neg then - v else v, rest).

(** [iss.ignore(1, ':')]: one character, whatever it is. *)
Definition ignore1 (l : text) : text := match l with [] => [] | _ :: rest => rest end.

(** ** The program's functions *)
Definition ToString (list_ : list Z) : text :=
  concat ((fun entry => SPACE :: print_dec entry) <$> list_).

(** [while (iss >> val) list.push_back(val)]; each extraction consumes at least
    one character. *)
Fixpoint FromString_loop (fuel : nat) (l : text) : outcome (list Z) :=
  match fuel with
  | O => Trap TrapFuel
  | S fuel =>
      match extract_u32 l with
      | None => Ok []
      | Some (val, rest) => vals ← FromString_loop fuel rest; Ok (val :: vals)
      end
  end.
Definition FromString (str : text) : outcome (list Z) := FromString_loop (S (length str)) str.

(** [RdmaContext::gid] *)
Definition RdmaContext_gid (raw : list Z) : text :=
  match raw with
  | [] => []
  | b :: bs => print_hex2 b ++ concat ((fun b => COLON :: print_hex2 b) <$> bs)
  end.

(** The loop that parses a GID: [n] more bytes to read.  [None] when an
    extraction fails: the program then goes on with an indeterminate value. *)
Fixpoint parse_gid_loop (n : nat) (l : text) : option (list Z) :=
  match n with
  | O => Some []
  | S n =>
      match extract_hex l with
      | None => None
      | Some (value, rest) =>
          bs ← parse_gid_loop n (match n with O => rest | S _ => ignore1 rest end);
          Some (u8 value :: bs)
      end
  end.
Definition parse_gid (gid : text) : option (list Z) := parse_gid_loop 16 gid.

(** ** Digits read back *)
Lemma digit_val_char d : 0 <= d < 16 -> digit_val (digit_char d) = Some d.
Proof.
  intros Hd. assert (Hin : d ∈ seqZ 0 16) by (apply elem_of_seqZ; lia).
  repeat (apply elem_of_cons in Hin as [->|Hin]; [reflexivity|]). by apply elem_of_nil in Hin.
Qed.

Lemma scan_digit base d l acc seen :
  0 <= d < base -> base <= 16 ->
  scan_digits base (digit_char d :: l) acc seen = scan_digits base l (acc * base + d) true.
Proof.
  intros Hd Hb. cbn [scan_digits]. rewrite digit_val_char by lia.
  by rewrite (proj2 (Z.ltb_lt d base)) by lia.
Qed.

Lemma scan_print fuel base : 1 < base <= 16 -> forall n tl seen,
  0 <= n -> n < base ^ Z.of_nat fuel -> (0 < fuel)%nat ->
  scan_digits base (print_digits fuel base n tl) 0 seen = scan_digits base tl n true.
Proof.
  intros Hb. induction fuel as [|fuel IH]; intros n tl seen Hn Hlt Hf; [lia|].
  cbn [print_digits]. destruct (Z.ltb_spec n base) as [Hs|Hs].
  - rewrite scan_digit by lia. f_equal.
  - rewrite Nat2Z.inj_succ, Z.pow_succ_r in Hlt by lia.
    assert (Hf' : (0 < fuel)%nat) by (destruct fuel; [cbn in Hlt; lia|lia]).
    rewrite IH; [|apply Z.div_pos; lia|apply Z.div_lt_upper_bound; lia|done].
    rewrite scan_digit by (try apply Z.mod_pos_bound; lia).
    f_equal. pose proof (Z.div_mod n base). lia.
Qed.

Lemma log2_digits n : 0 <= n -> n < 10 ^ Z.of_nat (S (Z.to_nat (Z.log2 n))).
Proof.
  intros Hn. pose proof (Z.log2_nonneg n). rewrite Nat2Z.inj_succ, Z2Nat.id by done.
  destruct (Z.eq_dec n 0) as [->|Hne]; [cbn; lia|].
  apply Z.lt_le_trans with (2 ^ Z.succ (Z.log2 n)); [apply Z.log2_spec; lia|].
  apply Z.pow_le_mono_l. lia.
Qed.

(** Input that starts with no digit. *)
Definition no_digit (l : text) : Prop :=
  match l with [] => True | c :: _ => digit_val c = None end.

Lemma scan_stop base l v : no_digit l -> scan_digits base l v true = (v, true, l).
Proof. destruct l as [|c l]; cbn; [done|]. by intros ->. Qed.

(** The first character of a printed number is a digit: not a space, not a
    sign. *)
Lemma print_digits_head fuel base : 1 < base <= 16 -> forall n tl,
  0 <= n -> (0 < fuel)%nat -> exists d l,
    print_digits fuel base n tl = digit_char d :: l /\ 0 <= d < base.
Proof.
  intros Hb. induction fuel as [|fuel IH]; intros n tl Hn Hf; [lia|]. cbn [print_digits].
  destruct (Z.ltb_spec n base) as [Hs|Hs]; [by exists n, tl|].
  pose proof (Z.mod_pos_bound n base ltac:(lia)). destruct fuel as [|fuel].
  - by exists (n mod base), tl.
  - apply IH; [apply Z.div_pos; lia|lia].
Qed.

Lemma digit_not_special d : 0 <= d < 16 ->
  is_space (digit_char d) = false /\ char_code (digit_char d) <> 45 /\
  char_code (digit_char d) <> 43 /\ char_code (digit_char d) <> 120 /\
  char_code (digit_char d) <> 88.
Proof.
  intros Hd. assert (Hin : d ∈ seqZ 0 16) by (apply elem_of_seqZ; lia).
  repeat (apply elem_of_cons in Hin as [->|Hin]; [vm_compute; intuition congruence|]).
  by apply elem_of_nil in Hin.
Qed.

Lemma skip_to_digit d l : 0 <= d < 16 ->
  skip_sign (skip_spaces (digit_char d :: l)) = (false, digit_char d :: l).
Proof.
  intros Hd. destruct (digit_not_special d Hd) as (Hs & Hm & Hp & _).
  cbn [skip_spaces]. rewrite Hs. cbn [skip_sign].
  by rewrite (proj2 (Z.eqb_neq _ 45)), (proj2 (Z.eqb_neq _ 43)).
Qed.

(** ** Round trips *)
Lemma extract_print n rest :
  is_u32 n -> no_digit rest -> extract_u32 (SPACE :: print_dec n ++ rest) = Some (n, rest).
Proof.
  intros Hn Hr. pose proof (proj1 Hn) as Hn0.
  assert (Happ : forall f b m tl, print_digits f b m tl ++ rest = print_digits f b m (tl ++ rest)).
  { induction f as [|f IH]; intros b m tl; cbn; [done|]. destruct (m <? b); [done|]. apply IH. }
  unfold extract_u32, print_dec. rewrite Happ. cbn [app].
  change (skip_spaces (SPACE :: ?l)) with (skip_spaces l).
  set (fuel := S (Z.to_nat (Z.log2 n))).
  destruct (print_digits_head fuel 10 ltac:(lia) n rest Hn0 ltac:(lia)) as (d & l & Hd & Hd10).
  pose proof (scan_print fuel 10 ltac:(lia) n rest false Hn0 (log2_digits n Hn0) ltac:(lia)) as Hsc.
  rewrite Hd in Hsc |- *. rewrite skip_to_digit by lia. rewrite Hsc, scan_stop by done.
  cbn [negb]. rewrite (proj2 (Z.ltb_ge _ _)) by (word_unfold; lia). by rewrite u32_small.
Qed.

Lemma ToString_no_digit l : no_digit (ToString l).
Proof. destruct l; cbn; [done|]. reflexivity. Qed.

Lemma FromString_loop_ToString l : forall fuel,
  Forall is_u32 l -> (length (ToString l) < fuel)%nat -> FromString_loop fuel (ToString l) = Ok l.
Proof.
  induction l as [|n l IH]; intros [|fuel] Hl Hf; try (cbn in Hf; lia); [done|].
  apply Forall_cons in Hl as [Hn Hl].
  change (ToString (n :: l)) with ((SPACE :: print_dec n) ++ ToString l) in *.
  rewrite length_app in Hf. cbn [length] in Hf. cbn [FromString_loop app].
  rewrite extract_print by (done || apply ToString_no_digit).
  rewrite IH by (done || lia). done.
Qed.

Lemma FromString_ToString l : Forall is_u32 l -> FromString (ToString l) = Ok l.
Proof. intros Hl. apply FromString_loop_ToString; [done|lia]. Qed.

(** Queue pair numbers survive the textual exchange: [FromString] of
    [ToString] is the identity on lists of 32-bit numbers, and in particular
    its loop terminates. *)
Theorem qp_list_text_roundtrip l : Forall is_u32 l -> FromString (ToString l) = Ok l.
Proof. apply FromString_ToString. Qed.

Lemma qp_list_text_roundtrip_witness : FromString (ToString [0; 4294967295; 710]) = Ok [0; 4294967295; 710].
Proof. apply qp_list_text_roundtrip. repeat constructor; word_unfold; lia. Defined.

Lemma extract_hex2 b rest :
  is_u8 b -> no_digit rest -> extract_hex (print_hex2 b ++ rest) = Some (b, rest).
Proof.
  intros Hb Hr. assert (Hq : 0 <= b / 16 < 16) by word_lia.
  assert (Hm : 0 <= b mod 16 < 16) by (apply Z.mod_pos_bound; lia).
  unfold extract_hex, print_hex2. cbn [app]. rewrite skip_to_digit by lia.
  assert (Hx : skip_0x (digit_char (b / 16) :: digit_char (b mod 16) :: rest)
             = digit_char (b / 16) :: digit_char (b mod 16) :: rest).
  { destruct (digit_not_special (b mod 16) Hm) as (_ & _ & _ & H1 & H2). cbn [skip_0x].
    by rewrite (proj2 (Z.eqb_neq _ 120)), (proj2 (Z.eqb_neq _ 88)), andb_false_r. }
  rewrite Hx, !scan_digit, scan_stop by (done || lia). cbn [negb].
  replace ((0 * 16 + b / 16) * 16 + b mod 16) with b by word_lia.
  by rewrite (proj2 (Z.ltb_ge _ _)) by (word_unfold; lia).
Qed.

Lemma parse_gid_loop_print bs : forall b,
  is_u8 b -> Forall is_u8 bs ->
  parse_gid_loop (S (length bs)) (RdmaContext_gid (b :: bs)) = Some (b :: bs).
Proof.
  induction bs as [|c bs IH]; intros b Hb Hbs.
  - unfold RdmaContext_gid. cbn [fmap list_fmap concat length].
    cbn [parse_gid_loop]. rewrite extract_hex2 by done. cbn. by rewrite u8_small.
  - apply Forall_cons in Hbs as [Hc Hbs].
    change (RdmaContext_gid (b :: c :: bs))
      with (print_hex2 b ++ COLON :: RdmaContext_gid (c :: bs)).
    cbn [length]. remember (S (length bs)) as n eqn:Hn. cbn [parse_gid_loop].
    rewrite extract_hex2 by done. subst n. cbn [ignore1].
    rewrite (IH c Hc Hbs). cbn. by rewrite u8_small.
Qed.

Lemma parse_gid_print raw :
  length raw = 16%nat -> Forall is_u8 raw -> parse_gid (RdmaContext_gid raw) = Some raw.
Proof.
  intros Hlen Hraw. destruct raw as [|b bs]; [done|].
  apply Forall_cons in Hraw as [Hb Hbs]. unfold parse_gid.
  replace 16%nat with (S (length bs)) by (cbn in Hlen; lia). by apply parse_gid_loop_print.
Qed.

(** The GID survives the textual exchange: parsing the 16 two-digit
    hexadecimal groups [gid] prints gives back the 16 bytes. *)
Theorem gid_text_roundtrip raw :
  length raw = 16%nat -> Forall is_u8 raw -> parse_gid (RdmaContext_gid raw) = Some raw.
Proof. apply parse_gid_print. Qed.

Lemma gid_text_roundtrip_witness :
  parse_gid (RdmaContext_gid [254; 128; 0; 0; 0; 0; 0; 0; 10; 11; 12; 13; 14; 15; 16; 17])
    = Some [254; 128; 0; 0; 0; 0; 0; 0; 10; 11; 12; 13; 14; 15; 16; 17].
Proof. apply gid_text_roundtrip; [reflexivity|]. repeat constructor; word_unfold; lia. Defined.

(** ** Tokens

    [std::getline(stream, token, delim)] until it fails: a token ends at [delim] or
    at the end of the stream, and an empty rest is no token. *)
Fixpoint getline_tokens (delim : ascii) (l token : text) : list text :=
  match l with
  | [] => match token with [] => [] | _ => [rev token] end
  | c :: l => if decide (c = delim) then rev token :: getline_tokens delim l []
              else getline_tokens delim l (c :: token)
  end.

(** Tokens with [delim] between them. *)
Fixpoint join_tokens (delim : ascii) (l : list text) : text :=
  match l with
  | [] => []
  | [t] => t
  | t :: l => t ++ delim :: join_tokens delim l
  end.

Lemma getline_token delim t : forall rest token,
  delim ∉ t ->
  getline_tokens delim (t ++ rest) token = getline_tokens delim rest (rev t ++ token).
Proof.
  induction t as [|c t IH]; intros rest token Ht; [done|].
  apply not_elem_of_cons in Ht as [Hc Ht]. cbn [app getline_tokens].
  rewrite decide_False by done. rewrite IH by done. cbn. by rewrite <- app_assoc.
Qed.

(** Splitting undoes joining when no token contains the delimiter and the last one
    is not empty. *)
Lemma getline_join delim l :
  Forall (fun t => delim ∉ t) l -> last l <> Some [] ->
  getline_tokens delim (join_tokens delim l) [] = l.
Proof.
  induction 1 as [|t l Ht Hl IH]; intros Hlast; [done|]. destruct l as [|u l].
  - cbn. rewrite <- (app_nil_r t) at 1. rewrite getline_token by done. cbn. rewrite app_nil_r.
    destruct t as [|c t]; [done|]. destruct (rev (c :: t)) as [|x r] eqn:Hr.
    + apply (f_equal length) in Hr. rewrite length_rev in Hr. done.
    + by rewrite <- Hr, rev_involutive.
  - cbn [join_tokens]. change (match u :: l with [] => t | _ => _ end) with (t ++ delim :: join_tokens delim (u :: l)).
    rewrite getline_token by done. cbn [getline_tokens]. rewrite decide_True, app_nil_r, rev_involutive by done.
    f_equal. by apply IH.
Qed.
