(* ===== verification/Mem.v ===== *)
(** * Byte-addressed memory

    The process memory the packet code reads and writes through raw pointers:
    a finite map from addresses to bytes.  Loads and stores of [uint16_t],
    [uint32_t] and [uintptr_t] are little-endian (what [htole16]/[le16toh] and
    their 32-bit forms guarantee for the packet header, and the byte order of
    the machine for the free-list links); [memmove] reads its whole source
    before it writes.  The file ends with the frame lemmas the components use:
    what a store leaves alone, and when two loads agree. *)

From S2P Require Import Prelude.

Notation mem := (gmap Z Z).

Definition ld8 (m : mem) (a : Z) : Z := u8 (default 0 (m !! a)).
Definition st8 (m : mem) (a v : Z) : mem := <[a := u8 v]> m.

Fixpoint ld_le (n : nat) (m : mem) (a : Z) : Z :=
  match n with
  | O => 0
  | S n => ld8 m a + 0x100 * ld_le n m (a + 1)
  end.

Fixpoint st_le (n : nat) (m : mem) (a v : Z) : mem :=
  match n with
  | O => m
  | S n => st_le n (st8 m a v) (a + 1) (v / 0x100)
  end.

Fixpoint ld_bytes (m : mem) (a : Z) (n : nat) : list Z :=
  match n with
  | O => []
  | S n => ld8 m a :: ld_bytes m (a + 1) n
  end.

Fixpoint st_bytes (m : mem) (a : Z) (l : list Z) : mem :=
  match l with
  | [] => m
  | b :: l => st_bytes (st8 m a b) (a + 1) l
  end.

Definition ld16 (m : mem) (a : Z) : Z := ld_le 2 m a.
Definition ld32 (m : mem) (a : Z) : Z := ld_le 4 m a.
Definition ld64 (m : mem) (a : Z) : Z := ld_le 8 m a.
Definition st16 (m : mem) (a v : Z) : mem := st_le 2 m a v.
Definition st32 (m : mem) (a v : Z) : mem := st_le 4 m a v.
Definition st64 (m : mem) (a v : Z) : mem := st_le 8 m a v.

Definition memmove (m : mem) (dst src len : Z) : mem :=
  st_bytes m dst (ld_bytes m src (Z.to_nat len)).

(** The bytes of [m] and [m'] agree on [lo, hi). *)
Definition agree_on (lo hi : Z) (m m' : mem) : Prop :=
  forall a, lo <= a < hi -> ld8 m a = ld8 m' a.

(** The value of a little-endian byte string. *)
Fixpoint le_value (l : list Z) : Z :=
  match l with
  | [] => 0
  | b :: l => b + 0x100 * le_value l
  end.

(** ** Single bytes *)
Lemma ld8_range m a : is_u8 (ld8 m a).
Proof. apply u8_range. Qed.

Lemma ld8_st8_eq m a v : ld8 (st8 m a v) a = u8 v.
Proof. unfold ld8, st8. rewrite lookup_insert_eq. cbn. word_lia. Qed.

Lemma ld8_st8_ne m a b v : a <> b -> ld8 (st8 m a v) b = ld8 m b.
Proof. intros Hne. unfold ld8, st8. by rewrite lookup_insert_ne. Qed.

#[export] Hint Resolve ld8_range : word.

(** ** Frame: what a store leaves alone *)
Lemma ld8_st_le_out n : forall m a v x,
  x < a \/ a + Z.of_nat n <= x -> ld8 (st_le n m a v) x = ld8 m x.
Proof.
  induction n as [|n IH]; intros m a v x Hx; cbn [st_le]; [done|].
  rewrite IH by lia. apply ld8_st8_ne. lia.
Qed.

Lemma ld8_st_bytes_out l : forall m a x,
  x < a \/ a + Z.of_nat (length l) <= x -> ld8 (st_bytes m a l) x = ld8 m x.
Proof.
  induction l as [|b l IH]; intros m a x Hx; cbn [st_bytes length] in *; [done|].
  rewrite IH by lia. apply ld8_st8_ne. lia.
Qed.

(** ** Loads depend only on the bytes they read *)
Lemma ld_le_agree n : forall m m' a,
  agree_on a (a + Z.of_nat n) m m' -> ld_le n m a = ld_le n m' a.
Proof.
  induction n as [|n IH]; intros m m' a Hag; cbn [ld_le]; [done|].
  rewrite (Hag a) by lia. f_equal. f_equal.
  apply IH. intros x Hx. apply Hag. lia.
Qed.

Lemma ld_bytes_agree n : forall m m' a,
  agree_on a (a + Z.of_nat n) m m' -> ld_bytes m a n = ld_bytes m' a n.
Proof.
  induction n as [|n IH]; intros m m' a Hag; cbn [ld_bytes]; [done|].
  f_equal; [apply Hag; lia|]. apply IH. intros x Hx. apply Hag. lia.
Qed.

Lemma agree_st_le lo hi n m a v :
  hi <= a \/ a + Z.of_nat n <= lo -> agree_on lo hi (st_le n m a v) m.
Proof. intros H x Hx. apply ld8_st_le_out. lia. Qed.

Lemma agree_st_bytes lo hi m a l :
  hi <= a \/ a + Z.of_nat (length l) <= lo -> agree_on lo hi (st_bytes m a l) m.
Proof. intros H x Hx. apply ld8_st_bytes_out. lia. Qed.

Lemma agree_refl lo hi m : agree_on lo hi m m.
Proof. by intros x _. Qed.

Lemma agree_trans lo hi m1 m2 m3 :
  agree_on lo hi m1 m2 -> agree_on lo hi m2 m3 -> agree_on lo hi m1 m3.
Proof. intros H1 H2 x Hx. by rewrite H1, H2. Qed.

Lemma agree_sym lo hi m1 m2 : agree_on lo hi m1 m2 -> agree_on lo hi m2 m1.
Proof. intros H x Hx. by rewrite H. Qed.

Lemma agree_sub lo hi lo' hi' m1 m2 :
  lo <= lo' -> hi' <= hi -> agree_on lo hi m1 m2 -> agree_on lo' hi' m1 m2.
Proof. intros ?? H x Hx. apply H. lia. Qed.

#[export] Hint Resolve agree_refl agree_sym agree_st_le agree_st_bytes : rt.

(** ** Values read back *)
Lemma ld_le_range n : forall m a, 0 <= ld_le n m a < 0x100 ^ Z.of_nat n.
Proof.
  induction n as [|n IH]; intros m a; cbn [ld_le]; [cbn; lia|].
  rewrite Nat2Z.inj_succ, Z.pow_succ_r by lia.
  pose proof (ld8_range m a). specialize (IH m (a + 1)). word_unfold. lia.
Qed.

Lemma ld_le_st_le_eq n : forall m a v,
  ld_le n (st_le n m a v) a = v mod 0x100 ^ Z.of_nat n.
Proof.
  induction n as [|n IH]; intros m a v; cbn [ld_le st_le].
  - by rewrite Z.mod_1_r.
  - rewrite IH, ld8_st_le_out, ld8_st8_eq by lia.
    rewrite Nat2Z.inj_succ, Z.pow_succ_r by lia.
    rewrite Z.rem_mul_r by lia. reflexivity.
Qed.

Lemma ld_le_st_le_ne n k m a b v :
  a + Z.of_nat n <= b \/ b + Z.of_nat k <= a ->
  ld_le n (st_le k m b v) a = ld_le n m a.
Proof. intros H. apply ld_le_agree, agree_st_le. lia. Qed.

Lemma ld64_st64_eq m a v : is_u64 v -> ld64 (st64 m a v) a = v.
Proof.
  intros Hv. unfold ld64, st64. rewrite ld_le_st_le_eq.
  apply Z.mod_small. exact Hv.
Qed.

Lemma ld64_range m a : is_u64 (ld64 m a).
Proof. apply (ld_le_range 8). Qed.

#[export] Hint Resolve ld64_range : word.

(** ** Byte strings *)
Lemma length_ld_bytes n : forall m a, length (ld_bytes m a n) = n.
Proof. induction n as [|n IH]; intros m a; cbn; [done|]. by rewrite IH. Qed.

Lemma ld_bytes_app n k : forall m a,
  ld_bytes m a (n + k) = ld_bytes m a n ++ ld_bytes m (a + Z.of_nat n) k.
Proof.
  induction n as [|n IH]; intros m a; cbn [ld_bytes Nat.add app].
  - by rewrite Z.add_0_r.
  - f_equal. rewrite IH. f_equal. f_equal. lia.
Qed.

Lemma ld_bytes_take n k m a :
  (n <= k)%nat -> take n (ld_bytes m a k) = ld_bytes m a n.
Proof.
  intros H. replace k with (n + (k - n))%nat by lia.
  rewrite ld_bytes_app, take_app_le by (rewrite length_ld_bytes; lia).
  apply take_ge. rewrite length_ld_bytes. lia.
Qed.

Lemma ld_bytes_drop n k m a :
  (n <= k)%nat -> drop n (ld_bytes m a k) = ld_bytes m (a + Z.of_nat n) (k - n).
Proof.
  intros H. replace k with (n + (k - n))%nat at 1 by lia.
  rewrite ld_bytes_app, drop_app_ge by (rewrite length_ld_bytes; lia).
  rewrite length_ld_bytes, Nat.sub_diag. reflexivity.
Qed.

(** A field of a byte string. *)
Lemma ld_bytes_sub n j k m a :
  0 <= j -> (Z.to_nat j + k <= n)%nat ->
  ld_bytes m (a + j) k = take k (drop (Z.to_nat j) (ld_bytes m a n)).
Proof.
  intros Hj H. rewrite ld_bytes_drop by lia. rewrite ld_bytes_take by lia.
  by rewrite Z2Nat.id.
Qed.

Lemma ld_bytes_st_bytes_eq l : forall m a,
  ld_bytes (st_bytes m a l) a (length l) = u8 <$> l.
Proof.
  induction l as [|b l IH]; intros m a; cbn [st_bytes ld_bytes length]; [done|].
  rewrite IH, ld8_st_bytes_out, ld8_st8_eq by lia. reflexivity.
Qed.

Lemma u8_ld_bytes n : forall m a, u8 <$> ld_bytes m a n = ld_bytes m a n.
Proof.
  induction n as [|n IH]; intros m a; cbn [ld_bytes fmap list_fmap]; [done|].
  f_equal; [apply u8_small, ld8_range | apply IH].
Qed.

Lemma ld_bytes_memmove m dst src len :
  ld_bytes (memmove m dst src len) dst (Z.to_nat len) = ld_bytes m src (Z.to_nat len).
Proof.
  unfold memmove.
  rewrite <- (length_ld_bytes (Z.to_nat len) m src) at 2.
  rewrite ld_bytes_st_bytes_eq. apply u8_ld_bytes.
Qed.

Lemma agree_memmove lo hi m dst src len :
  hi <= dst \/ dst + Z.max 0 len <= lo -> agree_on lo hi (memmove m dst src len) m.
Proof. intros H. apply agree_st_bytes. rewrite length_ld_bytes. lia. Qed.

#[export] Hint Resolve agree_memmove : rt.

Lemma ld_le_value n : forall m a, ld_le n m a = le_value (ld_bytes m a n).
Proof.
  induction n as [|n IH]; intros m a; cbn [ld_le ld_bytes le_value]; [done|].
  by rewrite IH.
Qed.

(** The bytes of a little-endian number. *)
Fixpoint le_bytes (n : nat) (v : Z) : list Z :=
  match n with O => [] | S n => u8 v :: le_bytes n (v / 0x100) end.

Lemma st_le_bytes n : forall m a v, st_le n m a v = st_bytes m a (le_bytes n v).
Proof.
  induction n as [|n IH]; intros m a v; cbn [st_le le_bytes st_bytes]; [done|]. rewrite IH.
  f_equal. unfold st8. f_equal. word_lia.
Qed.
Lemma length_le_bytes n : forall v, length (le_bytes n v) = n.
Proof. induction n as [|n IH]; intros v; cbn; [done|]. by rewrite IH. Qed.
Lemma u8_le_bytes n : forall v, u8 <$> le_bytes n v = le_bytes n v.
Proof. induction n as [|n IH]; intros v; cbn; [done|]. rewrite IH. f_equal. word_lia. Qed.
Lemma ld_st_le_bytes n m a v : ld_bytes (st_bytes m a (le_bytes n v)) a n = le_bytes n v.
Proof.
  transitivity (ld_bytes (st_bytes m a (le_bytes n v)) a (length (le_bytes n v))).
  - by rewrite length_le_bytes.
  - by rewrite ld_bytes_st_bytes_eq, u8_le_bytes.
Qed.
#[global] Arguments ld8 : simpl never.
#[global] Arguments st8 : simpl never.
#[global] Arguments ld16 : simpl never.
#[global] Arguments ld32 : simpl never.
#[global] Arguments ld64 : simpl never.
#[global] Arguments st16 : simpl never.
#[global] Arguments st32 : simpl never.
#[global] Arguments st64 : simpl never.
#[global] Arguments memmove : simpl never.
