(* ===== verification/Packet.v ===== *)
(** * Packets: header, immediate word and packet handles

    Models [PktHdrImm], [PktHdr] and [PacketHandle] of
    src/protocols/rdma_unreliable/packet_manager.{h,cpp}: the 4-byte immediate
    that carries session, command and 24-bit sequence number, the 8-byte header
    written in front of the payload, and the operations that attach a payload,
    serialize a packet into gather slices and deserialize a received one.

    A return code is a [Z] ([0] or [ERR]); [serialize] returns [None] where the
    source returns -1 before touching its output parameters. *)

From S2P Require Import Prelude Mem.

(** [struct Buffer] of include/rapid_transfer.h. *)
Record Buffer := mkBuffer { buf_addr : Z; buf_length : Z }.
#[export] Instance Buffer_fields : Fields Buffer :=
  mkFields (fun b => mkBuffer (buf_addr b) (buf_length b)).
#[export] Instance Buffer_eq_dec : EqDecision Buffer.
Proof. solve_decision. Defined.

Definition PKT_CMD_DATA : Z := 0.
Definition PKT_CMD_ACK : Z := 1.

(** [SHORT_SN(x)]: the 24-bit sequence number of a 64-bit index. *)
Definition SHORT_SN (x : Z) : Z := Z.land (u32 x) 0xffffff.

(** [union PktHdrImm]: [raw] is the 32-bit word; the bit fields share its first
    byte ([session] in the low six bits, then [cmd], then [compacted]) and
    [sn[0..2]] are the three following bytes. *)
Definition PktHdrImm_byte (raw : Z) (k : Z) : Z := Z.land (Z.shiftr raw (8 * k)) 0xff.
Definition PktHdrImm_session (raw : Z) : Z := Z.land (PktHdrImm_byte raw 0) 0x3f.
Definition PktHdrImm_cmd (raw : Z) : Z := Z.land (Z.shiftr (PktHdrImm_byte raw 0) 6) 1.
Definition PktHdrImm_compacted (raw : Z) : Z := Z.shiftr (PktHdrImm_byte raw 0) 7.
Definition PktHdrImm_make (session cmd compacted sn0 sn1 sn2 : Z) : Z :=
  le_value [Z.lor (Z.lor session (Z.shiftl cmd 6)) (Z.shiftl compacted 7);
            sn0; sn1; sn2].

Definition kGRHSize : Z := 40.
Definition sizeof_PktHdr : Z := 8.

(** [struct PktHdr] at an address: [wnd] at +0, [ts_lo] at +2, [ts_hi] at +4. *)
Definition PktHdr_store (m : mem) (p wnd ts_lo ts_hi : Z) : mem :=
  st32 (st16 (st16 m p wnd) (p + 2) ts_lo) (p + 4) ts_hi.
Definition PktHdr_wnd (m : mem) (p : Z) : Z := ld16 m p.
Definition PktHdr_ts_lo (m : mem) (p : Z) : Z := ld16 m (p + 2).
Definition PktHdr_ts_hi (m : mem) (p : Z) : Z := ld32 m (p + 4).

#[global] Arguments PktHdr_store : simpl never.
#[global] Arguments PktHdr_wnd : simpl never.
#[global] Arguments PktHdr_ts_lo : simpl never.
#[global] Arguments PktHdr_ts_hi : simpl never.
#[global] Arguments SHORT_SN : simpl never.

(** [class PacketHandle]. *)
Record PacketHandle := mkPacketHandle {
  ph_session : Z;
  ph_cmd : Z;
  ph_wnd : Z;
  ph_sn : Z;
  ph_ts : Z;
  ph_compacted : bool;
  ph_inflight : bool;
  ph_pkt_hdr_imm : Z;
  ph_with_grh : bool;
  ph_packet_buf : Z;
  ph_data_len : Z;
  ph_data_buf : Z
}.
#[export] Instance PacketHandle_fields : Fields PacketHandle := mkFields (fun h =>
  mkPacketHandle (ph_session h) (ph_cmd h) (ph_wnd h) (ph_sn h) (ph_ts h)
    (ph_compacted h) (ph_inflight h) (ph_pkt_hdr_imm h) (ph_with_grh h)
    (ph_packet_buf h) (ph_data_len h) (ph_data_buf h)).

(** The constructor only clears [packet_buf]; the other members hold whatever
    the storage held, here [junk]. *)
Definition PacketHandle_ctor (junk : PacketHandle) : PacketHandle :=
  junk <| ph_packet_buf := 0 |>.

Definition PacketHandle_setRawPacket (h : PacketHandle) (packet_buf : Z)
    (with_grh : bool) : Z * PacketHandle :=
  (0, mkPacketHandle 0 0 0 0 0 false false 0 with_grh packet_buf 0 0).

Definition PacketHandle_getRawPacket (h : PacketHandle) : Z := ph_packet_buf h.

(** Address of the payload area that follows the header. *)
Definition PacketHandle_inline_data (h : PacketHandle) : Z :=
  ph_packet_buf h + sizeof_PktHdr + (if ph_with_grh h then kGRHSize else 0).

Definition PacketHandle_setPayload (h : PacketHandle) (m : mem)
    (data length : Z) (do_copy : bool) : Z * PacketHandle * mem :=
  if ph_packet_buf h =? 0 then (ERR, h, m)
  else if (data =? 0) && negb (length =? 0) then (ERR, h, m)
  else
    let '(h1, m1) :=
      if do_copy
      then (h <| ph_data_buf := 0 |>,
            memmove m (PacketHandle_inline_data h) data length)
      else (h <| ph_data_buf := data |>, m) in
    (0, h1 <| ph_data_len := u32 length |>, m1).

Definition PacketHandle_getPayload (h : PacketHandle) : Z :=
  if (ph_packet_buf h =? 0) || (ph_data_len h =? 0) then 0
  else if negb (ph_data_buf h =? 0) then ph_data_buf h
  else PacketHandle_inline_data h.

Definition PacketHandle_getPayloadLength (h : PacketHandle) : Z := ph_data_len h.

Definition PacketHandle_encode (h : PacketHandle) (m : mem) : Z * PacketHandle * mem :=
  if ph_packet_buf h =? 0 then (ERR, h, m)
  else
    let compacted := if ph_compacted h then 1 else 0 in
    let raw := PktHdrImm_make
      (Z.land (ph_session h) (Z.shiftl 1 6 - 1))
      (Z.land (ph_cmd h) 1)
      compacted
      (u8 (Z.land (ph_sn h) 0xff))
      (u8 (Z.land (Z.shiftr (ph_sn h) 8) 0xff))
      (u8 (Z.land (Z.shiftr (ph_sn h) 16) 0xff)) in
    let h1 := h <| ph_pkt_hdr_imm := raw |> in
    if compacted =? 0
    then (0, h1, PktHdr_store m (ph_packet_buf h) (ph_wnd h)
                   (u16 (Z.land (ph_ts h) 0xffff))
                   (u32 (Z.land (Z.shiftr (ph_ts h) 16) 0xffffffff)))
    else (0, h1, m).

Definition PacketHandle_decode (h : PacketHandle) (m : mem) : Z * PacketHandle :=
  if ph_packet_buf h =? 0 then (ERR, h)
  else
    let raw := ph_pkt_hdr_imm h in
    let h1 :=
      if PktHdrImm_compacted raw =? 0
      then
        let p := ph_packet_buf h + (if ph_with_grh h then kGRHSize else 0) in
        h <| ph_wnd := PktHdr_wnd m p |>
          <| ph_ts := Z.lor (Z.shiftl (PktHdr_ts_hi m p) 16) (PktHdr_ts_lo m p) |>
      else h in
    (0, h1 <| ph_session := PktHdrImm_session raw |>
           <| ph_cmd := PktHdrImm_cmd raw |>
           <| ph_compacted := negb (PktHdrImm_compacted raw =? 0) |>
           <| ph_sn := Z.lor (Z.lor (PktHdrImm_byte raw 1)
                                    (Z.shiftl (PktHdrImm_byte raw 2) 8))
                             (Z.shiftl (PktHdrImm_byte raw 3) 16) |>
           <| ph_data_buf := 0 |>).

Definition PacketHandle_deserialize (h : PacketHandle) (m : mem)
    (imm_data packet_length : Z) : Z * PacketHandle :=
  if ph_with_grh h then
    if packet_length <? sizeof_PktHdr + kGRHSize then (ERR, h)
    else PacketHandle_decode
      (h <| ph_pkt_hdr_imm := imm_data |>
         <| ph_data_len := u32 (packet_length - sizeof_PktHdr - kGRHSize) |>) m
  else
    if packet_length <? sizeof_PktHdr then (ERR, h)
    else PacketHandle_decode
      (h <| ph_pkt_hdr_imm := imm_data |>
         <| ph_data_len := u32 (packet_length - sizeof_PktHdr) |>) m.

(** [serialize(Buffer *slices, ...)]: both array entries are always written. *)
Definition PacketHandle_serialize_array (h : PacketHandle) (m : mem)
  : option (Buffer * Buffer * Z) * PacketHandle * mem :=
  if ph_packet_buf h =? 0 then (None, h, m)
  else if ph_with_grh h then (None, h, m)
  else
    let '(rc, h1, m1) := PacketHandle_encode h m in
    if negb (rc =? 0) then (None, h1, m1)
    else if ph_data_buf h1 =? 0
    then (Some (mkBuffer (ph_packet_buf h1) (sizeof_PktHdr + ph_data_len h1),
                mkBuffer 0 0, ph_pkt_hdr_imm h1), h1, m1)
    else (Some (mkBuffer (ph_packet_buf h1) sizeof_PktHdr,
                mkBuffer (ph_data_buf h1) (ph_data_len h1), ph_pkt_hdr_imm h1), h1, m1).

(** [serialize(std::vector<Buffer> &slices, ...)]. *)
Definition PacketHandle_serialize_vector (h : PacketHandle) (m : mem)
  : option (list Buffer * Z) * PacketHandle * mem :=
  if ph_packet_buf h =? 0 then (None, h, m)
  else if ph_with_grh h then (None, h, m)
  else
    let '(rc, h1, m1) := PacketHandle_encode h m in
    if negb (rc =? 0) then (None, h1, m1)
    else if ph_data_buf h1 =? 0
    then (Some ([mkBuffer (ph_packet_buf h1) (sizeof_PktHdr + ph_data_len h1)],
                ph_pkt_hdr_imm h1), h1, m1)
    else (Some ([mkBuffer (ph_packet_buf h1) sizeof_PktHdr;
                 mkBuffer (ph_data_buf h1) (ph_data_len h1)],
                ph_pkt_hdr_imm h1), h1, m1).

(** The bytes a list of gather slices names, in order: what the NIC sends. *)
Definition gather (m : mem) (slices : list Buffer) : list Z :=
  concat ((fun b => ld_bytes m (buf_addr b) (Z.to_nat (buf_length b))) <$> slices).

(** Every member of a handle is within the width of its C++ type. *)
Definition PacketHandle_wf (h : PacketHandle) : Prop :=
  is_u8 (ph_session h) /\ is_u8 (ph_cmd h) /\ is_u16 (ph_wnd h) /\
  is_u32 (ph_sn h) /\ is_u64 (ph_ts h) /\ is_u32 (ph_data_len h).

(** The payload bytes a handle designates. *)
Definition PacketHandle_payload (h : PacketHandle) (m : mem) : list Z :=
  ld_bytes m (if ph_data_buf h =? 0 then PacketHandle_inline_data h
              else ph_data_buf h) (Z.to_nat (ph_data_len h)).

(** ** Bit-field arithmetic *)
Lemma lor_shiftl_add (a b n : Z) :
  0 <= n -> 0 <= a < 2 ^ n -> 0 <= b -> Z.lor a (Z.shiftl b n) = a + 2 ^ n * b.
Proof.
  intros Hn Ha Hb.
  assert (Hz : Z.land a (Z.shiftl b n) = 0).
  { apply Z.bits_inj'. intros k Hk. rewrite Z.land_spec, Z.bits_0, Z.shiftl_spec by lia.
    destruct (Z.lt_ge_cases k n) as [Hlt|Hge].
    - rewrite (Z.testbit_neg_r b) by lia. apply andb_false_r.
    - rewrite <- (Z.mod_small a (2 ^ n)) by lia.
      rewrite Z.mod_pow2_bits_high by lia. reflexivity. }
  pose proof (Z.add_lor_land a (Z.shiftl b n)) as Hadd.
  rewrite Hz, Z.shiftl_mul_pow2 in * by lia. lia.
Qed.

Lemma land_ones_mod (x n : Z) : 0 <= n -> Z.land x (Z.ones n) = x mod 2 ^ n.
Proof. apply Z.land_ones. Qed.

Lemma SHORT_SN_mod x : SHORT_SN x = x mod 0x1000000.
Proof.
  unfold SHORT_SN. change 0xffffff with (Z.ones 24).
  rewrite land_ones_mod by lia. change (2 ^ 24) with 0x1000000. word_lia.
Qed.

Lemma SHORT_SN_range x : 0 <= SHORT_SN x < 0x1000000.
Proof. rewrite SHORT_SN_mod. apply Z.mod_pos_bound. lia. Qed.

#[export] Hint Resolve SHORT_SN_range : word.

Lemma PktHdrImm_byte_mod raw k :
  0 <= k -> PktHdrImm_byte raw k = (raw / 2 ^ (8 * k)) mod 0x100.
Proof.
  intros Hk. unfold PktHdrImm_byte. change 0xff with (Z.ones 8).
  rewrite land_ones_mod, Z.shiftr_div_pow2 by lia. reflexivity.
Qed.

Lemma PktHdrImm_make_value s c k n0 n1 n2 :
  0 <= s < 64 -> 0 <= c < 2 -> 0 <= k < 2 ->
  PktHdrImm_make s c k n0 n1 n2
  = (s + 64 * c + 128 * k) + 0x100 * n0 + 0x10000 * n1 + 0x1000000 * n2.
Proof.
  intros Hs Hc Hk. unfold PktHdrImm_make. cbn [le_value].
  rewrite (lor_shiftl_add s c 6) by lia.
  rewrite (lor_shiftl_add _ k 7) by lia. lia.
Qed.

Section imm_fields.
Context (s c k n0 n1 n2 : Z).
Context (Hs : 0 <= s < 64) (Hc : 0 <= c < 2) (Hk : 0 <= k < 2).
Context (H0 : is_u8 n0) (H1 : is_u8 n1) (H2 : is_u8 n2).

Lemma PktHdrImm_byte0_make :
  PktHdrImm_byte (PktHdrImm_make s c k n0 n1 n2) 0 = s + 64 * c + 128 * k.
Proof using H0 H1 H2 Hc Hk Hs.
  rewrite PktHdrImm_byte_mod, PktHdrImm_make_value by lia.
  change (2 ^ (8 * 0)) with 1. word_lia.
Qed.

Lemma PktHdrImm_sn_make :
  PktHdrImm_byte (PktHdrImm_make s c k n0 n1 n2) 1 = n0 /\
  PktHdrImm_byte (PktHdrImm_make s c k n0 n1 n2) 2 = n1 /\
  PktHdrImm_byte (PktHdrImm_make s c k n0 n1 n2) 3 = n2.
Proof using H0 H1 H2 Hc Hk Hs.
  rewrite !PktHdrImm_byte_mod, PktHdrImm_make_value by lia.
  change (2 ^ (8 * 1)) with 0x100. change (2 ^ (8 * 2)) with 0x10000.
  change (2 ^ (8 * 3)) with 0x1000000. repeat split; word_lia.
Qed.

Lemma PktHdrImm_flags_make :
  PktHdrImm_session (PktHdrImm_make s c k n0 n1 n2) = s /\
  PktHdrImm_cmd (PktHdrImm_make s c k n0 n1 n2) = c /\
  PktHdrImm_compacted (PktHdrImm_make s c k n0 n1 n2) = k.
Proof using H0 H1 H2 Hc Hk Hs.
  unfold PktHdrImm_session, PktHdrImm_cmd, PktHdrImm_compacted.
  rewrite PktHdrImm_byte0_make.
  change 0x3f with (Z.ones 6).
  change (Z.land ?x 1) with (Z.land x (Z.ones 1)).
  rewrite !land_ones_mod, !Z.shiftr_div_pow2 by lia.
  change (2 ^ 6) with 64. change (2 ^ 1) with 2. change (2 ^ 7) with 128.
  repeat split; Z.div_mod_to_equations; lia.
Qed.

Lemma PktHdrImm_make_range : is_u32 (PktHdrImm_make s c k n0 n1 n2).
Proof using H0 H1 H2 Hc Hk Hs. rewrite PktHdrImm_make_value by lia. word_unfold. lia. Qed.
End imm_fields.

(** The three bytes of a sequence number recombine to its low 24 bits. *)
Lemma sn_bytes_recombine sn :
  Z.lor (Z.lor (u8 (Z.land sn 0xff)) (Z.shiftl (u8 (Z.land (Z.shiftr sn 8) 0xff)) 8))
        (Z.shiftl (u8 (Z.land (Z.shiftr sn 16) 0xff)) 16)
  = SHORT_SN sn.
Proof.
  rewrite SHORT_SN_mod. change 0xff with (Z.ones 8).
  rewrite !land_ones_mod, !Z.shiftr_div_pow2 by lia.
  change (2 ^ 8) with 0x100. change (2 ^ 16) with 0x10000.
  rewrite (lor_shiftl_add _ _ 8) by (change (2 ^ 8) with 0x100; word_lia).
  rewrite (lor_shiftl_add _ _ 16)
    by (change (2 ^ 16) with 0x10000; change (2 ^ 8) with 0x100; word_lia).
  change (2 ^ 8) with 0x100. change (2 ^ 16) with 0x10000. word_lia.
Qed.

(** The two halves of a timestamp recombine to its low 48 bits. *)
Lemma ts_halves_recombine ts :
  0 <= ts ->
  Z.lor (Z.shiftl (u32 (Z.land (Z.shiftr ts 16) 0xffffffff)) 16)
        (u16 (Z.land ts 0xffff))
  = ts mod 2 ^ 48.
Proof.
  intros Hts. rewrite Z.lor_comm.
  change 0xffffffff with (Z.ones 32). change 0xffff with (Z.ones 16).
  rewrite !land_ones_mod, Z.shiftr_div_pow2 by lia.
  change (2 ^ 32) with 0x100000000. change (2 ^ 16) with 0x10000.
  rewrite (lor_shiftl_add _ _ 16) by (change (2 ^ 16) with 0x10000; word_lia).
  change (2 ^ 16) with 0x10000. change (2 ^ 48) with 0x1000000000000. word_lia.
Qed.

(** ** Header in memory *)
Lemma PktHdr_store_read m p wnd lo hi :
  is_u16 wnd -> is_u16 lo -> is_u32 hi ->
  PktHdr_wnd (PktHdr_store m p wnd lo hi) p = wnd /\
  PktHdr_ts_lo (PktHdr_store m p wnd lo hi) p = lo /\
  PktHdr_ts_hi (PktHdr_store m p wnd lo hi) p = hi.
Proof.
  intros Hw Hl Hh.
  unfold PktHdr_wnd, PktHdr_ts_lo, PktHdr_ts_hi, PktHdr_store, ld16, ld32, st16, st32.
  repeat split.
  - rewrite !ld_le_st_le_ne by lia. rewrite ld_le_st_le_eq. apply Z.mod_small. done.
  - rewrite ld_le_st_le_ne by lia. rewrite ld_le_st_le_eq. apply Z.mod_small. done.
  - rewrite ld_le_st_le_eq. apply Z.mod_small. done.
Qed.

Lemma agree_PktHdr_store a b m p wnd lo hi :
  b <= p \/ p + sizeof_PktHdr <= a -> agree_on a b (PktHdr_store m p wnd lo hi) m.
Proof.
  unfold sizeof_PktHdr, PktHdr_store, st16, st32. intros H x Hx.
  rewrite !ld8_st_le_out by lia. done.
Qed.

(** A header is determined by its eight bytes. *)
Lemma PktHdr_of_bytes m1 m2 a b :
  ld_bytes m1 a 8 = ld_bytes m2 b 8 ->
  PktHdr_wnd m1 a = PktHdr_wnd m2 b /\
  PktHdr_ts_lo m1 a = PktHdr_ts_lo m2 b /\
  PktHdr_ts_hi m1 a = PktHdr_ts_hi m2 b.
Proof.
  intros H. unfold PktHdr_wnd, PktHdr_ts_lo, PktHdr_ts_hi, ld16, ld32.
  rewrite !ld_le_value.
  repeat split; f_equal.
  - rewrite <- (ld_bytes_take 2 8 m1 a), <- (ld_bytes_take 2 8 m2 b) by lia. by rewrite H.
  - rewrite (ld_bytes_sub 8 2 2 m1 a), (ld_bytes_sub 8 2 2 m2 b) by lia. by rewrite H.
  - rewrite (ld_bytes_sub 8 4 4 m1 a), (ld_bytes_sub 8 4 4 m2 b) by lia. by rewrite H.
Qed.

(** ** Encoding and serialization *)
Definition PacketHandle_imm (h : PacketHandle) : Z :=
  PktHdrImm_make (Z.land (ph_session h) (Z.shiftl 1 6 - 1)) (Z.land (ph_cmd h) 1)
    (if ph_compacted h then 1 else 0)
    (u8 (Z.land (ph_sn h) 0xff))
    (u8 (Z.land (Z.shiftr (ph_sn h) 8) 0xff))
    (u8 (Z.land (Z.shiftr (ph_sn h) 16) 0xff)).

Lemma PacketHandle_imm_fields h :
  PktHdrImm_session (PacketHandle_imm h) = ph_session h mod 64 /\
  PktHdrImm_cmd (PacketHandle_imm h) = ph_cmd h mod 2 /\
  PktHdrImm_compacted (PacketHandle_imm h) = (if ph_compacted h then 1 else 0) /\
  Z.lor (Z.lor (PktHdrImm_byte (PacketHandle_imm h) 1)
               (Z.shiftl (PktHdrImm_byte (PacketHandle_imm h) 2) 8))
        (Z.shiftl (PktHdrImm_byte (PacketHandle_imm h) 3) 16) = SHORT_SN (ph_sn h).
Proof.
  unfold PacketHandle_imm.
  change (Z.shiftl 1 6 - 1) with (Z.ones 6).
  change (Z.land (ph_cmd h) 1) with (Z.land (ph_cmd h) (Z.ones 1)).
  rewrite (land_ones_mod (ph_session h) 6), (land_ones_mod (ph_cmd h) 1) by lia.
  change (2 ^ 6) with 64. change (2 ^ 1) with 2.
  pose proof (Z.mod_pos_bound (ph_session h) 64 ltac:(lia)).
  pose proof (Z.mod_pos_bound (ph_cmd h) 2 ltac:(lia)).
  assert (0 <= (if ph_compacted h then 1 else 0) < 2) by (destruct (ph_compacted h); lia).
  edestruct PktHdrImm_flags_make as (E1 & E2 & E3); [..|rewrite E1, E2, E3]; auto with word.
  edestruct PktHdrImm_sn_make as (B1 & B2 & B3); [..|rewrite B1, B2, B3]; auto with word.
  rewrite sn_bytes_recombine. done.
Qed.

Lemma PacketHandle_encode_eq h m :
  ph_packet_buf h <> 0 ->
  PacketHandle_encode h m =
    (0, h <| ph_pkt_hdr_imm := PacketHandle_imm h |>,
     if ph_compacted h then m
     else PktHdr_store m (ph_packet_buf h) (ph_wnd h)
            (u16 (Z.land (ph_ts h) 0xffff))
            (u32 (Z.land (Z.shiftr (ph_ts h) 16) 0xffffffff))).
Proof.
  intros Hb. unfold PacketHandle_encode.
  rewrite (proj2 (Z.eqb_neq _ _) Hb).
  unfold PacketHandle_imm. destruct (ph_compacted h); reflexivity.
Qed.

(** The slices of a serialized packet: one when the payload follows the header
    (or is empty), two when the payload is attached zero-copy. *)
Definition PacketHandle_slices (h : PacketHandle) : list Buffer :=
  if ph_data_buf h =? 0
  then [mkBuffer (ph_packet_buf h) (sizeof_PktHdr + ph_data_len h)]
  else [mkBuffer (ph_packet_buf h) sizeof_PktHdr;
        mkBuffer (ph_data_buf h) (ph_data_len h)].

Lemma PacketHandle_serialize_vector_eq h m :
  ph_packet_buf h <> 0 -> ph_with_grh h = false ->
  PacketHandle_serialize_vector h m =
    (Some (PacketHandle_slices h, PacketHandle_imm h),
     h <| ph_pkt_hdr_imm := PacketHandle_imm h |>,
     snd (PacketHandle_encode h m)).
Proof.
  intros Hb Hg. unfold PacketHandle_serialize_vector, PacketHandle_slices.
  rewrite (proj2 (Z.eqb_neq _ _) Hb), Hg, PacketHandle_encode_eq by done. cbn.
  destruct (ph_data_buf h =? 0); reflexivity.
Qed.

(** The array form names the same bytes: its second slice is empty exactly when
    the vector form has one slice. *)
Lemma PacketHandle_serialize_array_gather h m s0 s1 imm h' m' :
  PacketHandle_serialize_array h m = (Some (s0, s1, imm), h', m') ->
  PacketHandle_serialize_vector h m
    = (Some (if ph_data_buf h =? 0 then [s0] else [s0; s1], imm), h', m') /\
  gather m' [s0; s1] = gather m' (if ph_data_buf h =? 0 then [s0] else [s0; s1]).
Proof.
  unfold PacketHandle_serialize_array, PacketHandle_serialize_vector.
  destruct (ph_packet_buf h =? 0) eqn:Hb; [done|].
  destruct (ph_with_grh h) eqn:Hg; [done|].
  rewrite PacketHandle_encode_eq by lia. cbn.
  destruct (ph_data_buf h =? 0) eqn:Hd; intros [= <- <- <- <- <-]; split; reflexivity.
Qed.

(** The wire image of a packet is its header followed by its payload. *)
Lemma gather_slices h m :
  0 <= ph_data_len h -> ph_with_grh h = false ->
  gather m (PacketHandle_slices h)
  = ld_bytes m (ph_packet_buf h) 8 ++ PacketHandle_payload h m.
Proof.
  intros Hl Hg. unfold gather, PacketHandle_slices, PacketHandle_payload,
    PacketHandle_inline_data, sizeof_PktHdr. rewrite Hg.
  destruct (ph_data_buf h =? 0); cbn [fmap list_fmap concat buf_addr buf_length];
    rewrite app_nil_r; [|done].
  rewrite Z2Nat.inj_add by lia. rewrite ld_bytes_app. do 2 f_equal. lia.
Qed.

(** ** From the wire back to a handle *)
Definition PacketHandle_received (h rx : PacketHandle) : PacketHandle :=
  mkPacketHandle (ph_session h mod 64) (ph_cmd h mod 2)
    (if ph_compacted h then ph_wnd rx else ph_wnd h)
    (SHORT_SN (ph_sn h))
    (if ph_compacted h then ph_ts rx else ph_ts h mod 2 ^ 48)
    (ph_compacted h) (ph_inflight rx) (PacketHandle_imm h) (ph_with_grh rx)
    (ph_packet_buf rx) (ph_data_len h) 0.

Lemma PacketHandle_decode_received h rx m :
  PacketHandle_wf h -> ph_packet_buf rx <> 0 ->
  ph_pkt_hdr_imm rx = PacketHandle_imm h -> ph_data_len rx = ph_data_len h ->
  (let p := ph_packet_buf rx + (if ph_with_grh rx then kGRHSize else 0) in
   ph_compacted h = false ->
   PktHdr_wnd m p = ph_wnd h /\
   PktHdr_ts_lo m p = u16 (Z.land (ph_ts h) 0xffff) /\
   PktHdr_ts_hi m p = u32 (Z.land (Z.shiftr (ph_ts h) 16) 0xffffffff)) ->
  PacketHandle_decode rx m = (0, PacketHandle_received h rx).
Proof.
  intros Hwf Hb Himm Hlen Hhdr. unfold PacketHandle_decode, PacketHandle_received.
  rewrite (proj2 (Z.eqb_neq _ _) Hb), Himm.
  destruct (PacketHandle_imm_fields h) as (E1 & E2 & E3 & E4).
  rewrite E1, E2, E3, E4.
  destruct (ph_compacted h); [|destruct (Hhdr eq_refl) as (W & L & H); rewrite W, L, H;
    rewrite ts_halves_recombine by apply Hwf]; destruct rx; cbn in *; by rewrite Himm, Hlen.
Qed.

Lemma PacketHandle_deserialize_wire h rx ms mr wire :
  PacketHandle_wf h -> ph_packet_buf h <> 0 -> ph_with_grh h = false ->
  ph_with_grh rx = true -> ph_packet_buf rx <> 0 ->
  wire = gather (snd (PacketHandle_encode h ms)) (PacketHandle_slices h) ->
  ld_bytes mr (ph_packet_buf rx + kGRHSize) (length wire) = wire ->
  PacketHandle_deserialize rx mr (PacketHandle_imm h) (kGRHSize + Z.of_nat (length wire))
    = (0, PacketHandle_received h rx) /\
  PacketHandle_payload (PacketHandle_received h rx) mr
    = PacketHandle_payload h (snd (PacketHandle_encode h ms)).
Proof.
  intros Hwf Hb Hg Hgr Hbr Hwire Hmem.
  assert (Hwfl := Hwf). destruct Hwfl as (_ & _ & Hw & _ & _ & Hl).
  rewrite gather_slices in Hwire by (first [done|apply Hl]).
  set (ms' := snd (PacketHandle_encode h ms)) in *.
  assert (Hlen : length wire = (8 + Z.to_nat (ph_data_len h))%nat).
  { rewrite Hwire, length_app, length_ld_bytes. unfold PacketHandle_payload.
    by rewrite length_ld_bytes. }
  rewrite Hlen in *. rewrite ld_bytes_app, Hwire in Hmem.
  apply app_inj_1 in Hmem; [|by rewrite !length_ld_bytes]. destruct Hmem as [Hh Hp].
  split.
  - unfold PacketHandle_deserialize. rewrite Hgr.
    destruct (_ <? _) eqn:Hlt; [exfalso; unfold is_u32, kGRHSize, sizeof_PktHdr in *; lia|].
    replace (_ - sizeof_PktHdr - kGRHSize) with (ph_data_len h)
      by (unfold is_u32, kGRHSize, sizeof_PktHdr in *; lia).
    rewrite u32_small by done.
    rewrite (PacketHandle_decode_received h); cbn; try done.
    intros Hc. rewrite Hgr.
    destruct (PktHdr_of_bytes _ _ _ _ Hh) as (-> & -> & ->).
    unfold ms'. rewrite PacketHandle_encode_eq by done. rewrite Hc. cbn [snd].
    apply PktHdr_store_read; auto with word.
  - change (PacketHandle_payload (PacketHandle_received h rx) mr)
      with (ld_bytes mr (ph_packet_buf rx + sizeof_PktHdr +
              (if ph_with_grh rx then kGRHSize else 0)) (Z.to_nat (ph_data_len h))).
    rewrite Hgr, <- Hp. f_equal. unfold kGRHSize, sizeof_PktHdr. lia.
Qed.

(** Serializing leaves a payload that does not overlap the header untouched. *)
Lemma PacketHandle_encode_payload h m :
  0 <= ph_data_len h -> ph_packet_buf h <> 0 ->
  (ph_data_buf h <> 0 ->
   ph_data_buf h + ph_data_len h <= ph_packet_buf h \/
   ph_packet_buf h + sizeof_PktHdr <= ph_data_buf h) ->
  PacketHandle_payload h (snd (PacketHandle_encode h m)) = PacketHandle_payload h m.
Proof.
  intros Hl Hb Hsep. rewrite PacketHandle_encode_eq by done. cbn [snd].
  destruct (ph_compacted h); [done|]. unfold PacketHandle_payload.
  apply ld_bytes_agree, agree_PktHdr_store.
  destruct (ph_data_buf h =? 0) eqn:Hd.
  - right. unfold PacketHandle_inline_data, kGRHSize. destruct (ph_with_grh h); lia.
  - rewrite Z2Nat.id by lia. unfold sizeof_PktHdr in *. lia.
Qed.

(** [C18] Wire round trip.  A packet serialized by the sender, delivered byte for
    byte behind the 40-byte GRH of a receive buffer together with its immediate
    word, deserializes without error to the sender's session (6 bits), command
    (1 bit), 24-bit sequence number, compaction flag, payload length and payload
    bytes, and, unless compacted, to its window and the low 48 bits of its
    timestamp. *)
Theorem packet_wire_roundtrip (h rx : PacketHandle) (ms mr : mem)
    (slices : list Buffer) (imm : Z) (h' : PacketHandle) (ms' : mem) :
  PacketHandle_wf h ->
  PacketHandle_serialize_vector h ms = (Some (slices, imm), h', ms') ->
  ph_with_grh rx = true -> ph_packet_buf rx <> 0 ->
  ld_bytes mr (ph_packet_buf rx + kGRHSize) (length (gather ms' slices))
    = gather ms' slices ->
  exists rx',
    PacketHandle_deserialize rx mr imm (kGRHSize + Z.of_nat (length (gather ms' slices)))
      = (0, rx') /\
    ph_session rx' = ph_session h mod 64 /\
    ph_cmd rx' = ph_cmd h mod 2 /\
    ph_sn rx' = SHORT_SN (ph_sn h) /\
    ph_compacted rx' = ph_compacted h /\
    (ph_compacted h = false ->
     ph_wnd rx' = ph_wnd h /\ ph_ts rx' = ph_ts h mod 2 ^ 48) /\
    PacketHandle_getPayloadLength rx' = ph_data_len h /\
    PacketHandle_payload rx' mr = PacketHandle_payload h ms'.
Proof.
  intros Hwf Hser Hgr Hbr Hmem.
  unfold PacketHandle_serialize_vector in Hser.
  destruct (ph_packet_buf h =? 0) eqn:Hb; [done|].
  destruct (ph_with_grh h) eqn:Hg; [done|].
  pose proof (PacketHandle_serialize_vector_eq h ms ltac:(lia) Hg) as Heq.
  unfold PacketHandle_serialize_vector in Heq. rewrite Hb, Hg, Hser in Heq.
  injection Heq as Hs Hi Hh Hm. subst slices imm ms'.
  destruct (PacketHandle_deserialize_wire h rx ms mr _ Hwf ltac:(lia) Hg Hgr Hbr eq_refl Hmem)
    as [Hd Hp].
  exists (PacketHandle_received h rx). rewrite Hd. cbn.
  repeat (split; [done|]). split; [intros ->; done|]. done.
Qed.

(** The handle, memory and receive buffer of the unit test [PacketHandle]. *)
Definition test_handle : PacketHandle :=
  mkPacketHandle 3 1 4096 0x5f1234 0x123456789abc false false 0 false 4096 5 0.
Definition test_mem : mem := st_bytes ∅ 4104 [72; 101; 108; 108; 111].
Definition test_rx : PacketHandle :=
  mkPacketHandle 0 0 0 0 0 false false 0 true 8192 0 0.
Definition test_rx_mem : mem :=
  st_bytes ∅ 8232 (gather (snd (PacketHandle_encode test_handle test_mem))
                          (PacketHandle_slices test_handle)).

Lemma packet_wire_roundtrip_witness :
  exists rx',
    PacketHandle_deserialize test_rx test_rx_mem (PacketHandle_imm test_handle) 53 = (0, rx') /\
    ph_sn rx' = 0x5f1234 /\ PacketHandle_payload rx' test_rx_mem = [72; 101; 108; 108; 111].
Proof.
  destruct (packet_wire_roundtrip test_handle test_rx test_mem test_rx_mem
    (PacketHandle_slices test_handle) (PacketHandle_imm test_handle)
    (test_handle <| ph_pkt_hdr_imm := PacketHandle_imm test_handle |>)
    (snd (PacketHandle_encode test_handle test_mem)))
    as (rx' & Hd & _ & _ & Hsn & _ & _ & _ & Hp).
  - unfold PacketHandle_wf; cbn; word_unfold; lia.
  - vm_compute. reflexivity.
  - reflexivity.
  - discriminate.
  - vm_compute. reflexivity.
  - exists rx'. split; [|split].
    + replace 53 with (kGRHSize + Z.of_nat (length
        (gather (snd (PacketHandle_encode test_handle test_mem))
                (PacketHandle_slices test_handle)))) by (vm_compute; reflexivity).
      exact Hd.
    + rewrite Hsn. vm_compute. reflexivity.
    + rewrite Hp. vm_compute. reflexivity.
Defined.
