(* ===== verification/BufferPool.v ===== *)
(** * The packet buffer pool

    Models [PacketBufferPool] of
    src/protocols/rdma_unreliable/packet_manager.{h,cpp}: an arena of
    [max_packets_] blocks of [mtu_size_] bytes whose free blocks form a singly
    linked list threaded through their own first eight bytes.  The list lives in
    the byte memory of [Mem], so a client that wrote into a block it does not
    own would corrupt it; the invariant at the end of the file says that clients
    that write only into blocks they were given keep the pool consistent.

    [numa_alloc_onnode] is not under src/: the address it returns for a size and
    a node is an argument of [PacketBufferPool_construct]; the node number read
    from sysfs is another. *)

From S2P Require Import Prelude Mem Packet.

Record PacketBufferPool := mkPacketBufferPool {
  bp_mtu_size : Z;
  bp_max_packets : Z;
  bp_arena : Z;
  bp_global_free_buffer : Z
}.
#[export] Instance PacketBufferPool_fields : Fields PacketBufferPool := mkFields (fun p =>
  mkPacketBufferPool (bp_mtu_size p) (bp_max_packets p) (bp_arena p)
    (bp_global_free_buffer p)).

Definition PacketBufferPool_ctor (mtu_size max_packets : Z) : PacketBufferPool :=
  mkPacketBufferPool mtu_size max_packets 0 0.

Definition PacketBufferPool_getCapacity (p : PacketBufferPool) : Z :=
  u64 (bp_mtu_size p * bp_max_packets p).

(** The loop of [construct]: link blocks [index], [index + 1], ... in front of
    the list that starts at [free]. *)
Fixpoint PacketBufferPool_link (n : nat) (arena mtu index free : Z) (m : mem)
  : outcome (Z * mem) :=
  match n with
  | O => Ok (free, m)
  | S n =>
      let ptr := u64 (arena + mtu * index) in
      if ptr =? 0 then Trap TrapNull
      else PacketBufferPool_link n arena mtu (index + 1) ptr (st64 m ptr free)
  end.

Definition PacketBufferPool_construct (numa_alloc_onnode : Z -> Z -> Z) (socket_id : Z)
    (p : PacketBufferPool) (m : mem) : outcome (Z * PacketBufferPool * mem) :=
  let arena := numa_alloc_onnode (u64 (bp_mtu_size p * bp_max_packets p)) socket_id in
  '(free, m1) ← PacketBufferPool_link (Z.to_nat (bp_max_packets p)) arena
                  (bp_mtu_size p) 0 (bp_global_free_buffer p) m;
  Ok (0, p <| bp_arena := arena |> <| bp_global_free_buffer := free |>, m1).

(** [deconstruct] releases the arena and forgets its address. *)
Definition PacketBufferPool_deconstruct (p : PacketBufferPool) : Z * PacketBufferPool :=
  if negb (bp_arena p =? 0) then (0, p <| bp_arena := 0 |>) else (0, p).

Definition PacketBufferPool_allocatePacket (p : PacketBufferPool) (m : mem)
    (h : PacketHandle) (with_grh : bool) : Z * PacketBufferPool * PacketHandle :=
  let packet_buf := bp_global_free_buffer p in
  if packet_buf =? 0 then (ERR, p, h)
  else
    let next := ld64 m packet_buf in
    let '(rc, h1) := PacketHandle_setRawPacket h packet_buf with_grh in
    (rc, p <| bp_global_free_buffer := next |>, h1).

Definition PacketBufferPool_freePacket (p : PacketBufferPool) (m : mem)
    (h : PacketHandle) : Z * PacketBufferPool * mem :=
  let packet_buf := ph_packet_buf h in
  if packet_buf =? 0 then (ERR, p, m)
  else (0, p <| bp_global_free_buffer := packet_buf |>,
        st64 m packet_buf (bp_global_free_buffer p)).

(** ** The free list and the pool invariant *)

(** [free_list m p l]: following the links of [m] from [p] visits exactly [l]. *)
Fixpoint free_list (m : mem) (p : Z) (l : list Z) : Prop :=
  match l with
  | [] => p = 0
  | a :: l => p = a /\ a <> 0 /\ free_list m (ld64 m a) l
  end.

Definition pool_block (arena mtu i : Z) : Z := arena + mtu * i.
Definition pool_blocks (arena mtu : Z) (n : nat) : list Z :=
  (fun i => pool_block arena mtu (Z.of_nat i)) <$> seq 0 n.

(** Geometry of an arena: blocks large enough for a link, inside the address
    space and not at address zero. *)
Definition arena_ok (arena mtu : Z) (n : nat) : Prop :=
  0 < arena /\ sizeof_PktHdr <= mtu /\ arena + mtu * Z.of_nat n <= 0x10000000000000000.

(** [pool_inv p m out]: the free list and the blocks [out] handed to clients
    partition the arena. *)
Definition pool_inv (p : PacketBufferPool) (m : mem) (out : list Z) : Prop :=
  exists fl,
    free_list m (bp_global_free_buffer p) fl /\
    Permutation (fl ++ out)
      (pool_blocks (bp_arena p) (bp_mtu_size p) (Z.to_nat (bp_max_packets p))) /\
    arena_ok (bp_arena p) (bp_mtu_size p) (Z.to_nat (bp_max_packets p)).

(** The arena a pool manages, which no operation changes. *)
Definition pool_geom (p : PacketBufferPool) : Z * Z * Z :=
  (bp_arena p, bp_mtu_size p, bp_max_packets p).

(** What a client and the pool can do: allocate, fail to allocate, return a
    block it holds, write inside a block it holds. *)
Inductive pool_step : PacketBufferPool * mem * list Z -> PacketBufferPool * mem * list Z -> Prop :=
| pool_step_alloc p m out h grh p' h' :
    PacketBufferPool_allocatePacket p m h grh = (0, p', h') ->
    pool_step (p, m, out) (p', m, ph_packet_buf h' :: out)
| pool_step_alloc_fail p m out h grh p' h' :
    PacketBufferPool_allocatePacket p m h grh = (ERR, p', h') ->
    pool_step (p, m, out) (p', m, out)
| pool_step_free p m o1 o2 h rc p' m' :
    PacketBufferPool_freePacket p m h = (rc, p', m') ->
    pool_step (p, m, o1 ++ ph_packet_buf h :: o2) (p', m', o1 ++ o2)
| pool_step_write p m out b a l :
    b ∈ out -> b <= a -> a + Z.of_nat (length l) <= b + bp_mtu_size p ->
    pool_step (p, m, out) (p, st_bytes m a l, out).

(** ** Lemmas on the free list *)
Lemma free_list_agree m m' l : forall p,
  (forall a, a ∈ l -> agree_on a (a + 8) m m') -> free_list m p l -> free_list m' p l.
Proof.
  induction l as [|a l IH]; intros p Hag; cbn; [done|]. intros (-> & Hne & Hfl).
  split; [done|]. split; [done|].
  replace (ld64 m' a) with (ld64 m a)
    by (apply (ld_le_agree 8); apply Hag; set_solver).
  apply IH; [|done]. intros b Hb. apply Hag. set_solver.
Qed.

Lemma free_list_det m l : forall p l', free_list m p l -> free_list m p l' -> l = l'.
Proof.
  induction l as [|a l IH]; intros p [|a' l']; cbn.
  - done.
  - intros -> (<- & ? & _). lia.
  - intros (-> & ? & _) ->. lia.
  - intros (-> & ? & H1) (<- & _ & H2). f_equal. by apply (IH (ld64 m a)).
Qed.

(** ** Block geometry *)
Lemma elem_of_pool_blocks arena mtu n b :
  b ∈ pool_blocks arena mtu n <-> exists i, 0 <= i < Z.of_nat n /\ b = pool_block arena mtu i.
Proof.
  unfold pool_blocks. rewrite list_elem_of_fmap. split.
  - intros (i & -> & Hi). apply elem_of_seq in Hi. exists (Z.of_nat i). lia.
  - intros (i & Hi & ->). exists (Z.to_nat i). rewrite elem_of_seq, Z2Nat.id by lia. lia.
Qed.

Lemma pool_block_range arena mtu n b :
  arena_ok arena mtu n -> b ∈ pool_blocks arena mtu n ->
  is_u64 b /\ b <> 0 /\ arena <= b /\ b + mtu <= arena + mtu * Z.of_nat n.
Proof.
  intros (Ha & Hm & Hend) (i & Hi & ->)%elem_of_pool_blocks.
  unfold pool_block, sizeof_PktHdr in *. unfold is_u64. nia.
Qed.

(** Distinct blocks do not overlap. *)
Lemma pool_blocks_apart arena mtu n a b :
  arena_ok arena mtu n -> a ∈ pool_blocks arena mtu n -> b ∈ pool_blocks arena mtu n ->
  a <> b -> a + mtu <= b \/ b + mtu <= a.
Proof.
  intros (Ha & Hm & Hend) (i & Hi & ->)%elem_of_pool_blocks
    (j & Hj & ->)%elem_of_pool_blocks Hne.
  unfold pool_block, sizeof_PktHdr in *.
  destruct (Z.lt_trichotomy i j) as [H|[->|H]]; [left|done|right]; nia.
Qed.

Lemma NoDup_pool_blocks arena mtu n :
  arena_ok arena mtu n -> NoDup (pool_blocks arena mtu n).
Proof.
  intros (Ha & Hm & Hend). unfold pool_blocks. apply NoDup_fmap_2_strong.
  - intros i j _ _. unfold pool_block, sizeof_PktHdr in *. nia.
  - apply NoDup_seq.
Qed.

Lemma pool_blocks_S arena mtu n :
  pool_blocks arena mtu (S n)
  = pool_blocks arena mtu n ++ [pool_block arena mtu (Z.of_nat n)].
Proof. unfold pool_blocks. by rewrite seq_S, fmap_app. Qed.

Lemma pool_blocks_mono arena mtu k n b :
  (k <= n)%nat -> b ∈ pool_blocks arena mtu k -> b ∈ pool_blocks arena mtu n.
Proof.
  intros Hk (i & Hi & ->)%elem_of_pool_blocks. apply elem_of_pool_blocks.
  exists i. split; [lia|done].
Qed.

(** The head of a well-formed list is null or one of its blocks. *)
Lemma free_list_head_u64 m p l arena mtu n :
  arena_ok arena mtu n -> (forall b, b ∈ l -> b ∈ pool_blocks arena mtu n) ->
  free_list m p l -> is_u64 p.
Proof.
  intros Hok Hsub. destruct l as [|c l]; cbn.
  - intros ->. word_unfold. lia.
  - intros (-> & _ & _). apply (pool_block_range _ _ _ _ Hok), Hsub. set_solver.
Qed.

(** ** [construct] *)
Lemma PacketBufferPool_link_spec n : forall k arena mtu free m,
  arena_ok arena mtu (k + n) ->
  free_list m free (reverse (pool_blocks arena mtu k)) ->
  exists free' m',
    PacketBufferPool_link n arena mtu (Z.of_nat k) free m = Ok (free', m') /\
    free_list m' free' (reverse (pool_blocks arena mtu (k + n))) /\
    (forall a, a + 8 <= arena \/ arena + mtu * Z.of_nat (k + n) <= a ->
               agree_on a (a + 8) m' m).
Proof.
  induction n as [|n IH]; intros k arena mtu free m Hok Hfl.
  { exists free, m. rewrite Nat.add_0_r. auto with rt. }
  cbn [PacketBufferPool_link].
  set (b := pool_block arena mtu (Z.of_nat k)).
  assert (Hin : b ∈ pool_blocks arena mtu (k + S n))
    by (apply elem_of_pool_blocks; exists (Z.of_nat k); split; [lia|done]).
  destruct (pool_block_range _ _ _ _ Hok Hin) as (Hu & Hnz & Hlo & Hhi).
  fold (pool_block arena mtu (Z.of_nat k)). fold b.
  rewrite (u64_small b) by done. rewrite (proj2 (Z.eqb_neq b 0)) by done.
  destruct (IH (S k) arena mtu b (st64 m b free)) as (f' & m' & Hl & Hf & Hag).
  - by rewrite Nat.add_succ_comm.
  - rewrite pool_blocks_S, reverse_app. cbn. fold b.
    split; [done|]. split; [done|].
    assert (Hsub : forall c, c ∈ reverse (pool_blocks arena mtu k) ->
                             c ∈ pool_blocks arena mtu (k + S n)).
    { intros c Hc. rewrite elem_of_reverse in Hc. revert Hc. apply pool_blocks_mono. lia. }
    pose proof (free_list_head_u64 _ _ _ _ _ _ Hok Hsub Hfl) as Hfree.
    rewrite ld64_st64_eq by done.
    apply (free_list_agree m); [|done]. intros a Ha.
    apply agree_sym, agree_st_le.
    destruct (pool_blocks_apart _ _ _ a b Hok (Hsub a Ha) Hin) as [H|H];
      destruct Hok as (_ & Hm & _); unfold sizeof_PktHdr in *; try lia.
    intros ->. rewrite elem_of_reverse, elem_of_pool_blocks in Ha.
    destruct Ha as (i & Hi & Hi'). unfold b, pool_block in Hi'. nia.
  - rewrite Nat.add_succ_comm in *. exists f', m'.
    replace (Z.of_nat k + 1) with (Z.of_nat (S k)) by lia.
    split; [done|]. split; [done|]. intros a Ha.
    apply (agree_trans _ _ _ (st64 m b free)); [by apply Hag|].
    apply agree_st_le. destruct Hok as (_ & Hm & _). unfold sizeof_PktHdr in *. lia.
Qed.

(** ** Allocation and release *)
(** A block that is out and a free block do not overlap. *)
Lemma pool_inv_apart p fl out a b :
  arena_ok (bp_arena p) (bp_mtu_size p) (Z.to_nat (bp_max_packets p)) ->
  Permutation (fl ++ out)
    (pool_blocks (bp_arena p) (bp_mtu_size p) (Z.to_nat (bp_max_packets p))) ->
  a ∈ fl -> b ∈ out -> a + bp_mtu_size p <= b \/ b + bp_mtu_size p <= a.
Proof.
  intros Hok HP Ha Hb.
  pose proof (NoDup_pool_blocks _ _ _ Hok) as Hnd. rewrite <- HP in Hnd.
  apply NoDup_app in Hnd as (_ & Hdisj & _).
  apply (pool_blocks_apart _ _ _ _ _ Hok); try (rewrite <- HP; set_solver).
  intros ->. by apply (Hdisj b).
Qed.

Lemma allocatePacket_inv p m out h grh :
  pool_inv p m out ->
  (exists p' h', PacketBufferPool_allocatePacket p m h grh = (0, p', h') /\
     ph_packet_buf h' = bp_global_free_buffer p /\ ph_with_grh h' = grh /\
     ph_packet_buf h' <> 0 /\ ph_packet_buf h' ∉ out /\
     ph_packet_buf h' ∈ pool_blocks (bp_arena p) (bp_mtu_size p) (Z.to_nat (bp_max_packets p)) /\
     bp_arena p' = bp_arena p /\ bp_mtu_size p' = bp_mtu_size p /\
     bp_max_packets p' = bp_max_packets p /\
     pool_inv p' m (ph_packet_buf h' :: out)) \/
  (PacketBufferPool_allocatePacket p m h grh = (ERR, p, h) /\
   length out = Z.to_nat (bp_max_packets p)).
Proof.
  intros (fl & Hfl & HP & Hok). unfold PacketBufferPool_allocatePacket.
  destruct fl as [|a fl]; cbn in Hfl.
  - right. rewrite Hfl. split; [done|].
    apply Permutation_length in HP. cbn in HP. rewrite HP.
    unfold pool_blocks. by rewrite length_fmap, length_seq.
  - left. destruct Hfl as (Heq & Hnz & Hfl). rewrite Heq.
    rewrite (proj2 (Z.eqb_neq a 0)) by done. cbn. eexists _, _.
    split; [done|]. cbn.
    pose proof (NoDup_pool_blocks _ _ _ Hok) as Hnd. rewrite <- HP in Hnd.
    cbn in Hnd. apply NoDup_cons in Hnd as [Hna _].
    repeat (split; [done || set_solver|]). split; [rewrite <- HP; set_solver|].
    repeat (split; [done|]). exists fl. cbn. split; [done|]. split; [|done].
    rewrite <- HP. symmetry. apply Permutation_middle.
Qed.

Lemma freePacket_inv p m o1 o2 h rc p' m' :
  PacketBufferPool_freePacket p m h = (rc, p', m') ->
  pool_inv p m (o1 ++ ph_packet_buf h :: o2) ->
  rc = 0 /\ pool_inv p' m' (o1 ++ o2).
Proof.
  intros Hf (fl & Hfl & HP & Hok).
  set (b := ph_packet_buf h) in *.
  assert (Hb : b ∈ pool_blocks (bp_arena p) (bp_mtu_size p) (Z.to_nat (bp_max_packets p)))
    by (rewrite <- HP; set_solver).
  destruct (pool_block_range _ _ _ _ Hok Hb) as (Hu & Hnz & _ & _).
  unfold PacketBufferPool_freePacket in Hf. fold b in Hf.
  rewrite (proj2 (Z.eqb_neq b 0)) in Hf by done. injection Hf as <- <- <-.
  split; [done|]. exists (b :: fl). cbn.
  assert (Hfu : is_u64 (bp_global_free_buffer p)).
  { apply (free_list_head_u64 m _ fl _ _ _ Hok); [|done].
    intros c Hc. rewrite <- HP. set_solver. }
  rewrite ld64_st64_eq by done. split; [split; [done|split; [done|]]|split; [|done]].
  - apply (free_list_agree m); [|done]. intros a Ha. apply agree_sym, agree_st_le.
    destruct (pool_inv_apart p fl _ a b Hok HP Ha ltac:(set_solver)) as [H|H];
      destruct Hok as (_ & Hm & _); unfold sizeof_PktHdr in *; lia.
  - rewrite <- HP, (Permutation_app_comm o1 (b :: o2)), (Permutation_app_comm o1 o2).
    cbn. rewrite Permutation_middle. done.
Qed.

Lemma pool_write_inv p m out b a l :
  b ∈ out -> b <= a -> a + Z.of_nat (length l) <= b + bp_mtu_size p ->
  pool_inv p m out -> pool_inv p (st_bytes m a l) out.
Proof.
  intros Hb Hlo Hhi (fl & Hfl & HP & Hok). exists fl. split; [|done].
  apply (free_list_agree m); [|done]. intros c Hc. apply agree_sym, agree_st_bytes.
  destruct (pool_inv_apart p fl out c b Hok HP Hc Hb) as [H|H];
    destruct Hok as (_ & Hm & _); unfold sizeof_PktHdr in *; lia.
Qed.

Lemma pool_step_inv s s' :
  pool_step s s' -> pool_inv s.1.1 s.1.2 s.2 -> pool_inv s'.1.1 s'.1.2 s'.2.
Proof.
  destruct 1 as [p m out h grh p' h' Ha|p m out h grh p' h' Ha
    |p m o1 o2 h rc p' m' Hf|p m out b a l Hb Hlo Hhi]; cbn; intros Hinv.
  - destruct (allocatePacket_inv p m out h grh Hinv)
      as [(p1 & h1 & Heq & _ & _ & _ & _ & _ & _ & _ & _ & Hinv')|[Heq _]];
      rewrite Heq in Ha; [|done]. by injection Ha as <- <-.
  - destruct (allocatePacket_inv p m out h grh Hinv) as [(p1 & h1 & Heq & _)|[Heq _]];
      rewrite Heq in Ha; [done|]. by injection Ha as <- <-.
  - by apply (freePacket_inv p m o1 o2 h rc p' m').
  - by apply (pool_write_inv p m out b).
Qed.

Lemma pool_steps_inv s s' :
  rtc pool_step s s' -> pool_inv s.1.1 s.1.2 s.2 -> pool_inv s'.1.1 s'.1.2 s'.2.
Proof. induction 1; eauto using pool_step_inv. Qed.

Lemma pool_step_max s s' :
  pool_step s s' -> bp_max_packets s'.1.1 = bp_max_packets s.1.1.
Proof.
  destruct 1 as [p m out h grh p' h' Ha|p m out h grh p' h' Ha
    |p m o1 o2 h rc p' m' Hf|]; cbn; try done.
  1,2: unfold PacketBufferPool_allocatePacket in Ha;
    destruct (_ =? 0); injection Ha; intros; subst; done.
  unfold PacketBufferPool_freePacket in Hf.
  destruct (_ =? 0); injection Hf; intros; subst; done.
Qed.

Lemma pool_steps_max s s' :
  rtc pool_step s s' -> bp_max_packets s'.1.1 = bp_max_packets s.1.1.
Proof. induction 1 as [|s1 s2 s3 Hst _ IH]; [done|]. rewrite IH. by apply pool_step_max. Qed.

Lemma construct_inv numa_alloc_onnode node mtu max m :
  arena_ok (numa_alloc_onnode (u64 (mtu * max)) node) mtu (Z.to_nat max) ->
  exists p m',
    PacketBufferPool_construct numa_alloc_onnode node (PacketBufferPool_ctor mtu max) m
      = Ok (0, p, m') /\
    bp_mtu_size p = mtu /\ bp_max_packets p = max /\
    bp_arena p = numa_alloc_onnode (u64 (mtu * max)) node /\
    pool_inv p m' [].
Proof.
  intros Hok. unfold PacketBufferPool_construct. cbn.
  set (arena := numa_alloc_onnode (u64 (mtu * max)) node) in *.
  destruct (PacketBufferPool_link_spec (Z.to_nat max) 0 arena mtu 0 m Hok eq_refl)
    as (free & m' & Hl & Hf & _). change (Z.of_nat 0) with 0 in Hl. rewrite Hl. cbn.
  eexists _, _. split; [done|]. repeat (split; [done|]).
  exists (reverse (pool_blocks arena mtu (Z.to_nat max))). cbn. split; [done|].
  split; [|done]. rewrite app_nil_r. apply reverse_Permutation.
Qed.

(** [C19] Pool safety.  Take a pool constructed on an arena of [max] blocks and
    any sequence of allocations, failed allocations, releases of blocks the
    caller holds, and writes inside blocks the caller holds.  In the state
    reached, an allocation either returns a block of the arena that no caller
    holds (never null) and keeps the pool consistent, or returns -1, and the
    latter exactly when all [max] blocks are held. *)
Theorem pool_allocation_exclusive numa_alloc_onnode node mtu max m p0 m0 p1 m1 out h grh :
  arena_ok (numa_alloc_onnode (u64 (mtu * max)) node) mtu (Z.to_nat max) ->
  PacketBufferPool_construct numa_alloc_onnode node (PacketBufferPool_ctor mtu max) m
    = Ok (0, p0, m0) ->
  rtc pool_step (p0, m0, []) (p1, m1, out) ->
  let '(rc, p2, h2) := PacketBufferPool_allocatePacket p1 m1 h grh in
  (rc = 0 /\ length out <> Z.to_nat max /\ ph_packet_buf h2 <> 0 /\ ph_packet_buf h2 ∉ out /\
   ph_packet_buf h2 ∈ pool_blocks (bp_arena p1) (bp_mtu_size p1) (Z.to_nat (bp_max_packets p1)) /\
   pool_inv p2 m1 (ph_packet_buf h2 :: out)) \/
  (rc = ERR /\ length out = Z.to_nat max /\ p2 = p1 /\ h2 = h).
Proof.
  intros Hok Hc Hsteps.
  destruct (construct_inv numa_alloc_onnode node mtu max m Hok)
    as (p & m' & Hc' & _ & Hmax & _ & Hinv).
  rewrite Hc in Hc'. injection Hc' as <- <-.
  pose proof (pool_steps_max _ _ Hsteps) as Hmax1. cbn in Hmax1. rewrite Hmax in Hmax1.
  pose proof (pool_steps_inv _ _ Hsteps Hinv) as Hinv1. cbn in Hinv1.
  destruct (allocatePacket_inv p1 m1 out h grh Hinv1)
    as [(p2 & h2 & -> & _ & _ & Hnz & Hni & Hin & _ & _ & Hmx & Hinv2)|[-> Hlen]].
  - left. split; [done|]. split; [|done].
    destruct Hinv2 as (fl & _ & HP & _). apply Permutation_length in HP.
    unfold pool_blocks in HP. rewrite length_app, length_fmap, length_seq, Hmx, Hmax1 in HP.
    cbn in HP. lia.
  - right. by rewrite Hlen, Hmax1.
Qed.

Lemma pool_allocation_exclusive_witness :
  exists p0 m0 p2 h2,
    PacketBufferPool_construct (fun _ _ => 4096) 0 (PacketBufferPool_ctor 64 2) ∅
      = Ok (0, p0, m0) /\
    PacketBufferPool_allocatePacket p0 m0 test_handle true = (0, p2, h2) /\
    ph_packet_buf h2 = 4160 /\ pool_inv p2 m0 [4160].
Proof.
  eexists _, _, _, _. split; [vm_compute; reflexivity|].
  pose proof (pool_allocation_exclusive (fun _ _ => 4096) 0 64 2 ∅ _ _ _ _ [] test_handle true
    ltac:(unfold arena_ok, sizeof_PktHdr; lia) eq_refl (rtc_refl _ _)) as H.
  split; [vm_compute; reflexivity|]. split; [reflexivity|].
  destruct H as [(_ & _ & _ & _ & _ & H)|(H & _)]; [exact H|discriminate H].
Defined.
