(* ===== verification/SecondaryQueue.v ===== *)
(** * Fragmentation of application buffers

    Models [SecondaryQueue] of src/protocols/rdma_unreliable/packet_manager.h:
    the queue of buffers a task was submitted with, handed out as fragments of
    at most [fragment_size_] bytes, with a running count [fragment_id_] of the
    fragments pushed so far.

    The specification is a FIFO of fragments: [sq_remaining] lists the fragments
    still to be handed out, [push] appends the fragments of the new buffers and
    [popFragment] removes the first one. *)

From S2P Require Import Prelude Mem Packet.

Record SecondaryQueue := mkSecondaryQueue {
  sq_slice_list : list Buffer;
  sq_offset : Z;
  sq_fragment_id : Z;
  sq_fragment_size : Z
}.
#[export] Instance SecondaryQueue_fields : Fields SecondaryQueue := mkFields (fun q =>
  mkSecondaryQueue (sq_slice_list q) (sq_offset q) (sq_fragment_id q) (sq_fragment_size q)).

Definition SecondaryQueue_ctor (fragment_size : Z) : SecondaryQueue :=
  mkSecondaryQueue [] 0 0 fragment_size.

Definition SecondaryQueue_hasRemainingFragment (q : SecondaryQueue) : bool :=
  match sq_slice_list q with [] => false | _ :: _ => true end.

Definition SecondaryQueue_popFragment (q : SecondaryQueue) : Buffer * SecondaryQueue :=
  match sq_slice_list q with
  | [] => (mkBuffer 0 0, q)
  | slice :: rest =>
      let addr := buf_addr slice + sq_offset q in
      let length := Z.min (sq_fragment_size q) (u64 (buf_length slice - sq_offset q)) in
      let q' :=
        if u64 (sq_offset q + length) =? buf_length slice
        then q <| sq_slice_list := rest |> <| sq_offset := 0 |>
        else q <| sq_offset := u64 (sq_offset q + length) |> in
      (mkBuffer addr length, q')
  end.

Fixpoint SecondaryQueue_push_loop (l : list Buffer) (q : SecondaryQueue)
  : outcome SecondaryQueue :=
  match l with
  | [] => Ok q
  | entry :: l =>
      let f := sq_fragment_size q in
      if f =? 0 then Trap TrapDivZero
      else SecondaryQueue_push_loop l
        (q <| sq_slice_list := sq_slice_list q ++ [entry] |>
           <| sq_fragment_id := u64 (sq_fragment_id q + u64 (buf_length entry + f - 1) / f) |>)
  end.

Definition SecondaryQueue_push (q : SecondaryQueue) (slice_list : list Buffer)
  : outcome ((Z * Z) * SecondaryQueue) :=
  let start_fragment_id := sq_fragment_id q in
  q' ← SecondaryQueue_push_loop slice_list q;
  Ok ((start_fragment_id, sq_fragment_id q'), q').

(** ** Specification: the fragments of a buffer *)

(** Number of fragments [popFragment] hands out for [len] bytes: an empty buffer
    still yields one (empty) fragment. *)
Definition fragment_count (f len : Z) : Z := Z.max 1 ((len + f - 1) / f).

Definition slice_fragments (f : Z) (b : Buffer) : list Buffer :=
  (fun i => mkBuffer (buf_addr b + f * i) (Z.min f (buf_length b - f * i)))
    <$> seqZ 0 (fragment_count f (buf_length b)).

Definition fragments (f : Z) (l : list Buffer) : list Buffer :=
  concat (slice_fragments f <$> l).

(** The fragments a queue still holds. *)
Definition sq_remaining (q : SecondaryQueue) : list Buffer :=
  match sq_slice_list q with
  | [] => []
  | s :: rest =>
      slice_fragments (sq_fragment_size q)
        (mkBuffer (buf_addr s + sq_offset q) (buf_length s - sq_offset q))
      ++ fragments (sq_fragment_size q) rest
  end.

(** A buffer length that [push] counts without wrapping. *)
Definition buffer_ok (f : Z) (b : Buffer) : Prop :=
  0 <= buf_length b /\ buf_length b + f <= 0x10000000000000000.

Definition sq_inv (q : SecondaryQueue) : Prop :=
  0 < sq_fragment_size q < 0x10000000000000000 /\
  Forall (buffer_ok (sq_fragment_size q)) (sq_slice_list q) /\
  match sq_slice_list q with
  | [] => sq_offset q = 0
  | s :: _ => sq_offset q = 0 \/ 0 < sq_offset q < buf_length s
  end.

(** Buffers of at least one byte: the only ones whose fragments [push] counts
    the way [popFragment] produces them. *)
Definition buffer_pos (b : Buffer) : Prop := 0 < buf_length b.

(** ** Lemmas on fragments *)
Lemma fragment_count_small f len : 0 < f -> len <= f -> fragment_count f len = 1.
Proof.
  intros Hf Hl. unfold fragment_count.
  assert ((len + f - 1) / f < 2) by (apply Z.div_lt_upper_bound; lia). lia.
Qed.

Lemma fragment_count_step f len :
  0 < f -> f < len -> fragment_count f len = 1 + fragment_count f (len - f).
Proof.
  intros Hf Hl. unfold fragment_count.
  replace (len + f - 1) with (len - f + f - 1 + 1 * f) by lia.
  rewrite Z.div_add by lia.
  assert (1 <= (len - f + f - 1) / f) by (apply Z.div_le_lower_bound; lia). lia.
Qed.

Lemma slice_fragments_small f b :
  0 < f -> buf_length b <= f -> slice_fragments f b = [b].
Proof.
  intros Hf Hl. unfold slice_fragments. rewrite fragment_count_small by done.
  change (seqZ 0 1) with [0]. destruct b as [a len]. cbn [fmap list_fmap buf_addr buf_length] in *.
  repeat f_equal; lia.
Qed.

Lemma slice_fragments_step f b :
  0 < f -> f < buf_length b ->
  slice_fragments f b =
  mkBuffer (buf_addr b) f :: slice_fragments f (mkBuffer (buf_addr b + f) (buf_length b - f)).
Proof.
  intros Hf Hl. unfold slice_fragments. rewrite fragment_count_step by done. cbn [buf_length].
  assert (0 < fragment_count f (buf_length b - f)) by (unfold fragment_count; lia).
  rewrite seqZ_cons by lia. cbn [fmap list_fmap]. f_equal.
  - f_equal; lia.
  - replace (Z.succ 0) with (0 + 1) by lia.
    replace (Z.pred (1 + fragment_count f (buf_length b - f)))
      with (fragment_count f (buf_length b - f)) by lia.
    rewrite Z.add_comm, <- fmap_add_seqZ, <- list_fmap_compose.
    apply list_fmap_ext. intros k i _. cbn. f_equal; lia.
Qed.

Lemma fragments_app f l1 l2 : fragments f (l1 ++ l2) = fragments f l1 ++ fragments f l2.
Proof. unfold fragments. by rewrite fmap_app, concat_app. Qed.

Lemma length_slice_fragments f b :
  Z.of_nat (length (slice_fragments f b)) = fragment_count f (buf_length b).
Proof.
  unfold slice_fragments. rewrite length_fmap, length_seqZ.
  unfold fragment_count. lia.
Qed.

(** Induction on the number of fragments of a length. *)
Lemma fragment_ind (f : Z) (P : Z -> Prop) :
  0 < f -> (forall len, len <= f -> P len) ->
  (forall len, f < len -> P (len - f) -> P len) -> forall len, P len.
Proof.
  intros Hf Hbase Hstep len.
  destruct (Z.le_gt_cases len f) as [Hle|Hgt]; [by apply Hbase|].
  revert len Hgt. apply (well_founded_ind (Z.lt_wf f)
    (fun len => f < len -> P len)). intros len IH Hlen.
  apply Hstep; [done|].
  destruct (Z.le_gt_cases (len - f) f); [by apply Hbase|apply IH; lia].
Qed.

(** Fragments are nonempty pieces of at most [f] bytes of a nonempty buffer. *)
Lemma slice_fragments_bound f : 0 < f -> forall len a,
  0 < len -> Forall (fun b => 0 < buf_length b <= f) (slice_fragments f (mkBuffer a len)).
Proof.
  intros Hf. apply (fragment_ind f (fun len => forall a, 0 < len -> _) Hf).
  - intros len Hl a Hp. rewrite slice_fragments_small by done. repeat constructor; done.
  - intros len Hl IH a Hp. rewrite slice_fragments_step by done.
    constructor; [cbn; lia|]. apply IH. lia.
Qed.

(** The fragments of a buffer, laid end to end, are the buffer's bytes. *)
Lemma gather_slice_fragments f m : 0 < f -> forall len a,
  0 <= len -> gather m (slice_fragments f (mkBuffer a len)) = ld_bytes m a (Z.to_nat len).
Proof.
  intros Hf. apply (fragment_ind f (fun len => forall a, 0 <= len -> _) Hf).
  - intros len Hl a Hp. rewrite slice_fragments_small by done. unfold gather. cbn.
    by rewrite app_nil_r.
  - intros len Hl IH a Hp. rewrite slice_fragments_step by done.
    unfold gather in *. cbn [fmap list_fmap concat buf_addr buf_length].
    rewrite IH by lia. replace len with (f + (len - f)) at 2 by lia.
    rewrite Z2Nat.inj_add, ld_bytes_app, Z2Nat.id by lia. done.
Qed.

(** ** Refinement of the FIFO specification *)
Lemma hasRemaining_spec q :
  SecondaryQueue_hasRemainingFragment q = match sq_remaining q with [] => false | _ => true end.
Proof.
  unfold SecondaryQueue_hasRemainingFragment, sq_remaining.
  destruct (sq_slice_list q) as [|s rest]; [done|].
  unfold slice_fragments. cbn [buf_addr buf_length].
  rewrite seqZ_cons; [done|]. unfold fragment_count. lia.
Qed.

Lemma sq_remaining_nil q :
  SecondaryQueue_hasRemainingFragment q = false <-> sq_remaining q = [].
Proof. rewrite hasRemaining_spec. by destruct (sq_remaining q). Qed.

Lemma sq_remaining_rest q :
  sq_offset q = 0 -> sq_remaining q = fragments (sq_fragment_size q) (sq_slice_list q).
Proof.
  intros Hoff. unfold sq_remaining. rewrite Hoff.
  destruct (sq_slice_list q) as [|[a len] rest]; [done|]. cbn [buf_addr buf_length].
  by rewrite Z.add_0_r, Z.sub_0_r.
Qed.

Lemma popFragment_spec q :
  sq_inv q -> SecondaryQueue_hasRemainingFragment q = true ->
  exists b q', SecondaryQueue_popFragment q = (b, q') /\
    sq_remaining q = b :: sq_remaining q' /\ sq_inv q' /\
    sq_fragment_id q' = sq_fragment_id q /\ sq_fragment_size q' = sq_fragment_size q /\
    0 <= buf_length b <= sq_fragment_size q.
Proof.
  destruct q as [[|[a len] rest] off fid f]; [done|].
  intros (Hf & Hall & Hoff) _. cbn in Hf, Hall, Hoff.
  apply Forall_cons in Hall as [[Hl Hlf] Hrest]. cbn in Hl, Hlf.
  unfold SecondaryQueue_popFragment. cbn [sq_slice_list sq_offset sq_fragment_size buf_addr buf_length].
  rewrite (u64_small (len - off)) by (word_unfold; lia).
  assert (Hmin : Z.min f (len - off) = f /\ f < len - off \/
                 Z.min f (len - off) = len - off /\ len - off <= f) by lia.
  destruct Hmin as [[-> Hlt]|[-> Hle]].
  - rewrite u64_small by (word_unfold; lia).
    rewrite (proj2 (Z.eqb_neq (off + f) len)) by lia.
    eexists _, _. split; [done|]. cbn. split.
    + unfold sq_remaining. cbn [sq_slice_list sq_fragment_size sq_offset buf_addr buf_length].
      rewrite slice_fragments_step by (cbn; lia). cbn [buf_addr buf_length app].
      do 3 f_equal. f_equal; lia.
    + split; [|repeat split; lia]. split; [done|]. cbn.
      split; [constructor; done|]. right. lia.
  - rewrite u64_small by (word_unfold; lia).
    replace (off + (len - off)) with len by lia. rewrite Z.eqb_refl.
    eexists _, _. split; [done|]. split.
    + rewrite (sq_remaining_rest (_ <| sq_offset := 0 |>)) by done. unfold sq_remaining.
      cbn [sq_slice_list sq_fragment_size sq_offset buf_addr buf_length].
      by rewrite slice_fragments_small by (cbn; lia).
    + cbn. split; [|repeat split; lia]. split; [done|]. cbn. split; [done|].
      destruct rest; [done|]. by left.
Qed.

Lemma sq_remaining_snoc q b :
  0 < sq_fragment_size q -> sq_inv q ->
  sq_remaining (q <| sq_slice_list := sq_slice_list q ++ [b] |>)
  = sq_remaining q ++ slice_fragments (sq_fragment_size q) b.
Proof.
  destruct q as [l off fid f]. intros Hf (_ & _ & Hoff). cbn in Hf, Hoff.
  unfold sq_remaining. cbn.
  destruct l as [|s rest]; cbn [app].
  - subst off. rewrite Z.add_0_r, Z.sub_0_r. destruct b. cbn. apply app_nil_r.
  - rewrite fragments_app, app_assoc. f_equal. unfold fragments. cbn. apply app_nil_r.
Qed.

(** Number of fragments [push] counts for a list of buffers. *)
Definition counted (f : Z) (l : list Buffer) : Z :=
  foldr (fun b n => (buf_length b + f - 1) / f + n) 0 l.

Lemma counted_nonneg f l : 0 < f -> Forall (buffer_ok f) l -> 0 <= counted f l.
Proof.
  intros Hf. induction 1 as [|b l [Hb _] _ IH]; cbn [counted foldr]; [lia|].
  fold (counted f l). assert (0 <= (buf_length b + f - 1) / f) by (apply Z.div_pos; lia). lia.
Qed.

Lemma push_loop_spec l : forall q,
  sq_inv q -> Forall (buffer_ok (sq_fragment_size q)) l ->
  exists q', SecondaryQueue_push_loop l q = Ok q' /\
    sq_remaining q' = sq_remaining q ++ fragments (sq_fragment_size q) l /\
    sq_inv q' /\ sq_fragment_size q' = sq_fragment_size q /\
    u64 (sq_fragment_id q') = u64 (sq_fragment_id q + counted (sq_fragment_size q) l) /\
    (is_u64 (sq_fragment_id q) -> is_u64 (sq_fragment_id q')).
Proof.
  induction l as [|b l IH]; intros q Hinv Hall; cbn [SecondaryQueue_push_loop].
  { exists q. rewrite app_nil_r, Z.add_0_r. done. }
  apply Forall_cons in Hall as [Hb Hall].
  pose proof Hinv as (Hf & Hl & Hoff).
  rewrite (proj2 (Z.eqb_neq (sq_fragment_size q) 0)) by lia.
  set (q1 := q <| sq_slice_list := sq_slice_list q ++ [b] |>
               <| sq_fragment_id := _ |>).
  destruct (IH q1) as (q' & Hq' & Hrem & Hinv' & Hsz & Hid & Hu); [| |].
  - destruct q as [sl off fid f]. unfold q1, sq_inv. cbn in *.
    split; [done|]. split; [apply Forall_app; auto|].
    destruct sl; [by left|done].
  - done.
  - exists q'. split; [done|]. split; [|split; [done|split; [done|split]]].
    + rewrite Hrem. change (sq_remaining q1)
        with (sq_remaining (q <| sq_slice_list := sq_slice_list q ++ [b] |>)).
      change (sq_fragment_size q1) with (sq_fragment_size q).
      rewrite sq_remaining_snoc by (done || lia). by rewrite <- app_assoc.
    + rewrite Hid. change (sq_fragment_size q1) with (sq_fragment_size q).
      change (sq_fragment_id q1) with (u64 (sq_fragment_id q +
        u64 (buf_length b + sq_fragment_size q - 1) / sq_fragment_size q)).
      cbn [counted foldr]. destruct Hb as [Hb0 Hb1].
      rewrite (u64_small (buf_length b + _ - 1)) by (word_unfold; lia).
      fold (counted (sq_fragment_size q) l). generalize (counted (sq_fragment_size q) l).
      intros c. unfold u64. rewrite Zplus_mod_idemp_l. f_equal. lia.
    + intros _. apply Hu. apply u64_range.
Qed.

(** For nonempty buffers [push] counts exactly the fragments it adds. *)
Lemma counted_length f l :
  0 < f -> Forall buffer_pos l -> counted f l = Z.of_nat (length (fragments f l)).
Proof.
  intros Hf. induction 1 as [|b l Hb _ IH]; [done|].
  unfold fragments in *. cbn [counted foldr fmap list_fmap concat].
  rewrite length_app, Nat2Z.inj_add, length_slice_fragments, <- IH.
  unfold counted. f_equal. unfold fragment_count, buffer_pos in *.
  assert (1 <= (buf_length b + f - 1) / f) by (apply Z.div_le_lower_bound; lia). lia.
Qed.

Lemma fragments_pos f l :
  0 < f -> Forall buffer_pos l -> Forall (fun b => 0 < buf_length b <= f) (fragments f l).
Proof.
  intros Hf. induction 1 as [|b l Hb _ IH]; [constructor|].
  unfold fragments. cbn. apply Forall_app. split; [|done].
  destruct b. by apply slice_fragments_bound.
Qed.

Lemma gather_app m l1 l2 : gather m (l1 ++ l2) = gather m l1 ++ gather m l2.
Proof. unfold gather. by rewrite fmap_app, concat_app. Qed.

Lemma gather_fragments f m l :
  0 < f -> Forall (buffer_ok f) l -> gather m (fragments f l) = gather m l.
Proof.
  intros Hf. induction 1 as [|[a len] l [Hb _] _ IH]; [done|].
  unfold fragments in *. cbn [fmap list_fmap concat]. rewrite gather_app, IH.
  rewrite gather_slice_fragments by (done || (cbn in Hb; lia)). done.
Qed.

(** ** The backlog of a window queue

    The send and receive queues number the fragments ever pushed by their
    position in a list [frags]; the secondary queue holds those from index [k]
    on. *)

(** A fragment the queues can carry: a non-null address, at least one byte, a
    length that fits [data_len]. *)
Definition frag_ok (f : Z) (b : Buffer) : Prop :=
  buf_addr b <> 0 /\ 0 < buf_length b <= f /\ is_u32 (buf_length b).

(** A buffer an application may submit: non-null, nonempty, inside the address
    space. *)
Definition buffer_valid (f : Z) (b : Buffer) : Prop :=
  0 < buf_addr b /\ 0 < buf_length b /\ buf_length b + f <= 0x10000000000000000.

Lemma buffer_valid_ok f l : Forall (buffer_valid f) l -> Forall (buffer_ok f) l.
Proof.
  intros H. eapply Forall_impl; [exact H|]. intros b (Ha & Hl & Hf). unfold buffer_ok. lia.
Qed.

Lemma buffer_valid_pos f l : Forall (buffer_valid f) l -> Forall buffer_pos l.
Proof. intros H. eapply Forall_impl; [exact H|]. by intros b (Ha & Hl & Hf). Qed.

Lemma fragments_frag_ok f l :
  0 < f < 0x100000000 -> Forall (buffer_valid f) l -> Forall (frag_ok f) (fragments f l).
Proof.
  intros Hf. induction 1 as [|[a len] l (Ha & Hl & _) _ IH]; [constructor|].
  unfold fragments. cbn [fmap list_fmap concat]. apply Forall_app. split; [|done].
  cbn in Ha, Hl. clear IH.
  revert a Ha Hl. apply (fragment_ind f (fun n => forall a, 0 < a -> 0 < n ->
    Forall (frag_ok f) (slice_fragments f (mkBuffer a n)))); [lia| |].
  - intros n Hn a Ha Hp. rewrite slice_fragments_small by (cbn; lia).
    repeat constructor; cbn; word_unfold; lia.
  - intros n Hn IH a Ha Hp. rewrite slice_fragments_step by (cbn; lia).
    constructor; [unfold frag_ok; cbn; word_unfold; lia|]. apply IH; cbn; lia.
Qed.

Record sq_backlog (sq : SecondaryQueue) (frags : list Buffer) (k : Z) : Prop := {
  sqb_inv : sq_inv sq;
  sqb_bound : 0 <= k <= Z.of_nat (length frags);
  sqb_total : Z.of_nat (length frags) < 0x10000000000000000;
  sqb_rest : sq_remaining sq = drop (Z.to_nat k) frags;
  sqb_fid : sq_fragment_id sq = Z.of_nat (length frags);
  sqb_fsize : sq_fragment_size sq < 0x100000000;
  sqb_frags : Forall (frag_ok (sq_fragment_size sq)) frags
}.

Lemma backlog_ctor f : 0 < f < 0x100000000 -> sq_backlog (SecondaryQueue_ctor f) [] 0.
Proof.
  intros Hf. constructor; cbn; try done; try lia. split; [cbn; lia|]. by split; [constructor|].
Qed.

Lemma backlog_empty sq frags k :
  sq_backlog sq frags k -> SecondaryQueue_hasRemainingFragment sq = false ->
  k = Z.of_nat (length frags).
Proof.
  intros [_ Hk _ Hrest _ _ _] Hrem%sq_remaining_nil. rewrite Hrest in Hrem.
  apply (f_equal length) in Hrem. rewrite length_drop in Hrem. cbn in Hrem. lia.
Qed.

Lemma backlog_pop sq frags k :
  sq_backlog sq frags k -> SecondaryQueue_hasRemainingFragment sq = true ->
  exists b sq', SecondaryQueue_popFragment sq = (b, sq') /\ frags !! Z.to_nat k = Some b /\
    k < Z.of_nat (length frags) /\ frag_ok (sq_fragment_size sq) b /\
    sq_backlog sq' frags (k + 1) /\ sq_fragment_size sq' = sq_fragment_size sq.
Proof.
  intros [Hsq Hk Htot Hrest Hfid Hfs Hfr] Hrem.
  destruct (popFragment_spec _ Hsq Hrem) as (b & sq' & Hpop & Hcons & Hsq' & Hid' & Hsz' & _).
  rewrite Hrest in Hcons.
  assert (Hb : frags !! Z.to_nat k = Some b)
    by (rewrite <- (Nat.add_0_r (Z.to_nat _)), <- lookup_drop, Hcons; done).
  assert (Hlt : k < Z.of_nat (length frags)) by (apply lookup_lt_Some in Hb; lia).
  exists b, sq'. split_and!; try done; [by eapply Forall_lookup_1|].
  constructor; rewrite ?Hsz', ?Hid'; try done; [lia|].
  replace (Z.to_nat (k + 1)) with (S (Z.to_nat k)) by lia.
  apply drop_S in Hb. rewrite Hcons in Hb. by injection Hb.
Qed.

(** [push] extends the list of fragments and returns its new length. *)
Lemma backlog_push sq frags k l :
  sq_backlog sq frags k -> Forall (buffer_valid (sq_fragment_size sq)) l ->
  Z.of_nat (length (frags ++ fragments (sq_fragment_size sq) l)) < 0x10000000000000000 ->
  exists start sq',
    SecondaryQueue_push sq l =
      Ok ((start, Z.of_nat (length (frags ++ fragments (sq_fragment_size sq) l))), sq') /\
    sq_backlog sq' (frags ++ fragments (sq_fragment_size sq) l) k /\
    sq_fragment_size sq' = sq_fragment_size sq.
Proof.
  intros [Hsq Hk Htot Hrest Hfid Hfs Hfr] Hl Htot'. set (f := sq_fragment_size sq) in *.
  destruct (push_loop_spec l _ Hsq (buffer_valid_ok _ _ Hl))
    as (sq1 & Hpush & Hrem & Hinv1 & Hsz & Hid & Hu). fold f in Hid, Hsz, Hrem.
  rewrite counted_length in Hid by (apply Hsq || by eapply buffer_valid_pos).
  rewrite Hfid in Hid. specialize (Hu ltac:(rewrite Hfid; word_unfold; lia)).
  rewrite length_app in Htot'.
  rewrite !u64_small in Hid by (done || (word_unfold; lia)).
  assert (Hid1 : sq_fragment_id sq1 = Z.of_nat (length (frags ++ fragments f l)))
    by (rewrite length_app; lia).
  unfold SecondaryQueue_push. rewrite Hpush. cbn [mbind outcome_bind]. rewrite Hid1.
  eexists _, sq1. split; [done|]. split; [|done].
  constructor; rewrite ?Hsz; try done; rewrite ?length_app; try lia.
  - rewrite Hrem, Hrest, drop_app_le; [done|lia].
  - apply Forall_app. split; [done|]. apply fragments_frag_ok; [|done].
    split; [apply Hsq|done].
Qed.

(** The secondary queue is a FIFO of fragments: [push] appends, for every
    buffer, contiguous pieces of at most [fragment_size_] bytes that together are
    exactly the buffers' bytes in order, and [popFragment] hands out the first
    piece; pushing never fails and popping only shortens the queue. *)
Theorem secondary_queue_fifo q l :
  sq_inv q -> Forall (buffer_ok (sq_fragment_size q)) l ->
  (exists range q', SecondaryQueue_push q l = Ok (range, q') /\ sq_inv q' /\
     sq_remaining q' = sq_remaining q ++ fragments (sq_fragment_size q) l /\
     (forall m, gather m (sq_remaining q') = gather m (sq_remaining q) ++ gather m l)) /\
  (sq_remaining q <> [] ->
   exists b q', SecondaryQueue_popFragment q = (b, q') /\ sq_inv q' /\
     sq_remaining q = b :: sq_remaining q' /\ buf_length b <= sq_fragment_size q).
Proof.
  intros Hinv Hall. split.
  - destruct (push_loop_spec l q Hinv Hall) as (q' & Hq' & Hrem & Hinv' & _ & _ & _).
    unfold SecondaryQueue_push. rewrite Hq'. cbn. eexists _, _. split; [done|].
    split; [done|]. split; [done|]. intros m. rewrite Hrem, gather_app.
    rewrite gather_fragments; [done|apply Hinv|done].
  - intros Hne. destruct (SecondaryQueue_hasRemainingFragment q) eqn:Hh;
      [|by apply sq_remaining_nil in Hh].
    destruct (popFragment_spec q Hinv Hh) as (b & q' & Hp & Hr & Hi & _ & _ & _ & Hle).
    by exists b, q'.
Qed.

Lemma secondary_queue_fifo_witness :
  let q := mkSecondaryQueue [mkBuffer 1000 25] 10 3 10 in
  sq_remaining q = [mkBuffer 1010 10; mkBuffer 1020 5] /\
  exists b q', SecondaryQueue_popFragment q = (b, q') /\ sq_inv q' /\
    sq_remaining q = b :: sq_remaining q' /\ buf_length b <= 10.
Proof.
  split; [reflexivity|].
  apply (secondary_queue_fifo (mkSecondaryQueue [mkBuffer 1000 25] 10 3 10) [mkBuffer 0 7]).
  - split; [cbn; lia|]. split; [repeat constructor; cbn; lia|]. cbn. lia.
  - repeat constructor; cbn; lia.
  - discriminate.
Defined.

(** Fragment numbering.  For buffers of at least one byte [push] returns a
    pair of fragment ids that are exactly the number of fragments apart that
    were added, so fragment ids count the fragments handed out. *)
Theorem push_fragment_ids q l start end_ q' :
  sq_inv q -> is_u64 (sq_fragment_id q) -> Forall buffer_pos l ->
  Forall (buffer_ok (sq_fragment_size q)) l ->
  sq_fragment_id q + Z.of_nat (length (fragments (sq_fragment_size q) l)) < 2 ^ 64 ->
  SecondaryQueue_push q l = Ok ((start, end_), q') ->
  start = sq_fragment_id q /\ end_ = sq_fragment_id q' /\
  end_ - start = Z.of_nat (length (sq_remaining q')) - Z.of_nat (length (sq_remaining q)).
Proof.
  intros Hinv Hu Hpos Hall Hb Hpush. unfold SecondaryQueue_push in Hpush.
  destruct (push_loop_spec l q Hinv Hall) as (q1 & Hq1 & Hrem & _ & _ & Hid & Hu1).
  rewrite Hq1 in Hpush. cbn in Hpush. injection Hpush as <- <- <-.
  split; [done|]. split; [done|]. rewrite Hrem, length_app, Nat2Z.inj_add.
  rewrite counted_length in Hid by (done || apply Hinv).
  specialize (Hu1 Hu). rewrite u64_small in Hid by done.
  rewrite u64_small in Hid by (word_unfold; lia). lia.
Qed.

Lemma push_fragment_ids_witness :
  let q := SecondaryQueue_ctor 976 in
  exists q', SecondaryQueue_push q [mkBuffer 4096 2000; mkBuffer 65536 8] = Ok ((0, 4), q') /\
    0 = sq_fragment_id q /\ 4 = sq_fragment_id q' /\
    4 - 0 = Z.of_nat (length (sq_remaining q')) - Z.of_nat (length (sq_remaining q)).
Proof.
  eexists. split; [vm_compute; reflexivity|].
  apply (push_fragment_ids (SecondaryQueue_ctor 976) [mkBuffer 4096 2000; mkBuffer 65536 8]).
  - split; [cbn; lia|]. split; [constructor|]. reflexivity.
  - cbn. word_unfold. lia.
  - repeat constructor; cbn; lia.
  - repeat constructor; cbn; lia.
  - vm_compute. reflexivity.
  - vm_compute. reflexivity.
Defined.

(** An empty buffer breaks the numbering: [push] of a zero-length buffer
    reports no new fragment id, yet the queue then hands out one more (empty)
    fragment, so every later fragment is sent under a sequence number one ahead
    of the id its task waits for. *)
Theorem push_empty_buffer_desync q a :
  sq_inv q -> is_u64 (sq_fragment_id q) ->
  exists q', SecondaryQueue_push q [mkBuffer a 0]
      = Ok ((sq_fragment_id q, sq_fragment_id q), q') /\
    sq_remaining q' = sq_remaining q ++ [mkBuffer a 0].
Proof.
  intros Hinv Hu. pose proof Hinv as (Hf & _ & _).
  destruct (push_loop_spec [mkBuffer a 0] q Hinv) as (q1 & Hq1 & Hrem & _ & _ & Hid & Hu1).
  { repeat constructor; cbn; lia. }
  unfold SecondaryQueue_push. rewrite Hq1. cbn [mbind outcome_bind].
  exists q1. cbn [counted foldr buf_length] in Hid.
  rewrite Z.div_small in Hid by lia. rewrite !Z.add_0_r in Hid.
  rewrite !u64_small in Hid by auto. rewrite Hid. split; [done|].
  rewrite Hrem. f_equal. unfold fragments. cbn [fmap list_fmap concat].
  rewrite slice_fragments_small by (cbn; lia). done.
Qed.

Lemma push_empty_buffer_desync_witness :
  exists q', SecondaryQueue_push (SecondaryQueue_ctor 976) [mkBuffer 4096 0] = Ok ((0, 0), q') /\
    sq_remaining q' = [mkBuffer 4096 0].
Proof.
  apply (push_empty_buffer_desync (SecondaryQueue_ctor 976) 4096).
  - split; [cbn; lia|]. split; [constructor|]. reflexivity.
  - cbn. word_unfold. lia.
Defined.
