(* ===== verification/SendQueue.v ===== *)
(** * The unicast send window

    Models [SendQueue] of src/protocols/rdma_unreliable/packet_manager.{h,cpp}:
    a ring of [queue_capacity_] packet handles holding the fragments with
    indices [tail_, head_), refilled from the secondary queue while
    [head_ - tail_ <= wnd_size_], and advanced by cumulative acknowledgements
    that carry 24-bit sequence numbers.

    The queue refers to the packet pool it shares with the other queues, so the
    operations that allocate take the pool and the memory as arguments and
    return the new pool.

    The representation invariant [sd_rep] relates a queue to the list of all
    fragments ever pushed: the ring slots of the window hold those fragments
    under their sequence numbers, and the secondary queue holds the rest. *)

From S2P Require Import Prelude Mem Packet BufferPool SecondaryQueue.

Record SendQueue := mkSendQueue {
  sd_mtu_size : Z;
  sd_queue_capacity : Z;
  sd_session : Z;
  sd_head : Z;
  sd_tail : Z;
  sd_wnd_size : Z;
  sd_handle : list PacketHandle;
  sd_secondary_queue : SecondaryQueue
}.
#[export] Instance SendQueue_fields : Fields SendQueue := mkFields (fun q =>
  mkSendQueue (sd_mtu_size q) (sd_queue_capacity q) (sd_session q) (sd_head q)
    (sd_tail q) (sd_wnd_size q) (sd_handle q) (sd_secondary_queue q)).

Definition SendQueue_ctor (mtu_size queue_capacity wnd_size session : Z)
    (junk : PacketHandle) : outcome SendQueue :=
  if queue_capacity <? wnd_size then Trap TrapAssert
  else Ok (mkSendQueue mtu_size queue_capacity session 0 0 (u16 wnd_size)
             (replicate (Z.to_nat queue_capacity) (PacketHandle_ctor junk))
             (SecondaryQueue_ctor (u64 (mtu_size - sizeof_PktHdr - kGRHSize)))).

(** The loop of [fillPrimaryQueue].  [fuel] bounds the number of iterations. *)
Fixpoint SendQueue_fill_loop (fuel : nat) (m : mem) (q : SendQueue) (p : PacketBufferPool)
  : outcome (Z * SendQueue * PacketBufferPool) :=
  match fuel with
  | O => Trap TrapFuel
  | S fuel =>
      if SecondaryQueue_hasRemainingFragment (sd_secondary_queue q) &&
         (u64 (sd_head q - sd_tail q) <=? sd_wnd_size q)
      then
        if sd_queue_capacity q =? 0 then Trap TrapDivZero else
        let slot := Z.to_nat (sd_head q mod sd_queue_capacity q) in
        h ← vec_at (sd_handle q) slot;
        let '(rc, p1, h1) :=
          if PacketHandle_getRawPacket h =? 0
          then PacketBufferPool_allocatePacket p m h false
          else (0, p, h) in
        if negb (rc =? 0) then Ok (0, q, p1)
        else
          let '(slice, sq) := SecondaryQueue_popFragment (sd_secondary_queue q) in
          let h2 := h1 <| ph_session := sd_session q |>
                       <| ph_cmd := PKT_CMD_DATA |>
                       <| ph_wnd := sd_wnd_size q |>
                       <| ph_sn := SHORT_SN (sd_head q) |>
                       <| ph_ts := 0 |> in
          let '(rc2, h3, _) :=
            PacketHandle_setPayload h2 m (buf_addr slice) (buf_length slice) false in
          if negb (rc2 =? 0)
          then Ok (ERR, q <| sd_handle := <[slot := h3]> (sd_handle q) |>
                          <| sd_secondary_queue := sq |>, p1)
          else SendQueue_fill_loop fuel m
                 (q <| sd_handle := <[slot := h3 <| ph_inflight := true |>]> (sd_handle q) |>
                    <| sd_secondary_queue := sq |>
                    <| sd_head := u64 (sd_head q + 1) |>) p1
      else Ok (0, q, p)
  end.

(** An iteration adds one to [head_ - tail_], which stays at most [wnd_size_]:
    [wnd_size_ + 2] iterations are always enough. *)
Definition SendQueue_fillPrimaryQueue (m : mem) (q : SendQueue) (p : PacketBufferPool)
  : outcome (Z * SendQueue * PacketBufferPool) :=
  SendQueue_fill_loop (Z.to_nat (sd_wnd_size q + 2)) m q p.

(** Returns the return code, [last_sn], the queue and the pool. *)
Definition SendQueue_push (m : mem) (q : SendQueue) (p : PacketBufferPool)
    (slice_list : list Buffer) : outcome (Z * Z * SendQueue * PacketBufferPool) :=
  '(fragment_id, sq) ← SecondaryQueue_push (sd_secondary_queue q) slice_list;
  '(rc, q1, p1) ← SendQueue_fillPrimaryQueue m (q <| sd_secondary_queue := sq |>) p;
  Ok (rc, SHORT_SN (snd fragment_id), q1, p1).

(** The new [tail_] for a cumulative acknowledgement [ack_sn]; [McastSendQueue]
    has the same code for each replica. *)
Definition cumulative_ack (tail_ head_ ack_sn : Z) : Z :=
  let tail := SHORT_SN tail_ in
  let head := SHORT_SN head_ in
  if (tail <=? head) && (tail <=? ack_sn) && (ack_sn <=? head)
  then u64 (tail_ + u32 (ack_sn - tail))
  else if (tail >? head) && (ack_sn <=? head)
  then u64 (head_ - u32 (head - ack_sn))
  else if (tail >? head) && (ack_sn >=? tail)
  then u64 (tail_ + u32 (ack_sn - tail))
  else tail_.

Definition SendQueue_markCompleted (m : mem) (q : SendQueue) (p : PacketBufferPool)
    (ack_sn : Z) : outcome (Z * SendQueue * PacketBufferPool) :=
  SendQueue_fillPrimaryQueue m
    (q <| sd_tail := cumulative_ack (sd_tail q) (sd_head q) ack_sn |>) p.

Definition SendQueue_getNextSN (q : SendQueue) : Z := SHORT_SN (sd_head q).
Definition SendQueue_getAckSN (q : SendQueue) : Z := SHORT_SN (sd_tail q).
Definition SendQueue_getIndexRange (q : SendQueue) : Z * Z := (sd_head q, sd_tail q).

Definition SendQueue_getMutableEntry (q : SendQueue) (index : Z) : outcome PacketHandle :=
  if sd_queue_capacity q =? 0 then Trap TrapDivZero
  else vec_at (sd_handle q) (Z.to_nat (index mod sd_queue_capacity q)).

(** Writing through the reference [getMutableEntry] returns. *)
Definition SendQueue_setEntry (q : SendQueue) (index : Z) (h : PacketHandle) : SendQueue :=
  q <| sd_handle := <[Z.to_nat (index mod sd_queue_capacity q) := h]> (sd_handle q) |>.

Definition SendQueue_setWndSize (q : SendQueue) (wnd_size : Z) : SendQueue :=
  q <| sd_wnd_size := Z.min (u16 wnd_size) (u16 (sd_queue_capacity q)) |>.
Definition SendQueue_getWndSize (q : SendQueue) : Z := sd_wnd_size q.

(** [forEach]: apply [func] (which may update the handle and a state of its own)
    to the entries of the window in index order. *)
Fixpoint SendQueue_forEach_loop {S : Type} (fuel : nat)
    (func : PacketHandle -> S -> PacketHandle * S) (curr : Z) (q : SendQueue) (s : S)
  : outcome (SendQueue * S) :=
  match fuel with
  | O => Ok (q, s)
  | S fuel =>
      h ← SendQueue_getMutableEntry q curr;
      let '(h', s') := func h s in
      SendQueue_forEach_loop fuel func (u64 (curr + 1)) (SendQueue_setEntry q curr h') s'
  end.
Definition SendQueue_forEach {S : Type} (func : PacketHandle -> S -> PacketHandle * S)
    (q : SendQueue) (s : S) : outcome (SendQueue * S) :=
  SendQueue_forEach_loop (Z.to_nat (u64 (sd_head q - sd_tail q))) func (sd_tail q) q s.

(** [~SendQueue]: return the buffers of the entries that carry a payload. *)
Definition SendQueue_dtor (m : mem) (q : SendQueue) (p : PacketBufferPool)
  : PacketBufferPool * mem :=
  foldl (fun '(p, m) h =>
           if PacketHandle_getPayload h =? 0 then (p, m)
           else let '(_, p', m') := PacketBufferPool_freePacket p m h in (p', m'))
        (p, m) (sd_handle q).

(** ** The representation invariant *)

(** The handle of fragment [b] at index [i]. *)
Definition slot_ok (session i : Z) (b : Buffer) (h : PacketHandle) : Prop :=
  ph_packet_buf h <> 0 /\ ph_with_grh h = false /\ ph_compacted h = false /\
  ph_session h = session /\ ph_cmd h = PKT_CMD_DATA /\ ph_sn h = SHORT_SN i /\
  ph_data_buf h = buf_addr b /\ ph_data_len h = buf_length b /\ ph_inflight h = true /\
  is_u16 (ph_wnd h).

(** The packet buffers of a ring are blocks handed out by the pool, no two slots
    share one, none reserves room for a GRH, and each carries a payload. *)
Definition handles_own (hs : list PacketHandle) (out : list Z) : Prop :=
  (forall i h, hs !! i = Some h -> ph_packet_buf h <> 0 ->
     ph_packet_buf h ∈ out /\ ph_with_grh h = false /\ ph_compacted h = false /\
     PacketHandle_getPayload h <> 0) /\
  (forall i j h1 h2, hs !! i = Some h1 -> hs !! j = Some h2 -> i <> j ->
     ph_packet_buf h1 <> 0 -> ph_packet_buf h1 <> ph_packet_buf h2).

Record sd_rep (q : SendQueue) (frags : list Buffer) (out : list Z) : Prop := {
  sdr_cap : 0 < sd_queue_capacity q;
  sdr_len : length (sd_handle q) = Z.to_nat (sd_queue_capacity q);
  sdr_wnd : 0 <= sd_wnd_size q < 0x10000 /\ sd_wnd_size q < sd_queue_capacity q;
  sdr_order : 0 <= sd_tail q <= sd_head q;
  sdr_ring : sd_head q - sd_tail q <= sd_queue_capacity q;
  sdr_backlog : sq_backlog (sd_secondary_queue q) frags (sd_head q);
  sdr_slots : forall i, sd_tail q <= i < sd_head q ->
    exists h b, sd_handle q !! Z.to_nat (i mod sd_queue_capacity q) = Some h /\
      frags !! Z.to_nat i = Some b /\ slot_ok (sd_session q) i b h;
  sdr_own : handles_own (sd_handle q) out
}.

(** ** Lemmas on the ring *)
Lemma handles_own_insert hs out out' slot h h' :
  handles_own hs out -> out ⊆ out' ->
  hs !! slot = Some h ->
  ph_packet_buf h' ∈ out' -> ph_with_grh h' = false -> ph_compacted h' = false ->
  PacketHandle_getPayload h' <> 0 ->
  (ph_packet_buf h' = ph_packet_buf h \/ ph_packet_buf h' ∉ out) ->
  ph_packet_buf h' <> 0 ->
  handles_own (<[slot := h']> hs) out'.
Proof.
  intros [Hin Hdis] Hsub Hs Hout Hg Hc Hpay Hnew Hnz.
  assert (Hlt := lookup_lt_Some _ _ _ Hs).
  assert (Hsep : forall k hk, hs !! k = Some hk -> k <> slot -> ph_packet_buf hk <> 0 ->
                 ph_packet_buf hk <> ph_packet_buf h').
  { intros k hk Hk Hne Hkz Heq. destruct Hnew as [Hold|Hfresh].
    - rewrite Hold in Heq. by apply (Hdis k slot hk h Hk Hs Hne).
    - rewrite <- Heq in Hfresh. by apply Hfresh, (Hin k hk). }
  split.
  - intros i x Hx Hxz. apply list_lookup_insert_Some in Hx as [(-> & <- & _)|[Hne Hx]].
    + done.
    + destruct (Hin i x Hx Hxz) as (H1 & H2). split; [by apply Hsub|done].
  - intros i j h1 h2 H1 H2 Hij Hz.
    apply list_lookup_insert_Some in H1 as [(<- & <- & _)|[Hni H1]];
      apply list_lookup_insert_Some in H2 as [(<- & <- & _)|[Hnj H2]].
    + done.
    + intros Heq. destruct (decide (ph_packet_buf h2 = 0)) as [E|E]; [congruence|].
      by apply (Hsep j h2 H2 ltac:(done) E).
    + by apply (Hsep i h1 H1).
    + by apply (Hdis i j h1 h2).
Qed.

(** Everything of a queue that [fillPrimaryQueue] leaves alone. *)
Definition sd_same (q q' : SendQueue) : Prop :=
  sd_mtu_size q' = sd_mtu_size q /\ sd_queue_capacity q' = sd_queue_capacity q /\
  sd_session q' = sd_session q /\ sd_tail q' = sd_tail q /\ sd_wnd_size q' = sd_wnd_size q /\
  sq_fragment_size (sd_secondary_queue q') = sq_fragment_size (sd_secondary_queue q).

#[export] Instance sd_same_refl : Reflexive sd_same.
Proof. intros q. unfold sd_same. tauto. Qed.
#[export] Instance sd_same_trans : Transitive sd_same.
Proof.
  intros q1 q2 q3 (A1 & A2 & A3 & A4 & A5 & A6) (B1 & B2 & B3 & B4 & B5 & B6).
  unfold sd_same. repeat split; congruence.
Qed.

(** A handle for the slot of the next fragment: the one it has, or a new block. *)
Lemma fill_handle (m : mem) p hs out slot h :
  pool_inv p m out -> handles_own hs out -> hs !! slot = Some h ->
  (exists p1 h1 out1,
     (if PacketHandle_getRawPacket h =? 0
      then PacketBufferPool_allocatePacket p m h false else (0, p, h)) = (0, p1, h1) /\
     pool_inv p1 m out1 /\ pool_geom p1 = pool_geom p /\ out ⊆ out1 /\ ph_packet_buf h1 ∈ out1 /\
     ph_packet_buf h1 <> 0 /\ ph_with_grh h1 = false /\ ph_compacted h1 = false /\
     (ph_packet_buf h1 = ph_packet_buf h \/ ph_packet_buf h1 ∉ out)) \/
  ((if PacketHandle_getRawPacket h =? 0
    then PacketBufferPool_allocatePacket p m h false else (0, p, h)) = (ERR, p, h) /\
   length out = Z.to_nat (bp_max_packets p)).
Proof.
  intros Hp [Hin Hdis] Hs. unfold PacketHandle_getRawPacket.
  destruct (ph_packet_buf h =? 0) eqn:Hz.
  - destruct (allocatePacket_inv p m out h false Hp)
      as [(p1 & h1 & Ha & Hb & Hg & Hnz & Hni & _ & Hga & Hgm & Hgx & Hp1)|[Ha Hlen]]; [left|by right].
    exists p1, h1, (ph_packet_buf h1 :: out).
    split; [done|]. split; [done|].
    split; [unfold pool_geom; congruence|]. split; [set_solver|]. split; [set_solver|].
    split; [done|]. split; [done|].
    split; [|by right]. revert Ha. unfold PacketBufferPool_allocatePacket.
    destruct (bp_global_free_buffer p =? 0); [done|]. cbn. by intros [= _ <-].
  - left. exists p, h, out. destruct (Hin slot h Hs ltac:(lia)) as (Ho & Hg & Hc & _).
    repeat (split; [done || lia|]). by left.
Qed.

(** ** One iteration of [fillPrimaryQueue] *)
Lemma fill_iter m fuel q p frags out :
  sd_rep q frags out -> pool_inv p m out ->
  SecondaryQueue_hasRemainingFragment (sd_secondary_queue q) = true ->
  sd_head q - sd_tail q <= sd_wnd_size q ->
  (exists q' p' out',
     SendQueue_fill_loop (S fuel) m q p = SendQueue_fill_loop fuel m q' p' /\
     sd_rep q' frags out' /\ pool_inv p' m out' /\ pool_geom p' = pool_geom p /\ out ⊆ out' /\ sd_same q q' /\
     sd_head q' = sd_head q + 1) \/
  (SendQueue_fill_loop (S fuel) m q p = Ok (0, q, p) /\
   length out = Z.to_nat (bp_max_packets p)).
Proof.
  intros [Hcap Hlen Hwnd Hord Hring Hback Hslots Hown] Hpool Hrem Hroom.
  set (cap := sd_queue_capacity q) in *.
  set (slot := Z.to_nat (sd_head q mod cap)).
  assert (Hslot : (slot < length (sd_handle q))%nat)
    by (rewrite Hlen; by apply ring_slot_bound).
  destruct (vec_at_lt _ _ Hslot) as (h & Hat & Hlk).
  destruct (backlog_pop _ _ _ Hback Hrem)
    as (b & sq' & Hpop & Hb & Hhd & (Hba & Hbl & Hbu) & Hback' & Hsz').
  pose proof (sqb_total _ _ _ Hback) as Htot.
  cbn [SendQueue_fill_loop]. rewrite Hrem, (u64_small (sd_head q - _)) by (word_unfold; lia).
  rewrite (proj2 (Z.leb_le _ _) Hroom). cbn [andb].
  fold cap slot. rewrite (proj2 (Z.eqb_neq cap 0)) by lia. rewrite Hat. cbn [mbind outcome_bind].
  destruct (fill_handle m p _ out slot h Hpool Hown Hlk)
    as [(p1 & h1 & out1 & Halloc & Hp1 & Hgeo & Hsub & Ho1 & Hnz & Hg & Hc & Hnew)|[Halloc Hex]];
    rewrite Halloc; cbn [negb Z.eqb]; [left|right; by split].
  rewrite Hpop. unfold PacketHandle_setPayload. cbn [ph_packet_buf].
  assert (Hsetp : forall hh : PacketHandle, ph_packet_buf hh = ph_packet_buf h1 ->
            (ph_packet_buf hh =? 0) = false) by (intros hh ->; lia).
  rewrite Hsetp by done. rewrite (proj2 (Z.eqb_neq (buf_addr b) 0)) by done.
  cbn [andb negb Z.eqb].
  rewrite (u32_small (buf_length b)) by done. rewrite (u64_small (sd_head q + 1)) by (word_unfold; lia).
  set (h3 := (_ <| ph_data_len := buf_length b |>) <| ph_inflight := true |>).
  set (q' := q <| sd_handle := <[slot := h3]> (sd_handle q) |>
               <| sd_secondary_queue := sq' |> <| sd_head := sd_head q + 1 |>).
  exists q', p1, out1. split; [done|].
  assert (Hok : slot_ok (sd_session q) (sd_head q) b h3)
    by (unfold slot_ok, is_u16; cbn; tauto).
  split; [|split; [done|split; [done|split; [done|split; [|done]]]]].
  - constructor; cbn; try done.
    + by rewrite length_insert.
    + lia.
    + lia.
    + intros i Hi. destruct (decide (i = sd_head q)) as [->|Hne].
      * exists h3, b. fold cap slot. rewrite list_lookup_insert_eq by done. done.
      * destruct (Hslots i ltac:(lia)) as (hi & bi & Hhi & Hbi & Hoki).
        exists hi, bi. rewrite list_lookup_insert_ne; [done|].
        unfold slot, cap. apply ring_slot_neq; lia.
    + apply (handles_own_insert _ out _ slot h); try done.
      unfold PacketHandle_getPayload. cbn.
      rewrite (proj2 (Z.eqb_neq _ 0)), (proj2 (Z.eqb_neq (buf_length b) 0)) by lia.
      cbn. by rewrite (proj2 (Z.eqb_neq (buf_addr b) 0)).
  - unfold sd_same. cbn. rewrite Hsz'. tauto.
Qed.

(** ** [fillPrimaryQueue] *)
Lemma fill_loop_spec m fuel : forall q p frags out,
  sd_rep q frags out -> pool_inv p m out ->
  (0 < fuel)%nat -> sd_wnd_size q + 2 - (sd_head q - sd_tail q) <= Z.of_nat fuel ->
  exists q' p' out',
    SendQueue_fill_loop fuel m q p = Ok (0, q', p') /\
    sd_rep q' frags out' /\ pool_inv p' m out' /\ pool_geom p' = pool_geom p /\ out ⊆ out' /\ sd_same q q' /\
    sd_head q <= sd_head q' /\
    (sd_head q' = Z.of_nat (length frags) \/ sd_wnd_size q' < sd_head q' - sd_tail q' \/
     length out' = Z.to_nat (bp_max_packets p')).
Proof.
  induction fuel as [|fuel IH]; intros q p frags out Hrep Hpool Hpos Hfuel; [lia|].
  destruct (SecondaryQueue_hasRemainingFragment (sd_secondary_queue q)) eqn:Hrem.
  - destruct (Z.le_gt_cases (sd_head q - sd_tail q) (sd_wnd_size q)) as [Hroom|Hfull].
    + destruct (fill_iter m fuel q p frags out Hrep Hpool Hrem Hroom)
        as [(q1 & p1 & out1 & Hstep & Hrep1 & Hpool1 & Hgeo & Hsub & Hsame & Hhd)|[Hstop Hex]];
        [rewrite Hstep|rewrite Hstop].
      * pose proof Hsame as (_ & _ & _ & Ht & Hw & _).
        destruct (IH q1 p1 frags out1) as (q' & p' & out' & Hl & Hr & Hp & Hgeo' & Hs & Hsm & Hh & Hend);
          [done|done|lia|rewrite Hw, Ht, Hhd; lia|].
        exists q', p', out'. split_and!; try done; [congruence|set_solver|by etrans|lia].
      * exists q, p, out. split_and!; try done. tauto.
    + exists q, p, out. pose proof Hrep as [_ _ Hwnd Hord _ [_ Hbd Htot _ _ _ _]].
      cbn [SendQueue_fill_loop]. rewrite u64_small by (word_unfold; lia).
      rewrite (proj2 (Z.leb_gt _ _)), andb_false_r by lia.
      split_and!; try done; lia.
  - exists q, p, out. cbn [SendQueue_fill_loop]. rewrite Hrem. cbn.
    split_and!; try done. left.
    by apply (backlog_empty (sd_secondary_queue q)), Hrem; apply Hrep.
Qed.

Lemma fillPrimaryQueue_spec m q p frags out :
  sd_rep q frags out -> pool_inv p m out ->
  exists q' p' out',
    SendQueue_fillPrimaryQueue m q p = Ok (0, q', p') /\
    sd_rep q' frags out' /\ pool_inv p' m out' /\ pool_geom p' = pool_geom p /\ out ⊆ out' /\ sd_same q q' /\
    sd_head q <= sd_head q' /\
    (sd_head q' = Z.of_nat (length frags) \/ sd_wnd_size q' < sd_head q' - sd_tail q' \/
     length out' = Z.to_nat (bp_max_packets p')).
Proof.
  intros Hrep Hpool. pose proof Hrep as [_ _ Hwnd Hord]. unfold SendQueue_fillPrimaryQueue.
  apply (fill_loop_spec m _ q p frags out); [done|done|lia|lia].
Qed.

(** The bound on the loop is enough in every state, also one that breaks the
    invariant. *)
Lemma fill_loop_fuel m fuel : forall q p,
  is_u16 (sd_wnd_size q) -> (0 < fuel)%nat ->
  sd_wnd_size q + 2 - u64 (sd_head q - sd_tail q) <= Z.of_nat fuel ->
  SendQueue_fill_loop fuel m q p <> Trap TrapFuel.
Proof.
  induction fuel as [|fuel IH]; intros q p Hw Hpos Hfuel; [lia|].
  cbn [SendQueue_fill_loop].
  destruct (SecondaryQueue_hasRemainingFragment _); [|done]. cbn [andb].
  destruct (u64 (sd_head q - sd_tail q) <=? sd_wnd_size q) eqn:Hle; [|done].
  destruct (sd_queue_capacity q =? 0); [done|].
  unfold vec_at. destruct (_ !! _) as [h|]; cbn [mbind outcome_bind]; [|done].
  destruct (if PacketHandle_getRawPacket h =? 0 then _ else _) as [[rc p1] h1].
  destruct (negb (rc =? 0)); [done|].
  destruct (SecondaryQueue_popFragment _) as [b sq].
  destruct (PacketHandle_setPayload _ _ _ _ _) as [[rc2 h3] m3].
  destruct (negb (rc2 =? 0)); [done|].
  apply IH; cbn.
  - done.
  - word_unfold. lia.
  - assert (u64 (u64 (sd_head q + 1) - sd_tail q) = u64 (sd_head q - sd_tail q) + 1)
      by word_lia. lia.
Qed.

(** ** Cumulative acknowledgements *)
Lemma cumulative_ack_hit T H a :
  0 <= T <= a -> a <= H -> H < 0x10000000000000000 -> H - T < 0x1000000 ->
  cumulative_ack T H (SHORT_SN a) = a.
Proof.
  intros Ht Ha Hh Hw. unfold cumulative_ack. rewrite !SHORT_SN_mod.
  repeat match goal with |- context [if ?c then _ else _] => destruct c eqn:? end;
    rewrite ?Z.gtb_ltb, ?Z.geb_leb in *; word_lia.
Qed.

Lemma cumulative_ack_miss T H ack :
  0 <= T <= H -> H < 0x10000000000000000 -> H - T < 0x1000000 -> 0 <= ack < 0x1000000 ->
  (forall a, T <= a <= H -> SHORT_SN a <> ack) ->
  cumulative_ack T H ack = T.
Proof.
  intros Ht Hh Hw Hack Hmiss. unfold cumulative_ack.
  repeat match goal with |- context [if ?c then _ else _] => destruct c eqn:? end;
    rewrite ?Z.gtb_ltb, ?Z.geb_leb, ?SHORT_SN_mod in *; try done; exfalso.
  - apply (Hmiss (T + (ack - T mod 0x1000000))); [|rewrite SHORT_SN_mod]; word_lia.
  - apply (Hmiss (H - (H mod 0x1000000 - ack))); [|rewrite SHORT_SN_mod]; word_lia.
  - apply (Hmiss (T + (ack - T mod 0x1000000))); [|rewrite SHORT_SN_mod]; word_lia.
Qed.

(** The first index at or after the tail that an acknowledgement can name. *)
Definition ack_index (T ack : Z) : Z := T + (ack - T) mod 0x1000000.

Lemma cumulative_ack_spec T H ack :
  0 <= T <= H -> H < 0x10000000000000000 -> H - T < 0x1000000 -> 0 <= ack < 0x1000000 ->
  cumulative_ack T H ack = (if ack_index T ack <=? H then ack_index T ack else T).
Proof.
  intros Ht Hh Hw Hack.
  assert (Hsn : SHORT_SN (ack_index T ack) = ack).
  { rewrite SHORT_SN_mod. unfold ack_index. word_lia. }
  assert (Hge : T <= ack_index T ack) by (unfold ack_index; word_lia).
  destruct (ack_index T ack <=? H) eqn:Hle.
  - rewrite <- Hsn at 1. apply cumulative_ack_hit; lia.
  - apply cumulative_ack_miss; try done. intros a Ha Heq. rewrite SHORT_SN_mod in Heq.
    unfold ack_index in *. word_lia.
Qed.

Lemma cumulative_ack_range T H ack :
  0 <= T <= H -> H < 0x10000000000000000 -> H - T < 0x1000000 -> 0 <= ack < 0x1000000 ->
  T <= cumulative_ack T H ack <= H.
Proof.
  intros Ht Hh Hw Hack. rewrite cumulative_ack_spec by done.
  destruct (ack_index T ack <=? H) eqn:Hle; [|lia]. unfold ack_index in *. word_lia.
Qed.

(** ** The operations on a represented queue *)

Lemma SendQueue_push_spec m q p frags out l :
  sd_rep q frags out -> pool_inv p m out ->
  Forall (buffer_valid (sq_fragment_size (sd_secondary_queue q))) l ->
  Z.of_nat (length (frags ++ fragments (sq_fragment_size (sd_secondary_queue q)) l))
    < 0x10000000000000000 ->
  exists q' p' out',
    SendQueue_push m q p l =
      Ok (0, SHORT_SN (Z.of_nat (length
        (frags ++ fragments (sq_fragment_size (sd_secondary_queue q)) l))), q', p') /\
    sd_rep q' (frags ++ fragments (sq_fragment_size (sd_secondary_queue q)) l) out' /\
    pool_inv p' m out' /\ pool_geom p' = pool_geom p /\ out ⊆ out' /\ sd_tail q' = sd_tail q /\
    sd_wnd_size q' = sd_wnd_size q /\ sd_head q <= sd_head q' /\
    sd_queue_capacity q' = sd_queue_capacity q /\ sd_session q' = sd_session q /\
    sq_fragment_size (sd_secondary_queue q') = sq_fragment_size (sd_secondary_queue q).
Proof.
  intros [Hcap Hlen Hwnd Hord Hring Hback Hslots Hown] Hpool Hl Htot'.
  destruct (backlog_push _ _ _ _ Hback Hl Htot') as (start & sq1 & Hpush & Hback1 & Hsz).
  set (frags' := frags ++ _) in *.
  unfold SendQueue_push. rewrite Hpush. cbn [mbind outcome_bind fst snd].
  assert (Hrep1 : sd_rep (q <| sd_secondary_queue := sq1 |>) frags' out).
  { constructor; cbn; try done.
    intros i Hi. destruct (Hslots i Hi) as (h & b & Hh & Hb & Hok).
    exists h, b. split; [done|]. split; [|done]. by apply lookup_app_l_Some. }
  destruct (fillPrimaryQueue_spec m _ p _ out Hrep1 Hpool)
    as (q' & p' & out' & Hfill & Hrep' & Hpool' & Hgeo & Hsub & Hsame & Hhd & _).
  rewrite Hfill. cbn [mbind outcome_bind]. exists q', p', out'.
  destruct Hsame as (_ & Hc & Hs & Ht & Hw & Hz). cbn in *.
  rewrite Hsz in Hz. split_and!; done.
Qed.

Lemma sd_rep_tail q frags out t :
  sd_rep q frags out -> sd_tail q <= t <= sd_head q ->
  sd_rep (q <| sd_tail := t |>) frags out.
Proof.
  intros [Hcap Hlen Hwnd Hord Hring Hback Hslots Hown] Ht.
  constructor; cbn; try done; try lia. intros i Hi. apply Hslots. lia.
Qed.

Lemma SendQueue_markCompleted_spec m q p frags out ack :
  sd_rep q frags out -> pool_inv p m out ->
  sd_queue_capacity q < 0x1000000 -> 0 <= ack < 0x1000000 ->
  exists q' p' out',
    SendQueue_markCompleted m q p ack = Ok (0, q', p') /\
    sd_rep q' frags out' /\ pool_inv p' m out' /\ pool_geom p' = pool_geom p /\ out ⊆ out' /\
    sd_tail q' = cumulative_ack (sd_tail q) (sd_head q) ack /\
    sd_wnd_size q' = sd_wnd_size q /\ sd_head q <= sd_head q' /\
    sd_queue_capacity q' = sd_queue_capacity q /\ sd_session q' = sd_session q /\
    sq_fragment_size (sd_secondary_queue q') = sq_fragment_size (sd_secondary_queue q).
Proof.
  intros Hrep Hpool Hcap24 Hack.
  pose proof Hrep as [Hcap Hlen Hwnd Hord Hring [_ Hbd Htot _ _ _ _]].
  pose proof (cumulative_ack_range (sd_tail q) (sd_head q) ack ltac:(lia) ltac:(lia)
    ltac:(lia) Hack) as Hrange.
  unfold SendQueue_markCompleted.
  destruct (fillPrimaryQueue_spec m _ p _ out (sd_rep_tail _ _ _ _ Hrep Hrange) Hpool)
    as (q' & p' & out' & Hfill & Hrep' & Hpool' & Hgeo & Hsub & Hsame & Hhd & _).
  exists q', p', out'. destruct Hsame as (_ & Hc & Hs & Ht & Hw & Hz). cbn in *.
  split_and!; done.
Qed.

Lemma SendQueue_setWndSize_rep q frags out w :
  sd_rep q frags out -> Z.min (u16 w) (u16 (sd_queue_capacity q)) < sd_queue_capacity q ->
  sd_rep (SendQueue_setWndSize q w) frags out.
Proof.
  intros [Hcap Hlen Hwnd Hord Hring Hback Hslots Hown] Hw.
  constructor; cbn; try done. split; [|done].
  pose proof (u16_range w). pose proof (u16_range (sd_queue_capacity q)). word_unfold. lia.
Qed.

Lemma SendQueue_ctor_rep mtu cap wnd session junk :
  56 <= mtu < 0x100000000 -> 0 < cap < 0x10000 -> 0 <= wnd < cap ->
  exists q, SendQueue_ctor mtu cap wnd session junk = Ok q /\ sd_rep q [] [] /\
    sd_head q = 0 /\ sd_tail q = 0 /\ sd_wnd_size q = wnd /\ sd_queue_capacity q = cap /\
    sd_session q = session /\ sq_fragment_size (sd_secondary_queue q) = mtu - 48.
Proof.
  intros Hm Hc Hw. unfold SendQueue_ctor.
  rewrite (proj2 (Z.ltb_ge cap wnd)) by lia. eexists. split; [done|].
  unfold sizeof_PktHdr, kGRHSize. rewrite u64_small by (word_unfold; lia).
  rewrite u16_small by (word_unfold; lia). cbn. split; [|split_and!; lia].
  constructor; cbn; try done; try lia.
  - by rewrite length_replicate.
  - apply backlog_ctor. lia.
  - split.
    + intros i h [-> _]%lookup_replicate. done.
    + intros i j h1 h2 [-> _]%lookup_replicate. done.
Qed.

(** ** Sequences of operations *)
Inductive send_op : Type :=
| SendPush (slice_list : list Buffer)
| SendAck (ack_sn : Z)
| SendWnd (wnd_size : Z).

Definition send_run_op (m : mem) (op : send_op) (s : SendQueue * PacketBufferPool)
  : outcome (SendQueue * PacketBufferPool) :=
  let '(q, p) := s in
  match op with
  | SendPush l => '(_, _, q', p') ← SendQueue_push m q p l; Ok (q', p')
  | SendAck a => '(_, q', p') ← SendQueue_markCompleted m q p a; Ok (q', p')
  | SendWnd w => Ok (SendQueue_setWndSize q w, p)
  end.

Fixpoint send_run (m : mem) (ops : list send_op) (s : SendQueue * PacketBufferPool)
  : outcome (SendQueue * PacketBufferPool) :=
  match ops with
  | [] => Ok s
  | op :: ops => s' ← send_run_op m op s; send_run m ops s'
  end.

(** The buffers a sequence of operations submits. *)
Definition send_pushed (ops : list send_op) : list Buffer :=
  concat ((fun op => match op with SendPush l => l | _ => [] end) <$> ops).

Definition send_op_valid (f cap : Z) (op : send_op) : Prop :=
  match op with
  | SendPush l => Forall (buffer_valid f) l
  | SendAck a => 0 <= a < 0x1000000
  | SendWnd w => u16 w < cap
  end.

Lemma sd_rep_out q frags out out' :
  out ⊆ out' -> sd_rep q frags out -> sd_rep q frags out'.
Proof.
  intros Hsub [Hcap Hlen Hwnd Hord Hring Hback Hslots [Hin Hdis]].
  constructor; try done. split; [|done]. intros i h Hi Hnz.
  destruct (Hin i h Hi Hnz) as (Ho & Hg). split; [by apply Hsub|done].
Qed.

Lemma send_run_op_rep m f cap op q p frags out :
  sd_rep q frags out -> pool_inv p m out -> sd_queue_capacity q = cap -> cap < 0x10000 ->
  sq_fragment_size (sd_secondary_queue q) = f -> send_op_valid f cap op ->
  Z.of_nat (length (frags ++ fragments f (send_pushed [op]))) < 0x10000000000000000 ->
  exists q' p' out', send_run_op m op (q, p) = Ok (q', p') /\
    sd_rep q' (frags ++ fragments f (send_pushed [op])) out' /\ pool_inv p' m out' /\
    sd_queue_capacity q' = cap /\ sq_fragment_size (sd_secondary_queue q') = f.
Proof.
  intros Hrep Hpool Hcap Hc16 Hf Hv Htot. unfold send_pushed in *.
  cbn [fmap list_fmap concat app] in *. rewrite app_nil_r in *.
  destruct op as [l|a|w]; cbn [send_run_op].
  - rewrite <- Hf in *.
    destruct (SendQueue_push_spec m q p frags out l Hrep Hpool Hv Htot)
      as (q' & p' & out' & Hrun & Hr & Hp & _ & _ & _ & _ & _ & Hc & _ & Hz).
    rewrite Hrun. cbn. exists q', p', out'. split_and!; congruence || done.
  - destruct (SendQueue_markCompleted_spec m q p frags out a Hrep Hpool ltac:(lia) Hv)
      as (q' & p' & out' & Hrun & Hr & Hp & _ & _ & _ & _ & _ & Hc & _ & Hz).
    rewrite Hrun. cbn. rewrite app_nil_r. exists q', p', out'. split_and!; congruence || done.
  - eexists _, _, out. split; [done|]. cbn. rewrite app_nil_r. split_and!; try done.
    apply SendQueue_setWndSize_rep; [done|]. cbn in Hv. lia.
Qed.

Lemma send_run_rep m f cap ops : forall q p frags out,
  sd_rep q frags out -> pool_inv p m out -> sd_queue_capacity q = cap -> cap < 0x10000 ->
  sq_fragment_size (sd_secondary_queue q) = f -> Forall (send_op_valid f cap) ops ->
  Z.of_nat (length (frags ++ fragments f (send_pushed ops))) < 0x10000000000000000 ->
  exists q' p' out', send_run m ops (q, p) = Ok (q', p') /\
    sd_rep q' (frags ++ fragments f (send_pushed ops)) out' /\ pool_inv p' m out'.
Proof.
  induction ops as [|op ops IH]; intros q p frags out Hrep Hpool Hcap Hc16 Hf Hall Htot.
  { exists q, p, out. unfold send_pushed, fragments. cbn. rewrite app_nil_r. done. }
  apply Forall_cons in Hall as [Hv Hall].
  assert (Hsplit : fragments f (send_pushed (op :: ops))
            = fragments f (send_pushed [op]) ++ fragments f (send_pushed ops)).
  { rewrite <- fragments_app. unfold send_pushed. cbn. by rewrite app_nil_r. }
  rewrite Hsplit, app_assoc in Htot.
  destruct (send_run_op_rep m f cap op q p frags out)
    as (q1 & p1 & out1 & Hrun & Hrep1 & Hpool1 & Hcap1 & Hf1); try done.
  { rewrite length_app in Htot. lia. }
  cbn [send_run]. rewrite Hrun. cbn [mbind outcome_bind].
  destruct (IH q1 p1 _ out1 Hrep1 Hpool1 Hcap1 Hc16 Hf1 Hall Htot)
    as (q' & p' & out' & Hrun' & Hrep' & Hpool').
  exists q', p', out'. rewrite Hsplit, app_assoc. done.
Qed.

(** [C12] Send window safety.  Start from a freshly constructed queue whose
    window is smaller than its ring and run any sequence of pushes of valid
    buffers, cumulative acknowledgements (in or out of the window) and window
    changes below the ring size: no operation fails or traps, and in the state
    reached the ring slots of [tail_, head_) hold exactly the fragments pushed
    at those indices, each under its own 24-bit sequence number in a packet
    buffer no other slot uses, and the secondary queue holds the rest, in
    order. *)
Theorem send_queue_run_safe mtu cap wnd session junk (m : mem) p out ops :
  56 <= mtu < 0x100000000 -> 0 < cap < 0x10000 -> 0 <= wnd < cap ->
  pool_inv p m out ->
  Forall (send_op_valid (mtu - 48) cap) ops ->
  Z.of_nat (length (fragments (mtu - 48) (send_pushed ops))) < 0x10000000000000000 ->
  exists q0 q p' out',
    SendQueue_ctor mtu cap wnd session junk = Ok q0 /\
    send_run m ops (q0, p) = Ok (q, p') /\
    sd_rep q (fragments (mtu - 48) (send_pushed ops)) out' /\ pool_inv p' m out'.
Proof.
  intros Hm Hc Hw Hpool Hall Htot.
  destruct (SendQueue_ctor_rep mtu cap wnd session junk Hm Hc Hw)
    as (q0 & Hctor & Hrep & _ & _ & _ & Hcap & _ & Hf).
  assert (Hsub : ([] : list Z) ⊆ out) by set_solver.
  destruct (send_run_rep m (mtu - 48) cap ops q0 p [] out
    (sd_rep_out _ _ _ _ Hsub Hrep) Hpool Hcap ltac:(lia) Hf Hall Htot)
    as (q & p' & out' & Hrun & Hrep' & Hpool').
  by exists q0, q, p', out'.
Qed.

Lemma send_queue_run_safe_witness :
  exists p0 m0 q0 q p' out',
    PacketBufferPool_construct (fun _ _ => 4096) 0 (PacketBufferPool_ctor 64 8) ∅
      = Ok (0, p0, m0) /\
    SendQueue_ctor 64 4 2 0 test_handle = Ok q0 /\
    send_run m0 [SendPush [mkBuffer 1000 40]; SendAck 1; SendWnd 3] (q0, p0) = Ok (q, p') /\
    sd_rep q [mkBuffer 1000 16; mkBuffer 1016 16; mkBuffer 1032 8] out' /\
    pool_inv p' m0 out'.
Proof.
  destruct (construct_inv (fun _ _ => 4096) 0 64 8 ∅) as (p0 & m0 & Hc & _ & _ & _ & Hinv).
  { unfold arena_ok, sizeof_PktHdr. lia. }
  exists p0, m0.
  destruct (send_queue_run_safe 64 4 2 0 test_handle m0 p0 []
    [SendPush [mkBuffer 1000 40]; SendAck 1; SendWnd 3])
    as (q0 & q & p' & out' & Hq0 & Hrun & Hrep & Hp); try lia; try done.
  - repeat constructor; cbn; word_unfold; try lia.
  - by exists q0, q, p', out'.
Defined.

(** [C11] Cumulative acknowledgements.  While fewer than 2^24 packets are
    outstanding, an acknowledgement of the 24-bit number of index [a] in
    [tail_, head_] moves the tail exactly to [a], across any wrap of the
    sequence space, and one that names no index of the window leaves the tail
    where it is; the head never moves back. *)
Theorem send_queue_ack_exact (m : mem) q p frags out ack q' p' rc :
  sd_rep q frags out -> pool_inv p m out -> sd_queue_capacity q < 0x1000000 ->
  0 <= ack < 0x1000000 ->
  SendQueue_markCompleted m q p ack = Ok (rc, q', p') ->
  rc = 0 /\ sd_head q <= sd_head q' /\
  (forall a, sd_tail q <= a <= sd_head q -> SHORT_SN a = ack -> sd_tail q' = a) /\
  ((forall a, sd_tail q <= a <= sd_head q -> SHORT_SN a <> ack) -> sd_tail q' = sd_tail q).
Proof.
  intros Hrep Hpool Hcap Hack Hrun.
  destruct (SendQueue_markCompleted_spec m q p frags out ack Hrep Hpool Hcap Hack)
    as (q1 & p1 & out1 & Hrun1 & _ & _ & _ & _ & Ht & _ & Hhd & _).
  rewrite Hrun in Hrun1. injection Hrun1 as -> -> ->.
  pose proof Hrep as [_ _ _ Hord Hring [_ Hbd Htot _ _ _ _]]. split; [done|]. split; [done|].
  rewrite Ht. split.
  - intros a Ha <-. apply cumulative_ack_hit; lia.
  - intros Hmiss. apply cumulative_ack_miss; done || lia.
Qed.

(** A queue of four slots with fragment 0 acknowledged and fragment 1 in
    flight. *)
Definition demo_queue : SendQueue :=
  mkSendQueue 64 4 0 2 1 2
    [test_handle <| ph_packet_buf := 0 |>;
     mkPacketHandle 0 0 2 1 0 false true 0 false 4096 16 1016;
     test_handle <| ph_packet_buf := 0 |>; test_handle <| ph_packet_buf := 0 |>]
    (mkSecondaryQueue [] 0 2 16).
Definition one_block_pool : PacketBufferPool := mkPacketBufferPool 64 1 4096 0.

Lemma demo_queue_rep : sd_rep demo_queue [mkBuffer 1000 16; mkBuffer 1016 16] [4096].
Proof.
  constructor; cbn; try done; try lia.
  - repeat constructor; cbn; word_unfold; lia.
  - intros i Hi. replace i with 1 by lia. eexists _, _. split; [reflexivity|].
    split; [reflexivity|]. unfold slot_ok. cbn. word_unfold. split_and!; done || lia.
  - split.
    + intros [|[|[|[|i]]]] h; cbn; intros [= <-]; cbn; try done. intros _. set_solver.
    + intros [|[|[|[|i]]]] [|[|[|[|j]]]] h1 h2; cbn; intros [= <-] [= <-]; cbn; done.
Qed.

Lemma send_queue_ack_exact_witness :
  exists q' p',
    SendQueue_markCompleted ∅ demo_queue one_block_pool 2 = Ok (0, q', p') /\ sd_tail q' = 2.
Proof.
  assert (Hp : pool_inv one_block_pool ∅ [4096]).
  { exists []. split; [reflexivity|]. split; [reflexivity|].
    unfold arena_ok, sizeof_PktHdr. cbn. lia. }
  eexists _, _. split; [vm_compute; reflexivity|].
  destruct (send_queue_ack_exact ∅ demo_queue one_block_pool _ _ 2 _ _ _
    demo_queue_rep Hp ltac:(cbn; lia) ltac:(lia) eq_refl) as (_ & _ & Hhit & _).
  apply Hhit; [cbn; lia|reflexivity].
Defined.

(** The packet buffers a ring holds. *)
Definition ring_blocks (hs : list PacketHandle) : list Z :=
  filter (fun b => b <> 0) (ph_packet_buf <$> hs).

Lemma ring_blocks_free hs : forall m p rest,
  (forall h, h ∈ hs -> ph_packet_buf h <> 0 -> PacketHandle_getPayload h <> 0) ->
  pool_inv p m (ring_blocks hs ++ rest) ->
  let '(p', m') := foldl (fun '(p, m) h =>
     if PacketHandle_getPayload h =? 0 then (p, m)
     else let '(_, p', m') := PacketBufferPool_freePacket p m h in (p', m')) (p, m) hs in
  pool_inv p' m' rest.
Proof.
  induction hs as [|h hs IH]; intros m p rest Hpay Hinv; cbn; [done|].
  unfold ring_blocks in Hinv. cbn [fmap list_fmap] in Hinv. rewrite filter_cons in Hinv.
  destruct (decide (ph_packet_buf h <> 0)) as [Hnz|Hz].
  - rewrite (proj2 (Z.eqb_neq _ 0)) by (apply Hpay; [set_solver|done]).
    destruct (PacketBufferPool_freePacket p m h) as [[rc p'] m'] eqn:Hf.
    apply IH; [set_solver|].
    by apply (freePacket_inv p m [] _ h rc p' m' Hf).
  - assert (Hg : PacketHandle_getPayload h = 0).
    { unfold PacketHandle_getPayload. by rewrite (proj2 (Z.eqb_eq _ 0)) by lia. }
    rewrite Hg. cbn. apply IH; [set_solver|done].
Qed.

Lemma handles_own_blocks hs out :
  handles_own hs out -> NoDup (ring_blocks hs) /\ ring_blocks hs ⊆ out.
Proof.
  intros [Hin Hdis]. split.
  - induction hs as [|h hs IH]; [constructor|]. unfold ring_blocks. cbn [fmap list_fmap].
    rewrite filter_cons.
    assert (Hhs : NoDup (ring_blocks hs)).
    { apply IH; [intros i x Hx; apply (Hin (S i) x Hx)|].
      intros i j x y Hx Hy Hij. by apply (Hdis (S i) (S j) x y Hx Hy); lia. }
    destruct (decide _) as [Hnz|_]; [|done]. constructor; [|done].
    intros (_ & (x & Hx & Hxin)%list_elem_of_fmap)%list_elem_of_filter.
    apply list_elem_of_lookup in Hxin as [j Hj]. by apply (Hdis 0%nat (S j) h x eq_refl Hj).
  - intros b (Hnz & (x & -> & Hx)%list_elem_of_fmap)%list_elem_of_filter.
    apply list_elem_of_lookup in Hx as [j Hj]. by apply (Hin j x).
Qed.

(** Destroying a send queue returns its packet buffers.  [~SendQueue]
    gives every buffer its ring holds back to the pool, each once, and no
    other: afterwards the blocks that are out are exactly those the rest of the
    process held before. *)
Theorem send_queue_dtor_returns (m : mem) q p frags out p' m' :
  sd_rep q frags out -> pool_inv p m out -> NoDup out ->
  SendQueue_dtor m q p = (p', m') ->
  exists rest, Permutation out (ring_blocks (sd_handle q) ++ rest) /\ pool_inv p' m' rest.
Proof.
  intros Hrep Hpool Hnd Hrun. pose proof (sdr_own _ _ _ Hrep) as Hown.
  destruct (handles_own_blocks _ _ Hown) as [Hndr Hsub].
  destruct (submseteq_Permutation (ring_blocks (sd_handle q)) out) as [rest HP].
  { by apply NoDup_submseteq. }
  exists rest. split; [done|].
  pose proof (ring_blocks_free (sd_handle q) m p rest) as Hfree.
  unfold SendQueue_dtor in Hrun. rewrite Hrun in Hfree. apply Hfree.
  - intros h [j Hj]%list_elem_of_lookup Hnz. by apply (proj1 Hown j h).
  - destruct Hpool as (fl & Hfl & HPf & Hok). exists fl. split; [done|]. split; [|done].
    by rewrite <- HP.
Qed.

Lemma send_queue_dtor_returns_witness : exists p' m' rest,
  SendQueue_dtor ∅ demo_queue one_block_pool = (p', m') /\
  Permutation [4096] ([4096] ++ rest) /\ pool_inv p' m' rest.
Proof.
  assert (Hp : pool_inv one_block_pool ∅ [4096]).
  { exists []. split; [reflexivity|]. split; [reflexivity|].
    unfold arena_ok, sizeof_PktHdr. cbn. lia. }
  destruct (SendQueue_dtor ∅ demo_queue one_block_pool) as [p' m'] eqn:Hd.
  destruct (send_queue_dtor_returns ∅ demo_queue one_block_pool _ _ p' m' demo_queue_rep Hp
    (NoDup_singleton _) Hd) as (rest & HP & Hinv).
  exists p', m', rest. split_and!; done.
Defined.

Lemma fill_loop_more m fuel : forall q p n,
  SendQueue_fill_loop fuel m q p <> Trap TrapFuel ->
  SendQueue_fill_loop (fuel + n) m q p = SendQueue_fill_loop fuel m q p.
Proof.
  induction fuel as [|fuel IH]; intros q p n Hok; [done|].
  cbn [Nat.add SendQueue_fill_loop] in *.
  destruct (_ && _); [|done]. destruct (_ =? 0) in Hok |- *; [done|].
  destruct (vec_at _ _); [|done]. cbn [mbind outcome_bind] in *.
  destruct (if PacketHandle_getRawPacket _ =? 0 then _ else _) as [[rc p1] h1].
  destruct (negb (rc =? 0)); [done|]. destruct (SecondaryQueue_popFragment _) as [b sq].
  destruct (PacketHandle_setPayload _ _ _ _ _) as [[rc2 h3] m3].
  destruct (negb (rc2 =? 0)); [done|]. by apply IH.
Qed.

(** [C32] Termination of [fillPrimaryQueue].  In every state, whatever the counters
    hold, the loop ends within [wnd_size_ + 2] iterations: the bound of the model
    is never what stops it, and any larger bound gives the same result. *)
Theorem send_fill_terminates (m : mem) q p :
  is_u16 (sd_wnd_size q) ->
  SendQueue_fillPrimaryQueue m q p <> Trap TrapFuel /\
  forall fuel, (Z.to_nat (sd_wnd_size q + 2) <= fuel)%nat ->
    SendQueue_fill_loop fuel m q p = SendQueue_fillPrimaryQueue m q p.
Proof.
  intros Hw. assert (Hok : SendQueue_fillPrimaryQueue m q p <> Trap TrapFuel).
  { unfold SendQueue_fillPrimaryQueue. pose proof (u64_range (sd_head q - sd_tail q)).
    apply fill_loop_fuel; word_unfold; lia. }
  split; [done|]. intros fuel Hf.
  replace fuel with (Z.to_nat (sd_wnd_size q + 2) + (fuel - Z.to_nat (sd_wnd_size q + 2)))%nat by lia.
  by apply fill_loop_more.
Qed.

Lemma send_fill_terminates_witness :
  SendQueue_fillPrimaryQueue ∅ demo_queue one_block_pool <> Trap TrapFuel.
Proof. apply send_fill_terminates. cbn. word_unfold. lia. Defined.

(** A window as large as the ring overruns it.  The constructor accepts
    [wnd_size == queue_capacity], but [fillPrimaryQueue] admits [wnd_size_ + 1]
    packets: with two slots and a window of two, pushing three fragments puts
    the third over the first, which is still unacknowledged, so the ring no
    longer holds the packet with sequence number 0. *)
Theorem send_queue_full_window_overrun :
  exists q p',
    ('(_, p0, m0) ← PacketBufferPool_construct (fun _ _ => 4096) 0
                      (PacketBufferPool_ctor 64 8) ∅;
     q0 ← SendQueue_ctor 64 2 2 0 test_handle;
     send_run m0 [SendPush [mkBuffer 1000 48]] (q0, p0)) = Ok (q, p') /\
    sd_tail q = 0 /\ sd_head q = 3 /\ ph_sn <$> sd_handle q = [2; 1].
Proof. eexists _, _. split; [vm_compute; reflexivity|]. split_and!; reflexivity. Qed.
