(* ===== verification/McastSendQueue.v ===== *)
(** * The multicast send window

    Models [McastSendQueue] of
    src/protocols/rdma_unreliable/packet_manager.{h,cpp}: a send window with one
    tail per replica, whose effective tail is the smallest of them.

    A multicast queue is related to the unicast [SendQueue] whose tail is the
    slowest replica's ([ms_as_send]): [fillPrimaryQueue] of the two classes is
    the same function through that view, so the unicast invariant carries over. *)

From S2P Require Import Prelude Mem Packet BufferPool SecondaryQueue SendQueue.

Record McastSendQueue := mkMcastSendQueue {
  ms_mtu_size : Z;
  ms_queue_capacity : Z;
  ms_session : Z;
  ms_replica_num : Z;
  ms_head : Z;
  ms_tail_list : list Z;
  ms_wnd_size : Z;
  ms_handle : list PacketHandle;
  ms_secondary_queue : SecondaryQueue
}.
#[export] Instance McastSendQueue_fields : Fields McastSendQueue := mkFields (fun q =>
  mkMcastSendQueue (ms_mtu_size q) (ms_queue_capacity q) (ms_session q) (ms_replica_num q)
    (ms_head q) (ms_tail_list q) (ms_wnd_size q) (ms_handle q) (ms_secondary_queue q)).

Definition UINT64_MAX : Z := 0xffffffffffffffff.

Definition McastSendQueue_ctor (mtu_size queue_capacity wnd_size session replica_num : Z)
    (junk : PacketHandle) : outcome McastSendQueue :=
  if queue_capacity <? wnd_size then Trap TrapAssert
  else Ok (mkMcastSendQueue mtu_size queue_capacity session replica_num 0
             (replicate (Z.to_nat replica_num) 0) (u16 wnd_size)
             (replicate (Z.to_nat queue_capacity) (PacketHandle_ctor junk))
             (SecondaryQueue_ctor (u64 (mtu_size - sizeof_PktHdr - kGRHSize)))).

Definition McastSendQueue_getMinTailIndex (q : McastSendQueue) : Z :=
  foldl Z.min UINT64_MAX (ms_tail_list q).

Fixpoint McastSendQueue_fill_loop (fuel : nat) (m : mem) (q : McastSendQueue)
    (p : PacketBufferPool) : outcome (Z * McastSendQueue * PacketBufferPool) :=
  match fuel with
  | O => Trap TrapFuel
  | S fuel =>
      if SecondaryQueue_hasRemainingFragment (ms_secondary_queue q) &&
         (u64 (ms_head q - McastSendQueue_getMinTailIndex q) <=? ms_wnd_size q)
      then
        if ms_queue_capacity q =? 0 then Trap TrapDivZero else
        let slot := Z.to_nat (ms_head q mod ms_queue_capacity q) in
        h ← vec_at (ms_handle q) slot;
        let '(rc, p1, h1) :=
          if PacketHandle_getRawPacket h =? 0
          then PacketBufferPool_allocatePacket p m h false
          else (0, p, h) in
        if negb (rc =? 0) then Ok (0, q, p1)
        else
          let '(slice, sq) := SecondaryQueue_popFragment (ms_secondary_queue q) in
          let h2 := h1 <| ph_session := ms_session q |>
                       <| ph_cmd := PKT_CMD_DATA |>
                       <| ph_wnd := ms_wnd_size q |>
                       <| ph_sn := SHORT_SN (ms_head q) |>
                       <| ph_ts := 0 |> in
          let '(rc2, h3, _) :=
            PacketHandle_setPayload h2 m (buf_addr slice) (buf_length slice) false in
          if negb (rc2 =? 0)
          then Ok (ERR, q <| ms_handle := <[slot := h3]> (ms_handle q) |>
                          <| ms_secondary_queue := sq |>, p1)
          else McastSendQueue_fill_loop fuel m
                 (q <| ms_handle := <[slot := h3 <| ph_inflight := true |>]> (ms_handle q) |>
                    <| ms_secondary_queue := sq |>
                    <| ms_head := u64 (ms_head q + 1) |>) p1
      else Ok (0, q, p)
  end.
Definition McastSendQueue_fillPrimaryQueue (m : mem) (q : McastSendQueue)
    (p : PacketBufferPool) : outcome (Z * McastSendQueue * PacketBufferPool) :=
  McastSendQueue_fill_loop (Z.to_nat (ms_wnd_size q + 2)) m q p.

Definition McastSendQueue_push (m : mem) (q : McastSendQueue) (p : PacketBufferPool)
    (slice_list : list Buffer) : outcome (Z * Z * McastSendQueue * PacketBufferPool) :=
  '(fragment_id, sq) ← SecondaryQueue_push (ms_secondary_queue q) slice_list;
  '(rc, q1, p1) ← McastSendQueue_fillPrimaryQueue m (q <| ms_secondary_queue := sq |>) p;
  Ok (rc, SHORT_SN (snd fragment_id), q1, p1).

Definition McastSendQueue_markCompleted (m : mem) (q : McastSendQueue) (p : PacketBufferPool)
    (index ack_sn : Z) : outcome (Z * McastSendQueue * PacketBufferPool) :=
  if (index <? 0) || (index >=? i32 (Z.of_nat (length (ms_tail_list q))))
  then Ok (ERR, q, p)
  else
    tail_ ← vec_at (ms_tail_list q) (Z.to_nat index);
    McastSendQueue_fillPrimaryQueue m
      (q <| ms_tail_list :=
           <[Z.to_nat index := cumulative_ack tail_ (ms_head q) ack_sn]> (ms_tail_list q) |>) p.

Definition McastSendQueue_getNextSN (q : McastSendQueue) : Z := SHORT_SN (ms_head q).
Definition McastSendQueue_getAckSN (q : McastSendQueue) (index : Z) : outcome Z :=
  if (index <? 0) || (index >=? i32 (Z.of_nat (length (ms_tail_list q))))
  then Ok (SHORT_SN (McastSendQueue_getMinTailIndex q))
  else tail_ ← vec_at (ms_tail_list q) (Z.to_nat index); Ok (SHORT_SN tail_).
Definition McastSendQueue_getIndexRange (q : McastSendQueue) : Z * Z :=
  (ms_head q, McastSendQueue_getMinTailIndex q).

Definition McastSendQueue_getMutableEntry (q : McastSendQueue) (index : Z)
  : outcome PacketHandle :=
  if ms_queue_capacity q =? 0 then Trap TrapDivZero
  else vec_at (ms_handle q) (Z.to_nat (index mod ms_queue_capacity q)).
Definition McastSendQueue_setEntry (q : McastSendQueue) (index : Z) (h : PacketHandle)
  : McastSendQueue :=
  q <| ms_handle := <[Z.to_nat (index mod ms_queue_capacity q) := h]> (ms_handle q) |>.

Definition McastSendQueue_setWndSize (q : McastSendQueue) (wnd_size : Z) : McastSendQueue :=
  q <| ms_wnd_size := Z.min (u16 wnd_size) (u16 (ms_queue_capacity q)) |>.
Definition McastSendQueue_getWndSize (q : McastSendQueue) : Z := ms_wnd_size q.

(** [forEach] over the entries from the slowest replica's tail to the head. *)
Fixpoint McastSendQueue_forEach_loop {S : Type} (fuel : nat)
    (func : PacketHandle -> S -> PacketHandle * S) (curr : Z) (q : McastSendQueue) (s : S)
  : outcome (McastSendQueue * S) :=
  match fuel with
  | O => Ok (q, s)
  | S fuel =>
      h ← McastSendQueue_getMutableEntry q curr;
      let '(h', s') := func h s in
      McastSendQueue_forEach_loop fuel func (u64 (curr + 1))
        (McastSendQueue_setEntry q curr h') s'
  end.
Definition McastSendQueue_forEach {S : Type} (func : PacketHandle -> S -> PacketHandle * S)
    (q : McastSendQueue) (s : S) : outcome (McastSendQueue * S) :=
  McastSendQueue_forEach_loop
    (Z.to_nat (u64 (ms_head q - McastSendQueue_getMinTailIndex q))) func
    (McastSendQueue_getMinTailIndex q) q s.

Definition McastSendQueue_dtor (m : mem) (q : McastSendQueue) (p : PacketBufferPool)
  : PacketBufferPool * mem :=
  foldl (fun '(p, m) h =>
           if PacketHandle_getPayload h =? 0 then (p, m)
           else let '(_, p', m') := PacketBufferPool_freePacket p m h in (p', m'))
        (p, m) (ms_handle q).

(** ** The unicast view *)
Definition ms_as_send (q : McastSendQueue) : SendQueue :=
  mkSendQueue (ms_mtu_size q) (ms_queue_capacity q) (ms_session q) (ms_head q)
    (McastSendQueue_getMinTailIndex q) (ms_wnd_size q) (ms_handle q) (ms_secondary_queue q).

(** The multicast queue [q] after its window moved as in [s]. *)
Definition ms_with_send (q : McastSendQueue) (s : SendQueue) : McastSendQueue :=
  q <| ms_head := sd_head s |> <| ms_handle := sd_handle s |>
    <| ms_secondary_queue := sd_secondary_queue s |>.

Definition ms_lift (q : McastSendQueue) (o : outcome (Z * SendQueue * PacketBufferPool))
  : outcome (Z * McastSendQueue * PacketBufferPool) :=
  '(rc, s, p) ← o; Ok (rc, ms_with_send q s, p).

Lemma ms_with_send_as_send q : ms_with_send q (ms_as_send q) = q.
Proof. by destruct q. Qed.

Lemma ms_fill_loop_refines m fuel : forall q p,
  McastSendQueue_fill_loop fuel m q p =
    ms_lift q (SendQueue_fill_loop fuel m (ms_as_send q) p).
Proof.
  induction fuel as [|fuel IH]; intros q p; [done|].
  cbn [McastSendQueue_fill_loop SendQueue_fill_loop].
  cbn [ms_as_send sd_secondary_queue sd_head sd_tail sd_wnd_size sd_queue_capacity sd_handle].
  destruct (_ && _) eqn:Hcond; [|by destruct q].
  destruct (ms_queue_capacity q =? 0); [done|].
  destruct (vec_at (ms_handle q) _) as [h|tr]; cbn [mbind outcome_bind]; [|done].
  destruct (if PacketHandle_getRawPacket h =? 0 then _ else _) as [[rc p1] h1].
  destruct (negb (rc =? 0)); [by destruct q|].
  destruct (SecondaryQueue_popFragment (ms_secondary_queue q)) as [slice sq].
  cbn [sd_session].
  destruct (PacketHandle_setPayload _ m _ _ false) as [[rc2 h3] m3].
  destruct (negb (rc2 =? 0)); [by destruct q|]. rewrite IH.
  destruct q. cbn. unfold ms_lift. f_equal.
Qed.

Lemma ms_fillPrimaryQueue_refines m q p :
  McastSendQueue_fillPrimaryQueue m q p =
    ms_lift q (SendQueue_fillPrimaryQueue m (ms_as_send q) p).
Proof. apply ms_fill_loop_refines. Qed.

(** ** The slowest replica *)
Lemma foldl_min_le (l : list Z) : forall acc t, t ∈ l -> foldl Z.min acc l <= t.
Proof.
  assert (Hacc : forall l acc, foldl Z.min acc l <= acc).
  { clear l. induction l as [|x l IH]; intros acc; cbn; [lia|]. specialize (IH (Z.min acc x)). lia. }
  induction l as [|x l IH]; intros acc t Ht; [set_solver|]. cbn.
  apply elem_of_cons in Ht as [->|Ht]; [|by apply IH].
  specialize (Hacc l (Z.min acc x)). lia.
Qed.

Lemma foldl_min_ge (l : list Z) lo : forall acc,
  lo <= acc -> (forall t, t ∈ l -> lo <= t) -> lo <= foldl Z.min acc l.
Proof.
  induction l as [|x l IH]; intros acc Ha Hl; cbn; [done|].
  apply IH; [|set_solver]. pose proof (Hl x ltac:(set_solver)). lia.
Qed.

Lemma min_tail_spec q :
  (forall t, t ∈ ms_tail_list q -> McastSendQueue_getMinTailIndex q <= t) /\
  (forall lo, lo <= UINT64_MAX -> (forall t, t ∈ ms_tail_list q -> lo <= t) ->
     lo <= McastSendQueue_getMinTailIndex q).
Proof.
  split; [intros t; apply foldl_min_le|intros lo; apply foldl_min_ge].
Qed.

(** ** The representation invariant *)
Record ms_rep (q : McastSendQueue) (frags : list Buffer) (out : list Z) : Prop := {
  msr_send : sd_rep (ms_as_send q) frags out;
  msr_some : ms_tail_list q <> [];
  msr_count : Z.of_nat (length (ms_tail_list q)) < 0x80000000;
  msr_tails : forall t, t ∈ ms_tail_list q -> t <= ms_head q
}.

Lemma ms_rep_head q frags out :
  ms_rep q frags out -> 0 <= McastSendQueue_getMinTailIndex q <= ms_head q /\
    ms_head q < 0x10000000000000000 /\
    ms_head q - McastSendQueue_getMinTailIndex q <= ms_queue_capacity q.
Proof.
  intros [Hs _ _ _]. pose proof (sdr_order _ _ _ Hs) as Ho. pose proof (sdr_ring _ _ _ Hs) as Hr.
  pose proof (sqb_bound _ _ _ (sdr_backlog _ _ _ Hs)).
  pose proof (sqb_total _ _ _ (sdr_backlog _ _ _ Hs)). cbn in *. lia.
Qed.

(** The fill step preserves the invariant through the unicast view. *)
Lemma ms_fill_rep m q p frags out :
  ms_rep q frags out -> pool_inv p m out ->
  exists q' p' out', McastSendQueue_fillPrimaryQueue m q p = Ok (0, q', p') /\
    ms_rep q' frags out' /\ pool_inv p' m out' /\ pool_geom p' = pool_geom p /\ out ⊆ out' /\
    ms_tail_list q' = ms_tail_list q /\ ms_wnd_size q' = ms_wnd_size q /\
    ms_head q <= ms_head q' /\ ms_queue_capacity q' = ms_queue_capacity q /\
    ms_session q' = ms_session q /\
    sq_fragment_size (ms_secondary_queue q') = sq_fragment_size (ms_secondary_queue q).
Proof.
  intros Hrep Hpool. pose proof Hrep as [Hs Hne Hct Htl].
  destruct (fillPrimaryQueue_spec m _ p _ out Hs Hpool)
    as (s' & p' & out' & Hfill & Hs' & Hpool' & Hgeo & Hsub & Hsame & Hhd & _).
  rewrite ms_fillPrimaryQueue_refines, Hfill. cbn [ms_lift mbind outcome_bind].
  exists (ms_with_send q s'), p', out'.
  destruct Hsame as (Hm & Hc & Hse & Ht & Hw & Hz). cbn in Hm, Hc, Hse, Ht, Hw, Hz, Hhd.
  assert (Hview : ms_as_send (ms_with_send q s') = s').
  { destruct q, s'. unfold ms_as_send, ms_with_send. cbn in *. congruence. }
  split; [done|]. split; [|split_and!; done].
  constructor; rewrite ?Hview; cbn; try done. intros t Hin%Htl. lia.
Qed.

Lemma McastSendQueue_push_spec m q p frags out l :
  ms_rep q frags out -> pool_inv p m out ->
  Forall (buffer_valid (sq_fragment_size (ms_secondary_queue q))) l ->
  Z.of_nat (length (frags ++ fragments (sq_fragment_size (ms_secondary_queue q)) l))
    < 0x10000000000000000 ->
  exists q' p' out',
    McastSendQueue_push m q p l = Ok (0, SHORT_SN (Z.of_nat (length
        (frags ++ fragments (sq_fragment_size (ms_secondary_queue q)) l))), q', p') /\
    ms_rep q' (frags ++ fragments (sq_fragment_size (ms_secondary_queue q)) l) out' /\
    pool_inv p' m out' /\ ms_tail_list q' = ms_tail_list q /\
    ms_queue_capacity q' = ms_queue_capacity q /\
    sq_fragment_size (ms_secondary_queue q') = sq_fragment_size (ms_secondary_queue q) /\
    pool_geom p' = pool_geom p /\ ms_head q <= ms_head q' /\ ms_session q' = ms_session q.
Proof.
  intros [[Hcap Hlen Hwnd Hord Hring Hback Hslots Hown] Hne Hct Htl] Hpool Hl Htot. cbn in *.
  destruct (backlog_push _ _ _ _ Hback Hl Htot) as (start & sq1 & Hpush & Hback1 & Hsz).
  set (frags' := frags ++ _) in *.
  unfold McastSendQueue_push. rewrite Hpush. cbn [mbind outcome_bind fst snd].
  assert (Hrep1 : ms_rep (q <| ms_secondary_queue := sq1 |>) frags' out).
  { constructor; cbn; try done. constructor; cbn; try done.
    intros i Hi. destruct (Hslots i Hi) as (h & b & Hh & Hb & Hok).
    exists h, b. split; [done|]. split; [|done]. by apply lookup_app_l_Some. }
  destruct (ms_fill_rep m _ p _ out Hrep1 Hpool)
    as (q' & p' & out' & Hfill & Hrep' & Hpool' & Hgeo & _ & Ht & _ & Hh & Hc & Hse & Hz).
  rewrite Hfill. cbn [mbind outcome_bind]. exists q', p', out'. cbn in *.
  rewrite Hsz in Hz. split_and!; done.
Qed.

Lemma McastSendQueue_markCompleted_spec m q p frags out index tail_ ack :
  ms_rep q frags out -> pool_inv p m out -> ms_queue_capacity q < 0x1000000 ->
  0 <= ack < 0x1000000 -> 0 <= index ->
  ms_tail_list q !! Z.to_nat index = Some tail_ ->
  exists q' p' out',
    McastSendQueue_markCompleted m q p index ack = Ok (0, q', p') /\
    ms_rep q' frags out' /\ pool_inv p' m out' /\
    ms_tail_list q' =
      <[Z.to_nat index := cumulative_ack tail_ (ms_head q) ack]> (ms_tail_list q) /\
    McastSendQueue_getMinTailIndex q <= McastSendQueue_getMinTailIndex q' /\
    ms_head q <= ms_head q' /\ ms_queue_capacity q' = ms_queue_capacity q /\
    sq_fragment_size (ms_secondary_queue q') = sq_fragment_size (ms_secondary_queue q) /\
    pool_geom p' = pool_geom p /\ ms_session q' = ms_session q.
Proof.
  intros Hrep Hpool Hcap Hack Hidx Htail. pose proof Hrep as [Hs Hne Hct Htl].
  pose proof (ms_rep_head _ _ _ Hrep) as (Hmin & Hhd & Hring).
  assert (Hlt := lookup_lt_Some _ _ _ Htail).
  assert (Hin : tail_ ∈ ms_tail_list q) by (by apply list_elem_of_lookup_2 in Htail).
  pose proof (proj1 (min_tail_spec q) _ Hin) as Hmt. pose proof (Htl _ Hin) as Hth.
  pose proof (cumulative_ack_range tail_ (ms_head q) ack ltac:(lia) Hhd ltac:(lia) Hack) as Hrange.
  set (new := cumulative_ack _ _ _) in *. unfold McastSendQueue_markCompleted.
  assert (Hi32 : i32 (Z.of_nat (length (ms_tail_list q))) = Z.of_nat (length (ms_tail_list q)))
    by (clear -Hct; word_lia).
  rewrite Hi32, Z.geb_leb, (proj2 (Z.ltb_ge index 0)), (proj2 (Z.leb_gt _ _)) by lia. cbn [orb].
  rewrite (vec_at_Some _ _ _ Htail). cbn [mbind outcome_bind]. fold new.
  set (q1 := q <| ms_tail_list := <[Z.to_nat index := new]> (ms_tail_list q) |>).
  assert (Helem : forall t, t ∈ ms_tail_list q1 -> t = new \/ t ∈ ms_tail_list q).
  { cbn. intros t (i & Hi)%list_elem_of_lookup. apply list_lookup_insert_Some in Hi.
    destruct Hi as [(_ & -> & _)|[_ Hi]]; [by left|right; by eapply list_elem_of_lookup_2]. }
  assert (Hmin1 : McastSendQueue_getMinTailIndex q <= McastSendQueue_getMinTailIndex q1).
  { apply (proj2 (min_tail_spec q1)); [unfold UINT64_MAX; lia|].
    intros t [->|Ht]%Helem; [lia|]. by apply (proj1 (min_tail_spec q)). }
  assert (Hmin2 : McastSendQueue_getMinTailIndex q1 <= ms_head q).
  { etrans; [apply (proj1 (min_tail_spec q1) new)|lia]. cbn.
    apply list_elem_of_lookup. exists (Z.to_nat index). by apply list_lookup_insert_eq. }
  assert (Hrep1 : ms_rep q1 frags out).
  { constructor.
    - apply (sd_rep_tail _ _ _ (McastSendQueue_getMinTailIndex q1)) in Hs; [exact Hs|done].
    - intros Hnil%(f_equal length). cbn in Hnil. rewrite length_insert in Hnil. lia.
    - cbn. by rewrite length_insert.
    - cbn [q1 ms_head field_set]. intros t [->|Ht]%Helem; [apply Hrange|by apply Htl]. }
  destruct (ms_fill_rep m q1 p _ out Hrep1 Hpool)
    as (q' & p' & out' & Hfill & Hrep' & Hpool' & Hgeo & _ & Ht & _ & Hh & Hc & Hse & Hz).
  exists q', p', out'. split_and!; try done.
  unfold McastSendQueue_getMinTailIndex at 2. rewrite Ht. exact Hmin1.
Qed.

Lemma McastSendQueue_setWndSize_rep q frags out w :
  ms_rep q frags out -> Z.min (u16 w) (u16 (ms_queue_capacity q)) < ms_queue_capacity q ->
  ms_rep (McastSendQueue_setWndSize q w) frags out.
Proof.
  intros [Hs Hne Hct Htl] Hw. constructor; try done.
  by apply (SendQueue_setWndSize_rep (ms_as_send q) frags out w) in Hs.
Qed.

Lemma foldl_min_zeros n : (0 < n)%nat -> foldl Z.min UINT64_MAX (replicate n 0) = 0.
Proof.
  intros Hn. apply Z.le_antisymm.
  - apply foldl_min_le. destruct n; [lia|]. set_solver.
  - apply foldl_min_ge; [unfold UINT64_MAX; lia|]. intros t Ht.
    apply elem_of_replicate in Ht as [-> _]. lia.
Qed.

Lemma McastSendQueue_ctor_rep mtu cap wnd session n junk :
  56 <= mtu < 0x100000000 -> 0 < cap < 0x10000 -> 0 <= wnd < cap -> 0 < n < 0x80000000 ->
  exists q, McastSendQueue_ctor mtu cap wnd session n junk = Ok q /\ ms_rep q [] [] /\
    ms_queue_capacity q = cap /\ sq_fragment_size (ms_secondary_queue q) = mtu - 48 /\
    ms_tail_list q = replicate (Z.to_nat n) 0 /\ ms_head q = 0 /\ ms_session q = session.
Proof.
  intros Hm Hc Hw Hn.
  destruct (SendQueue_ctor_rep mtu cap wnd session junk Hm Hc Hw)
    as (s & Hs & Hrep & _ & _ & _ & _ & _ & Hf).
  unfold McastSendQueue_ctor, SendQueue_ctor in *.
  rewrite (proj2 (Z.ltb_ge cap wnd)) in * by lia. injection Hs as <-.
  eexists. split; [done|]. cbn in Hf |- *. split_and!; try done.
  constructor; cbn.
  - unfold ms_as_send, McastSendQueue_getMinTailIndex. cbn [ms_tail_list].
    rewrite foldl_min_zeros by lia. exact Hrep.
  - intros Hnil%(f_equal length). rewrite length_replicate in Hnil. cbn in Hnil. lia.
  - rewrite length_replicate. lia.
  - intros t [-> _]%elem_of_replicate. lia.
Qed.

(** ** Sequences of operations *)
Inductive mcast_op : Type :=
| McastPush (slice_list : list Buffer)
| McastAck (index ack_sn : Z)
| McastWnd (wnd_size : Z).

Definition mcast_run_op (m : mem) (op : mcast_op) (s : McastSendQueue * PacketBufferPool)
  : outcome (McastSendQueue * PacketBufferPool) :=
  let '(q, p) := s in
  match op with
  | McastPush l => '(_, _, q', p') ← McastSendQueue_push m q p l; Ok (q', p')
  | McastAck i a => '(_, q', p') ← McastSendQueue_markCompleted m q p i a; Ok (q', p')
  | McastWnd w => Ok (McastSendQueue_setWndSize q w, p)
  end.

Fixpoint mcast_run (m : mem) (ops : list mcast_op) (s : McastSendQueue * PacketBufferPool)
  : outcome (McastSendQueue * PacketBufferPool) :=
  match ops with
  | [] => Ok s
  | op :: ops => s' ← mcast_run_op m op s; mcast_run m ops s'
  end.

Definition mcast_pushed (ops : list mcast_op) : list Buffer :=
  concat ((fun op => match op with McastPush l => l | _ => [] end) <$> ops).

Definition mcast_op_valid (f cap : Z) (op : mcast_op) : Prop :=
  match op with
  | McastPush l => Forall (buffer_valid f) l
  | McastAck _ a => 0 <= a < 0x1000000
  | McastWnd w => u16 w < cap
  end.

Lemma mcast_bad_index m q p index ack :
  (index < 0 \/ Z.of_nat (length (ms_tail_list q)) <= index) ->
  Z.of_nat (length (ms_tail_list q)) < 0x80000000 ->
  McastSendQueue_markCompleted m q p index ack = Ok (ERR, q, p).
Proof.
  intros Hi Hc. unfold McastSendQueue_markCompleted.
  replace (i32 (Z.of_nat (length (ms_tail_list q)))) with (Z.of_nat (length (ms_tail_list q)))
    by (clear -Hc; word_lia).
  rewrite Z.geb_leb. destruct ((index <? 0) || _) eqn:Hb; [done|lia].
Qed.

Lemma mcast_run_op_rep m f cap op q p frags out :
  ms_rep q frags out -> pool_inv p m out -> ms_queue_capacity q = cap -> cap < 0x10000 ->
  sq_fragment_size (ms_secondary_queue q) = f -> mcast_op_valid f cap op ->
  Z.of_nat (length (frags ++ fragments f (mcast_pushed [op]))) < 0x10000000000000000 ->
  exists q' p' out', mcast_run_op m op (q, p) = Ok (q', p') /\
    ms_rep q' (frags ++ fragments f (mcast_pushed [op])) out' /\ pool_inv p' m out' /\
    ms_queue_capacity q' = cap /\ sq_fragment_size (ms_secondary_queue q') = f.
Proof.
  intros Hrep Hpool Hcap Hc16 Hf Hv Htot. unfold mcast_pushed in *.
  cbn [fmap list_fmap concat app] in *. rewrite app_nil_r in *.
  destruct op as [l|i a|w]; cbn [mcast_run_op].
  - rewrite <- Hf in *.
    destruct (McastSendQueue_push_spec m q p frags out l Hrep Hpool Hv Htot)
      as (q' & p' & out' & Hrun & Hr & Hp & _ & Hc & Hz & _).
    rewrite Hrun. cbn. exists q', p', out'. split_and!; congruence || done.
  - cbn. rewrite app_nil_r.
    destruct (decide (0 <= i < Z.of_nat (length (ms_tail_list q)))) as [Hi|Hi].
    + destruct (lookup_lt_is_Some_2 (ms_tail_list q) (Z.to_nat i)) as [t Ht]; [lia|].
      destruct (McastSendQueue_markCompleted_spec m q p frags out i t a Hrep Hpool
        ltac:(lia) Hv ltac:(lia) Ht) as (q' & p' & out' & Hrun & Hr & Hp & _ & _ & _ & Hc & Hz & _).
      rewrite Hrun. cbn. exists q', p', out'. split_and!; congruence || done.
    + rewrite (mcast_bad_index m q p i a) by (lia || apply Hrep). by exists q, p, out.
  - eexists _, _, out. split; [done|]. cbn. rewrite app_nil_r. split_and!; try done.
    apply McastSendQueue_setWndSize_rep; [done|]. cbn in Hv. lia.
Qed.

Lemma mcast_run_rep m f cap ops : forall q p frags out,
  ms_rep q frags out -> pool_inv p m out -> ms_queue_capacity q = cap -> cap < 0x10000 ->
  sq_fragment_size (ms_secondary_queue q) = f -> Forall (mcast_op_valid f cap) ops ->
  Z.of_nat (length (frags ++ fragments f (mcast_pushed ops))) < 0x10000000000000000 ->
  exists q' p' out', mcast_run m ops (q, p) = Ok (q', p') /\
    ms_rep q' (frags ++ fragments f (mcast_pushed ops)) out' /\ pool_inv p' m out'.
Proof.
  induction ops as [|op ops IH]; intros q p frags out Hrep Hpool Hcap Hc16 Hf Hall Htot.
  { exists q, p, out. unfold mcast_pushed, fragments. cbn. rewrite app_nil_r. done. }
  apply Forall_cons in Hall as [Hv Hall].
  assert (Hsplit : fragments f (mcast_pushed (op :: ops))
            = fragments f (mcast_pushed [op]) ++ fragments f (mcast_pushed ops)).
  { rewrite <- fragments_app. unfold mcast_pushed. cbn. by rewrite app_nil_r. }
  rewrite Hsplit, app_assoc in Htot. cbn [mcast_run].
  destruct (mcast_run_op_rep m f cap op q p frags out)
    as (q1 & p1 & out1 & Hrun & Hrep1 & Hpool1 & Hcap1 & Hf1); try done.
  { rewrite length_app in Htot. lia. }
  rewrite Hrun. cbn [mbind outcome_bind]. rewrite Hsplit, app_assoc.
  by apply (IH q1 p1 _ out1).
Qed.

Lemma ms_rep_out q frags out out' : out ⊆ out' -> ms_rep q frags out -> ms_rep q frags out'.
Proof. intros Hsub [Hs ? ? ?]. constructor; try done. by eapply sd_rep_out. Qed.



(** Acknowledgements of one replica.  An invalid replica index changes
    nothing and returns -1.  A valid one moves that replica's tail exactly to the
    acknowledged index when it lies between that replica's tail and the head, and
    no other replica's; the window, which starts at the slowest replica, never
    moves back, so no fragment some replica still needs is given up. *)
Theorem mcast_ack_per_replica m q p frags out index a q' p' rc :
  ms_rep q frags out -> pool_inv p m out -> ms_queue_capacity q < 0x1000000 ->
  McastSendQueue_markCompleted m q p index (SHORT_SN a) = Ok (rc, q', p') ->
  ((index < 0 \/ Z.of_nat (length (ms_tail_list q)) <= index) -> rc = ERR /\ q' = q /\ p' = p) /\
  (forall tail_, 0 <= index -> ms_tail_list q !! Z.to_nat index = Some tail_ ->
     tail_ <= a <= ms_head q ->
     rc = 0 /\ ms_tail_list q' = <[Z.to_nat index := a]> (ms_tail_list q) /\
     McastSendQueue_getMinTailIndex q <= McastSendQueue_getMinTailIndex q' /\
     (forall t, t ∈ ms_tail_list q' -> McastSendQueue_getMinTailIndex q' <= t)).
Proof.
  intros Hrep Hpool Hcap Hrun. split.
  - intros Hbad. rewrite mcast_bad_index in Hrun by (done || apply Hrep). by injection Hrun.
  - intros tail_ Hidx Htail Ha.
    destruct (McastSendQueue_markCompleted_spec m q p frags out index tail_ (SHORT_SN a) Hrep
      Hpool Hcap (SHORT_SN_range a) Hidx Htail)
      as (q1 & p1 & out1 & Hrun1 & _ & _ & Ht & Hmin & _).
    rewrite Hrun in Hrun1. injection Hrun1 as -> <- <-.
    pose proof (ms_rep_head _ _ _ Hrep) as (Hm & Hhd & Hring).
    pose proof (proj1 (min_tail_spec q) tail_ ltac:(by eapply list_elem_of_lookup_2)) as Hmt.
    rewrite cumulative_ack_hit in Ht by lia. split_and!; try done.
    apply (proj1 (min_tail_spec q')).
Qed.

(** Two replicas, one fragment pushed. *)
Definition demo_mcast : McastSendQueue * PacketBufferPool :=
  match (q0 ← McastSendQueue_ctor 64 4 2 0 2 test_handle;
         mcast_run ∅ [McastPush [mkBuffer 1000 16]]
           (q0, one_block_pool <| bp_global_free_buffer := 4096 |>)) with
  | Ok s => s
  | Trap _ => (mkMcastSendQueue 0 0 0 0 0 [] 0 [] (SecondaryQueue_ctor 0), one_block_pool)
  end.

Lemma demo_mcast_rep : exists out,
  ms_rep (fst demo_mcast) [mkBuffer 1000 16] out /\ pool_inv (snd demo_mcast) ∅ out.
Proof.
  destruct (McastSendQueue_ctor_rep 64 4 2 0 2 test_handle ltac:(lia) ltac:(lia) ltac:(lia)
    ltac:(lia)) as (q0 & Hctor & Hrep & Hcap & Hf & _).
  destruct (mcast_run_rep ∅ 16 4 [McastPush [mkBuffer 1000 16]] q0
    (one_block_pool <| bp_global_free_buffer := 4096 |>) [] [] Hrep)
    as (q & p' & out' & Hrun & Hrep' & Hpool'); try done.
  - exists [4096]. split; [vm_compute; done|]. split; [reflexivity|].
    unfold arena_ok, sizeof_PktHdr. cbn. lia.
  - repeat constructor; cbn; lia.
  - unfold demo_mcast. rewrite Hctor. cbn [mbind outcome_bind]. rewrite Hrun. by exists out'.
Qed.

Lemma mcast_ack_per_replica_witness : exists q' p',
  McastSendQueue_markCompleted ∅ (fst demo_mcast) (snd demo_mcast) 1 (SHORT_SN 1)
    = Ok (0, q', p') /\ ms_tail_list q' = [0; 1].
Proof.
  destruct demo_mcast_rep as (out & Hrep & Hpool).
  eexists _, _. split; [vm_compute; reflexivity|].
  destruct (mcast_ack_per_replica ∅ (fst demo_mcast) (snd demo_mcast) _ out 1 1 _ _ 0
    Hrep Hpool ltac:(vm_compute; done) ltac:(vm_compute; reflexivity)) as [_ Hhit].
  apply (Hhit 0); [lia|reflexivity|vm_compute; intuition congruence].
Defined.

(** [C16] The multicast queue refines the unicast one.  Pushing on a multicast
    queue is pushing on the unicast queue whose tail is the slowest replica's,
    and with a single replica its acknowledgements are the unicast ones: the
    return code, the last sequence number, the window and the pool all agree,
    in every state and on every outcome. *)
Theorem mcast_refines_unicast m q p l ack :
  McastSendQueue_push m q p l =
    ('(rc, sn, s, p') ← SendQueue_push m (ms_as_send q) p l; Ok (rc, sn, ms_with_send q s, p')) /\
  (forall t, ms_tail_list q = [t] -> is_u64 t ->
     exists q1, ms_tail_list q1 = [cumulative_ack t (ms_head q) ack] /\
       McastSendQueue_markCompleted m q p 0 ack =
         ms_lift q1 (SendQueue_markCompleted m (ms_as_send q) p ack)).
Proof.
  split.
  - unfold McastSendQueue_push, SendQueue_push. cbn [ms_as_send sd_secondary_queue].
    destruct (SecondaryQueue_push (ms_secondary_queue q) l) as [[id sq]|tr]; [|done].
    cbn [mbind outcome_bind]. rewrite ms_fillPrimaryQueue_refines. unfold ms_lift.
    change (ms_as_send (q <| ms_secondary_queue := sq |>))
      with ((ms_as_send q) <| sd_secondary_queue := sq |>).
    destruct (SendQueue_fillPrimaryQueue m _ p) as [[[rc s] p']|tr]; cbn; [|done].
    destruct q. reflexivity.
  - intros t Ht Hu. pose (t' := cumulative_ack t (ms_head q) ack).
    exists (q <| ms_tail_list := [t'] |>). split; [done|].
    unfold McastSendQueue_markCompleted, SendQueue_markCompleted. rewrite Ht.
    change ((0 <? 0) || (0 >=? i32 (Z.of_nat (length [t])))) with false.
    change (vec_at [t] (Z.to_nat 0)) with (Ok t). cbn [mbind outcome_bind].
    rewrite ms_fillPrimaryQueue_refines. unfold ms_lift. do 2 f_equal.
    unfold ms_as_send, McastSendQueue_getMinTailIndex. destruct q; cbn in *. subst. cbn.
    change (<[Z.to_nat 0 := cumulative_ack t ms_head0 ack]> [t]) with [t']. cbn [foldl].
    rewrite !(Z.min_r UINT64_MAX); [done|word_unfold; unfold UINT64_MAX; lia|].
    assert (is_u64 t') as H; [|word_unfold; unfold UINT64_MAX; lia].
    unfold t', cumulative_ack. repeat destruct (_ && _); auto with word.
Qed.

Lemma mcast_refines_unicast_witness : exists q1,
  ms_tail_list q1 = [cumulative_ack 0 0 0] /\
  McastSendQueue_markCompleted ∅ ((fst demo_mcast) <| ms_tail_list := [0] |> <| ms_head := 0 |>)
    one_block_pool 0 0 =
  ms_lift q1 (SendQueue_markCompleted ∅
    (ms_as_send ((fst demo_mcast) <| ms_tail_list := [0] |> <| ms_head := 0 |>)) one_block_pool 0).
Proof.
  destruct (mcast_refines_unicast ∅ ((fst demo_mcast) <| ms_tail_list := [0] |> <| ms_head := 0 |>)
    one_block_pool [] 0) as [_ H].
  apply (H 0); [reflexivity|word_unfold; lia].
Defined.

(** A queue without replicas is dead.  If the replica count was not set when
    the queue was created, the count is 0: no acknowledgement is ever accepted,
    and the queue reports sequence number 2^24 - 1 as acknowledged although
    nothing has been. *)
Theorem mcast_zero_replicas mtu cap wnd session junk q m p index ack :
  McastSendQueue_ctor mtu cap wnd session 0 junk = Ok q ->
  McastSendQueue_markCompleted m q p index ack = Ok (ERR, q, p) /\
  McastSendQueue_getAckSN q (-1) = Ok 0xffffff.
Proof.
  unfold McastSendQueue_ctor. destruct (cap <? wnd); [done|]. intros [= <-]. split.
  - apply mcast_bad_index; cbn; lia.
  - reflexivity.
Qed.

Lemma mcast_zero_replicas_witness : exists q,
  McastSendQueue_ctor 64 4 2 0 0 test_handle = Ok q /\
  McastSendQueue_getAckSN q (-1) = Ok 0xffffff.
Proof.
  eexists. split; [reflexivity|].
  apply (mcast_zero_replicas 64 4 2 0 test_handle _ ∅ one_block_pool 0 0). reflexivity.
Defined.
