(* ===== verification/ReceiveQueue.v ===== *)
(** * The receive window

    Models [ReceiveQueue] of src/protocols/rdma_unreliable/packet_manager.{h,cpp}:
    a ring of posted receive requests for the indices [tail_, head_), filled
    from the secondary queue of application buffers, into which packets are
    copied as they arrive in any order, and whose tail advances over the prefix
    that has arrived.

    The representation invariant [rq_rep] relates a queue to the list of all
    fragments ever posted and to the set of indices received so far: the tail
    is the first index that has not arrived. *)

From S2P Require Import Prelude Mem Packet BufferPool SecondaryQueue SendQueue.

(** [ReceiveQueue::Request] *)
Record RxRequest := mkRxRequest {
  rr_addr : Z;
  rr_length : Z;
  rr_inflight : bool
}.
#[export] Instance RxRequest_fields : Fields RxRequest := mkFields (fun r =>
  mkRxRequest (rr_addr r) (rr_length r) (rr_inflight r)).

Record ReceiveQueue := mkReceiveQueue {
  rq_mtu_size : Z;
  rq_queue_capacity : Z;
  rq_session : Z;
  rq_head : Z;
  rq_tail : Z;
  rq_wnd_size : Z;
  rq_requests : list RxRequest;
  rq_secondary_queue : SecondaryQueue;
  rq_last_packet_ts : Z
}.
#[export] Instance ReceiveQueue_fields : Fields ReceiveQueue := mkFields (fun q =>
  mkReceiveQueue (rq_mtu_size q) (rq_queue_capacity q) (rq_session q) (rq_head q)
    (rq_tail q) (rq_wnd_size q) (rq_requests q) (rq_secondary_queue q)
    (rq_last_packet_ts q)).

(** [requests_.resize] value-initializes the entries. *)
Definition ReceiveQueue_ctor (mtu_size queue_capacity wnd_size session : Z)
  : outcome ReceiveQueue :=
  if queue_capacity <? wnd_size then Trap TrapAssert
  else Ok (mkReceiveQueue mtu_size queue_capacity session 0 0 (u16 wnd_size)
             (replicate (Z.to_nat queue_capacity) (mkRxRequest 0 0 false))
             (SecondaryQueue_ctor (u64 (mtu_size - sizeof_PktHdr - kGRHSize))) 0).

(** [requests_[index % queue_capacity_]] *)
Definition ReceiveQueue_request (q : ReceiveQueue) (index : Z) : outcome RxRequest :=
  if rq_queue_capacity q =? 0 then Trap TrapDivZero
  else vec_at (rq_requests q) (Z.to_nat (index mod rq_queue_capacity q)).
Definition ReceiveQueue_set_request (q : ReceiveQueue) (index : Z) (r : RxRequest)
  : ReceiveQueue :=
  q <| rq_requests := <[Z.to_nat (index mod rq_queue_capacity q) := r]> (rq_requests q) |>.

(** The loop of [fillPrimaryQueue]; [fuel] bounds its iterations. *)
Fixpoint ReceiveQueue_fill_loop (fuel : nat) (q : ReceiveQueue) : outcome (Z * ReceiveQueue) :=
  match fuel with
  | O => Trap TrapFuel
  | S fuel =>
      if SecondaryQueue_hasRemainingFragment (rq_secondary_queue q) &&
         (u64 (rq_head q - rq_tail q) <=? rq_wnd_size q)
      then
        let '(slice, sq) := SecondaryQueue_popFragment (rq_secondary_queue q) in
        let q1 := q <| rq_secondary_queue := sq |> in
        _ ← ReceiveQueue_request q1 (rq_head q1);
        ReceiveQueue_fill_loop fuel
          ((ReceiveQueue_set_request q1 (rq_head q1)
              (mkRxRequest (buf_addr slice) (buf_length slice) true))
           <| rq_head := u64 (rq_head q1 + 1) |>)
      else Ok (0, q)
  end.
Definition ReceiveQueue_fillPrimaryQueue (q : ReceiveQueue) : outcome (Z * ReceiveQueue) :=
  ReceiveQueue_fill_loop (Z.to_nat (rq_wnd_size q + 2)) q.

(** Returns the return code, [last_sn] and the queue. *)
Definition ReceiveQueue_push (q : ReceiveQueue) (slice_list : list Buffer)
  : outcome (Z * Z * ReceiveQueue) :=
  '(fragment_id, sq) ← SecondaryQueue_push (rq_secondary_queue q) slice_list;
  '(rc, q1) ← ReceiveQueue_fillPrimaryQueue (q <| rq_secondary_queue := sq |>);
  Ok (rc, SHORT_SN (snd fragment_id), q1).

(** Whether [markCompleted] drops sequence number [sn] as out of the window. *)
Definition ReceiveQueue_out_of_window (q : ReceiveQueue) (sn : Z) : bool :=
  let wnd_start := SHORT_SN (rq_tail q) in
  let wnd_end := SHORT_SN (u64 (rq_tail q + rq_wnd_size q)) in
  if wnd_start <=? wnd_end
  then (sn <? wnd_start) || (sn >=? wnd_end)
  else (sn <? wnd_start) && (sn >=? wnd_end).

(** The loop that moves the tail over the requests that have completed. *)
Fixpoint ReceiveQueue_advance (fuel : nat) (q : ReceiveQueue) : outcome ReceiveQueue :=
  match fuel with
  | O => Trap TrapFuel
  | S fuel =>
      if rq_tail q =? rq_head q then Ok q
      else
        request ← ReceiveQueue_request q (rq_tail q);
        if rr_inflight request then Ok q
        else ReceiveQueue_advance fuel (q <| rq_tail := u64 (rq_tail q + 1) |>)
  end.

(** The part of [markCompleted] that fills the request a packet answers. *)
Definition ReceiveQueue_deliver (q : ReceiveQueue) (m : mem) (handle : PacketHandle)
  : outcome (ReceiveQueue * mem) :=
  request ← ReceiveQueue_request q (ph_sn handle);
  if rr_inflight request
  then
    if negb (PacketHandle_getPayloadLength handle =? rr_length request)
    then Trap TrapAbort
    else
      let m' := memmove m (rr_addr request) (PacketHandle_getPayload handle)
                  (rr_length request) in
      Ok ((ReceiveQueue_set_request q (ph_sn handle) (request <| rr_inflight := false |>))
            <| rq_last_packet_ts := Z.max (rq_last_packet_ts q) (ph_ts handle) |>, m')
  else Ok (q, m).

Definition ReceiveQueue_markCompleted (q : ReceiveQueue) (m : mem) (handle : PacketHandle)
  : outcome (Z * ReceiveQueue * mem) :=
  if ReceiveQueue_out_of_window q (ph_sn handle) then Ok (0, q, m)
  else
    '(q1, m1) ← ReceiveQueue_deliver q m handle;
    q2 ← ReceiveQueue_advance (S (Z.to_nat (u64 (rq_head q1 - rq_tail q1)))) q1;
    '(rc, q3) ← ReceiveQueue_fillPrimaryQueue q2;
    Ok (rc, q3, m1).

Definition ReceiveQueue_getNextSN (q : ReceiveQueue) : Z := SHORT_SN (rq_head q).
Definition ReceiveQueue_getAckSN (q : ReceiveQueue) : Z := SHORT_SN (rq_tail q).
Definition ReceiveQueue_getLastTS (q : ReceiveQueue) : Z := rq_last_packet_ts q.
Definition ReceiveQueue_getIndexRange (q : ReceiveQueue) : Z * Z := (rq_head q, rq_tail q).
Definition ReceiveQueue_setWndSize (q : ReceiveQueue) (wnd_size : Z) : ReceiveQueue :=
  q <| rq_wnd_size := Z.min (u16 wnd_size) (u16 (rq_queue_capacity q)) |>.
Definition ReceiveQueue_getWndSize (q : ReceiveQueue) : Z := rq_wnd_size q.
Definition ReceiveQueue_getAvailableWndSize (q : ReceiveQueue) : Z :=
  u16 (rq_wnd_size q - u64 (rq_head q - rq_tail q)).

(** ** The representation invariant *)

(** The request of fragment [b], received or not. *)
Definition request_ok (b : Buffer) (received : bool) (r : RxRequest) : Prop :=
  rr_addr r = buf_addr b /\ rr_length r = buf_length b /\ rr_inflight r = negb received.

Record rq_rep (q : ReceiveQueue) (frags : list Buffer) (R : gset Z) : Prop := {
  rqr_cap : 0 < rq_queue_capacity q;
  rqr_len : length (rq_requests q) = Z.to_nat (rq_queue_capacity q);
  rqr_wnd : 0 <= rq_wnd_size q < 0x10000 /\ rq_wnd_size q < rq_queue_capacity q;
  rqr_order : 0 <= rq_tail q <= rq_head q;
  rqr_ring : rq_head q - rq_tail q <= rq_queue_capacity q;
  rqr_backlog : sq_backlog (rq_secondary_queue q) frags (rq_head q);
  rqr_slots : forall i, rq_tail q <= i < rq_head q ->
    exists r b, rq_requests q !! Z.to_nat (i mod rq_queue_capacity q) = Some r /\
      frags !! Z.to_nat i = Some b /\ request_ok b (bool_decide (i ∈ R)) r;
  rqr_idle : forall k r, rq_requests q !! k = Some r -> rr_inflight r = true ->
    exists i, rq_tail q <= i < rq_head q /\ k = Z.to_nat (i mod rq_queue_capacity q);
  rqr_bound : forall i, i ∈ R -> 0 <= i < rq_head q;
  rqr_prefix : forall i, 0 <= i < rq_tail q -> i ∈ R
}.

(** The tail is the first index that has not arrived. *)
Definition rq_tail_tight (q : ReceiveQueue) (R : gset Z) : Prop := rq_tail q ∉ R.

Lemma rqr_total q frags R :
  rq_rep q frags R -> rq_head q <= Z.of_nat (length frags) < 0x10000000000000000.
Proof. intros [_ _ _ _ _ [_ Hbd Htot _ _ _ _] _ _ _ _]. lia. Qed.

(** Everything of a queue that [fillPrimaryQueue] leaves alone. *)
Definition rq_same (q q' : ReceiveQueue) : Prop :=
  rq_mtu_size q' = rq_mtu_size q /\ rq_queue_capacity q' = rq_queue_capacity q /\
  rq_session q' = rq_session q /\ rq_wnd_size q' = rq_wnd_size q /\
  sq_fragment_size (rq_secondary_queue q') = sq_fragment_size (rq_secondary_queue q).

#[export] Instance rq_same_refl : Reflexive rq_same.
Proof. intros q. unfold rq_same. tauto. Qed.
#[export] Instance rq_same_trans : Transitive rq_same.
Proof.
  intros q1 q2 q3 (A1 & A2 & A3 & A4 & A5) (B1 & B2 & B3 & B4 & B5).
  unfold rq_same. repeat split; congruence.
Qed.

(** ** Lemmas on the ring *)
Lemma ReceiveQueue_request_lookup q frags R i :
  rq_rep q frags R ->
  exists r, ReceiveQueue_request q i = Ok r /\
    rq_requests q !! Z.to_nat (i mod rq_queue_capacity q) = Some r.
Proof.
  intros [Hcap Hlen]. unfold ReceiveQueue_request.
  rewrite (proj2 (Z.eqb_neq _ 0)) by lia.
  apply vec_at_lt. rewrite Hlen. by apply ring_slot_bound.
Qed.

(** The slots of the window hold the requests of their indices; a slot of any
    other index is not in flight. *)
Lemma ReceiveQueue_request_in q frags R i :
  rq_rep q frags R -> rq_tail q <= i < rq_head q ->
  exists r b, ReceiveQueue_request q i = Ok r /\ frags !! Z.to_nat i = Some b /\
    request_ok b (bool_decide (i ∈ R)) r.
Proof.
  intros Hrep Hi. destruct (ReceiveQueue_request_lookup q frags R i Hrep) as (r & Hr & Hlk).
  destruct (rqr_slots _ _ _ Hrep i Hi) as (r' & b & Hlk' & Hb & Hok).
  rewrite Hlk in Hlk'. injection Hlk' as ->. by exists r', b.
Qed.

Lemma ReceiveQueue_request_out q frags R i :
  rq_rep q frags R -> rq_head q <= i < rq_tail q + rq_queue_capacity q ->
  exists r, ReceiveQueue_request q i = Ok r /\ rr_inflight r = false.
Proof.
  intros Hrep Hi. destruct (ReceiveQueue_request_lookup q frags R i Hrep) as (r & Hr & Hlk).
  exists r. split; [done|]. destruct (rr_inflight r) eqn:Hf; [|done].
  destruct (rqr_idle _ _ _ Hrep _ _ Hlk Hf) as (j & Hj & Heq).
  pose proof (rqr_cap _ _ _ Hrep). exfalso.
  apply (ring_slot_neq (rq_queue_capacity q) i j); [lia|lia|lia|done].
Qed.

(** ** [fillPrimaryQueue] *)
Lemma rq_fill_iter fuel q frags R :
  rq_rep q frags R ->
  SecondaryQueue_hasRemainingFragment (rq_secondary_queue q) = true ->
  rq_head q - rq_tail q <= rq_wnd_size q ->
  exists q',
    ReceiveQueue_fill_loop (S fuel) q = ReceiveQueue_fill_loop fuel q' /\
    rq_rep q' frags R /\ rq_same q q' /\ rq_tail q' = rq_tail q /\
    rq_head q' = rq_head q + 1 /\ rq_last_packet_ts q' = rq_last_packet_ts q.
Proof.
  intros Hrep Hrem Hroom.
  destruct (ReceiveQueue_request_lookup q frags R (rq_head q) Hrep) as (r0 & Hr0 & Hlk0).
  destruct Hrep as [Hcap Hlen Hwnd Hord Hring Hback Hslots Hidle Hbd Hpre].
  destruct (backlog_pop _ _ _ Hback Hrem)
    as (b & sq' & Hpop & Hb & Hhd & _ & Hback' & Hsz').
  pose proof (sqb_total _ _ _ Hback) as Htot.
  cbn [ReceiveQueue_fill_loop]. rewrite Hrem, (u64_small (rq_head q - _)) by (word_unfold; lia).
  rewrite (proj2 (Z.leb_le _ _) Hroom). cbn [andb]. rewrite Hpop.
  change (ReceiveQueue_request (q <| rq_secondary_queue := sq' |>)
            (rq_head (q <| rq_secondary_queue := sq' |>)))
    with (ReceiveQueue_request q (rq_head q)).
  rewrite Hr0. cbn [mbind outcome_bind].
  eexists. split; [reflexivity|]. cbn. rewrite (u64_small (rq_head q + 1)) by (word_unfold; lia).
  set (slot := Z.to_nat (rq_head q mod rq_queue_capacity q)) in *.
  assert (Hslot := lookup_lt_Some _ _ _ Hlk0).
  split; [|split_and!; try done; unfold rq_same; cbn; rewrite Hsz'; tauto].
  constructor; cbn; try done; fold slot.
  - by rewrite length_insert.
  - lia.
  - lia.
  - intros i Hi. destruct (decide (i = rq_head q)) as [->|Hne].
    + eexists _, b. fold slot. rewrite list_lookup_insert_eq by done.
      split; [done|]. split; [done|]. unfold request_ok. cbn.
      rewrite bool_decide_eq_false_2; [done|]. intros Hin%Hbd. lia.
    + destruct (Hslots i ltac:(lia)) as (ri & bi & Hri & Hbi & Hoki).
      exists ri, bi. rewrite list_lookup_insert_ne; [done|].
      unfold slot. apply ring_slot_neq; lia.
  - intros k r Hk Hin. apply list_lookup_insert_Some in Hk as [(<- & <- & _)|[Hne Hk]].
    + exists (rq_head q). split; [lia|done].
    + destruct (Hidle k r Hk Hin) as (i & Hi & ->). exists i. split; [lia|done].
  - intros i Hin%Hbd. lia.
Qed.

Lemma rq_fill_loop_spec fuel : forall q frags R,
  rq_rep q frags R -> (0 < fuel)%nat ->
  rq_wnd_size q + 2 - (rq_head q - rq_tail q) <= Z.of_nat fuel ->
  exists q', ReceiveQueue_fill_loop fuel q = Ok (0, q') /\
    rq_rep q' frags R /\ rq_same q q' /\ rq_tail q' = rq_tail q /\ rq_head q <= rq_head q' /\
    rq_last_packet_ts q' = rq_last_packet_ts q /\
    (rq_head q' = Z.of_nat (length frags) \/ rq_wnd_size q' < rq_head q' - rq_tail q').
Proof.
  induction fuel as [|fuel IH]; intros q frags R Hrep Hpos Hfuel; [lia|].
  destruct (SecondaryQueue_hasRemainingFragment (rq_secondary_queue q)) eqn:Hrem.
  - destruct (Z.le_gt_cases (rq_head q - rq_tail q) (rq_wnd_size q)) as [Hroom|Hfull].
    + destruct (rq_fill_iter fuel q frags R Hrep Hrem Hroom)
        as (q1 & Hstep & Hrep1 & Hsame & Ht & Hhd & Hts). rewrite Hstep.
      pose proof Hsame as (_ & _ & _ & Hw & _).
      destruct (IH q1 frags R) as (q' & Hl & Hr & Hs & Ht' & Hh & Hts' & Hend);
        [done|lia|rewrite Hw, Ht, Hhd; lia|].
      exists q'. split_and!; try done; [by etrans|congruence|lia|congruence].
    + exists q. pose proof Hrep as [_ _ Hwnd Hord _ [_ Hbd Htot _ _ _ _]].
      cbn [ReceiveQueue_fill_loop]. rewrite u64_small by (word_unfold; lia).
      rewrite (proj2 (Z.leb_gt _ _)), andb_false_r by lia. split_and!; try done; lia.
  - exists q. cbn [ReceiveQueue_fill_loop]. rewrite Hrem. cbn. split_and!; try done. left.
    by apply (backlog_empty (rq_secondary_queue q)), Hrem; apply Hrep.
Qed.

Lemma rq_fillPrimaryQueue_spec q frags R :
  rq_rep q frags R ->
  exists q', ReceiveQueue_fillPrimaryQueue q = Ok (0, q') /\
    rq_rep q' frags R /\ rq_same q q' /\ rq_tail q' = rq_tail q /\ rq_head q <= rq_head q' /\
    rq_last_packet_ts q' = rq_last_packet_ts q /\
    (rq_head q' = Z.of_nat (length frags) \/ rq_wnd_size q' < rq_head q' - rq_tail q').
Proof.
  intros Hrep. pose proof Hrep as [_ _ Hwnd Hord]. unfold ReceiveQueue_fillPrimaryQueue.
  apply rq_fill_loop_spec; [done|lia|lia].
Qed.

(** ** The window check *)

(** The first index at or after the tail whose 24-bit number is [sn]. *)
Definition rx_index (q : ReceiveQueue) (sn : Z) : Z :=
  rq_tail q + (sn - rq_tail q) mod 0x1000000.

Lemma out_of_window_spec q sn :
  0 <= rq_tail q -> 0 <= rq_wnd_size q < 0x1000000 ->
  rq_tail q + rq_wnd_size q < 0x10000000000000000 -> 0 <= sn < 0x1000000 ->
  ReceiveQueue_out_of_window q sn = negb (rx_index q sn <? rq_tail q + rq_wnd_size q).
Proof.
  intros Ht Hw Hu Hsn. unfold ReceiveQueue_out_of_window, rx_index.
  rewrite u64_small, !SHORT_SN_mod by (word_unfold; lia). rewrite Z.geb_leb.
  destruct (rq_tail q mod 0x1000000 <=? _) eqn:Hc; word_lia.
Qed.

Lemma SHORT_SN_rx_index q sn : 0 <= sn < 0x1000000 -> SHORT_SN (rx_index q sn) = sn.
Proof. intros Hsn. rewrite SHORT_SN_mod. unfold rx_index. word_lia. Qed.

(** In a ring whose size divides the sequence space, a packet's slot is the slot
    of its index. *)
Lemma ReceiveQueue_request_sn q sn :
  (rq_queue_capacity q | 0x1000000) -> 0 < rq_queue_capacity q -> 0 <= sn < 0x1000000 ->
  sn mod rq_queue_capacity q = rx_index q sn mod rq_queue_capacity q.
Proof.
  intros Hdiv Hcap Hsn. rewrite <- (SHORT_SN_rx_index q sn Hsn) at 1.
  rewrite SHORT_SN_mod. apply mod_of_mod; done || lia.
Qed.

(** ** Copying a packet into its request *)

(** The index a packet completes: inside the window, posted and not received. *)
Definition rx_hit (q : ReceiveQueue) (R : gset Z) (sn : Z) : option Z :=
  let i := rx_index q sn in
  if (i <? rq_tail q + rq_wnd_size q) && (i <? rq_head q) && bool_decide (i ∉ R)
  then Some i else None.

Lemma rx_hit_Some q R sn i :
  rx_hit q R sn = Some i <->
  i = rx_index q sn /\ i < rq_tail q + rq_wnd_size q /\ i < rq_head q /\ i ∉ R.
Proof.
  unfold rx_hit. set (j := rx_index q sn).
  destruct (bool_decide_reflect (j ∉ R)) as [Hin|Hin]; rewrite ?andb_true_r, ?andb_false_r.
  - destruct ((j <? _) && (j <? _)) eqn:Hc.
    + split; [intros [= <-]; split_and!; done || lia|intros (-> & _); done].
    + split; [done|]. intros (-> & ? & ? & _). lia.
  - split; [done|]. intros (-> & _ & _ & ?). done.
Qed.

(** Marking the request of index [i] as received. *)
Lemma rq_rep_receive q frags R i r ts :
  rq_rep q frags R -> rq_tail q <= i < rq_head q ->
  ReceiveQueue_request q i = Ok r ->
  rq_rep ((ReceiveQueue_set_request q i (r <| rr_inflight := false |>))
            <| rq_last_packet_ts := ts |>) frags ({[i]} ∪ R).
Proof.
  intros Hrep Hi Hr.
  destruct (ReceiveQueue_request_lookup q frags R i Hrep) as (r' & Hr' & Hlk).
  rewrite Hr in Hr'. injection Hr' as <-.
  destruct Hrep as [Hcap Hlen Hwnd Hord Hring Hback Hslots Hidle Hbd Hpre].
  assert (Hslot := lookup_lt_Some _ _ _ Hlk).
  constructor; cbn; try done.
  - by rewrite length_insert.
  - intros j Hj. destruct (Hslots j Hj) as (rj & bj & Hrj & Hbj & Ha & Hl & Hf).
    destruct (decide (j = i)) as [->|Hne].
    + eexists _, bj. rewrite list_lookup_insert_eq by done. split; [done|]. split; [done|].
      rewrite Hlk in Hrj. injection Hrj as <-. unfold request_ok. cbn.
      rewrite bool_decide_eq_true_2 by set_solver. done.
    + exists rj, bj. rewrite list_lookup_insert_ne by (apply ring_slot_neq; lia).
      split; [done|]. split; [done|]. unfold request_ok. rewrite Ha, Hl, Hf.
      split_and!; try done. f_equal. apply bool_decide_ext. set_solver.
  - intros k rk Hk Hin. apply list_lookup_insert_Some in Hk as [(<- & <- & _)|[Hne Hk]].
    + done.
    + by apply (Hidle k rk).
  - intros j Hj. assert (j = i \/ j ∈ R) as [->|Hin] by set_solver; [lia|by apply Hbd].
  - intros j Hj. apply elem_of_union_r, Hpre, Hj.
Qed.

Lemma ReceiveQueue_deliver_spec q m frags R h :
  rq_rep q frags R -> (rq_queue_capacity q | 0x1000000) -> 0 <= ph_sn h < 0x1000000 ->
  rx_index q (ph_sn h) < rq_tail q + rq_wnd_size q ->
  match rx_hit q R (ph_sn h) with
  | None => ReceiveQueue_deliver q m h = Ok (q, m)
  | Some i => exists b, frags !! Z.to_nat i = Some b /\
      (ph_data_len h <> buf_length b -> ReceiveQueue_deliver q m h = Trap TrapAbort) /\
      (ph_data_len h = buf_length b -> exists q',
         ReceiveQueue_deliver q m h =
           Ok (q', memmove m (buf_addr b) (PacketHandle_getPayload h) (buf_length b)) /\
         rq_rep q' frags ({[i]} ∪ R) /\ rq_same q q' /\ rq_tail q' = rq_tail q /\
         rq_head q' = rq_head q /\
         rq_last_packet_ts q' = Z.max (rq_last_packet_ts q) (ph_ts h))
  end.
Proof.
  intros Hrep Hdiv Hsn Hwin. pose proof (rqr_cap _ _ _ Hrep) as Hcap.
  pose proof (rqr_wnd _ _ _ Hrep) as [_ Hwc].
  assert (Hslot : ReceiveQueue_request q (ph_sn h) = ReceiveQueue_request q (rx_index q (ph_sn h))).
  { unfold ReceiveQueue_request. by rewrite (ReceiveQueue_request_sn q (ph_sn h)). }
  assert (Hset : forall r, ReceiveQueue_set_request q (ph_sn h) r
            = ReceiveQueue_set_request q (rx_index q (ph_sn h)) r).
  { intros r. unfold ReceiveQueue_set_request. by rewrite (ReceiveQueue_request_sn q (ph_sn h)). }
  assert (Hge : rq_tail q <= rx_index q (ph_sn h)) by (unfold rx_index; word_lia).
  unfold ReceiveQueue_deliver. rewrite Hslot.
  destruct (rx_hit q R (ph_sn h)) as [i|] eqn:Hhit.
  - apply rx_hit_Some in Hhit as (-> & _ & Hhd & Hnot).
    destruct (ReceiveQueue_request_in q frags R _ Hrep (conj Hge Hhd))
      as (r & b & Hr & Hb & Ha & Hl & Hf).
    rewrite Hr. cbn [mbind outcome_bind]. rewrite bool_decide_eq_false_2 in Hf by done.
    rewrite Hf. cbn [negb]. exists b. split; [done|].
    unfold PacketHandle_getPayloadLength. rewrite Hl. split; intros Hlen.
    + by rewrite (proj2 (Z.eqb_neq _ _) Hlen).
    + rewrite (proj2 (Z.eqb_eq _ _) Hlen), Ha. cbn [negb]. rewrite Hset.
      eexists. split; [done|]. split; [by apply rq_rep_receive|]. by split_and!.
  - assert (Hidle : exists r, ReceiveQueue_request q (rx_index q (ph_sn h)) = Ok r /\
                      rr_inflight r = false).
    { destruct (Z.lt_ge_cases (rx_index q (ph_sn h)) (rq_head q)) as [Hlt|Hge'].
      - destruct (ReceiveQueue_request_in q frags R _ Hrep (conj Hge Hlt))
          as (r & b & Hr & Hb & Ha & Hl & Hf). exists r. split; [done|].
        rewrite Hf. destruct (decide (rx_index q (ph_sn h) ∈ R)) as [Hin|Hin].
        + by rewrite bool_decide_eq_true_2.
        + assert (None = Some (rx_index q (ph_sn h))) as [=].
          rewrite <- Hhit. by apply rx_hit_Some.
      - apply (ReceiveQueue_request_out q frags R); [done|lia]. }
    destruct Hidle as (r & Hr & Hf). rewrite Hr. cbn. by rewrite Hf.
Qed.

(** ** Advancing the tail *)
Lemma rq_rep_tail_S q frags R :
  rq_rep q frags R -> rq_tail q < rq_head q -> rq_tail q ∈ R ->
  rq_rep (q <| rq_tail := rq_tail q + 1 |>) frags R.
Proof.
  intros Hrep Hlt Hin.
  destruct (ReceiveQueue_request_in q frags R (rq_tail q) Hrep ltac:(lia))
    as (r0 & b0 & Hr0 & Hb0 & Ha0 & Hl0 & Hf0).
  destruct (ReceiveQueue_request_lookup q frags R (rq_tail q) Hrep) as (r0' & Hr0' & Hlk0).
  rewrite Hr0 in Hr0'. injection Hr0' as <-.
  destruct Hrep as [Hcap Hlen Hwnd Hord Hring Hback Hslots Hidle Hbd Hpre].
  constructor; cbn; try done; try lia.
  - intros i Hi. apply Hslots. lia.
  - intros k r Hk Hf. destruct (Hidle k r Hk Hf) as (i & Hi & ->).
    exists i. split; [|done]. destruct (decide (i = rq_tail q)) as [->|Hne]; [|lia].
    rewrite Hlk0 in Hk. injection Hk as <-. rewrite Hf0, bool_decide_eq_true_2 in Hf; done.
  - intros i Hi. destruct (decide (i = rq_tail q)) as [->|Hne]; [done|]. apply Hpre. lia.
Qed.

Lemma ReceiveQueue_advance_spec fuel : forall q frags R,
  rq_rep q frags R -> rq_head q - rq_tail q < Z.of_nat fuel ->
  exists q', ReceiveQueue_advance fuel q = Ok q' /\
    rq_rep q' frags R /\ rq_tail_tight q' R /\ rq_same q q' /\
    rq_tail q <= rq_tail q' /\ rq_head q' = rq_head q /\
    rq_last_packet_ts q' = rq_last_packet_ts q.
Proof.
  induction fuel as [|fuel IH]; intros q frags R Hrep Hfuel.
  { pose proof (rqr_order _ _ _ Hrep). lia. }
  cbn [ReceiveQueue_advance].
  destruct (rq_tail q =? rq_head q) eqn:Heq.
  { exists q. split_and!; try done. intros Hin%(rqr_bound _ _ _ Hrep). lia. }
  pose proof (rqr_order _ _ _ Hrep) as Ho.
  destruct (ReceiveQueue_request_in q frags R (rq_tail q) Hrep ltac:(lia))
    as (r & b & Hr & Hb & Ha & Hl & Hf).
  rewrite Hr. cbn [mbind outcome_bind]. rewrite Hf.
  destruct (decide (rq_tail q ∈ R)) as [Hin|Hin].
  - rewrite bool_decide_eq_true_2 by done. cbn [negb].
    rewrite (u64_small (rq_tail q + 1))
      by (pose proof (rqr_total _ _ _ Hrep); word_unfold; lia).
    destruct (IH (q <| rq_tail := rq_tail q + 1 |>) frags R)
      as (q' & Hrun & Hrep' & Ht & Hsame & Hle & Hhd & Hts);
      [apply rq_rep_tail_S; done || lia|cbn; lia|].
    exists q'. cbn in *. split_and!; try done. lia.
  - rewrite bool_decide_eq_false_2 by done. exists q. by split_and!.
Qed.

(** ** [markCompleted], [push], [setWndSize] and the constructor *)
Lemma rq_tail_tight_head q frags R : rq_rep q frags R -> rq_tail q = rq_head q -> rq_tail_tight q R.
Proof. intros Hrep Heq Hin%(rqr_bound _ _ _ Hrep). lia. Qed.

Lemma advance_tight fuel q frags R :
  rq_rep q frags R -> rq_tail_tight q R -> ReceiveQueue_advance (S fuel) q = Ok q.
Proof.
  intros Hrep Ht. cbn [ReceiveQueue_advance].
  destruct (rq_tail q =? rq_head q) eqn:Heq; [done|].
  pose proof (rqr_order _ _ _ Hrep) as Ho.
  destruct (ReceiveQueue_request_in q frags R (rq_tail q) Hrep ltac:(lia))
    as (r & b & Hr & Hb & Ha & Hl & Hf).
  rewrite Hr. cbn [mbind outcome_bind]. rewrite Hf, bool_decide_eq_false_2; done.
Qed.

Lemma ReceiveQueue_markCompleted_spec q m frags R h :
  rq_rep q frags R -> rq_tail_tight q R ->
  (rq_queue_capacity q | 0x1000000) -> 0 <= ph_sn h < 0x1000000 ->
  rq_tail q + rq_wnd_size q < 0x10000000000000000 ->
  match rx_hit q R (ph_sn h) with
  | None => exists q', ReceiveQueue_markCompleted q m h = Ok (0, q', m) /\
      rq_rep q' frags R /\ rq_tail_tight q' R /\ rq_same q q' /\ rq_tail q' = rq_tail q /\
      rq_head q <= rq_head q' /\ rq_last_packet_ts q' = rq_last_packet_ts q
  | Some i => exists b, frags !! Z.to_nat i = Some b /\
      (ph_data_len h <> buf_length b -> ReceiveQueue_markCompleted q m h = Trap TrapAbort) /\
      (ph_data_len h = buf_length b -> exists q',
         ReceiveQueue_markCompleted q m h =
           Ok (0, q', memmove m (buf_addr b) (PacketHandle_getPayload h) (buf_length b)) /\
         rq_rep q' frags ({[i]} ∪ R) /\ rq_tail_tight q' ({[i]} ∪ R) /\ rq_same q q' /\
         rq_tail q <= rq_tail q' /\ rq_head q <= rq_head q' /\
         rq_last_packet_ts q' = Z.max (rq_last_packet_ts q) (ph_ts h))
  end.
Proof.
  intros Hrep Htight Hdiv Hsn Hu. pose proof (rqr_wnd _ _ _ Hrep) as [Hw _].
  pose proof (rqr_order _ _ _ Hrep) as Ho. pose proof (rqr_total _ _ _ Hrep) as Htot.
  unfold ReceiveQueue_markCompleted.
  rewrite (out_of_window_spec q (ph_sn h)) by lia.
  destruct (rx_index q (ph_sn h) <? rq_tail q + rq_wnd_size q) eqn:Hwin; cbn [negb].
  - pose proof (ReceiveQueue_deliver_spec q m frags R h Hrep Hdiv Hsn ltac:(lia)) as Hd.
    destruct (rx_hit q R (ph_sn h)) as [i|] eqn:Hhit.
    + destruct Hd as (b & Hb & Hbad & Hgood). exists b. split; [done|].
      split; [intros Hne; by rewrite Hbad|]. intros Heq.
      destruct (Hgood Heq) as (q1 & Hrun & Hrep1 & Hsame & Ht & Hh & Hts).
      rewrite Hrun. cbn [mbind outcome_bind].
      destruct (ReceiveQueue_advance_spec (S (Z.to_nat (u64 (rq_head q1 - rq_tail q1)))) q1
        frags _ Hrep1) as (q2 & Hrun2 & Hrep2 & Ht2 & Hsame2 & Hle2 & Hh2 & Hts2).
      { rewrite Ht, Hh, u64_small; word_unfold; lia. }
      rewrite Hrun2. cbn [mbind outcome_bind].
      destruct (rq_fillPrimaryQueue_spec q2 frags _ Hrep2)
        as (q3 & Hrun3 & Hrep3 & Hsame3 & Ht3 & Hh3 & Hts3 & _).
      rewrite Hrun3. cbn [mbind outcome_bind]. exists q3.
      split_and!; try done; unfold rq_tail_tight in *; [congruence|by transitivity q1; [|transitivity q2]|..];
        try lia; congruence.
    + rewrite Hd. cbn [mbind outcome_bind].
      rewrite (advance_tight _ q frags R) by done. cbn [mbind outcome_bind].
      destruct (rq_fillPrimaryQueue_spec q frags R Hrep)
        as (q3 & Hrun3 & Hrep3 & Hsame3 & Ht3 & Hh3 & Hts3 & _).
      rewrite Hrun3. cbn [mbind outcome_bind]. exists q3.
      split_and!; try done. unfold rq_tail_tight in *. by rewrite Ht3.
  - destruct (rx_hit q R (ph_sn h)) as [i|] eqn:Hhit.
    { apply rx_hit_Some in Hhit as (-> & ? & _). lia. }
    exists q. by split_and!.
Qed.

Lemma ReceiveQueue_push_spec q frags R l :
  rq_rep q frags R -> rq_tail_tight q R ->
  Forall (buffer_valid (sq_fragment_size (rq_secondary_queue q))) l ->
  Z.of_nat (length (frags ++ fragments (sq_fragment_size (rq_secondary_queue q)) l))
    < 0x10000000000000000 ->
  exists q',
    ReceiveQueue_push q l =
      Ok (0, SHORT_SN (Z.of_nat (length
        (frags ++ fragments (sq_fragment_size (rq_secondary_queue q)) l))), q') /\
    rq_rep q' (frags ++ fragments (sq_fragment_size (rq_secondary_queue q)) l) R /\
    rq_tail_tight q' R /\ rq_tail q' = rq_tail q /\ rq_wnd_size q' = rq_wnd_size q /\
    rq_head q <= rq_head q' /\ rq_queue_capacity q' = rq_queue_capacity q /\
    sq_fragment_size (rq_secondary_queue q') = sq_fragment_size (rq_secondary_queue q) /\
    rq_last_packet_ts q' = rq_last_packet_ts q.
Proof.
  intros [Hcap Hlen Hwnd Hord Hring Hback Hslots Hidle Hbd Hpre] Ht Hl Htot'.
  destruct (backlog_push _ _ _ _ Hback Hl Htot') as (start & sq1 & Hpush & Hback1 & Hsz).
  set (frags' := frags ++ _) in *.
  unfold ReceiveQueue_push. rewrite Hpush. cbn [mbind outcome_bind fst snd].
  assert (Hrep1 : rq_rep (q <| rq_secondary_queue := sq1 |>) frags' R).
  { constructor; cbn; try done.
    intros i Hi. destruct (Hslots i Hi) as (h & b & Hh & Hb & Hok).
    exists h, b. split; [done|]. split; [|done]. by apply lookup_app_l_Some. }
  destruct (rq_fillPrimaryQueue_spec _ _ _ Hrep1)
    as (q' & Hfill & Hrep' & Hsame & Ht' & Hhd & Hts & _).
  rewrite Hfill. cbn [mbind outcome_bind]. exists q'.
  destruct Hsame as (_ & Hc & Hs & Hw & Hz). cbn in *.
  rewrite Hsz in Hz. unfold rq_tail_tight in *. rewrite Ht'. by split_and!.
Qed.

Lemma ReceiveQueue_ctor_rep mtu cap wnd session :
  56 <= mtu < 0x100000000 -> 0 < cap < 0x10000 -> 0 <= wnd < cap ->
  exists q, ReceiveQueue_ctor mtu cap wnd session = Ok q /\ rq_rep q [] ∅ /\ rq_tail_tight q ∅ /\
    rq_head q = 0 /\ rq_tail q = 0 /\ rq_wnd_size q = wnd /\ rq_queue_capacity q = cap /\
    sq_fragment_size (rq_secondary_queue q) = mtu - 48.
Proof.
  intros Hm Hc Hw. unfold ReceiveQueue_ctor.
  rewrite (proj2 (Z.ltb_ge cap wnd)) by lia. eexists. split; [done|].
  unfold sizeof_PktHdr, kGRHSize. rewrite u64_small by (word_unfold; lia).
  rewrite u16_small by (word_unfold; lia). unfold rq_tail_tight. cbn.
  split; [|split_and!; set_solver || lia].
  constructor; cbn; try done; try lia; try set_solver.
  - by rewrite length_replicate.
  - apply backlog_ctor. lia.
  - intros k r [-> _]%lookup_replicate. done.
Qed.

Lemma ReceiveQueue_setWndSize_rep q frags R w :
  rq_rep q frags R -> Z.min (u16 w) (u16 (rq_queue_capacity q)) < rq_queue_capacity q ->
  rq_rep (ReceiveQueue_setWndSize q w) frags R.
Proof.
  intros [Hcap Hlen Hwnd Hord Hring Hback Hslots Hidle Hbd Hpre] Hw.
  constructor; cbn; try done. split; [|done].
  pose proof (u16_range w). pose proof (u16_range (rq_queue_capacity q)). word_unfold. lia.
Qed.

(** A packet whose true index is [a], less than a sequence space ahead of the
    tail or behind the window, completes index [a] or nothing. *)
Lemma rx_hit_index q R a :
  0 <= rq_tail q -> 0 <= rq_wnd_size q < 0x1000000 ->
  rq_tail q + rq_wnd_size q - 0x1000000 <= a < rq_tail q + 0x1000000 ->
  rx_hit q R (SHORT_SN a) =
    (if (rq_tail q <=? a) && (a <? rq_tail q + rq_wnd_size q) && (a <? rq_head q) &&
        bool_decide (a ∉ R) then Some a else None).
Proof.
  intros Ht Hw Ha.
  assert (Hi : rx_index q (SHORT_SN a) = if rq_tail q <=? a then a else a + 0x1000000).
  { unfold rx_index. rewrite SHORT_SN_mod. destruct (rq_tail q <=? a) eqn:?; word_lia. }
  unfold rx_hit. rewrite Hi. destruct (rq_tail q <=? a) eqn:Hle; [done|].
  rewrite (proj2 (Z.ltb_ge _ _)) by lia. done.
Qed.

(** ** Sequences of operations *)
Inductive rx_op : Type :=
| RxPush (slice_list : list Buffer)
| RxPacket (handle : PacketHandle)
| RxWnd (wnd_size : Z).

Definition rx_run_op (op : rx_op) (s : ReceiveQueue * mem) : outcome (ReceiveQueue * mem) :=
  let '(q, m) := s in
  match op with
  | RxPush l => '(_, _, q') ← ReceiveQueue_push q l; Ok (q', m)
  | RxPacket h => '(_, q', m') ← ReceiveQueue_markCompleted q m h; Ok (q', m')
  | RxWnd w => Ok (ReceiveQueue_setWndSize q w, m)
  end.

Fixpoint rx_run (ops : list rx_op) (s : ReceiveQueue * mem) : outcome (ReceiveQueue * mem) :=
  match ops with
  | [] => Ok s
  | op :: ops => s' ← rx_run_op op s; rx_run ops s'
  end.

Definition rx_pushed (ops : list rx_op) : list Buffer :=
  concat ((fun op => match op with RxPush l => l | _ => [] end) <$> ops).

Definition rx_op_valid (f cap : Z) (op : rx_op) : Prop :=
  match op with
  | RxPush l => Forall (buffer_valid f) l
  | RxPacket h => 0 <= ph_sn h < 0x1000000
  | RxWnd w => u16 w < cap
  end.

Lemma rx_run_op_rep f cap op q m frags R :
  rq_rep q frags R -> rq_tail_tight q R -> rq_queue_capacity q = cap ->
  (cap | 0x1000000) -> sq_fragment_size (rq_secondary_queue q) = f -> rx_op_valid f cap op ->
  Z.of_nat (length (frags ++ fragments f (rx_pushed [op]))) + cap < 0x10000000000000000 ->
  rx_run_op op (q, m) = Trap TrapAbort \/
  exists q' m' R', rx_run_op op (q, m) = Ok (q', m') /\
    rq_rep q' (frags ++ fragments f (rx_pushed [op])) R' /\ rq_tail_tight q' R' /\
    rq_queue_capacity q' = cap /\ sq_fragment_size (rq_secondary_queue q') = f.
Proof.
  intros Hrep Ht Hcap Hdiv Hf Hv Htot. unfold rx_pushed in *.
  cbn [fmap list_fmap concat app] in *. rewrite app_nil_r in *.
  destruct op as [l|h|w]; cbn [rx_run_op].
  - right. rewrite <- Hf in *. pose proof (rqr_cap _ _ _ Hrep).
    destruct (ReceiveQueue_push_spec q frags R l Hrep Ht Hv ltac:(lia))
      as (q' & Hrun & Hr & Ht' & _ & _ & _ & Hc & Hz & _).
    rewrite Hrun. cbn. exists q', m, R. split_and!; congruence || done.
  - cbn [fragments] in Htot. rewrite length_app in Htot.
    pose proof (rqr_total _ _ _ Hrep). pose proof (rqr_wnd _ _ _ Hrep).
    pose proof (rqr_order _ _ _ Hrep).
    pose proof (ReceiveQueue_markCompleted_spec q m frags R h Hrep Ht
                  ltac:(congruence) Hv ltac:(lia)) as Hs.
    cbn. rewrite app_nil_r. destruct (rx_hit q R (ph_sn h)) as [i|].
    + destruct Hs as (b & Hb & Hbad & Hgood).
      destruct (decide (ph_data_len h = buf_length b)) as [Heq|Hne].
      * right. destruct (Hgood Heq) as (q' & Hrun & Hr & Ht' & (_ & Hc & _ & _ & Hz) & _).
        rewrite Hrun. cbn. eexists q', _, _. split_and!; done || congruence.
      * left. by rewrite Hbad.
    + right. destruct Hs as (q' & Hrun & Hr & Ht' & (_ & Hc & _ & _ & Hz) & _).
      rewrite Hrun. cbn. eexists q', _, _. split_and!; done || congruence.
  - right. eexists _, _, R. split; [done|]. cbn. rewrite app_nil_r. split_and!; try done.
    apply ReceiveQueue_setWndSize_rep; [done|]. cbn in Hv. lia.
Qed.

Lemma rx_run_rep f cap ops : forall q m frags R,
  rq_rep q frags R -> rq_tail_tight q R -> rq_queue_capacity q = cap ->
  (cap | 0x1000000) -> sq_fragment_size (rq_secondary_queue q) = f ->
  Forall (rx_op_valid f cap) ops ->
  Z.of_nat (length (frags ++ fragments f (rx_pushed ops))) + cap < 0x10000000000000000 ->
  rx_run ops (q, m) = Trap TrapAbort \/
  exists q' m' R', rx_run ops (q, m) = Ok (q', m') /\
    rq_rep q' (frags ++ fragments f (rx_pushed ops)) R' /\ rq_tail_tight q' R'.
Proof.
  induction ops as [|op ops IH]; intros q m frags R Hrep Ht Hcap Hdiv Hf Hall Htot.
  { right. exists q, m, R. unfold rx_pushed, fragments. cbn. by rewrite app_nil_r. }
  apply Forall_cons in Hall as [Hv Hall].
  assert (Hsplit : fragments f (rx_pushed (op :: ops))
            = fragments f (rx_pushed [op]) ++ fragments f (rx_pushed ops)).
  { rewrite <- fragments_app. unfold rx_pushed. cbn. by rewrite app_nil_r. }
  rewrite Hsplit, app_assoc in Htot. cbn [rx_run].
  destruct (rx_run_op_rep f cap op q m frags R)
    as [Hab|(q1 & m1 & R1 & Hrun & Hrep1 & Ht1 & Hcap1 & Hf1)]; try done.
  { rewrite length_app in Htot. lia. }
  { left. by rewrite Hab. }
  rewrite Hrun. cbn [mbind outcome_bind]. rewrite Hsplit, app_assoc. by apply (IH q1 m1 _ R1).
Qed.


(** A received packet of 16 bytes at address 9000. *)
Definition demo_packet (sn : Z) : PacketHandle :=
  mkPacketHandle 0 0 0 sn 77 false false 0 true 8000 16 9000.


(** [C10] What one data packet does.  Let the packet's true index be [a], up to a
    sequence space ahead of the tail or behind the window.  If index [a] is in
    the window, posted and missing, a packet of the right length is copied: the
    posted buffer then holds exactly the packet's payload, every other byte of
    memory is unchanged, and [a] joins the received set; a packet of another
    length aborts the process.  In every other case (old, duplicate, beyond the
    window, not posted) neither memory nor the received set changes.  The tail
    never moves back. *)
Theorem receive_queue_packet_exact q m frags R h a :
  rq_rep q frags R -> rq_tail_tight q R -> (rq_queue_capacity q | 0x1000000) ->
  rq_tail q + rq_wnd_size q < 0x10000000000000000 ->
  rq_tail q + rq_wnd_size q - 0x1000000 <= a < rq_tail q + 0x1000000 ->
  ph_sn h = SHORT_SN a ->
  let hit := rq_tail q <= a /\ a < rq_tail q + rq_wnd_size q /\ a < rq_head q /\ a ∉ R in
  (hit -> exists b, frags !! Z.to_nat a = Some b /\
     (ph_data_len h <> buf_length b -> ReceiveQueue_markCompleted q m h = Trap TrapAbort) /\
     (ph_data_len h = buf_length b -> exists q' m',
        ReceiveQueue_markCompleted q m h = Ok (0, q', m') /\
        ld_bytes m' (buf_addr b) (Z.to_nat (buf_length b))
          = ld_bytes m (PacketHandle_getPayload h) (Z.to_nat (buf_length b)) /\
        (forall x, ~ (buf_addr b <= x < buf_addr b + buf_length b) -> ld8 m' x = ld8 m x) /\
        rq_rep q' frags ({[a]} ∪ R) /\ rq_tail_tight q' ({[a]} ∪ R) /\
        rq_tail q <= rq_tail q')) /\
  (~ hit -> exists q', ReceiveQueue_markCompleted q m h = Ok (0, q', m) /\
     rq_rep q' frags R /\ rq_tail_tight q' R /\ rq_tail q' = rq_tail q).
Proof.
  intros Hrep Ht Hdiv Hu Ha Hsn. cbn.
  pose proof (rqr_wnd _ _ _ Hrep) as Hw. pose proof (rqr_order _ _ _ Hrep) as Ho.
  pose proof (ReceiveQueue_markCompleted_spec q m frags R h Hrep Ht Hdiv
    ltac:(rewrite Hsn; apply SHORT_SN_range) Hu) as Hs.
  rewrite Hsn, rx_hit_index in Hs by lia. split.
  - intros (H1 & H2 & H3 & H4).
    rewrite bool_decide_eq_true_2, andb_true_r in Hs by done.
    rewrite (proj2 (Z.leb_le _ _)), (proj2 (Z.ltb_lt _ _)), (proj2 (Z.ltb_lt _ _)) in Hs by lia.
    cbn [andb] in Hs. destruct Hs as (b & Hb & Hbad & Hgood). exists b.
    split; [done|]. split; [done|]. intros Heq.
    destruct (Hgood Heq) as (q' & Hrun & Hrep' & Ht' & _ & Htl & _).
    assert (Hlen : 0 <= buf_length b).
    { pose proof (Forall_lookup_1 _ _ _ _ (sqb_frags _ _ _ (rqr_backlog _ _ _ Hrep)) Hb)
        as (_ & Hl & _). lia. }
    eexists q', _. split_and!; try done.
    + by rewrite ld_bytes_memmove.
    + intros x Hx. apply (agree_memmove x (x + 1)); lia.
  - intros Hno. destruct (_ && _) eqn:Hc in Hs.
    + exfalso. apply Hno. apply andb_prop in Hc as [Hc Hin%bool_decide_eq_true].
      split_and!; done || lia.
    + destruct Hs as (q' & Hrun & Hrep' & Ht' & _ & Htl & _). by exists q'.
Qed.

(** [getAvailableWndSize] of a full window.  [fillPrimaryQueue] posts
    [wnd_size_ + 1] requests, and the free window is computed as
    [wnd_size_ - (head_ - tail_)] in 16 bits: with the ring full it is reported
    as 65535 instead of 0. *)
Theorem available_wnd_wraps q frags R :
  rq_rep q frags R ->
  (rq_head q - rq_tail q = rq_wnd_size q + 1 -> ReceiveQueue_getAvailableWndSize q = 65535) /\
  (rq_head q - rq_tail q <= rq_wnd_size q ->
   ReceiveQueue_getAvailableWndSize q = rq_wnd_size q - (rq_head q - rq_tail q)).
Proof.
  intros Hrep. pose proof (rqr_total _ _ _ Hrep). pose proof (rqr_order _ _ _ Hrep).
  pose proof (rqr_wnd _ _ _ Hrep). unfold ReceiveQueue_getAvailableWndSize.
  split; intros Hd; word_lia.
Qed.

(** A ring of four slots, window 2, with three fragments posted. *)
Definition demo_rx : ReceiveQueue :=
  match (q0 ← ReceiveQueue_ctor 64 4 2 0; ReceiveQueue_push q0 [mkBuffer 1000 48]) with
  | Ok (_, _, q) => q
  | Trap _ => mkReceiveQueue 0 0 0 0 0 0 [] (SecondaryQueue_ctor 0) 0
  end.
Definition demo_rx_frags : list Buffer :=
  [mkBuffer 1000 16; mkBuffer 1016 16; mkBuffer 1032 16].

Lemma demo_rx_rep : rq_rep demo_rx demo_rx_frags ∅ /\ rq_tail_tight demo_rx ∅.
Proof.
  destruct (ReceiveQueue_ctor_rep 64 4 2 0 ltac:(lia) ltac:(lia) ltac:(lia))
    as (q0 & Hctor & Hrep & Ht & _ & _ & _ & _ & Hf).
  destruct (ReceiveQueue_push_spec q0 [] ∅ [mkBuffer 1000 48] Hrep Ht)
    as (q' & Hrun & Hrep' & Ht' & _); rewrite ?Hf.
  { repeat constructor; cbn; lia. }
  { vm_compute. done. }
  unfold demo_rx. rewrite Hctor. cbn [mbind outcome_bind]. rewrite Hrun.
  rewrite Hf in Hrep'. by split.
Qed.

Lemma available_wnd_wraps_witness : ReceiveQueue_getAvailableWndSize demo_rx = 65535.
Proof. apply (available_wnd_wraps _ _ _ (proj1 demo_rx_rep)). reflexivity. Defined.

Lemma receive_queue_packet_exact_witness :
  exists q' m', ReceiveQueue_markCompleted demo_rx ∅ (demo_packet 1) = Ok (0, q', m') /\
    ld_bytes m' 1016 16 = ld_bytes ∅ 9000 16.
Proof.
  destruct (receive_queue_packet_exact demo_rx ∅ demo_rx_frags ∅ (demo_packet 1) 1
    (proj1 demo_rx_rep) (proj2 demo_rx_rep)) as [Hhit _].
  - by exists 0x400000.
  - vm_compute. done.
  - vm_compute. done.
  - done.
  - destruct Hhit as (b & [= <-] & _ & Hgood).
    { split_and!; try (vm_compute; done). }
    destruct (Hgood eq_refl) as (q' & m' & Hrun & Hld & _).
    exists q', m'. split; [exact Hrun|exact Hld].
Defined.
