(* ===== verification/PacketManager.v ===== *)
(** * The packet manager

    Models [PacketManager] of src/protocols/rdma_unreliable/packet_manager.{h,cpp}:
    it owns the pool and, per session id, a send queue, a receive queue and a
    multicast send queue created on first use.  The references its getters
    return stay valid for the manager's life and are modelled by the session id
    they were created for.  The getters take the queue lock in shared mode, drop
    it and take it exclusively to create the entry; the entry they return is the
    same for every interleaving, since creation happens under the exclusive lock
    after a second lookup. *)

From S2P Require Import Prelude Mem Packet BufferPool SecondaryQueue SendQueue McastSendQueue.
From S2P Require Import ReceiveQueue.

Record PacketManager := mkPacketManager {
  pm_mtu_size : Z;
  pm_max_packets : Z;
  pm_queue_capacity : Z;
  pm_wnd_size : Z;
  pm_pool : PacketBufferPool;
  pm_send_queue : gmap Z SendQueue;
  pm_receive_queue : gmap Z ReceiveQueue;
  pm_mcast_send_queue : gmap Z McastSendQueue;
  pm_mcast_replica_num : gmap Z Z
}.
#[export] Instance PacketManager_fields : Fields PacketManager := mkFields (fun pm =>
  mkPacketManager (pm_mtu_size pm) (pm_max_packets pm) (pm_queue_capacity pm)
    (pm_wnd_size pm) (pm_pool pm) (pm_send_queue pm) (pm_receive_queue pm)
    (pm_mcast_send_queue pm) (pm_mcast_replica_num pm)).

Definition kWndSize : Z := 64.

Definition PacketManager_ctor (mtu_size max_packets queue_capacity wnd_size : Z)
  : PacketManager :=
  mkPacketManager mtu_size max_packets queue_capacity wnd_size
    (PacketBufferPool_ctor mtu_size max_packets) ∅ ∅ ∅ ∅.

Definition PacketManager_construct (numa_alloc_onnode : Z -> Z -> Z) (socket_id : Z)
    (pm : PacketManager) (m : mem) : outcome (Z * PacketManager * mem) :=
  '(rc, p, m') ← PacketBufferPool_construct numa_alloc_onnode socket_id (pm_pool pm) m;
  Ok (rc, pm <| pm_pool := p |>, m').

(** [deconstruct] destroys the send and receive queues (not the multicast ones)
    and releases the arena.  The order in which an unordered_map is traversed
    only affects the order of the free list, which is dropped with the arena. *)
Definition PacketManager_deconstruct (pm : PacketManager) (m : mem)
  : Z * PacketManager * mem :=
  let '(p, m') := foldl (fun '(p, m) '(_, q) => SendQueue_dtor m q p)
                    (pm_pool pm, m) (map_to_list (pm_send_queue pm)) in
  let '(rc, p') := PacketBufferPool_deconstruct p in
  (rc, pm <| pm_pool := p' |> <| pm_send_queue := ∅ |> <| pm_receive_queue := ∅ |>, m').

(** [sid % 256] as a uint8_t and [sid / 256], with C++ division. *)
Definition sid_session (sid : Z) : Z := u8 (Z.rem sid 256).
Definition sid_node (sid : Z) : Z := Z.quot sid 256.

(** Each getter returns the manager with an entry for [sid]. *)
Definition PacketManager_getSendQueue (pm : PacketManager) (sid : Z) (junk : PacketHandle)
  : outcome PacketManager :=
  match pm_send_queue pm !! sid with
  | Some _ => Ok pm
  | None =>
      entry ← SendQueue_ctor (pm_mtu_size pm) (pm_queue_capacity pm) (pm_wnd_size pm)
                (sid_session sid) junk;
      Ok (pm <| pm_send_queue := <[sid := entry]> (pm_send_queue pm) |>)
  end.

Definition PacketManager_getReceiveQueue (pm : PacketManager) (sid : Z)
  : outcome PacketManager :=
  match pm_receive_queue pm !! sid with
  | Some _ => Ok pm
  | None =>
      entry ← ReceiveQueue_ctor (pm_mtu_size pm) (pm_queue_capacity pm) (pm_wnd_size pm)
                (sid_session sid);
      Ok (pm <| pm_receive_queue := <[sid := entry]> (pm_receive_queue pm) |>)
  end.

(** [mcast_replica_num_[sid / 256]] inserts 0 when no count was set. *)
Definition PacketManager_getMcastSendQueue (pm : PacketManager) (sid : Z)
    (junk : PacketHandle) : outcome PacketManager :=
  match pm_mcast_send_queue pm !! sid with
  | Some _ => Ok pm
  | None =>
      let replica_num := default 0 (pm_mcast_replica_num pm !! sid_node sid) in
      let pm1 := pm <| pm_mcast_replica_num :=
                         <[sid_node sid := replica_num]> (pm_mcast_replica_num pm) |> in
      entry ← McastSendQueue_ctor (pm_mtu_size pm) (pm_queue_capacity pm) (pm_wnd_size pm)
                (sid_session sid) (u64 replica_num) junk;
      Ok (pm1 <| pm_mcast_send_queue := <[sid := entry]> (pm_mcast_send_queue pm1) |>)
  end.

Definition PacketManager_setMulticastReplicaNum (pm : PacketManager)
    (group_id replica_num : Z) : Z * PacketManager :=
  match pm_mcast_replica_num pm !! group_id with
  | Some _ => (ERR, pm)
  | None => (0, pm <| pm_mcast_replica_num :=
                       <[group_id := i32 replica_num]> (pm_mcast_replica_num pm) |>)
  end.

(** [SessionInfo::setup] of context.h and context_mcast.h: all three queues of
    the session are created. *)
Definition PacketManager_setup (pm : PacketManager) (sid : Z) (junk : PacketHandle)
  : outcome PacketManager :=
  pm1 ← PacketManager_getSendQueue pm sid junk;
  pm2 ← PacketManager_getReceiveQueue pm1 sid;
  PacketManager_getMcastSendQueue pm2 sid junk.

(** ** Session ids *)
Lemma sid_split node session :
  0 <= node -> 0 <= session < 256 ->
  sid_node (node * 256 + session) = node /\ sid_session (node * 256 + session) = session.
Proof.
  intros Hn Hs. unfold sid_node, sid_session.
  rewrite Z.quot_div_nonneg, Z.rem_mod_nonneg by lia. split; word_lia.
Qed.

(** ** The getters *)

(** Configuration under which every queue the manager creates is usable. *)
Definition pm_config_ok (pm : PacketManager) : Prop :=
  56 <= pm_mtu_size pm < 0x100000000 /\ 0 < pm_queue_capacity pm < 0x10000 /\
  0 <= pm_wnd_size pm < pm_queue_capacity pm.

(** Entry [sid] of [new] is the one [old] had, or a new one satisfying [P], and
    no other entry changed. *)
Definition entry_created {Q : Type} (P : Q -> Prop) (old new : gmap Z Q) (sid : Z) : Prop :=
  (exists q, new !! sid = Some q /\ (old !! sid = Some q \/ (old !! sid = None /\ P q))) /\
  (forall k, k <> sid -> new !! k = old !! k).

Lemma entry_created_same {Q} (P : Q -> Prop) (old : gmap Z Q) sid q :
  old !! sid = Some q -> entry_created P old old sid.
Proof. intros Hq. split; [|done]. exists q. by split; [|left]. Qed.

Lemma entry_created_insert {Q} (P : Q -> Prop) (old : gmap Z Q) sid q :
  old !! sid = None -> P q -> entry_created P old (<[sid := q]> old) sid.
Proof.
  intros Hq HP. split.
  - exists q. split; [apply lookup_insert_eq|by right].
  - intros k Hk. by apply lookup_insert_ne.
Qed.

Lemma entry_created_keep {Q} (P : Q -> Prop) (old new : gmap Z Q) sid k q :
  entry_created P old new sid -> old !! k = Some q -> new !! k = Some q.
Proof.
  intros [(q' & Hq' & Hold) Hne] Hk. destruct (decide (k = sid)) as [->|Hks].
  - destruct Hold as [Hold|[Hold _]]; congruence.
  - by rewrite Hne.
Qed.
#[export] Hint Resolve entry_created_same entry_created_insert entry_created_keep : rt.

Definition new_send (cap sid : Z) (q : SendQueue) : Prop :=
  sd_rep q [] [] /\ sd_queue_capacity q = cap /\ sd_session q = sid_session sid.
Definition new_receive (cap : Z) (q : ReceiveQueue) : Prop :=
  rq_rep q [] ∅ /\ rq_tail_tight q ∅ /\ rq_queue_capacity q = cap.
Definition new_mcast (n cap : Z) (q : McastSendQueue) : Prop :=
  ms_tail_list q = replicate (Z.to_nat n) 0 /\ ms_queue_capacity q = cap.

Lemma getSendQueue_spec pm sid junk :
  pm_config_ok pm ->
  exists sq, PacketManager_getSendQueue pm sid junk = Ok (pm <| pm_send_queue := sq |>) /\
    entry_created (new_send (pm_queue_capacity pm) sid) (pm_send_queue pm) sq sid.
Proof.
  intros (Hm & Hc & Hw). unfold PacketManager_getSendQueue.
  destruct (pm_send_queue pm !! sid) as [q|] eqn:Hq.
  { exists (pm_send_queue pm). split; [by destruct pm|eauto with rt]. }
  destruct (SendQueue_ctor_rep (pm_mtu_size pm) (pm_queue_capacity pm) (pm_wnd_size pm)
    (sid_session sid) junk Hm Hc Hw) as (q & Hctor & Hrep & _ & _ & _ & Hcap & Hse & _).
  rewrite Hctor. cbn [mbind outcome_bind]. eexists. split; [done|].
  apply entry_created_insert; [done|]. by unfold new_send.
Qed.

Lemma getReceiveQueue_spec pm sid :
  pm_config_ok pm ->
  exists rq, PacketManager_getReceiveQueue pm sid = Ok (pm <| pm_receive_queue := rq |>) /\
    entry_created (new_receive (pm_queue_capacity pm)) (pm_receive_queue pm) rq sid.
Proof.
  intros (Hm & Hc & Hw). unfold PacketManager_getReceiveQueue.
  destruct (pm_receive_queue pm !! sid) as [q|] eqn:Hq.
  { exists (pm_receive_queue pm). split; [by destruct pm|eauto with rt]. }
  destruct (ReceiveQueue_ctor_rep (pm_mtu_size pm) (pm_queue_capacity pm) (pm_wnd_size pm)
    (sid_session sid) Hm Hc Hw) as (q & Hctor & Hrep & Ht & _ & _ & _ & Hcap & _).
  rewrite Hctor. cbn [mbind outcome_bind]. eexists. split; [done|].
  apply entry_created_insert; [done|]. by unfold new_receive.
Qed.

(** The replica count a group's first queue is created with. *)
Definition replica_count (pm : PacketManager) (sid : Z) : Z :=
  default 0 (pm_mcast_replica_num pm !! sid_node sid).

Lemma getMcastSendQueue_spec pm sid junk :
  pm_config_ok pm ->
  exists mq rn, PacketManager_getMcastSendQueue pm sid junk =
      Ok (pm <| pm_mcast_send_queue := mq |> <| pm_mcast_replica_num := rn |>) /\
    entry_created (new_mcast (u64 (replica_count pm sid)) (pm_queue_capacity pm))
      (pm_mcast_send_queue pm) mq sid /\
    (pm_mcast_send_queue pm !! sid = None ->
     rn = <[sid_node sid := replica_count pm sid]> (pm_mcast_replica_num pm)).
Proof.
  intros (Hm & Hc & Hw). unfold PacketManager_getMcastSendQueue.
  destruct (pm_mcast_send_queue pm !! sid) as [q|] eqn:Hq.
  { exists (pm_mcast_send_queue pm), (pm_mcast_replica_num pm).
    split; [by destruct pm|]. split; [eauto with rt|done]. }
  unfold McastSendQueue_ctor. rewrite (proj2 (Z.ltb_ge _ _)) by lia. cbn [mbind outcome_bind].
  eexists _, _. split; [by destruct pm|]. split; [|done].
  apply entry_created_insert; [done|]. by unfold new_mcast.
Qed.

Lemma setup_spec pm sid junk :
  pm_config_ok pm ->
  exists pm', PacketManager_setup pm sid junk = Ok pm' /\
    entry_created (new_send (pm_queue_capacity pm) sid) (pm_send_queue pm) (pm_send_queue pm') sid /\
    entry_created (new_receive (pm_queue_capacity pm)) (pm_receive_queue pm) (pm_receive_queue pm') sid /\
    entry_created (new_mcast (u64 (replica_count pm sid)) (pm_queue_capacity pm))
      (pm_mcast_send_queue pm) (pm_mcast_send_queue pm') sid /\
    (pm_mcast_send_queue pm !! sid = None -> pm_mcast_replica_num pm' =
       <[sid_node sid := replica_count pm sid]> (pm_mcast_replica_num pm)) /\
    pm_pool pm' = pm_pool pm /\ pm_config_ok pm' /\
    pm_queue_capacity pm' = pm_queue_capacity pm /\ pm_mtu_size pm' = pm_mtu_size pm.
Proof.
  intros Hcfg. unfold PacketManager_setup.
  destruct (getSendQueue_spec pm sid junk Hcfg) as (sq & H1 & E1). rewrite H1.
  cbn [mbind outcome_bind].
  destruct (getReceiveQueue_spec (pm <| pm_send_queue := sq |>) sid
    ltac:(exact Hcfg)) as (rq & H2 & E2).
  rewrite H2. cbn [mbind outcome_bind].
  destruct (getMcastSendQueue_spec (pm <| pm_send_queue := sq |> <| pm_receive_queue := rq |>)
    sid junk ltac:(exact Hcfg)) as (mq & rn & H3 & E3 & E4).
  eexists. split; [exact H3|]. cbn in *. split_and!; try done; apply Hcfg.
Qed.

(** Queue creation is stable.  Setting up a session creates its missing
    queues in their initial state and never replaces or changes a queue an
    earlier call obtained, of this or any other session: the references handed
    out keep designating the same queue. *)
Theorem packet_manager_setup_stable pm sid junk :
  pm_config_ok pm ->
  exists pm', PacketManager_setup pm sid junk = Ok pm' /\
    (forall k q, pm_send_queue pm !! k = Some q -> pm_send_queue pm' !! k = Some q) /\
    (forall k q, pm_receive_queue pm !! k = Some q -> pm_receive_queue pm' !! k = Some q) /\
    (forall k q, pm_mcast_send_queue pm !! k = Some q -> pm_mcast_send_queue pm' !! k = Some q) /\
    (pm_send_queue pm !! sid = None -> exists q, pm_send_queue pm' !! sid = Some q /\
       sd_rep q [] [] /\ sd_session q = sid_session sid) /\
    (pm_receive_queue pm !! sid = None -> exists q, pm_receive_queue pm' !! sid = Some q /\
       rq_rep q [] ∅ /\ rq_tail_tight q ∅).
Proof.
  intros Hcfg. destruct (setup_spec pm sid junk Hcfg) as (pm' & Hrun & E1 & E2 & E3 & _).
  exists pm'. split; [done|]. do 3 (split; [intros k q; eauto with rt|]). split.
  - intros Hnone. destruct E1 as [(q & Hq & [Hold|[_ (Hr & _ & Hs)]]) _]; [congruence|].
    by exists q.
  - intros Hnone. destruct E2 as [(q & Hq & [Hold|[_ (Hr & Ht & _)]]) _]; [congruence|].
    by exists q.
Qed.

Lemma packet_manager_setup_stable_witness : exists pm',
  PacketManager_setup (PacketManager_ctor 1024 16 128 64) 256 test_handle = Ok pm' /\
  exists q, pm_send_queue pm' !! 256 = Some q /\ sd_rep q [] [] /\ sd_session q = 0.
Proof.
  destruct (packet_manager_setup_stable (PacketManager_ctor 1024 16 128 64) 256 test_handle)
    as (pm' & Hrun & _ & _ & _ & Hs & _).
  - unfold pm_config_ok. cbn. lia.
  - exists pm'. split; [exact Hrun|]. destruct (Hs eq_refl) as (q & Hq & Hr & Hse). by exists q.
Defined.

(** Setting up any session of a group before its replica count is set makes
    the count permanently 0: [SessionInfo::setup] creates the multicast queue of
    every session, [mcast_replica_num_[group]] inserts 0, and a later
    [setMulticastReplicaNum] for that group is refused and changes nothing. *)
Theorem replica_count_lost pm sid junk pm' n :
  pm_config_ok pm ->
  pm_mcast_send_queue pm !! sid = None -> pm_mcast_replica_num pm !! sid_node sid = None ->
  PacketManager_setup pm sid junk = Ok pm' ->
  PacketManager_setMulticastReplicaNum pm' (sid_node sid) n = (ERR, pm') /\
  exists q, pm_mcast_send_queue pm' !! sid = Some q /\ ms_tail_list q = [].
Proof.
  intros Hcfg Hq Hn Hrun.
  destruct (setup_spec pm sid junk Hcfg) as (pm1 & Hrun1 & _ & _ & E3 & Hrn & _).
  rewrite Hrun in Hrun1. injection Hrun1 as <-.
  unfold replica_count in *. rewrite Hn in *. cbn in *. split.
  - unfold PacketManager_setMulticastReplicaNum. rewrite (Hrn Hq), lookup_insert_eq. done.
  - destruct E3 as [(q & Hq' & [Hold|[_ (Ht & _)]]) _]; [congruence|]. by exists q.
Qed.

Lemma replica_count_lost_witness : exists pm',
  PacketManager_setup (PacketManager_ctor 1024 16 128 64) 256 test_handle = Ok pm' /\
  PacketManager_setMulticastReplicaNum pm' 1 3 = (ERR, pm').
Proof.
  assert (Hcfg : pm_config_ok (PacketManager_ctor 1024 16 128 64)) by (unfold pm_config_ok; cbn; lia).
  destruct (setup_spec (PacketManager_ctor 1024 16 128 64) 256 test_handle Hcfg) as (pm' & Hrun & _).
  exists pm'. split; [exact Hrun|].
  exact (proj1 (replica_count_lost (PacketManager_ctor 1024 16 128 64) 256 test_handle pm' 3
    Hcfg eq_refl eq_refl Hrun)).
Defined.
