(* ===== verification/Tasks.v ===== *)
(** * Task completion

    Models the completion test of [Context::getStatus]
    (src/protocols/rdma_unreliable/context.cpp) and [ContextMcast::getStatus]
    (context_mcast.cpp), and the [Status] of include/rapid_transfer.h.

    What the test needs from a queue is the interface [WindowQueue]: a window
    [tail, head) of 64-bit indices seen through 24-bit numbers.  The three queue
    classes are instances, and the theorems are about the interface. *)

From S2P Require Import Prelude Mem Packet BufferPool SecondaryQueue SendQueue McastSendQueue.
From S2P Require Import ReceiveQueue.

Inductive Status : Type := UNKNOWN | PENDING | SUCCESS | FAILED.
#[export] Instance Status_eq_dec : EqDecision Status.
Proof. solve_decision. Defined.

(** The comparison [getStatus] makes between the queue's sequence numbers and
    the last sequence number of the task. *)
Definition sn_status (ack_sn next_sn last_sn : Z) : Status :=
  if ack_sn <=? next_sn
  then (if last_sn <=? ack_sn then SUCCESS else PENDING)
  else (if last_sn >=? next_sn then SUCCESS else PENDING).

(** ** The interface *)
Class WindowQueue (Q : Type) := {
  wq_head : Q -> Z;
  wq_tail : Q -> Z;
  wq_next_sn : Q -> Z;
  wq_ack_sn : Q -> outcome Z;
  wq_wf : Q -> Prop;
  wq_next_sn_spec q : wq_next_sn q = SHORT_SN (wq_head q);
  wq_ack_sn_spec q : wq_ack_sn q = Ok (SHORT_SN (wq_tail q));
  wq_window q : wq_wf q -> 0 <= wq_tail q <= wq_head q /\ wq_head q - wq_tail q < 0x1000000
}.

#[export] Program Instance SendQueue_window : WindowQueue SendQueue := {
  wq_head := sd_head;
  wq_tail := sd_tail;
  wq_next_sn := SendQueue_getNextSN;
  wq_ack_sn q := Ok (SendQueue_getAckSN q);
  wq_wf q := sd_queue_capacity q < 0x1000000 /\ exists frags out, sd_rep q frags out
}.
Next Obligation. done. Qed.
Next Obligation. done. Qed.
Next Obligation.
  intros q (Hc & frags & out & Hrep). pose proof (sdr_order _ _ _ Hrep).
  pose proof (sdr_ring _ _ _ Hrep). lia.
Qed.

#[export] Program Instance ReceiveQueue_window : WindowQueue ReceiveQueue := {
  wq_head := rq_head;
  wq_tail := rq_tail;
  wq_next_sn := ReceiveQueue_getNextSN;
  wq_ack_sn q := Ok (ReceiveQueue_getAckSN q);
  wq_wf q := rq_queue_capacity q < 0x1000000 /\ exists frags R, rq_rep q frags R
}.
Next Obligation. done. Qed.
Next Obligation. done. Qed.
Next Obligation.
  intros q (Hc & frags & R & Hrep). pose proof (rqr_order _ _ _ Hrep).
  pose proof (rqr_ring _ _ _ Hrep). lia.
Qed.

#[export] Program Instance McastSendQueue_window : WindowQueue McastSendQueue := {
  wq_head := ms_head;
  wq_tail := McastSendQueue_getMinTailIndex;
  wq_next_sn := McastSendQueue_getNextSN;
  wq_ack_sn q := McastSendQueue_getAckSN q (-1);
  wq_wf q := ms_queue_capacity q < 0x1000000 /\ exists frags out, ms_rep q frags out
}.
Next Obligation. done. Qed.
Next Obligation. done. Qed.
Next Obligation.
  intros q (Hc & frags & out & Hrep). pose proof (ms_rep_head _ _ _ Hrep). lia.
Qed.

(** [getStatus] on a queue. *)
Definition queue_status {Q : Type} `{WindowQueue Q} (q : Q) (last_sn : Z) : outcome Status :=
  ack_sn ← wq_ack_sn q; Ok (sn_status ack_sn (wq_next_sn q) last_sn).

Section status.
Context {Q : Type} `{WQ : WindowQueue Q}.

Lemma queue_status_eq (q : Q) last_sn :
  queue_status q last_sn =
    Ok (sn_status (SHORT_SN (wq_tail q)) (SHORT_SN (wq_head q)) last_sn).
Proof.
  unfold queue_status. rewrite wq_ack_sn_spec, wq_next_sn_spec. done.
Qed.

(** The sequence-space cycle an index lies in. *)
Definition cycle (i : Z) : Z := i / 0x1000000.

Lemma status_in_cycle (q : Q) last :
  wq_wf q -> cycle (wq_tail q) = cycle (wq_head q) -> cycle last = cycle (wq_tail q) ->
  queue_status q (SHORT_SN last) =
    Ok (if decide (last <= wq_tail q) then SUCCESS else PENDING).
Proof.
  intros Hwf Hc Hl. pose proof (wq_window q Hwf) as [Ho Hw].
  rewrite queue_status_eq. unfold sn_status, cycle in *. rewrite !SHORT_SN_mod.
  leb_cases; case_decide; try done; exfalso; word_lia.
Qed.

(** [C27] Completion within one cycle of sequence numbers.  A task whose last
    fragment index is [last] and a queue whose window lies in the same cycle of
    2^24 numbers: [getStatus] reports SUCCESS exactly when the queue's tail has
    reached [last], and PENDING otherwise. *)
Theorem status_exact_in_cycle (q : Q) last :
  wq_wf q -> cycle (wq_tail q) = cycle (wq_head q) -> cycle last = cycle (wq_tail q) ->
  queue_status q (SHORT_SN last) =
    Ok (if decide (last <= wq_tail q) then SUCCESS else PENDING).
Proof. apply status_in_cycle. Qed.

(** Completion across the wrap is wrong.  While the window straddles a
    multiple of 2^24, a task whose last index is past the tail but before that
    multiple, or is the head itself, is reported as SUCCESS although fragments
    of it are unacknowledged. *)
Theorem status_wrap_premature (q : Q) last :
  wq_wf q -> cycle (wq_tail q) < cycle (wq_head q) ->
  wq_tail q < last <= wq_head q -> cycle last = cycle (wq_tail q) \/ last = wq_head q ->
  queue_status q (SHORT_SN last) = Ok SUCCESS.
Proof.
  intros Hwf Hc Hl Hcase. pose proof (wq_window q Hwf) as [Ho Hw].
  rewrite queue_status_eq. unfold sn_status, cycle in *. rewrite !SHORT_SN_mod, Z.geb_leb.
  leb_cases; try done; exfalso; destruct Hcase as [He| ->]; word_lia.
Qed.

(** A completed task reverts to PENDING.  Once the whole window has moved
    into the next cycle of sequence numbers, a task that had completed in the
    previous cycle is reported as PENDING again until the tail passes its 24-bit
    number once more. *)
Theorem status_reverts_after_wrap (q : Q) last :
  wq_wf q -> cycle (wq_tail q) = cycle (wq_head q) -> cycle last < cycle (wq_tail q) ->
  SHORT_SN (wq_tail q) < SHORT_SN last ->
  last <= wq_tail q /\ queue_status q (SHORT_SN last) = Ok PENDING.
Proof.
  intros Hwf Hc Hl Hs. pose proof (wq_window q Hwf) as [Ho Hw].
  split; [unfold cycle in Hl; word_lia|].
  rewrite queue_status_eq. unfold sn_status, cycle in *. rewrite !SHORT_SN_mod in *.
  leb_cases; try done; exfalso; word_lia.
Qed.
End status.

(** ** Witnesses: a receive queue with three fragments posted, and a multicast
    queue shifted to the end of a cycle *)
Lemma demo_rx_wf : wq_wf demo_rx.
Proof. split; [vm_compute; done|]. exists demo_rx_frags, ∅. apply demo_rx_rep. Qed.

Lemma status_exact_in_cycle_witness :
  queue_status demo_rx (SHORT_SN 3) = Ok PENDING /\ queue_status demo_rx (SHORT_SN 0) = Ok SUCCESS.
Proof.
  split.
  - apply (status_exact_in_cycle demo_rx 3 demo_rx_wf); vm_compute; reflexivity.
  - apply (status_exact_in_cycle demo_rx 0 demo_rx_wf); vm_compute; reflexivity.
Defined.

(** A send queue of four slots that has sent [n + 1] fragments, with the last
    two, at indices [n - 1] and [n], unacknowledged. *)
Definition wide_handle (i buf : Z) : PacketHandle :=
  mkPacketHandle 0 0 2 (SHORT_SN i) 0 false true 0 false buf 16 1000.
Definition wide_queue (n : Z) : SendQueue :=
  mkSendQueue 64 4 0 (n + 1) (n - 1) 2
    [wide_handle n 4096; test_handle <| ph_packet_buf := 0 |>;
     test_handle <| ph_packet_buf := 0 |>; wide_handle (n - 1) 4160]
    (mkSecondaryQueue [] 0 (n + 1) 16).

Lemma wide_backlog n k l :
  0 <= k <= l -> l = n -> l < 0x10000000000000000 -> k = n ->
  sq_backlog (mkSecondaryQueue [] 0 n 16) (replicate (Z.to_nat l) (mkBuffer 1000 16)) k.
Proof.
  intros Hk -> Hl ->. constructor; cbn [sq_fragment_id sq_fragment_size];
    rewrite ?length_replicate; try lia.
  - split; [cbn; lia|]. by split; [constructor|].
  - rewrite drop_ge; [done|]. rewrite length_replicate. lia.
  - apply Forall_replicate. unfold frag_ok. cbn. word_unfold. lia.
Qed.

Lemma wide_queue_rep n :
  1 <= n < 0x100000000 -> n mod 4 = 0 ->
  sd_rep (wide_queue n) (replicate (Z.to_nat (n + 1)) (mkBuffer 1000 16)) [4096; 4160].
Proof.
  intros Hn Hm. constructor; cbn [wide_queue sd_queue_capacity sd_handle sd_wnd_size sd_tail
    sd_head sd_secondary_queue sd_session]; try done; try lia.
  - apply wide_backlog; lia.
  - intros i Hi. destruct (decide (i = n)) as [->|Hne].
    + exists (wide_handle n 4096), (mkBuffer 1000 16). rewrite Hm. split; [done|].
      rewrite lookup_replicate. split; [split; [done|lia]|].
      unfold slot_ok. cbn. word_unfold. split_and!; done || lia.
    + assert (i = n - 1) as -> by lia.
      exists (wide_handle (n - 1) 4160), (mkBuffer 1000 16).
      replace ((n - 1) mod 4) with 3 by word_lia. split; [done|].
      rewrite lookup_replicate. split; [split; [done|lia]|].
      unfold slot_ok. cbn. word_unfold. split_and!; done || lia.
  - split.
    + intros [|[|[|[|i]]]] h; cbn; intros [= <-]; cbn; try done; intros _; set_solver.
    + intros [|[|[|[|i]]]] [|[|[|[|j]]]] h1 h2; cbn; intros [= <-] [= <-]; cbn; done.
Qed.

Lemma wide_queue_wf n : 1 <= n < 0x100000000 -> n mod 4 = 0 -> wq_wf (wide_queue n).
Proof. intros Hn Hm. split; [cbn; lia|]. eexists _, _. by apply wide_queue_rep. Qed.

Lemma status_wrap_premature_witness :
  sd_tail (wide_queue 0x1000000) < 0x1000001 /\
  queue_status (wide_queue 0x1000000) (SHORT_SN 0x1000001) = Ok SUCCESS.
Proof.
  split; [cbn; lia|].
  apply (status_wrap_premature (wide_queue 0x1000000) 0x1000001).
  - apply wide_queue_wf; [lia|reflexivity].
  - vm_compute. reflexivity.
  - cbn. lia.
  - right. reflexivity.
Defined.

(** The same queue after both acknowledgements and a bit further on. *)
Definition idle_queue (n : Z) : SendQueue :=
  mkSendQueue 64 4 0 n n 2 (replicate 4 (PacketHandle_ctor test_handle))
    (mkSecondaryQueue [] 0 n 16).

Lemma idle_queue_wf n : 0 <= n < 0x100000000 -> wq_wf (idle_queue n).
Proof.
  intros Hn. split; [cbn; lia|]. exists (replicate (Z.to_nat n) (mkBuffer 1000 16)), [].
  constructor; cbn [idle_queue sd_queue_capacity sd_handle sd_wnd_size sd_tail
    sd_head sd_secondary_queue sd_session]; try done; try lia.
  - apply wide_backlog; lia.
  - split.
    + intros i h [-> _]%lookup_replicate. done.
    + intros i j h1 h2 [-> _]%lookup_replicate. done.
Qed.

Lemma status_reverts_after_wrap_witness :
  queue_status (idle_queue 5) (SHORT_SN 5) = Ok SUCCESS /\
  queue_status (idle_queue 0x1000001) (SHORT_SN 5) = Ok PENDING.
Proof.
  split; [reflexivity|].
  apply (status_reverts_after_wrap (idle_queue 0x1000001) 5).
  - apply idle_queue_wf. lia.
  - reflexivity.
  - vm_compute. reflexivity.
  - vm_compute. reflexivity.
Defined.
