(* ===== verification/Congestion.v ===== *)
(** * Retransmission timer and congestion window

    Models [updateRTO] and [updateWndOnSuccess] of [Context] and [ContextMcast]
    (src/protocols/rdma_unreliable/context.cpp, context_mcast.cpp; the two
    classes have the same code with different constants), and the reaction of
    [sendDataPackets] to a retransmission.  Every operation wraps at the width
    of its C++ type; the theorems say where that matters. *)

From S2P Require Import Prelude.

(** ** The retransmission timer *)

(** [recv_srtt_], [recv_rttval_], [recv_rto_] *)
Record Rto := mkRto { rt_srtt : Z; rt_rttval : Z; rt_rto : Z }.
#[export] Instance Rto_fields : Fields Rto :=
  mkFields (fun r => mkRto (rt_srtt r) (rt_rttval r) (rt_rto r)).

Record RtoConfig := mkRtoConfig { kDefaultRTO : Z; kMinRTO : Z; kMaxRTO : Z }.
Definition Context_rto_config : RtoConfig := mkRtoConfig 4096 128 8196.
Definition ContextMcast_rto_config : RtoConfig := mkRtoConfig 8196 64 (8196 * 2).
Definition Rto_initial (k : RtoConfig) : Rto := mkRto 0 0 (kDefaultRTO k).

Definition updateRTO (k : RtoConfig) (r : Rto) (rtt : Z) : Rto :=
  let r1 :=
    if rt_srtt r =? 0
    then mkRto rtt (rtt / 2) (rt_rto r)
    else
      let delta0 := i64 (u64 (rtt - rt_srtt r)) in
      let delta := if delta0 <? 0 then i64 (- delta0) else delta0 in
      let rttval := u64 (u64 (3 * rt_rttval r) + u64 delta) / 4 in
      let srtt := u64 (u64 (7 * rt_srtt r) + rtt) / 8 in
      mkRto (if srtt <? 1 then 1 else srtt) rttval (rt_rto r) in
  let rto := u64 (rt_srtt r1 + u64 (4 * rt_rttval r1)) in
  r1 <| rt_rto := Z.min (Z.max (kMinRTO k) rto) (kMaxRTO k) |>.

#[global] Arguments updateRTO : simpl never.

(** [(current_ts - handle.ts) & ((1ull << 48) - 1)] *)
Definition rtt_sample (current_ts ts : Z) : Z := Z.land (u64 (current_ts - ts)) (Z.ones 48).

(** ** The congestion window *)

(** [cwnd], [rwnd], [ssthresh], [incr] of [SessionInfo]: [uint32_t]. *)
Record Cwnd := mkCwnd { cw_cwnd : Z; cw_rwnd : Z; cw_ssthresh : Z; cw_incr : Z }.
#[export] Instance Cwnd_fields : Fields Cwnd := mkFields (fun w =>
  mkCwnd (cw_cwnd w) (cw_rwnd w) (cw_ssthresh w) (cw_incr w)).

Definition kMinSSThreshValue : Z := 2.
Definition kResendValue : Z := 2.
Definition Cwnd_initial (wnd_size : Z) : Cwnd := mkCwnd 1 wnd_size kMinSSThreshValue 0.

(** The part of [updateWndOnSuccess] that computes the window. *)
Definition updateWnd (mtu_size : Z) (w : Cwnd) (rwnd : Z) : outcome Cwnd :=
  w1 ← (if cw_cwnd w <? cw_ssthresh w
        then Ok (w <| cw_cwnd := u32 (cw_cwnd w + 1) |>
                   <| cw_incr := u32 (cw_incr w + mtu_size) |>)
        else
          let incr0 := if cw_incr w <? mtu_size then mtu_size else cw_incr w in
          if incr0 =? 0 then Trap TrapDivZero
          else
            let incr := u32 (incr0 + u32 (u32 (mtu_size * mtu_size) / incr0 + mtu_size / 16)) in
            let w1 := w <| cw_incr := incr |> in
            if u32 (u32 (cw_cwnd w + 1) * mtu_size) <=? incr
            then if mtu_size =? 0 then Trap TrapDivZero
                 else Ok (w1 <| cw_cwnd := u32 (u32 (incr + mtu_size) - 1) / mtu_size |>)
            else Ok w1);
  Ok (w1 <| cw_rwnd := rwnd |> <| cw_cwnd := Z.min rwnd (cw_cwnd w1) |>).

(** The reaction to a retransmission ([Context::sendDataPackets]). *)
Definition wndOnResend (mtu_size : Z) (w : Cwnd) : Cwnd :=
  let ssthresh := Z.max kMinSSThreshValue (cw_cwnd w / 2) in
  mkCwnd (u32 (ssthresh + kResendValue)) (cw_rwnd w) ssthresh mtu_size.

(** The same in [ContextMcast::sendDataPackets]: back to one packet. *)
Definition wndOnResendMcast (mtu_size : Z) (w : Cwnd) : Cwnd :=
  mkCwnd 1 (cw_rwnd w) (Z.max kMinSSThreshValue (cw_cwnd w / 2)) mtu_size.

(** ** The timer stays in range *)
Lemma rtt_sample_range current_ts ts : 0 <= rtt_sample current_ts ts < 2 ^ 48.
Proof. unfold rtt_sample. rewrite Z.land_ones by lia. apply Z.mod_pos_bound. lia. Qed.

(** Estimates below 2^48, for which none of the 64-bit operations wraps. *)
Definition rto_wf (r : Rto) : Prop := 0 <= rt_srtt r < 2 ^ 48 /\ 0 <= rt_rttval r < 2 ^ 48.

Definition clamp (k : RtoConfig) (x : Z) : Z := Z.min (Z.max (kMinRTO k) x) (kMaxRTO k).

(** The update on unbounded integers. *)
Definition rto_reference (k : RtoConfig) (r : Rto) (rtt : Z) : Rto :=
  let '(srtt, rttval) :=
    if rt_srtt r =? 0 then (rtt, rtt / 2)
    else (Z.max 1 ((7 * rt_srtt r + rtt) / 8), (3 * rt_rttval r + Z.abs (rtt - rt_srtt r)) / 4) in
  mkRto srtt rttval (clamp k (srtt + 4 * rttval)).

Lemma updateRTO_exact k r rtt :
  rto_wf r -> 0 <= rtt < 2 ^ 48 ->
  updateRTO k r rtt = rto_reference k r rtt /\ rto_wf (updateRTO k r rtt).
Proof.
  intros [Hs Hv] Hr. change (2 ^ 48) with 0x1000000000000 in *.
  assert (Heq : updateRTO k r rtt = rto_reference k r rtt).
  { unfold updateRTO, rto_reference, clamp. destruct (rt_srtt r =? 0) eqn:Hz; cbn.
    - f_equal. do 2 f_equal. word_lia.
    - assert (Hd : i64 (u64 (rtt - rt_srtt r)) = rtt - rt_srtt r) by word_lia. rewrite Hd.
      replace (if rtt - rt_srtt r <? 0 then i64 (- (rtt - rt_srtt r)) else rtt - rt_srtt r)
        with (Z.abs (rtt - rt_srtt r)) by (leb_cases; word_lia).
      rewrite (u64_small (3 * rt_rttval r)), (u64_small (7 * rt_srtt r)),
        (u64_small (Z.abs _)) by (word_unfold; lia).
      rewrite !(u64_small (_ + _)) by (word_unfold; lia).
      set (sr := (7 * rt_srtt r + rtt) / 8). set (rv := (3 * rt_rttval r + _) / 4).
      assert (0 <= sr < 0x1000000000000) by (subst sr; word_lia).
      assert (0 <= rv < 0x1000000000000) by (subst rv; word_lia).
      replace (if sr <? 1 then 1 else sr) with (Z.max 1 sr) by (leb_cases; lia).
      rewrite (u64_small (4 * rv)), (u64_small (_ + _)) by (word_unfold; lia). done. }
  split; [done|]. rewrite Heq. unfold rto_reference, rto_wf.
  destruct (rt_srtt r =? 0) eqn:Hz; cbn; change (2 ^ 48) with 0x1000000000000; word_lia.
Qed.

Lemma updateRTO_range k r rtt :
  kMinRTO k <= kMaxRTO k -> kMinRTO k <= rt_rto (updateRTO k r rtt) <= kMaxRTO k.
Proof. intros Hk. unfold updateRTO. destruct (rt_srtt r =? 0); cbn; lia. Qed.

Definition rto_run (k : RtoConfig) (r : Rto) (rtts : list Z) : Rto := foldl (updateRTO k) r rtts.

Lemma rto_run_wf k rtts : forall r,
  rto_wf r -> Forall (fun rtt => 0 <= rtt < 2 ^ 48) rtts ->
  rto_wf (rto_run k r rtts) /\ rto_run k r rtts = foldl (rto_reference k) r rtts.
Proof.
  induction rtts as [|rtt rtts IH]; intros r Hr Hrtts; [done|]. cbn.
  apply Forall_cons in Hrtts as [Hrtt Hrtts].
  destruct (updateRTO_exact k r rtt Hr Hrtt) as [Heq Hwf]. rewrite <- Heq. by apply IH.
Qed.

(** [C31] The retransmission timer is safe.  Whatever round trips are measured
    from the clock and the echoed timestamps, the timer stays within
    [kMinRTO, kMaxRTO] and the 64-bit arithmetic never wraps: the estimator
    equals its definition on unbounded integers. *)
Theorem rto_bounded_and_exact k samples :
  kMinRTO k <= kDefaultRTO k <= kMaxRTO k ->
  let rtts := (fun '(current_ts, ts) => rtt_sample current_ts ts) <$> samples in
  let r := rto_run k (Rto_initial k) rtts in
  kMinRTO k <= rt_rto r <= kMaxRTO k /\ r = foldl (rto_reference k) (Rto_initial k) rtts.
Proof.
  intros Hk rtts r.
  assert (Hr : Forall (fun rtt => 0 <= rtt < 2 ^ 48) rtts).
  { apply Forall_fmap, Forall_true. intros [now ts]. apply rtt_sample_range. }
  assert (Hw : rto_wf (Rto_initial k)) by (unfold rto_wf; cbn; lia).
  destruct (rto_run_wf k rtts _ Hw Hr) as [_ Heq]. split; [|done].
  subst r. destruct rtts as [|rtt rtts _] using rev_ind; [done|].
  unfold rto_run. rewrite foldl_app. apply updateRTO_range. lia.
Qed.

Lemma rto_bounded_and_exact_witness :
  kMinRTO Context_rto_config
    <= rt_rto (rto_run Context_rto_config (Rto_initial Context_rto_config) [10; 2000])
    <= kMaxRTO Context_rto_config.
Proof.
  apply (proj1 (rto_bounded_and_exact Context_rto_config [(110, 100); (2100, 100)]
    ltac:(cbn; lia))).
Defined.

(** ** The timer converges *)
Lemma rto_steady k rtt : 0 < rtt < 2 ^ 48 -> forall n r,
  rto_wf r -> rt_srtt r = rtt -> rt_rttval r <= Z.of_nat n -> (0 < n)%nat ->
  let r' := rto_run k r (repeat rtt n) in
  rt_srtt r' = rtt /\ rt_rttval r' = 0 /\ rt_rto r' = clamp k rtt.
Proof.
  intros Hrtt. induction n as [|n IH]; intros r Hw Hs Hv Hn; [lia|]. cbn.
  destruct (updateRTO_exact k r rtt Hw ltac:(lia)) as [Heq Hw']. revert Hw'. rewrite Heq.
  unfold rto_reference. rewrite Hs, (proj2 (Z.eqb_neq rtt 0)) by lia.
  rewrite Z.sub_diag. change (Z.abs 0) with 0.
  assert (H8 : Z.max 1 ((7 * rtt + rtt) / 8) = rtt) by word_lia. rewrite H8.
  intros Hw'. destruct Hw as [_ Hv0].
  destruct n as [|n].
  - cbn. assert (Hz : (3 * rt_rttval r + 0) / 4 = 0) by word_lia. rewrite Hz.
    replace (rtt + 4 * 0) with rtt by lia. done.
  - apply IH; [done|done|cbn; word_lia|lia].
Qed.

(** The timer converges.  If the network's round trip is steady at [rtt],
    then after at most [rtt / 2 + 1] further acknowledgements the variance term
    is gone and the timeout is [rtt] itself (clamped), and it stays there. *)
Theorem rto_converges k rtt n :
  0 < rtt < 2 ^ 48 -> rtt / 2 + 1 <= Z.of_nat n ->
  rt_rto (rto_run k (Rto_initial k) (rtt :: repeat rtt n)) = clamp k rtt.
Proof.
  intros Hrtt Hn. change (2 ^ 48) with 0x1000000000000 in *. cbn.
  set (r := updateRTO k (Rto_initial k) rtt).
  assert (Hr : rto_wf r /\ rt_srtt r = rtt /\ rt_rttval r = rtt / 2).
  { split; [|done]. apply updateRTO_exact; [unfold rto_wf; cbn; lia|lia]. }
  destruct Hr as (Hw & Hs & Hv).
  apply (rto_steady k rtt ltac:(done) n r); [done|done|rewrite Hv; lia|word_lia].
Qed.

Lemma rto_converges_witness :
  rt_rto (rto_run Context_rto_config (Rto_initial Context_rto_config) (300 :: repeat 300 151))
    = 300.
Proof. apply (rto_converges Context_rto_config 300 151); [lia|vm_compute; discriminate]. Defined.

(** ** The window *)
Definition cwnd_wf (w : Cwnd) : Prop :=
  0 <= cw_cwnd w < 0x10000 /\ is_u32 (cw_ssthresh w) /\ is_u32 (cw_incr w).

(** The byte credit after an acknowledgement in congestion avoidance. *)
Definition credit (mtu incr : Z) : Z :=
  let incr0 := Z.max mtu incr in incr0 + mtu * mtu / incr0 + mtu / 16.

Lemma credit_range mtu incr :
  16 <= mtu -> 0 <= incr -> incr + mtu / 16 <= credit mtu incr <= Z.max mtu incr + mtu + mtu / 16.
Proof.
  intros Hm Hi. unfold credit. set (i := Z.max mtu incr).
  assert (0 <= mtu * mtu / i) by (apply Z.div_pos; nia).
  assert (mtu * mtu / i <= mtu) by (apply Z.div_le_upper_bound; nia). lia.
Qed.

(** One acknowledgement outside slow start, as long as the credit fits. *)
Lemma updateWnd_avoidance mtu w rwnd :
  16 <= mtu <= 0x8000 -> cwnd_wf w -> cw_ssthresh w <= cw_cwnd w ->
  credit mtu (cw_incr w) < 0x100000000 ->
  let incr := credit mtu (cw_incr w) in
  updateWnd mtu w rwnd = Ok (mkCwnd
    (Z.min rwnd (if (cw_cwnd w + 1) * mtu <=? incr
                 then u32 (incr + mtu - 1) / mtu else cw_cwnd w)) rwnd (cw_ssthresh w) incr).
Proof.
  intros Hm (Hc & Hs & Hi) Hss Hfit incr.
  pose proof (credit_range mtu (cw_incr w) ltac:(lia) ltac:(apply Hi)) as Hcr.
  assert (Hm16 : 0 <= mtu / 16 <= mtu) by word_lia.
  unfold updateWnd. rewrite (proj2 (Z.ltb_ge _ _) Hss).
  replace (if cw_incr w <? mtu then mtu else cw_incr w) with (Z.max mtu (cw_incr w))
    by (leb_cases; lia).
  rewrite (proj2 (Z.eqb_neq (Z.max mtu (cw_incr w)) 0)) by lia.
  assert (Hq : 0 <= mtu * mtu / Z.max mtu (cw_incr w) <= mtu).
  { split; [apply Z.div_pos; nia|apply Z.div_le_upper_bound; nia]. }
  assert (Hmm : 0 <= mtu * mtu <= 0x8000 * 0x8000) by nia.
  rewrite (u32_small (mtu * mtu)) by (word_unfold; lia).
  rewrite (u32_small (mtu * mtu / _ + _)) by (word_unfold; lia).
  assert (Hin : Z.max mtu (cw_incr w) + (mtu * mtu / Z.max mtu (cw_incr w) + mtu / 16) = incr)
    by (unfold incr, credit; lia).
  rewrite Hin. rewrite (u32_small incr) by (word_unfold; unfold incr in *; lia).
  rewrite (u32_small (cw_cwnd w + 1)) by (word_unfold; lia).
  assert (Hcm : 0 <= (cw_cwnd w + 1) * mtu <= 0x10000 * 0x8000)
    by (split; [|apply Z.mul_le_mono_nonneg]; nia).
  rewrite (u32_small (_ * mtu)) by (word_unfold; lia).
  rewrite (proj2 (Z.eqb_neq mtu 0)) by lia.
  replace (u32 (u32 (incr + mtu) - 1)) with (u32 (incr + mtu - 1)) by word_lia.
  by destruct (_ <=? incr).
Qed.

(** The congestion window is exact while the byte credit fits in 32 bits:
    slow start adds one packet per acknowledgement; afterwards the credit grows
    and the window follows it, never shrinks on success except to the receiver's
    window, and stays within [1, rwnd]. *)
Theorem window_update_exact mtu w rwnd :
  16 <= mtu <= 0x8000 -> cwnd_wf w -> 1 <= cw_cwnd w -> 1 <= rwnd < 0x10000 ->
  cw_incr w + 3 * mtu < 0x100000000 -> exists w',
    updateWnd mtu w rwnd = Ok w' /\ 1 <= cw_cwnd w' <= rwnd /\ cw_rwnd w' = rwnd /\
    cw_ssthresh w' = cw_ssthresh w /\ Z.min rwnd (cw_cwnd w) <= cw_cwnd w' /\
    (cw_cwnd w < cw_ssthresh w ->
       cw_cwnd w' = Z.min rwnd (cw_cwnd w + 1) /\ cw_incr w' = cw_incr w + mtu) /\
    (cw_ssthresh w <= cw_cwnd w ->
       cw_incr w' = credit mtu (cw_incr w) /\
       cw_cwnd w' = Z.min rwnd (Z.max (cw_cwnd w)
         (if (cw_cwnd w + 1) * mtu <=? cw_incr w' then (cw_incr w' + mtu - 1) / mtu else 0))).
Proof.
  intros Hm Hw Hc1 Hr Hroom. pose proof Hw as (Hc & Hs & Hi).
  assert (Hd16 : 0 <= mtu / 16 <= mtu) by word_lia.
  destruct (Z.lt_ge_cases (cw_cwnd w) (cw_ssthresh w)) as [Hlt|Hge].
  - eexists. split; [unfold updateWnd; rewrite (proj2 (Z.ltb_lt _ _) Hlt); reflexivity|]. cbn.
    rewrite !u32_small by (word_unfold; lia). split_and!; try done; try lia.
  - pose proof (credit_range mtu (cw_incr w) ltac:(lia) ltac:(apply Hi)) as Hcr.
    assert (Hfit : credit mtu (cw_incr w) + mtu - 1 < 0x100000000) by lia.
    eexists. split; [apply updateWnd_avoidance; [done|done|lia|lia]|]. cbn.
    rewrite (u32_small (_ + mtu - 1)) by (word_unfold; lia).
    destruct (Z.leb_spec ((cw_cwnd w + 1) * mtu) (credit mtu (cw_incr w))) as [Hle|Hgt].
    + assert (Hgrow : cw_cwnd w + 1 <= (credit mtu (cw_incr w) + mtu - 1) / mtu)
        by (apply Z.div_le_lower_bound; lia).
      split_and!; try done; try lia.
    + split_and!; try done; try lia.
Qed.

Lemma window_update_exact_witness : exists w',
  updateWnd 4096 (mkCwnd 8 64 2 40000) 64 = Ok w' /\ 1 <= cw_cwnd w' <= 64.
Proof.
  destruct (window_update_exact 4096 (mkCwnd 8 64 2 40000) 64) as (w' & Hrun & Hb & _);
    try (unfold cwnd_wf; cbn; word_unfold; lia). by exists w'.
Defined.

Lemma updateWnd_range mtu w rwnd w' :
  0 <= mtu -> 0 <= cw_cwnd w -> 0 <= rwnd -> updateWnd mtu w rwnd = Ok w' -> 0 <= cw_cwnd w' <= rwnd.
Proof.
  intros Hm Hw Hr H. unfold updateWnd in H.
  match type of H with (_ ← ?e; _) = _ => destruct e as [w1|] eqn:He end; [|done].
  cbn [mbind outcome_bind] in H. injection H as <-. cbn.
  assert (0 <= cw_cwnd w1); [|lia]. revert He. destruct (_ <? _); [intros [= <-]; cbn; word_lia|].
  destruct (_ =? 0); [done|]. cbv zeta. destruct (_ <=? _); [|by intros [= <-]].
  destruct (Z.eqb_spec mtu 0); [done|]. intros [= <-]. cbn. apply Z.div_pos; [word_lia|lia].
Qed.

Lemma updateWnd_ssthresh mtu w rwnd w' :
  updateWnd mtu w rwnd = Ok w' -> cw_ssthresh w' = cw_ssthresh w /\ cw_cwnd w' <= rwnd.
Proof. unfold updateWnd. intros H. outcome_run; simplify_eq; cbn; lia. Qed.

(** ** The collapse of the window *)
Definition wnd_run (mtu : Z) (w : Cwnd) (rwnds : list Z) : outcome Cwnd :=
  foldl (fun acc rwnd => w ← acc; updateWnd mtu w rwnd) (Ok w) rwnds.

Lemma wnd_run_cons mtu w rwnd rwnds w1 :
  updateWnd mtu w rwnd = Ok w1 -> wnd_run mtu w (rwnd :: rwnds) = wnd_run mtu w1 rwnds.
Proof. intros H. unfold wnd_run. cbn. by rewrite H. Qed.

Section collapse.
Context (mtu rwnd : Z) (Hmtu : 16 <= mtu <= 0x8000) (Hrwnd : 2 <= rwnd < 0x10000).
Context (Hroom : (rwnd + 2) * mtu <= 0x100000000).

(** A state in congestion avoidance whose credit has not reached the last
    [mtu - 1] values of the 32-bit range. *)
Definition growing (w : Cwnd) : Prop :=
  cwnd_wf w /\ cw_ssthresh w = 2 /\ 2 <= cw_cwnd w <= rwnd /\
  cw_incr w + mtu - 1 < 0x100000000.

Lemma growing_step w : growing w -> exists w1,
  updateWnd mtu w rwnd = Ok w1 /\ cw_incr w + mtu / 16 <= cw_incr w1 /\
  (cw_cwnd w1 = 0 \/ growing w1).
Proof using Hmtu Hrwnd Hroom.
  intros (Hw & Hss & Hc & Hi). pose proof Hw as (_ & _ & Hiu). destruct Hiu as [Hi0 _].
  pose proof (credit_range mtu (cw_incr w) ltac:(lia) Hi0) as Hcr.
  assert (Hs : 0 <= mtu / 16 < mtu) by word_lia.
  assert (Hfit : credit mtu (cw_incr w) < 0x100000000).
  { unfold credit in *. destruct (Z.le_gt_cases (cw_incr w) (mtu * mtu)) as [Hle|Hgt]; [nia|].
    rewrite (Z.max_r mtu (cw_incr w)) by nia. rewrite Z.div_small by nia. nia. }
  eexists. split; [apply updateWnd_avoidance; [lia|done|lia|done]|]. cbn.
  split; [lia|]. set (incr := credit mtu (cw_incr w)) in *.
  destruct (Z.le_gt_cases 0x100000000 (incr + mtu - 1)) as [Hwrap|Hno].
  - left. rewrite (proj2 (Z.leb_le _ _)) by nia.
    replace (u32 (incr + mtu - 1)) with (incr + mtu - 1 - 0x100000000) by word_lia.
    rewrite Z.div_small by lia. lia.
  - right. unfold growing, cwnd_wf. cbn. rewrite u32_small by (word_unfold; lia).
    destruct (Z.leb_spec ((cw_cwnd w + 1) * mtu) incr) as [Hle|Hgt].
    + assert (cw_cwnd w + 1 <= (incr + mtu - 1) / mtu) by (apply Z.div_le_lower_bound; lia).
      word_unfold. lia.
    + word_unfold. lia.
Qed.

Lemma growing_collapses : forall bound w,
  growing w -> 0x100000000 - cw_incr w <= Z.of_nat bound * (mtu / 16) ->
  exists n w', (n <= bound)%nat /\ wnd_run mtu w (repeat rwnd n) = Ok w' /\ cw_cwnd w' = 0.
Proof using Hmtu Hrwnd Hroom.
  assert (Hs : 1 <= mtu / 16) by word_lia.
  induction bound as [|bound IH]; intros w Hw Hb;
    [destruct Hw as (_ & _ & _ & Hi); lia|].
  destruct (growing_step w Hw) as (w1 & Hrun & Hgrow & [Hz|Hw1]).
  - exists 1%nat, w1. split; [lia|]. cbn [repeat]. by rewrite (wnd_run_cons _ _ _ _ _ Hrun).
  - destruct (IH w1 Hw1 ltac:(lia)) as (n & w' & Hn & Hrun' & Hz).
    exists (S n), w'. split; [lia|]. cbn [repeat]. by rewrite (wnd_run_cons _ _ _ _ _ Hrun).
Qed.
End collapse.

(** [C34] The byte credit is never capped, so on a long-lived session it reaches
    the end of the 32-bit range and [entry.incr + mtu_size_ - 1] wraps: starting
    from a new session, after a finite number of successful acknowledgements
    announcing a receive window of [rwnd] packets (at most 2^32 / (mtu / 16) + 2
    of them, about 2^26 with the MTU of 1024 bytes that [Create] chooses) the
    congestion window is zero. *)
Theorem window_collapses_to_zero mtu rwnd :
  16 <= mtu <= 0x8000 -> 2 <= rwnd < 0x10000 -> (rwnd + 2) * mtu <= 0x100000000 ->
  exists n w', Z.of_nat n <= 0x100000000 / (mtu / 16) + 2 /\
    wnd_run mtu (Cwnd_initial 64) (repeat rwnd n) = Ok w' /\ cw_cwnd w' = 0.
Proof.
  intros Hm Hr Hroom. assert (Hs : 1 <= mtu / 16) by word_lia.
  assert (Hfirst : updateWnd mtu (Cwnd_initial 64) rwnd = Ok (mkCwnd 2 rwnd 2 mtu)).
  { unfold updateWnd, Cwnd_initial. cbn. rewrite !u32_small by (word_unfold; lia).
    by rewrite Z.min_r by lia. }
  set (bound := Z.to_nat (0x100000000 / (mtu / 16) + 1)).
  destruct (growing_collapses mtu rwnd Hm Hr Hroom bound (mkCwnd 2 rwnd 2 mtu))
    as (n & w' & Hn & Hrun & Hz).
  - unfold growing, cwnd_wf. cbn. word_unfold. lia.
  - cbn. subst bound. rewrite Z2Nat.id by (apply Z.add_nonneg_nonneg; [apply Z.div_pos|]; lia).
    pose proof (Z.mul_succ_div_gt 0x100000000 (mtu / 16) ltac:(lia)). lia.
  - exists (S n), w'. split; [|split; [cbn [repeat]; by rewrite (wnd_run_cons _ _ _ _ _ Hfirst)|done]].
    subst bound. pose proof (Z.div_pos 0x100000000 (mtu / 16) ltac:(lia) ltac:(lia)). lia.
Qed.

Lemma window_collapses_to_zero_witness : exists n w', Z.of_nat n <= 0x1000002 /\
  wnd_run 4096 (Cwnd_initial 64) (repeat 64 n) = Ok w' /\ cw_cwnd w' = 0.
Proof. apply (window_collapses_to_zero 4096 64); lia. Defined.
