(* ===== verification/RequestCache.v ===== *)
(** * Work requests and their cache

    Models [Request] and [RequestCache] of src/protocols/common/rdma_endpoint.h.
    A request is a heap object known by its address.  The cache keeps released
    requests in a ring of 4096 pointers and hands the oldest one out again
    instead of allocating.

    [operator new] is not part of the program: the address it returns is an
    argument of [RequestCache_allocate]. *)

From S2P Require Import Prelude Mem Packet SendQueue Tasks.

(** The depth counters [qp_depth] can point to: those of the datagram endpoint
    store by queue pair index, of a multicast group by connection index, of a
    reliable endpoint by queue pair index; [send] tells the send side from the
    receive side. *)
Inductive depth_ref : Type :=
| StoreDepth (send : bool) (qp_index : Z)
| GroupDepth (multicast_addr : string) (send : bool) (conn_index : Z)
| RcDepth (endpoint : string) (send : bool) (qp_index : Z).
#[export] Instance depth_ref_eq_dec : EqDecision depth_ref.
Proof. solve_decision. Defined.

(** [context] points to the acknowledgement handle of a session, named by its
    id. *)
Record Request := mkRequest {
  req_addr0 : Z;
  req_addr1 : Z;
  req_length0 : Z;
  req_length1 : Z;
  req_lkey0 : Z;
  req_lkey1 : Z;
  req_imm_data : Z;
  req_qp_depth : option depth_ref;
  req_status : Status;
  req_context : option Z
}.
#[export] Instance Request_fields : Fields Request := mkFields (fun r =>
  mkRequest (req_addr0 r) (req_addr1 r) (req_length0 r) (req_length1 r) (req_lkey0 r)
    (req_lkey1 r) (req_imm_data r) (req_qp_depth r) (req_status r) (req_context r)).

Definition Request_default : Request := mkRequest 0 0 0 0 0 0 0 None UNKNOWN None.

Notation heap := (gmap Z Request).

Record RequestCache := mkRequestCache {
  rc_lazy_delete_requests : list Z;
  rc_head : Z;
  rc_tail : Z;
  rc_allocated : Z;
  rc_freed : Z
}.
#[export] Instance RequestCache_fields : Fields RequestCache := mkFields (fun c =>
  mkRequestCache (rc_lazy_delete_requests c) (rc_head c) (rc_tail c) (rc_allocated c)
    (rc_freed c)).

Definition kLazyDeleteRequestCapacity : Z := 4096.

Definition RequestCache_ctor : RequestCache :=
  mkRequestCache (replicate (Z.to_nat kLazyDeleteRequestCapacity) 0) 0 0 0 0.

(** [allocate]; [fresh] is the address [new Request()] would return. *)
Definition RequestCache_allocate (c : RequestCache) (hp : heap) (fresh : Z)
  : outcome (Z * RequestCache * heap) :=
  if u64 (rc_head c - rc_tail c) =? 0
  then Ok (fresh, c <| rc_allocated := u64 (rc_allocated c + 1) |>,
           <[fresh := Request_default]> hp)
  else
    request ← vec_at (rc_lazy_delete_requests c)
                (Z.to_nat (rc_tail c mod kLazyDeleteRequestCapacity));
    Ok (request, c <| rc_tail := u64 (rc_tail c + 1) |>, <[request := Request_default]> hp).

Definition RequestCache_deallocate (c : RequestCache) (hp : heap) (request : Z)
  : RequestCache * heap :=
  if u64 (rc_head c - rc_tail c) =? kLazyDeleteRequestCapacity
  then (c <| rc_freed := u64 (rc_freed c + 1) |>, delete request hp)
  else (c <| rc_lazy_delete_requests :=
             <[Z.to_nat (rc_head c mod kLazyDeleteRequestCapacity) := request]>
               (rc_lazy_delete_requests c) |>
          <| rc_head := u64 (rc_head c + 1) |>, hp).

(** [~RequestCache]: delete the cached requests. *)
Fixpoint RequestCache_dtor_loop (fuel : nat) (i : Z) (c : RequestCache) (hp : heap)
  : outcome (RequestCache * heap) :=
  match fuel with
  | O => Ok (c, hp)
  | S fuel =>
      slice ← vec_at (rc_lazy_delete_requests c) (Z.to_nat (i mod kLazyDeleteRequestCapacity));
      RequestCache_dtor_loop fuel (u64 (i + 1)) (c <| rc_freed := u64 (rc_freed c + 1) |>)
        (delete slice hp)
  end.
Definition RequestCache_dtor (c : RequestCache) (hp : heap) : outcome (RequestCache * heap) :=
  RequestCache_dtor_loop (Z.to_nat (u64 (rc_head c - rc_tail c))) (rc_tail c) c hp.

(** ** The invariant *)

(** The cached pointers, oldest first. *)
Definition cached (c : RequestCache) : list Z :=
  (fun i => default 0 (rc_lazy_delete_requests c !!
     Z.to_nat (i mod kLazyDeleteRequestCapacity)))
    <$> seqZ (rc_tail c) (rc_head c - rc_tail c).

(** [held] are the requests handed out and not yet returned: cached and held
    requests are distinct and are exactly the live objects. *)
Record cache_inv (c : RequestCache) (hp : heap) (held : list Z) : Prop := {
  ci_len : length (rc_lazy_delete_requests c) = Z.to_nat kLazyDeleteRequestCapacity;
  ci_order : 0 <= rc_tail c <= rc_head c;
  ci_cap : rc_head c - rc_tail c <= kLazyDeleteRequestCapacity;
  ci_head : rc_head c < 0xffffffffffffffff;
  ci_nodup : NoDup (cached c ++ held);
  ci_live : forall r, is_Some (hp !! r) <-> r ∈ cached c ++ held
}.

Lemma ci_len_ctor : length (rc_lazy_delete_requests RequestCache_ctor) = Z.to_nat 4096.
Proof. apply length_replicate. Qed.

Lemma ctor_cache_inv : cache_inv RequestCache_ctor ∅ [].
Proof.
  constructor.
  - apply ci_len_ctor.
  - cbn. lia.
  - cbn. unfold kLazyDeleteRequestCapacity. lia.
  - cbn. lia.
  - constructor.
  - intros r. rewrite lookup_empty. split; [intros [? [=]]|intros Hr; inversion Hr].
Qed.

(** The oldest cached pointer is the one at the tail. *)
Lemma cached_cons c :
  rc_tail c < rc_head c -> length (rc_lazy_delete_requests c) = Z.to_nat 4096 ->
  exists r, vec_at (rc_lazy_delete_requests c) (Z.to_nat (rc_tail c mod 4096)) = Ok r /\
    cached c = r :: cached (c <| rc_tail := rc_tail c + 1 |>).
Proof.
  intros Hlt Hlen.
  destruct (vec_at_lt (rc_lazy_delete_requests c) (Z.to_nat (rc_tail c mod 4096)))
    as (r & Hv & Hr); [rewrite Hlen; apply ring_slot_bound; lia|].
  exists r. split; [done|]. unfold cached, kLazyDeleteRequestCapacity. cbn.
  rewrite seqZ_cons by lia. cbn. rewrite Hr. cbn. f_equal.
  replace (Z.pred (rc_head c - rc_tail c)) with (rc_head c - (rc_tail c + 1)) by lia.
  by replace (Z.succ (rc_tail c)) with (rc_tail c + 1) by lia.
Qed.

Lemma cached_snoc c r :
  0 <= rc_tail c <= rc_head c -> rc_head c - rc_tail c < 4096 ->
  length (rc_lazy_delete_requests c) = Z.to_nat 4096 ->
  cached (c <| rc_lazy_delete_requests :=
               <[Z.to_nat (rc_head c mod 4096) := r]> (rc_lazy_delete_requests c) |>
            <| rc_head := rc_head c + 1 |>) = cached c ++ [r].
Proof.
  intros Ho Hc Hlen. unfold cached, kLazyDeleteRequestCapacity. cbn.
  replace (rc_head c + 1 - rc_tail c) with ((rc_head c - rc_tail c) + 1) by lia.
  rewrite seqZ_app, fmap_app by lia. f_equal.
  - apply list_fmap_ext. intros k i Hi. apply lookup_seqZ in Hi as [-> Hk].
    rewrite list_lookup_insert_ne; [done|]. apply ring_slot_neq; lia.
  - replace (rc_tail c + (rc_head c - rc_tail c)) with (rc_head c) by lia.
    change (seqZ (rc_head c) 1) with [rc_head c]. cbn [fmap list_fmap]. f_equal.
    rewrite list_lookup_insert_eq; [done|]. rewrite Hlen. apply ring_slot_bound. lia.
Qed.

Lemma allocate_cache_inv c hp held fresh :
  cache_inv c hp held -> hp !! fresh = None ->
  exists r c' hp', RequestCache_allocate c hp fresh = Ok (r, c', hp') /\
    r ∉ held /\ hp' !! r = Some Request_default /\ cache_inv c' hp' (r :: held) /\
    (forall k, k <> r -> hp' !! k = hp !! k).
Proof.
  intros [Hlen Ho Hcap Hhd Hnd Hlive] Hfresh. unfold RequestCache_allocate.
  rewrite u64_small by (unfold kLazyDeleteRequestCapacity in *; word_unfold; lia).
  destruct (rc_head c - rc_tail c =? 0) eqn:Hz.
  - assert (Hnil : cached c = []) by (unfold cached; by rewrite (proj1 (Z.eqb_eq _ _) Hz)).
    assert (Hnot : fresh ∉ held).
    { intros Hin. destruct (proj2 (Hlive fresh)) as [x Hx]; [set_solver|]. congruence. }
    eexists fresh, _, _. split; [done|]. split; [done|].
    split; [apply lookup_insert_eq|]. split; [|intros k Hk; by apply lookup_insert_ne].
    assert (Hnil' : cached (c <| rc_allocated := u64 (rc_allocated c + 1) |>) = []) by exact Hnil.
    rewrite Hnil in Hnd, Hlive. constructor; try done; rewrite Hnil'.
    + by constructor.
    + intros r. cbn [app] in *. destruct (decide (r = fresh)) as [->|Hne].
      * rewrite lookup_insert_eq. split; [set_solver|by eexists].
      * rewrite lookup_insert_ne, Hlive by done. set_solver.
  - destruct (cached_cons c ltac:(lia) Hlen) as (r & Hr & Hc).
    change kLazyDeleteRequestCapacity with 4096 in *. rewrite Hr. cbn [mbind outcome_bind].
    rewrite (u64_small (rc_tail c + 1)) by (word_unfold; lia).
    rewrite Hc in Hnd, Hlive. cbn in Hnd. apply NoDup_cons in Hnd as [Hnin Hnd].
    eexists r, _, _. split; [done|]. split; [set_solver|]. split; [apply lookup_insert_eq|].
    split; [|intros k Hk; by apply lookup_insert_ne].
    set (c' := c <| rc_tail := rc_tail c + 1 |>) in *.
    constructor; cbn; try done; try lia.
    + unfold kLazyDeleteRequestCapacity. lia.
    + rewrite <- Permutation_middle. by constructor.
    + intros k. destruct (decide (k = r)) as [->|Hne].
      * rewrite lookup_insert_eq. split; [set_solver|by eexists].
      * rewrite lookup_insert_ne, Hlive by done. set_solver.
Qed.

Lemma deallocate_cache_inv c hp h1 r h2 :
  cache_inv c hp (h1 ++ r :: h2) -> rc_head c + 1 < 0xffffffffffffffff ->
  exists c' hp', RequestCache_deallocate c hp r = (c', hp') /\ cache_inv c' hp' (h1 ++ h2).
Proof.
  intros [Hlen Ho Hcap Hhd Hnd Hlive] Hhd1. unfold RequestCache_deallocate.
  change kLazyDeleteRequestCapacity with 4096 in *.
  rewrite u64_small by (word_unfold; lia).
  assert (HP : Permutation (cached c ++ h1 ++ r :: h2) (r :: cached c ++ h1 ++ h2)).
  { rewrite !app_assoc. symmetry. apply Permutation_middle. }
  assert (Hnd' := Hnd). rewrite HP in Hnd'. apply NoDup_cons in Hnd' as [Hnin Hnd'].
  destruct (rc_head c - rc_tail c =? 4096) eqn:Hz; eexists _, _; (split; [done|]).
  - constructor; try done. intros k. change (cached (c <| rc_freed := _ |>)) with (cached c).
    destruct (decide (k = r)) as [->|Hne].
    + rewrite lookup_delete_eq. split; [intros [? [=]]|done].
    + rewrite lookup_delete_ne, Hlive, HP by done. set_solver.
  - rewrite (u64_small (rc_head c + 1)) by (word_unfold; lia).
    pose proof (cached_snoc c r Ho ltac:(lia) Hlen) as Hsn.
    assert (HP2 : Permutation ((cached c ++ [r]) ++ h1 ++ h2) (cached c ++ h1 ++ r :: h2)).
    { rewrite HP, <- app_assoc. cbn. symmetry. apply Permutation_middle. }
    constructor; rewrite ?Hsn, ?HP2; try done.
    + cbn. by rewrite length_insert.
    + cbn. lia.
    + cbn. unfold kLazyDeleteRequestCapacity. lia.
    + intros k. by rewrite HP2.
Qed.

(** Request recycling is safe.  Starting from a consistent cache, [allocate]
    never hands out a request that is still held, the request it returns is
    reset to its defaults, and no other request changes; [deallocate] of a held
    request keeps every cached and held request distinct and live, whether it
    recycles the request or, with 4096 cached already, deletes it. *)
Theorem request_cache_safe c hp held fresh :
  cache_inv c hp held -> hp !! fresh = None -> rc_head c + 1 < 0xffffffffffffffff ->
  exists r c1 hp1, RequestCache_allocate c hp fresh = Ok (r, c1, hp1) /\
    r ∉ held /\ hp1 !! r = Some Request_default /\ (forall k, k <> r -> hp1 !! k = hp !! k) /\
    cache_inv c1 hp1 (r :: held) /\
    forall k, k ∈ r :: held -> exists c2 hp2 rest,
      RequestCache_deallocate c1 hp1 k = (c2, hp2) /\
      Permutation (r :: held) (k :: rest) /\ cache_inv c2 hp2 rest.
Proof.
  intros Hinv Hfresh Hhd.
  destruct (allocate_cache_inv c hp held fresh Hinv Hfresh)
    as (r & c1 & hp1 & Ha & Hni & Hdef & Hinv1 & Hsame).
  exists r, c1, hp1. split_and!; try done. intros k Hk.
  apply list_elem_of_split in Hk as (h1 & h2 & Heq). rewrite Heq in Hinv1 |- *.
  assert (Hh1 : rc_head c1 = rc_head c).
  { revert Ha. unfold RequestCache_allocate. destruct (u64 _ =? 0); [by intros [= _ <- _]|].
    destruct (vec_at _ _); [by intros [= _ <- _]|done]. }
  destruct (deallocate_cache_inv c1 hp1 h1 k h2 Hinv1 ltac:(lia)) as (c2 & hp2 & Hd & Hinv2).
  exists c2, hp2, (h1 ++ h2). split_and!; try done. symmetry. apply Permutation_middle.
Qed.

Lemma request_cache_safe_witness : exists c1 hp1,
  RequestCache_allocate RequestCache_ctor ∅ 77 = Ok (77, c1, hp1) /\ cache_inv c1 hp1 [77].
Proof.
  destruct (request_cache_safe RequestCache_ctor ∅ [] 77 ctor_cache_inv eq_refl ltac:(cbn; lia))
    as (r & c1 & hp1 & Ha & _ & _ & _ & Hinv & _).
  assert (r = 77) as -> by (by injection Ha). by exists c1, hp1.
Defined.
