(* ===== verification/Posting.v ===== *)
(** * Posting work requests

    The loop that [RdmaUDEndPointStore], [RdmaMulticastContext] and
    [RdmaRCEndPoint] (src/protocols/common/) share: turn a prefix of a list of
    requests into work requests, count them in a depth counter and hand them to
    the NIC.

    libibverbs is a parameter: posting takes the work requests and returns 0, or
    an error code and the position of the first request that was not posted
    ([bad_wr]). *)

From S2P Require Import Prelude Tasks RequestCache.

Record sge := mkSge { sge_addr : Z; sge_length : Z; sge_lkey : Z }.

Record ibv_wr := mkWr {
  wr_id : Z;
  wr_sg_list : list sge;
  wr_with_imm : bool;
  wr_imm_data : Z;
  wr_inline : bool;
  wr_ah : Z;
  wr_remote_qpn : Z;
  wr_remote_qkey : Z
}.

(** The gather list of a request: entries up to the first null address. *)
Definition Request_sges (r : Request) : list sge :=
  if req_addr0 r =? 0 then []
  else mkSge (req_addr0 r) (u32 (req_length0 r)) (req_lkey0 r) ::
       (if req_addr1 r =? 0 then []
        else [mkSge (req_addr1 r) (u32 (req_length1 r)) (req_lkey1 r)]).

(** [actual_length], summed in an [int]. *)
Definition sges_length (l : list sge) : Z := foldl (fun n s => i32 (n + i32 (sge_length s))) 0 l.

Definition make_send_wr (max_inline ah qpn ptr : Z) (r : Request) : ibv_wr :=
  let l := Request_sges r in
  mkWr ptr l (negb (req_imm_data r =? 0)) (req_imm_data r)
    (sges_length l <? max_inline) ah qpn 0.
Definition make_recv_wr (ptr : Z) (r : Request) : ibv_wr :=
  mkWr ptr (Request_sges r) false 0 false 0 0 0.

(** [request->qp_depth = ...] for the requests that are posted. *)
Definition set_qp_depth (hp : heap) (ptrs : list Z) (ref : depth_ref) : heap :=
  foldl (fun hp p => alter (fun r => r <| req_qp_depth := Some ref |>) p hp) hp ptrs.

(** [request_list[i]->status = FAILED] for the requests from [bad_wr] on. *)
Definition set_failed (hp : heap) (ptrs : list Z) : heap :=
  foldl (fun hp p => alter (fun r => r <| req_status := FAILED |>) p hp) hp ptrs.

(** The pointers of [request_list] with the objects they point to. *)
Definition deref_all (hp : heap) (ptrs : list Z) : outcome (list (Z * Request)) :=
  foldr (fun p acc => rs ← acc;
           match hp !! p with Some r => Ok ((p, r) :: rs) | None => Trap TrapNull end)
        (Ok []) ptrs.

(** One posting: [max_wr_depth] and [depth] bound how many of [request_list] are
    attempted, [ref] is the counter, [make] builds a work request.  Returns the
    number attempted (the return code), the new depth, the heap, the work
    requests the NIC accepted and the error code of the verb.  A negative count
    would size the arrays on the stack. *)
Definition post_batch (post : list ibv_wr -> Z * nat) (make : Z -> Request -> ibv_wr)
    (ref : depth_ref) (max_wr_depth depth : Z) (hp : heap) (request_list : list Z)
  : outcome (Z * Z * heap * list ibv_wr * Z) :=
  let wr_count := Z.min (i32 (max_wr_depth - depth)) (i32 (Z.of_nat (length request_list))) in
  if wr_count =? 0 then Ok (0, depth, hp, [], 0)
  else if wr_count <? 0 then Trap TrapRange
  else
    let ptrs := take (Z.to_nat wr_count) request_list in
    rs ← deref_all hp ptrs;
    let wrs := (fun '(p, r) => make p r) <$> rs in
    let '(rc, bad) := post wrs in
    let hp1 := set_qp_depth hp ptrs ref in
    if rc =? 0 then Ok (wr_count, depth + wr_count, hp1, wrs, 0)
    else Ok (wr_count, depth + wr_count - Z.of_nat (length (drop bad ptrs)),
             set_failed hp1 (drop bad ptrs), take bad wrs, rc).

Lemma deref_all_length hp ptrs rs : deref_all hp ptrs = Ok rs -> length rs = length ptrs.
Proof.
  revert rs. induction ptrs as [|p ptrs IH]; cbn; intros rs; [by intros [= <-]|].
  fold (deref_all hp ptrs). destruct (deref_all hp ptrs) as [l|]; cbn; [|done].
  destruct (hp !! p); [|done]. intros [= <-]. cbn. by rewrite (IH l eq_refl).
Qed.

Lemma deref_all_ok hp ptrs :
  Forall (fun p => is_Some (hp !! p)) ptrs -> exists rs, deref_all hp ptrs = Ok rs.
Proof.
  induction 1 as [|p ptrs [r Hr] _ [rs IH]]; [by exists []|].
  exists ((p, r) :: rs). cbn. fold (deref_all hp ptrs). rewrite IH. cbn. by rewrite Hr.
Qed.

(** What a posting does, given live requests and a counter within its bound. *)
Lemma post_batch_spec post make ref max depth hp l :
  0 <= depth <= max -> max < 0x80000000 -> Z.of_nat (length l) < 0x80000000 ->
  Forall (fun p => is_Some (hp !! p)) l ->
  (forall wrs, wrs <> [] -> fst (post wrs) <> 0 -> (snd (post wrs) < length wrs)%nat) ->
  exists rc depth' hp' posted err,
    post_batch post make ref max depth hp l = Ok (rc, depth', hp', posted, err) /\
    rc = Z.min (max - depth) (Z.of_nat (length l)) /\
    Z.of_nat (length posted) <= rc /\ depth' = depth + Z.of_nat (length posted) /\
    0 <= depth' <= max /\
    ((forall wrs, fst (post wrs) = 0) -> Z.of_nat (length posted) = rc /\ err = 0).
Proof.
  intros Hd Hmax Hl Hlive Hbad. unfold post_batch.
  replace (i32 (max - depth)) with (max - depth) by (clear -Hmax Hd; word_lia).
  replace (i32 (Z.of_nat (length l))) with (Z.of_nat (length l)) by (clear -Hl; word_lia).
  set (n := Z.min _ _).
  destruct (n =? 0) eqn:Hn0.
  { eexists 0, depth, hp, [], 0. split; [done|]. cbn. split_and!; lia. }
  rewrite (proj2 (Z.ltb_ge n 0)) by lia.
  assert (Hlt : length (take (Z.to_nat n) l) = Z.to_nat n) by (rewrite length_take; lia).
  destruct (deref_all_ok hp (take (Z.to_nat n) l)) as [rs Hrs]; [by apply Forall_take|].
  rewrite Hrs. cbn [mbind outcome_bind]. set (wrs := _ <$> rs).
  assert (Hwl : length wrs = Z.to_nat n)
    by (unfold wrs; rewrite length_fmap, (deref_all_length _ _ _ Hrs); done).
  assert (Hwn : wrs <> []) by (intros Hnil; rewrite Hnil in Hwl; cbn in Hwl; lia).
  pose proof (Hbad wrs Hwn) as Hb. destruct (post wrs) as [rc bad] eqn:Hp. cbn in Hb.
  destruct (Z.eqb_spec rc 0) as [->|Hrc].
  - eexists n, _, _, _, 0. split; [done|]. rewrite Hwl. split_and!; try lia.
  - specialize (Hb Hrc). eexists n, _, _, _, rc. split; [done|].
    rewrite length_drop, length_take, Hlt, Hwl. split_and!; try lia.
    intros Hall. specialize (Hall wrs). rewrite Hp in Hall. done.
Qed.

(** ** The heap after a posting *)
Lemma lookup_foldl_alter (f : Request -> Request) l : forall (hp : heap) k,
  (forall r, f (f r) = f r) ->
  foldl (fun hp p => alter f p hp) hp l !! k = if decide (k ∈ l) then f <$> hp !! k else hp !! k.
Proof.
  intros hp k Hf. revert hp. induction l as [|p l IH]; intros hp; cbn.
  { by rewrite decide_False by apply not_elem_of_nil. }
  rewrite IH. destruct (decide (k = p)) as [->|Hne].
  - rewrite lookup_alter_eq, (decide_True _ (P := p ∈ p :: l)) by (apply elem_of_cons; by left).
    destruct (decide (p ∈ l)); [|done]. destruct (hp !! p); cbn; by rewrite ?Hf.
  - rewrite lookup_alter_ne by done.
    destruct (decide (k ∈ l)); [rewrite decide_True by (apply elem_of_cons; by right)|
      rewrite decide_False by (by apply not_elem_of_cons)]; done.
Qed.

Lemma lookup_set_qp_depth hp l ref k :
  set_qp_depth hp l ref !! k =
    if decide (k ∈ l) then (fun r => r <| req_qp_depth := Some ref |>) <$> hp !! k else hp !! k.
Proof. by apply (lookup_foldl_alter (fun r => r <| req_qp_depth := Some ref |>)). Qed.

Lemma lookup_set_failed hp l k :
  set_failed hp l !! k =
    if decide (k ∈ l) then (fun r => r <| req_status := FAILED |>) <$> hp !! k else hp !! k.
Proof. by apply (lookup_foldl_alter (fun r => r <| req_status := FAILED |>)). Qed.

Lemma deref_all_ids hp ptrs rs : deref_all hp ptrs = Ok rs -> rs.*1 = ptrs.
Proof.
  revert rs. induction ptrs as [|p ptrs IH]; cbn; intros rs; [by intros [= <-]|].
  fold (deref_all hp ptrs). destruct (deref_all hp ptrs) as [l|]; cbn; [|done].
  destruct (hp !! p); [|done]. intros [= <-]. cbn. by rewrite (IH l eq_refl).
Qed.

(** The NIC gets a prefix of the requests; those, and no request outside the
    list, point to the counter; no request appears or disappears. *)
Lemma post_batch_heap post make ref max depth hp l rc depth' hp' posted err :
  (forall p r, wr_id (make p r) = p) ->
  post_batch post make ref max depth hp l = Ok (rc, depth', hp', posted, err) ->
  wr_id <$> posted = take (length posted) l /\
  (forall k, is_Some (hp' !! k) <-> is_Some (hp !! k)) /\
  (forall k, k ∉ l -> hp' !! k = hp !! k) /\
  (forall k r, k ∈ take (length posted) l -> hp' !! k = Some r -> req_qp_depth r = Some ref).
Proof.
  intros Hid. unfold post_batch. set (n := Z.min _ _).
  destruct (n =? 0); [intros [= <- <- <- <- <-]; split_and!; try done; by intros k r Hk%elem_of_nil|].
  destruct (n <? 0); [done|]. set (ptrs := take (Z.to_nat n) l).
  destruct (deref_all hp ptrs) as [rs|] eqn:Hrs; [|done]. cbn [mbind outcome_bind].
  set (wrs := (fun '(p, r) => make p r) <$> rs).
  assert (Hids : wr_id <$> wrs = ptrs).
  { rewrite <- (deref_all_ids _ _ _ Hrs). unfold wrs. rewrite <- list_fmap_compose.
    apply list_fmap_ext. intros i [p r] _. cbn. apply Hid. }
  assert (Hlen : length wrs = length ptrs) by (by rewrite <- Hids, length_fmap).
  assert (Hsub : forall k j, k ∈ take j ptrs -> k ∈ l).
  { intros k j Hk. unfold ptrs in Hk. rewrite take_take in Hk.
    apply elem_of_take in Hk as (i & Hi & _). by eapply list_elem_of_lookup_2. }
  destruct (post wrs) as [code bad]. destruct (code =? 0).
  - intros [= <- <- <- <- <-]. rewrite Hlen.
    assert (Hpre : take (length ptrs) l = ptrs).
    { unfold ptrs. rewrite length_take. destruct (Nat.le_gt_cases (Z.to_nat n) (length l));
        [by rewrite Nat.min_l|]. rewrite Nat.min_r, !take_ge by lia. done. }
    rewrite Hpre. split_and!; [done| | |].
    + intros k. rewrite lookup_set_qp_depth. destruct (decide _); [apply fmap_is_Some|done].
    + intros k Hk. rewrite lookup_set_qp_depth, decide_False; [done|].
      intros Hin. apply Hk. apply (Hsub k (length ptrs)). by rewrite take_ge.
    + intros k r Hk. rewrite lookup_set_qp_depth, decide_True by done.
      destruct (hp !! k); [|done]. by intros [= <-].
  - intros [= <- <- <- <- <-].
    assert (Hpre : take (length (take bad wrs)) l = take bad ptrs).
    { rewrite length_take, Hlen. unfold ptrs. rewrite take_take, length_take.
      destruct (Nat.le_gt_cases (Nat.min bad (Z.to_nat n)) (length l)).
      - f_equal. lia.
      - rewrite !take_ge by lia. done. }
    rewrite Hpre. split_and!.
    + by rewrite fmap_take, Hids.
    + intros k. rewrite lookup_set_failed, lookup_set_qp_depth.
      destruct (decide _), (decide _); rewrite ?fmap_is_Some; done.
    + intros k Hk. rewrite lookup_set_failed, lookup_set_qp_depth, !decide_False; [done| |].
      * intros Hin. apply Hk. apply (Hsub k (length ptrs)). by rewrite take_ge.
      * intros (i & Hi)%list_elem_of_lookup. rewrite lookup_drop in Hi.
        apply Hk, (Hsub k (length ptrs)). rewrite take_ge by done.
        by eapply list_elem_of_lookup_2.
    + intros k r Hk. rewrite lookup_set_failed, lookup_set_qp_depth.
      assert (Hin : k ∈ ptrs) by (apply elem_of_take in Hk as (i & Hi & _); by eapply list_elem_of_lookup_2).
      rewrite (decide_True _ (P := k ∈ ptrs)) by done.
      destruct (hp !! k); [|by destruct (decide _)].
      destruct (decide _); by intros [= <-].
Qed.
