(* ===== verification/UdEndpoint.v ===== *)
(** * Unreliable-datagram endpoints

    Models [RdmaUDEndPointStore] (src/protocols/common/rdma_ud_endpoint_store.{h,cpp})
    and [RdmaUDEndPoint] (rdma_ud_endpoint.{h,cpp}): the table of endpoints, the
    posting of work requests to a queue pair with the depth counters that bound
    how many are outstanding, and the connection of an endpoint.

    libibverbs is a parameter: [ibv_post_send] and [ibv_post_recv] take the
    queue pair and the work requests (see [Posting]); [ibv_create_ah] returns an
    address handle or null.  Queue pairs are known by their numbers. *)

From S2P Require Import Prelude Locks Text Packet Tasks RequestCache Posting.

Record RdmaUDEndPoint := mkEndPoint {
  ep_connected : bool;
  ep_peer_gid : text;
  ep_peer_lid : Z;
  ep_peer_qp_num_list : list Z;
  ep_ah : Z
}.
#[export] Instance RdmaUDEndPoint_fields : Fields RdmaUDEndPoint := mkFields (fun e =>
  mkEndPoint (ep_connected e) (ep_peer_gid e) (ep_peer_lid e) (ep_peer_qp_num_list e)
    (ep_ah e)).
Definition RdmaUDEndPoint_ctor : RdmaUDEndPoint := mkEndPoint false [] 0 [] 0.

Record RdmaUDEndPointStore := mkStore {
  us_endpoint_map : gmap string RdmaUDEndPoint;
  us_qp_list : list Z;
  us_send_wr_depth : list Z;
  us_recv_wr_depth : list Z;
  us_max_wr_depth : Z;
  us_max_inline_bytes : Z
}.
#[export] Instance RdmaUDEndPointStore_fields : Fields RdmaUDEndPointStore := mkFields (fun s =>
  mkStore (us_endpoint_map s) (us_qp_list s) (us_send_wr_depth s) (us_recv_wr_depth s)
    (us_max_wr_depth s) (us_max_inline_bytes s)).

Definition RdmaUDEndPointStore_qpNum (s : RdmaUDEndPointStore) : list Z := us_qp_list s.

(** [getOrCreateEndpoint]: whether an endpoint is returned, and the store that
    then has it.  The endpoint itself is known by its path. *)
Definition RdmaUDEndPointStore_getOrCreateEndpoint (s : RdmaUDEndPointStore) (path : string)
  : bool * RdmaUDEndPointStore :=
  if String.eqb path "" then (false, s)
  else match us_endpoint_map s !! path with
       | Some _ => (true, s)
       | None => (true, s <| us_endpoint_map :=
                            <[path := RdmaUDEndPoint_ctor]> (us_endpoint_map s) |>)
       end.

Definition RdmaUDEndPointStore_deleteEndpoint (s : RdmaUDEndPointStore) (path : string)
  : Z * RdmaUDEndPointStore :=
  (0, s <| us_endpoint_map := delete path (us_endpoint_map s) |>).

Section verbs.
(** Error code (0 if none) and position of the first work request not posted. *)
Variable ibv_post_send : Z -> list ibv_wr -> Z * nat.
Variable ibv_post_recv : Z -> list ibv_wr -> Z * nat.

(** The body shared by [postSendRequest] and [postReceiveRequest]: [side] is true
    for sending, [post] the verb, [make] builds a work request.  Returns the
    return code, the store, the heap and the work requests the NIC accepted.
    The queue pairs and the counters are arrays of the same length. *)
Definition post_requests (side : bool) (post : Z -> list ibv_wr -> Z * nat)
    (make : Z -> Request -> ibv_wr) (s : RdmaUDEndPointStore) (hp : heap)
    (request_list : list Z) (qp_index : Z)
  : outcome (Z * RdmaUDEndPointStore * heap * list ibv_wr) :=
  let depths := if side then us_send_wr_depth s else us_recv_wr_depth s in
  depth ← vec_at depths (Z.to_nat qp_index);
  qp ← vec_at (us_qp_list s) (Z.to_nat qp_index);
  '(rc, depth', hp', posted, _) ← post_batch (post qp) make (StoreDepth side qp_index)
     (us_max_wr_depth s) depth hp request_list;
  let depths' := <[Z.to_nat qp_index := depth']> depths in
  Ok (rc, if side then s <| us_send_wr_depth := depths' |> else s <| us_recv_wr_depth := depths' |>,
      hp', posted).

Definition RdmaUDEndPointStore_postSendRequest (s : RdmaUDEndPointStore) (hp : heap)
    (request_list : list Z) (ah remote_qpn qp_index : Z)
  : outcome (Z * RdmaUDEndPointStore * heap * list ibv_wr) :=
  post_requests true ibv_post_send (make_send_wr (us_max_inline_bytes s) ah remote_qpn)
    s hp request_list qp_index.

Definition RdmaUDEndPointStore_postReceiveRequest (s : RdmaUDEndPointStore) (hp : heap)
    (request_list : list Z) (qp_index : Z)
  : outcome (Z * RdmaUDEndPointStore * heap * list ibv_wr) :=
  post_requests false ibv_post_recv make_recv_wr s hp request_list qp_index.

(** [__sync_fetch_and_sub(request->qp_depth, 1)] when a completion is polled; a
    counter of another object leaves the store alone. *)
Definition release_depth (s : RdmaUDEndPointStore) (r : Request) : outcome RdmaUDEndPointStore :=
  match req_qp_depth r with
  | None => Trap TrapNull
  | Some (StoreDepth true i) =>
      d ← vec_at (us_send_wr_depth s) (Z.to_nat i);
      Ok (s <| us_send_wr_depth := <[Z.to_nat i := i32 (d - 1)]> (us_send_wr_depth s) |>)
  | Some (StoreDepth false i) =>
      d ← vec_at (us_recv_wr_depth s) (Z.to_nat i);
      Ok (s <| us_recv_wr_depth := <[Z.to_nat i := i32 (d - 1)]> (us_recv_wr_depth s) |>)
  | Some _ => Ok s
  end.

(** ** An endpoint *)

(** [RdmaUDEndPoint::postSendRequest]; [rnd] is the thread's random state. *)
Definition RdmaUDEndPoint_postSendRequest (e : RdmaUDEndPoint) (rnd : Z)
    (s : RdmaUDEndPointStore) (hp : heap) (request_list : list Z)
  : outcome (Z * Z * RdmaUDEndPointStore * heap * list ibv_wr) :=
  if negb (ep_connected e) then Ok (ERR, rnd, s, hp, [])
  else
    '(peer_qp_index, rnd1) ←
      SimpleRandom.next_max rnd (u32 (Z.of_nat (length (ep_peer_qp_num_list e))));
    '(qp_index, rnd2) ← SimpleRandom.next_max rnd1 (u32 (Z.of_nat (length (us_qp_list s))));
    remote_qpn ← vec_at (ep_peer_qp_num_list e) (Z.to_nat peer_qp_index);
    '(rc, s', hp', posted) ←
      RdmaUDEndPointStore_postSendRequest s hp request_list (ep_ah e) remote_qpn qp_index;
    Ok (rc, rnd2, s', hp', posted).

Definition RdmaUDEndPoint_postReceiveRequest (e : RdmaUDEndPoint) (rnd : Z)
    (s : RdmaUDEndPointStore) (hp : heap) (request_list : list Z)
  : outcome (Z * Z * RdmaUDEndPointStore * heap * list ibv_wr) :=
  if negb (ep_connected e) then Ok (ERR, rnd, s, hp, [])
  else
    '(qp_index, rnd1) ← SimpleRandom.next_max rnd (u32 (Z.of_nat (length (us_qp_list s))));
    '(rc, s', hp', posted) ← RdmaUDEndPointStore_postReceiveRequest s hp request_list qp_index;
    Ok (rc, rnd1, s', hp', posted).
End verbs.

(** [RdmaUDEndPoint::setupConnection]; [ibv_create_ah] gets the parsed GID (all
    that varies between peers besides the LID) and returns 0 for null.  The GID
    string is one the peer printed with [RdmaContext::gid]: for a string that
    does not parse the address vector is indeterminate, [junk_gid] here. *)
Definition RdmaUDEndPoint_setupConnection (ibv_create_ah : list Z -> Z -> Z)
    (junk_gid : list Z) (e : RdmaUDEndPoint) (peer_gid : text) (peer_lid : Z)
    (peer_qp_num_list : list Z) : Z * RdmaUDEndPoint :=
  if ep_connected e then (0, e)
  else
    let peer_gid_raw := default junk_gid (parse_gid peer_gid) in
    let ah := ibv_create_ah peer_gid_raw peer_lid in
    if ah =? 0 then (ERR, e <| ep_ah := 0 |>)
    else (0, mkEndPoint true peer_gid peer_lid peer_qp_num_list ah).

(** ** Depth accounting *)

(** The counters of one side are within [0, max]. *)
Definition depths_ok (max : Z) (l : list Z) : Prop := Forall (fun d => 0 <= d <= max) l.

(** What a posting does, given valid arguments. *)
Lemma post_requests_spec post (side : bool) (make : Z -> Request -> ibv_wr) s hp l qp_index :
  let depths := if side then us_send_wr_depth s else us_recv_wr_depth s in
  depths_ok (us_max_wr_depth s) depths -> 0 <= us_max_wr_depth s < 0x80000000 ->
  length depths = length (us_qp_list s) -> 0 <= qp_index < Z.of_nat (length (us_qp_list s)) ->
  Z.of_nat (length l) < 0x80000000 -> Forall (fun p => is_Some (hp !! p)) l ->
  (forall qp wrs, wrs <> [] -> fst (post qp wrs) <> 0 -> (snd (post qp wrs) < length wrs)%nat) ->
  exists rc s' hp' posted depth,
    post_requests side post make s hp l qp_index = Ok (rc, s', hp', posted) /\
    depths !! Z.to_nat qp_index = Some depth /\
    rc = Z.min (us_max_wr_depth s - depth) (Z.of_nat (length l)) /\
    Z.of_nat (length posted) <= rc /\
    let depths' := if side then us_send_wr_depth s' else us_recv_wr_depth s' in
    depths' = <[Z.to_nat qp_index := depth + Z.of_nat (length posted)]> depths /\
    depths_ok (us_max_wr_depth s') depths' /\ us_max_wr_depth s' = us_max_wr_depth s /\
    us_endpoint_map s' = us_endpoint_map s /\ us_qp_list s' = us_qp_list s.
Proof.
  intros depths Hok Hmax Hlen Hqp Hl Hlive Hbad. unfold post_requests. fold depths.
  destruct (vec_at_lt depths (Z.to_nat qp_index)) as (d & Hd & Hdl); [lia|].
  destruct (vec_at_lt (us_qp_list s) (Z.to_nat qp_index)) as (qp & Hq & _); [lia|].
  pose proof (Forall_lookup_1 _ _ _ _ Hok Hdl) as Hdr. cbn beta in Hdr.
  rewrite Hd, Hq. cbn [mbind outcome_bind].
  destruct (post_batch_spec (post qp) make (StoreDepth side qp_index) (us_max_wr_depth s) d hp l
    Hdr ltac:(lia) Hl Hlive (Hbad qp)) as (rc & d' & hp' & posted & err & Hrun & Hrc & Hp & -> & Hd' & _).
  rewrite Hrun. cbn [mbind outcome_bind].
  eexists rc, _, hp', posted, d. split; [done|]. split; [done|]. split; [done|]. split; [done|].
  assert (Hok' : depths_ok (us_max_wr_depth s)
                   (<[Z.to_nat qp_index := d + Z.of_nat (length posted)]> depths))
    by (apply Forall_insert; [done|]; lia).
  destruct side; cbn; by split_and!.
Qed.

(** Work-request accounting.  Posting a list of live requests on a valid
    queue pair never traps; it posts a prefix of at most [max_wr_depth_ - depth]
    of them, the depth counter grows by exactly the number the NIC accepted
    (also when [ibv_post_send] fails half way), so the counters stay within
    [0, max_wr_depth_]; but the return value counts the requests attempted, not
    the ones accepted. *)
Theorem post_send_depth_exact post s hp l ah qpn qp_index :
  depths_ok (us_max_wr_depth s) (us_send_wr_depth s) -> 0 <= us_max_wr_depth s < 0x80000000 ->
  length (us_send_wr_depth s) = length (us_qp_list s) ->
  0 <= qp_index < Z.of_nat (length (us_qp_list s)) ->
  Z.of_nat (length l) < 0x80000000 -> Forall (fun p => is_Some (hp !! p)) l ->
  (forall qp wrs, wrs <> [] -> fst (post qp wrs) <> 0 -> (snd (post qp wrs) < length wrs)%nat) ->
  exists rc s' hp' posted depth,
    RdmaUDEndPointStore_postSendRequest post s hp l ah qpn qp_index = Ok (rc, s', hp', posted) /\
    us_send_wr_depth s !! Z.to_nat qp_index = Some depth /\
    rc = Z.min (us_max_wr_depth s - depth) (Z.of_nat (length l)) /\
    Z.of_nat (length posted) <= rc /\
    us_send_wr_depth s' =
      <[Z.to_nat qp_index := depth + Z.of_nat (length posted)]> (us_send_wr_depth s) /\
    depths_ok (us_max_wr_depth s') (us_send_wr_depth s').
Proof.
  intros Hok Hmax Hlen Hqp Hl Hlive Hbad.
  destruct (post_requests_spec post true (make_send_wr (us_max_inline_bytes s) ah qpn) s hp l
    qp_index Hok Hmax Hlen Hqp Hl Hlive Hbad)
    as (rc & s' & hp' & posted & depth & Hrun & Hd & Hrc & Hp & Hd' & Hok' & _).
  by exists rc, s', hp', posted, depth.
Qed.

(** A NIC that accepts the first of three requests and fails on the second. *)
Definition demo_store : RdmaUDEndPointStore := mkStore ∅ [11] [126] [0] 128 64.
Definition demo_heap : heap :=
  <[1 := Request_default <| req_addr0 := 4096 |>]>
    (<[2 := Request_default <| req_addr0 := 8192 |>]> ∅).

Lemma post_send_depth_exact_witness : exists s' hp' posted,
  RdmaUDEndPointStore_postSendRequest (fun _ wrs => (12, (length wrs - 1)%nat)) demo_store demo_heap
    [1; 2] 5 9 0 = Ok (2, s', hp', posted) /\
  us_send_wr_depth s' = [126 + Z.of_nat (length posted)].
Proof.
  destruct (post_send_depth_exact (fun _ wrs => (12, (length wrs - 1)%nat)) demo_store demo_heap
    [1; 2] 5 9 0) as (rc & s' & hp' & posted & depth & Hrun & Hd & Hrc & _ & Hd' & _).
  all: try (cbn; lia).
  - repeat constructor; cbn; lia.
  - repeat constructor; by eexists.
  - intros qp wrs Hne _. destruct wrs; cbn; [done|lia].
  - injection Hd as <-. exists s', hp', posted. rewrite Hd'. subst rc. split; [exact Hrun|reflexivity].
Defined.

(** Connecting an endpoint is idempotent and posting before it is refused:
    a second [setupConnection] changes nothing, an endpoint that is not
    connected posts nothing and returns -1, and an endpoint connected to a peer
    that announced no queue pair divides by zero on its first send. *)
Theorem endpoint_connection_states create junk e gid lid qps e' post rnd s hp l :
  RdmaUDEndPoint_setupConnection create junk e gid lid qps = (0, e') ->
  ep_connected e' = true /\
  (forall gid2 lid2 qps2,
     RdmaUDEndPoint_setupConnection create junk e' gid2 lid2 qps2 = (0, e')) /\
  (ep_connected e = false ->
   RdmaUDEndPoint_postSendRequest post e rnd s hp l = Ok (ERR, rnd, s, hp, []) /\
   ep_peer_qp_num_list e' = qps /\
   (qps = [] -> RdmaUDEndPoint_postSendRequest post e' rnd s hp l = Trap TrapDivZero)).
Proof.
  unfold RdmaUDEndPoint_setupConnection at 1. destruct (ep_connected e) eqn:Hc.
  - intros [= <-]. split; [done|]. split; [|done]. intros gid2 lid2 qps2.
    unfold RdmaUDEndPoint_setupConnection. by rewrite Hc.
  - destruct (_ =? 0); [done|]. intros [= <-]. split; [done|]. split; [done|]. intros _.
    split; [unfold RdmaUDEndPoint_postSendRequest; by rewrite Hc|]. split; [done|].
    intros ->. reflexivity.
Qed.

Lemma endpoint_connection_states_witness : exists e',
  RdmaUDEndPoint_setupConnection (fun _ _ => 1) [] RdmaUDEndPoint_ctor [] 3 [] = (0, e') /\
  RdmaUDEndPoint_postSendRequest (fun _ _ => (0, 0%nat)) e' 1 demo_store demo_heap [1]
    = Trap TrapDivZero.
Proof.
  eexists. split; [reflexivity|].
  destruct (endpoint_connection_states (fun _ _ => 1) [] RdmaUDEndPoint_ctor [] 3 [] _
    (fun _ _ => (0, 0%nat)) 1 demo_store demo_heap [1] eq_refl) as (_ & _ & H).
  by apply H.
Defined.
