(* ===== verification/RcEndpoint.v ===== *)
(** * Reliable-connection endpoints

    Models [RdmaRCEndPoint] and [RdmaRCEndPointStore] of
    src/protocols/common/rdma_rc_endpoint.{h,cpp} and rdma_rc_endpoint_store.h:
    the queue pairs of a peer, their way from RESET to RTS, the posting of work
    requests and the table of endpoints.

    libibverbs is a parameter: creating a queue pair gives its number or fails,
    modifying and destroying one return an error code, posting is [Posting]'s. *)

From S2P Require Import Prelude Text Tasks RequestCache Posting.

(** The part of a queue pair's state and attributes the code sets. *)
Inductive qp_state_t : Type := IBV_QPS_RESET | IBV_QPS_INIT | IBV_QPS_RTR | IBV_QPS_RTS.
#[export] Instance qp_state_t_eq_dec : EqDecision qp_state_t.
Proof. solve_decision. Defined.
Record ibv_qp := mkQp {
  qp_num : Z;
  qp_state : qp_state_t;
  qp_dgid : list Z;
  qp_dlid : Z;
  qp_dest_qp_num : Z
}.
#[export] Instance ibv_qp_fields : Fields ibv_qp := mkFields (fun q =>
  mkQp (qp_num q) (qp_state q) (qp_dgid q) (qp_dlid q) (qp_dest_qp_num q)).

Inductive rc_status : Type := RC_INITIALIZING | RC_UNCONNECTED | RC_CONNECTED.

(** A null pointer in [qp_list_] is [None]. *)
Record RdmaRCEndPoint := mkRcEndPoint {
  rc_status_ : rc_status;
  rc_qp_list : list (option ibv_qp);
  rc_send_wr_depth_list : list Z;
  rc_recv_wr_depth_list : list Z;
  rc_max_wr_depth : Z
}.
#[export] Instance RdmaRCEndPoint_fields : Fields RdmaRCEndPoint := mkFields (fun e =>
  mkRcEndPoint (rc_status_ e) (rc_qp_list e) (rc_send_wr_depth_list e) (rc_recv_wr_depth_list e)
    (rc_max_wr_depth e)).
Definition RdmaRCEndPoint_ctor : RdmaRCEndPoint := mkRcEndPoint RC_INITIALIZING [] [] [] 0.

Definition RdmaRCEndPoint_connected (e : RdmaRCEndPoint) : bool :=
  match rc_status_ e with RC_CONNECTED => true | _ => false end.

Section verbs.
Variable ibv_create_qp : nat -> option Z.
Variable ibv_destroy_qp : ibv_qp -> Z.
Variable ibv_modify_qp : ibv_qp -> qp_state_t -> Z.
Variable ibv_post_send : Z -> list ibv_wr -> Z * nat.
Variable ibv_post_recv : Z -> list ibv_wr -> Z * nat.

(** The loop of [construct]: queue pairs [i], [i + 1], ... *)
Fixpoint create_qps (n i : nat) : bool * list (option ibv_qp) :=
  match n with
  | O => (true, [])
  | S n =>
      match ibv_create_qp i with
      | None => (false, replicate (S n) None)
      | Some num =>
          let '(ok, l) := create_qps n (S i) in
          (ok, Some (mkQp num IBV_QPS_RESET [] 0 0) :: l)
      end
  end.

(** The counters of queue pairs the loop did not reach are not initialised:
    nothing reads them, for then the endpoint is given up. *)
Definition RdmaRCEndPoint_construct (e : RdmaRCEndPoint) (num_qp_per_endpoint : nat)
    (max_wr_depth : Z) : Z * RdmaRCEndPoint :=
  match rc_status_ e with
  | RC_INITIALIZING =>
      let '(ok, l) := create_qps num_qp_per_endpoint 0 in
      let e1 := mkRcEndPoint RC_INITIALIZING l (replicate num_qp_per_endpoint 0)
                  (replicate num_qp_per_endpoint 0) (i32 max_wr_depth) in
      if ok then (0, e1 <| rc_status_ := RC_UNCONNECTED |>) else (ERR, e1)
  | _ => (ERR, e)
  end.

(** The loop of [deconstruct]; destroying a null queue pair is a null access. *)
Fixpoint destroy_qps (l : list (option ibv_qp)) : outcome Z :=
  match l with
  | [] => Ok 0
  | None :: _ => Trap TrapNull
  | Some qp :: l => if negb (ibv_destroy_qp qp =? 0) then Ok ERR else destroy_qps l
  end.
Definition RdmaRCEndPoint_deconstruct (e : RdmaRCEndPoint) : outcome (Z * RdmaRCEndPoint) :=
  rc ← destroy_qps (rc_qp_list e);
  if negb (rc =? 0) then Ok (rc, e)
  else Ok (0, e <| rc_qp_list := [] |> <| rc_send_wr_depth_list := [] |>
                <| rc_recv_wr_depth_list := [] |>).
(** The destructor. *)
Definition RdmaRCEndPoint_dtor (e : RdmaRCEndPoint) : outcome unit :=
  match rc_qp_list e with
  | [] => Ok tt
  | _ => _ ← RdmaRCEndPoint_deconstruct e; Ok tt
  end.

(** ** Posting: always on the first queue pair *)
Definition RdmaRCEndPoint_qp (e : RdmaRCEndPoint) (qp_index : nat) : outcome ibv_qp :=
  p ← vec_at (rc_qp_list e) qp_index;
  match p with Some qp => Ok qp | None => Trap TrapNull end.

Definition make_rc_send_wr (ptr : Z) (r : Request) : ibv_wr :=
  mkWr ptr (Request_sges r) false 0 false 0 0 0.

Definition RdmaRCEndPoint_postSendRequest (path : string) (e : RdmaRCEndPoint) (hp : heap)
    (request_list : list Z) : outcome (Z * RdmaRCEndPoint * heap * list ibv_wr) :=
  depth ← vec_at (rc_send_wr_depth_list e) 0;
  qp ← RdmaRCEndPoint_qp e 0;
  '(rc, depth', hp', posted, _) ← post_batch (ibv_post_send (qp_num qp)) make_rc_send_wr
     (RcDepth path true 0) (rc_max_wr_depth e) depth hp request_list;
  Ok (rc, e <| rc_send_wr_depth_list := <[0%nat := depth']> (rc_send_wr_depth_list e) |>,
      hp', posted).

Definition RdmaRCEndPoint_postReceiveRequest (path : string) (e : RdmaRCEndPoint) (hp : heap)
    (request_list : list Z) : outcome (Z * RdmaRCEndPoint * heap * list ibv_wr) :=
  depth ← vec_at (rc_recv_wr_depth_list e) 0;
  qp ← RdmaRCEndPoint_qp e 0;
  '(rc, depth', hp', posted, _) ← post_batch (ibv_post_recv (qp_num qp)) make_recv_wr
     (RcDepth path false 0) (rc_max_wr_depth e) depth hp request_list;
  Ok (rc, e <| rc_recv_wr_depth_list := <[0%nat := depth']> (rc_recv_wr_depth_list e) |>,
      hp', posted).

Definition RdmaRCEndPoint_qpNum (e : RdmaRCEndPoint) : outcome (list Z) :=
  foldr (fun p acc => l ← acc; match p with Some qp => Ok (qp_num qp :: l) | None => Trap TrapNull end)
        (Ok []) (rc_qp_list e).

(** ** Connecting *)

(** [ibv_modify_qp(qp, &attr, ...)] to state [s]. *)
Definition modify_qp (qp : ibv_qp) (s : qp_state_t) (attr : ibv_qp -> ibv_qp) : Z * ibv_qp :=
  if negb (ibv_modify_qp qp s =? 0) then (ERR, qp) else (0, (attr qp) <| qp_state := s |>).

(** [setupConnection(int, ...)]: RESET, INIT, RTR, RTS; [dgid] is what the text
    parses to. *)
Definition setup_qp (qp : ibv_qp) (dgid : list Z) (peer_lid peer_qp_num : Z) : Z * ibv_qp :=
  let '(r1, qp1) := modify_qp qp IBV_QPS_RESET (fun q => q) in
  if negb (r1 =? 0) then (r1, qp1)
  else
    let '(r2, qp2) := modify_qp qp1 IBV_QPS_INIT (fun q => q) in
    if negb (r2 =? 0) then (r2, qp2)
    else
      let '(r3, qp3) := modify_qp qp2 IBV_QPS_RTR
        (fun q => q <| qp_dgid := dgid |> <| qp_dlid := peer_lid |>
                    <| qp_dest_qp_num := peer_qp_num |>) in
      if negb (r3 =? 0) then (r3, qp3) else modify_qp qp3 IBV_QPS_RTS (fun q => q).

(** The loop over the queue pairs; the lists have the same length. *)
Fixpoint setup_qps (l : list (option ibv_qp)) (dgid : list Z) (peer_lid : Z) (peer : list Z)
  : outcome (Z * list (option ibv_qp)) :=
  match l, peer with
  | None :: _, _ :: _ => Trap TrapNull
  | Some qp :: l, n :: peer =>
      let '(ret, qp') := setup_qp qp dgid peer_lid n in
      if negb (ret =? 0) then Ok (ret, Some qp' :: l)
      else '(ret', l') ← setup_qps l dgid peer_lid peer; Ok (ret', Some qp' :: l')
  | _, _ => Ok (0, l)
  end.

Definition RdmaRCEndPoint_setupConnection (e : RdmaRCEndPoint) (dgid : list Z) (peer_lid : Z)
    (peer_qp_num_list : list Z) : outcome (Z * RdmaRCEndPoint) :=
  if negb (Nat.eqb (length (rc_qp_list e)) (length peer_qp_num_list)) then Ok (ERR, e)
  else
    '(ret, l) ← setup_qps (rc_qp_list e) dgid peer_lid peer_qp_num_list;
    let e1 := e <| rc_qp_list := l |> in
    if negb (ret =? 0) then Ok (ret, e1) else Ok (0, e1 <| rc_status_ := RC_CONNECTED |>).

(** ** The table of endpoints *)

(** [getOrCreateEndpoint]: an endpoint that cannot be constructed is destroyed on
    return. *)
Definition RdmaRCEndPointStore_getOrCreateEndpoint (s : gmap string RdmaRCEndPoint)
    (num_qp_per_endpoint : nat) (max_wr_per_qp : Z) (path : string)
  : outcome (option RdmaRCEndPoint * gmap string RdmaRCEndPoint) :=
  if String.eqb path "" then Ok (None, s)
  else match s !! path with
       | Some e => Ok (Some e, s)
       | None =>
           let '(ret, e) := RdmaRCEndPoint_construct RdmaRCEndPoint_ctor num_qp_per_endpoint
                              max_wr_per_qp in
           if negb (ret =? 0) then _ ← RdmaRCEndPoint_dtor e; Ok (None, s)
           else Ok (Some e, <[path := e]> s)
       end.
Definition RdmaRCEndPointStore_deleteEndpoint (s : gmap string RdmaRCEndPoint) (path : string)
  : Z * gmap string RdmaRCEndPoint := (0, delete path s).
End verbs.

(** ** Connecting an endpoint *)

(** Queue pair [p] is ready to send to queue pair [n] of the peer. *)
Definition qp_ready (dgid : list Z) (peer_lid : Z) (p : option ibv_qp) (n : Z) : Prop :=
  exists qp, p = Some qp /\ qp_state qp = IBV_QPS_RTS /\ qp_dgid qp = dgid /\
    qp_dlid qp = peer_lid /\ qp_dest_qp_num qp = n.

Lemma setup_qp_spec modify qp dgid lid n ret qp' :
  setup_qp modify qp dgid lid n = (ret, qp') ->
  qp_num qp' = qp_num qp /\ (ret = 0 \/ ret = ERR) /\
  (ret = 0 -> qp_ready dgid lid (Some qp') n) /\
  (ret <> 0 -> qp_state qp' <> IBV_QPS_RTS \/ qp' = qp).
Proof.
  unfold setup_qp, modify_qp, ERR. intros H.
  repeat match goal with
  | H : context [negb (?a =? 0)] |- _ => destruct (negb (a =? 0)); cbn in H
  end; injection H as <- <-; cbn; split_and!; auto; try done; try (intros _; by left).
  intros _. by eexists.
Qed.

Lemma setup_qps_spec modify dgid lid l : forall peer ret l',
  length l = length peer -> Forall is_Some l ->
  setup_qps modify l dgid lid peer = Ok (ret, l') ->
  length l' = length l /\ Forall is_Some l' /\
  (ret = 0 -> Forall2 (qp_ready dgid lid) l' peer).
Proof.
  induction l as [|p l IH]; intros [|n peer] ret l' Hlen Hall H; cbn in H; try done;
    [by simplify_eq|].
  apply Forall_cons in Hall as [[qp ->] Hall].
  destruct (setup_qp modify qp dgid lid n) as [r qp'] eqn:Hqp.
  apply setup_qp_spec in Hqp as (_ & _ & Hready & _).
  destruct (Z.eqb_spec r 0) as [->|Hr]; cbn in H.
  - outcome_run. simplify_eq. match goal with E : setup_qps _ _ _ _ _ = Ok _ |- _ =>
      apply IH in E as (Hl & Hs & Hf); [|cbn in Hlen; lia|done] end.
    cbn. split_and!; [lia|by constructor|]. intros ->. constructor; auto.
  - simplify_eq. split_and!; [done|by constructor|done].
Qed.

Lemma setup_qps_total modify dgid lid l : forall peer,
  length l = length peer -> Forall is_Some l ->
  exists ret l', setup_qps modify l dgid lid peer = Ok (ret, l').
Proof.
  induction l as [|p l IH]; intros [|n peer] Hlen Hall; cbn; try done; [by eexists _, _|].
  apply Forall_cons in Hall as [[qp ->] Hall].
  destruct (setup_qp modify qp dgid lid n) as [r qp']. destruct (negb _); [by eexists _, _|].
  destruct (IH peer ltac:(cbn in Hlen; lia) Hall) as (ret & l' & ->). by eexists _, _.
Qed.

(** [C25] Connecting a reliable endpoint.  On an endpoint whose queue pairs exist,
    [setupConnection] always returns.  A peer with another number of queue pairs
    is refused and nothing changes.  Otherwise code 0 means that queue pair [i]
    is ready to send to queue pair [i] of the peer at the given address, for
    every [i], and the endpoint reports itself connected; any other code leaves
    the reported status as it was, so that an endpoint whose second connection
    attempt fails half way still reports itself connected. *)
Theorem rc_setup_exact modify e dgid lid peer :
  Forall is_Some (rc_qp_list e) ->
  exists ret e', RdmaRCEndPoint_setupConnection modify e dgid lid peer = Ok (ret, e') /\
    length (rc_qp_list e') = length (rc_qp_list e) /\ Forall is_Some (rc_qp_list e') /\
    (length peer <> length (rc_qp_list e) -> ret = ERR /\ e' = e) /\
    (ret = 0 -> Forall2 (qp_ready dgid lid) (rc_qp_list e') peer /\
       RdmaRCEndPoint_connected e' = true) /\
    (ret <> 0 -> RdmaRCEndPoint_connected e' = RdmaRCEndPoint_connected e).
Proof.
  intros Hall. unfold RdmaRCEndPoint_setupConnection.
  destruct (Nat.eqb_spec (length (rc_qp_list e)) (length peer)) as [Hlen|Hne]; cbn [negb].
  - destruct (setup_qps_total modify dgid lid _ peer Hlen Hall) as (ret & l & Hrun).
    destruct (setup_qps_spec _ _ _ _ _ _ _ Hlen Hall Hrun) as (Hl & Hs & Hf). rewrite Hrun. cbn.
    destruct (Z.eqb_spec ret 0) as [->|Hr]; cbn.
    + eexists _, _. split; [done|]. split_and!; auto; done.
    + eexists _, _. split; [done|]. split_and!; auto; done.
  - eexists _, _. split; [done|]. split_and!; auto; done.
Qed.

(** Two queue pairs; the second refuses to become ready to receive. *)
Lemma rc_setup_exact_witness : exists e',
  RdmaRCEndPoint_setupConnection
    (fun qp s => if (qp_num qp =? 12) && bool_decide (s = IBV_QPS_RTR) then 22 else 0)
    (mkRcEndPoint RC_CONNECTED [Some (mkQp 11 IBV_QPS_RTS [] 1 5); Some (mkQp 12 IBV_QPS_RTS [] 1 6)]
       [0; 0] [0; 0] 128) [] 3 [7; 8] = Ok (ERR, e') /\
  RdmaRCEndPoint_connected e' = true.
Proof.
  destruct (rc_setup_exact
    (fun qp s => if (qp_num qp =? 12) && bool_decide (s = IBV_QPS_RTR) then 22 else 0)
    (mkRcEndPoint RC_CONNECTED [Some (mkQp 11 IBV_QPS_RTS [] 1 5); Some (mkQp 12 IBV_QPS_RTS [] 1 6)]
       [0; 0] [0; 0] 128) [] 3 [7; 8]) as (ret & e' & Hrun & _ & _ & _ & _ & Hkeep);
    [repeat constructor; by eexists|].
  exists e'. assert (Hret : ret = ERR) by (vm_compute in Hrun; by simplify_eq).
  subst ret. split; [done|]. by apply Hkeep.
Defined.

(** ** Failing to create an endpoint *)
Lemma create_qps_failure create n : forall i k,
  (k < n)%nat -> create (i + k)%nat = None ->
  exists l, create_qps create n i = (false, l) /\ None ∈ l.
Proof.
  induction n as [|n IH]; intros i k Hk Hc; [lia|]. cbn [create_qps].
  destruct (create i) as [num|] eqn:Hi.
  - destruct k as [|k]; [rewrite Nat.add_0_r in Hc; congruence|].
    destruct (IH (S i) k ltac:(lia)) as (l & Hl & Hn); [by rewrite <- Hc; f_equal; lia|].
    rewrite Hl. eexists. split; [done|]. apply elem_of_cons. by right.
  - eexists. split; [done|]. cbn. apply elem_of_cons. by left.
Qed.

Lemma destroy_qps_null destroy l :
  (forall qp, destroy qp = 0) -> None ∈ l -> destroy_qps destroy l = Trap TrapNull.
Proof.
  intros Hd. induction l as [|p l IH]; intros Hn; [set_solver|]. cbn.
  destruct p as [qp|]; [|done]. rewrite Hd. cbn. apply IH.
  by apply elem_of_cons in Hn as [|].
Qed.

(** When the device refuses one of an endpoint's queue pairs, the destructor of
    the half-built endpoint destroys a null queue pair. *)
Theorem rc_create_failure_crashes create destroy s num max path k :
  (forall qp, destroy qp = 0) -> path <> "" -> s !! path = None ->
  (k < num)%nat -> create k = None ->
  RdmaRCEndPointStore_getOrCreateEndpoint create destroy s num max path = Trap TrapNull.
Proof.
  intros Hd Hp Hs Hk Hc. unfold RdmaRCEndPointStore_getOrCreateEndpoint, RdmaRCEndPoint_construct.
  rewrite (proj2 (String.eqb_neq path "")), Hs by done. cbn [RdmaRCEndPoint_ctor rc_status_].
  destruct (create_qps_failure create num 0 k Hk Hc) as (l & -> & Hn). cbn.
  unfold RdmaRCEndPoint_dtor, RdmaRCEndPoint_deconstruct. cbn [rc_qp_list].
  destruct l as [|p l]; [set_solver|]. by rewrite destroy_qps_null.
Qed.

Lemma rc_create_failure_crashes_witness :
  RdmaRCEndPointStore_getOrCreateEndpoint (fun i => if Nat.eqb i 1 then None else Some 11)
    (fun _ => 0) ∅ 2 128 "b:1" = Trap TrapNull.
Proof. apply (rc_create_failure_crashes _ _ _ 2 128 "b:1" 1); done || lia. Defined.
