(* ===== verification/Multicast.v ===== *)
(** * Multicast groups at the fabric

    Models [RdmaMulticastContext] of src/protocols/common/rdma_multicast.{h,cpp}:
    the connections (one queue pair each) through which a host takes part in one
    multicast group, their memory regions and work-request counters, and the
    handlers of the connection-manager events that bring them up while
    [construct] waits.

    librdmacm and libibverbs are parameters: the events, the queue pair and
    address handle they create and the return codes are inputs of the handlers;
    the memory verbs take the connection they act on. *)

From S2P Require Import Prelude MemoryRegions Tasks RequestCache Posting.

(** [RdmaMulticastContext::Connection] *)
Record Connection := mkConnection {
  cn_qp_num : Z;
  cn_ah : Z;
  cn_remote_qpn : Z;
  cn_remote_qkey : Z;
  cn_send_wr_depth : Z;
  cn_recv_wr_depth : Z;
  cn_memory_regions : list ibv_mr
}.
#[export] Instance Connection_fields : Fields Connection := mkFields (fun c =>
  mkConnection (cn_qp_num c) (cn_ah c) (cn_remote_qpn c) (cn_remote_qkey c) (cn_send_wr_depth c)
    (cn_recv_wr_depth c) (cn_memory_regions c)).
Definition Connection_ctor : Connection := mkConnection 0 0 0 0 0 0 [].

Record RdmaMulticastContext := mkMcast {
  mc_multicast_addr : string;
  mc_group_id : Z;
  mc_replicas : list string;
  mc_connections : list Connection;
  mc_num_active_connections : Z;
  mc_max_wr_per_qp : Z;
  mc_max_inline_bytes : Z
}.
#[export] Instance RdmaMulticastContext_fields : Fields RdmaMulticastContext := mkFields (fun g =>
  mkMcast (mc_multicast_addr g) (mc_group_id g) (mc_replicas g) (mc_connections g)
    (mc_num_active_connections g) (mc_max_wr_per_qp g) (mc_max_inline_bytes g)).

Definition RdmaMulticastContext_ctor (max_wr_per_qp max_inline_bytes : Z) : RdmaMulticastContext :=
  mkMcast "" 0 [] [] 0 max_wr_per_qp max_inline_bytes.

Definition RdmaMulticastContext_qpNum (g : RdmaMulticastContext) : list Z :=
  cn_qp_num <$> mc_connections g.

Definition mc_set_connection (g : RdmaMulticastContext) (i : nat) (c : Connection)
  : RdmaMulticastContext :=
  g <| mc_connections := <[i := c]> (mc_connections g) |>.

(** [conn_index < 0 || conn_index >= connections_.size()] *)
Definition mc_valid_index (g : RdmaMulticastContext) (conn_index : Z) : bool :=
  (0 <=? conn_index) && (conn_index <? Z.of_nat (length (mc_connections g))).

(** ** Coming up *)

(** [construct] up to the wait: [n] connections whose addresses are being
    resolved. *)
Definition RdmaMulticastContext_begin (g : RdmaMulticastContext) (multicast_addr : string)
    (n : nat) : RdmaMulticastContext :=
  g <| mc_multicast_addr := multicast_addr |> <| mc_connections := replicate n Connection_ctor |>.

(** The condition of the loop [construct] ends with. *)
Definition RdmaMulticastContext_waiting (g : RdmaMulticastContext) : bool :=
  mc_num_active_connections g <? Z.of_nat (length (mc_connections g)).

(** [deconstruct]: leaves the group and drops the connections. *)
Definition RdmaMulticastContext_deconstruct (g : RdmaMulticastContext) : Z * RdmaMulticastContext :=
  (0, g <| mc_connections := [] |>).

(** What [processEvents] can get: the address of connection [i] resolved
    ([qp]: the queue pair [createQueuePair] makes, [None] if that fails;
    [rc]: the first error of the hook and the join request, or 0), the join of
    connection [i] confirmed ([ah]: 0 if no address handle can be made), an
    error, or another event. *)
Inductive cm_event : Type :=
| ADDR_RESOLVED (i : nat) (qp : option Z) (rc : Z)
| MULTICAST_JOIN (i : nat) (qp_num qkey ah : Z)
| CM_ERROR (i : nat) (status : Z)
| CM_OTHER.

Definition RdmaMulticastContext_onAddressResolved (g : RdmaMulticastContext) (i : nat)
    (qp : option Z) (rc : Z) : outcome (Z * RdmaMulticastContext) :=
  c ← vec_at (mc_connections g) i;
  match qp with
  | None => Ok (ERR, g)
  | Some qp_num => Ok (rc, mc_set_connection g i (c <| cn_qp_num := qp_num |>))
  end.

Definition RdmaMulticastContext_onMulticastJoin (g : RdmaMulticastContext) (i : nat)
    (qp_num qkey ah : Z) : outcome (Z * RdmaMulticastContext) :=
  c ← vec_at (mc_connections g) i;
  let g1 := mc_set_connection g i (c <| cn_remote_qpn := qp_num |> <| cn_remote_qkey := qkey |>
                                     <| cn_ah := ah |>) in
  if ah =? 0 then Ok (ERR, g1)
  else Ok (0, g1 <| mc_num_active_connections := i32 (mc_num_active_connections g + 1) |>).

Definition RdmaMulticastContext_processEvents (g : RdmaMulticastContext) (e : cm_event)
  : outcome (Z * RdmaMulticastContext) :=
  match e with
  | ADDR_RESOLVED i qp rc => RdmaMulticastContext_onAddressResolved g i qp rc
  | MULTICAST_JOIN i qp_num qkey ah => RdmaMulticastContext_onMulticastJoin g i qp_num qkey ah
  | CM_ERROR _ status => Ok (status, g)
  | CM_OTHER => Ok (0, g)
  end.

(** The event thread: return codes are ignored. *)
Fixpoint RdmaMulticastContext_run_events (g : RdmaMulticastContext) (es : list cm_event)
  : outcome RdmaMulticastContext :=
  match es with
  | [] => Ok g
  | e :: es => '(_, g') ← RdmaMulticastContext_processEvents g e;
               RdmaMulticastContext_run_events g' es
  end.

(** ** Memory *)
Section memory.
Variable ibv_reg_mr : nat -> Z -> Z -> Z -> option ibv_mr.
Variable ibv_dereg_mr : ibv_mr -> Z.

(** The loops over the connections; an error ends the function and leaves the
    connections before it as they are.  A single connection does what
    [RdmaContext] does. *)
Fixpoint mcast_register_loop (i : nat) (cs : list Connection) (addr length access : Z)
  : Z * list Connection :=
  match cs with
  | [] => (0, [])
  | c :: cs =>
      let '(ret, mrs) := RdmaContext_registerMemoryRegion (ibv_reg_mr i) (cn_memory_regions c)
                           addr length access in
      let c' := c <| cn_memory_regions := mrs |> in
      if negb (ret =? 0) then (ret, c' :: cs)
      else let '(ret', cs') := mcast_register_loop (S i) cs addr length access in (ret', c' :: cs')
  end.
Definition RdmaMulticastContext_registerMemoryRegion (g : RdmaMulticastContext)
    (addr length access : Z) : Z * RdmaMulticastContext :=
  let '(ret, cs) := mcast_register_loop 0 (mc_connections g) addr length access in
  (ret, g <| mc_connections := cs |>).

Fixpoint mcast_unregister_loop (cs : list Connection) (addr : Z) : outcome (Z * list Connection) :=
  match cs with
  | [] => Ok (0, [])
  | c :: cs =>
      '(ret, mrs) ← RdmaContext_unregisterMemoryRegion ibv_dereg_mr (cn_memory_regions c) addr;
      let c' := c <| cn_memory_regions := mrs |> in
      if negb (ret =? 0) then Ok (ret, c' :: cs)
      else '(ret', cs') ← mcast_unregister_loop cs addr; Ok (ret', c' :: cs')
  end.
Definition RdmaMulticastContext_unregisterMemoryRegion (g : RdmaMulticastContext) (addr : Z)
  : outcome (Z * RdmaMulticastContext) :=
  '(ret, cs) ← mcast_unregister_loop (mc_connections g) addr;
  Ok (ret, g <| mc_connections := cs |>).
End memory.

Definition RdmaMulticastContext_key (g : RdmaMulticastContext) (addr conn_index : Z) : Z * Z :=
  if negb (mc_valid_index g conn_index) then (0, 0)
  else match mc_connections g !! Z.to_nat conn_index with
       | None => (0, 0)
       | Some c => RdmaContext_key (cn_memory_regions c) addr
       end.

(** ** Posting *)

(** [actual_length] is a [size_t] here. *)
Definition make_mcast_send_wr (g : RdmaMulticastContext) (c : Connection) (ptr : Z) (r : Request)
  : ibv_wr :=
  let l := Request_sges r in
  mkWr ptr l (negb (req_imm_data r =? 0)) (req_imm_data r)
    (foldl (fun n s => u64 (n + sge_length s)) 0 l <? mc_max_inline_bytes g)
    (cn_ah c) (cn_remote_qpn c) (cn_remote_qkey c).

Definition RdmaMulticastContext_postSendRequest (ibv_post_send : Z -> list ibv_wr -> Z * nat)
    (g : RdmaMulticastContext) (hp : heap) (request_list : list Z) (conn_index : Z)
  : outcome (Z * RdmaMulticastContext * heap * list ibv_wr) :=
  if negb (mc_valid_index g conn_index) then Ok (ERR, g, hp, [])
  else
    c ← vec_at (mc_connections g) (Z.to_nat conn_index);
    '(rc, depth, hp', posted, err) ← post_batch (ibv_post_send (cn_qp_num c))
       (make_mcast_send_wr g c) (GroupDepth (mc_multicast_addr g) true conn_index)
       (i32 (mc_max_wr_per_qp g)) (cn_send_wr_depth c) hp request_list;
    if negb (err =? 0) then Trap TrapAbort
    else Ok (rc, mc_set_connection g (Z.to_nat conn_index) (c <| cn_send_wr_depth := depth |>),
             hp', posted).

Definition RdmaMulticastContext_postReceiveRequest (ibv_post_recv : Z -> list ibv_wr -> Z * nat)
    (g : RdmaMulticastContext) (hp : heap) (request_list : list Z) (conn_index : Z)
  : outcome (Z * RdmaMulticastContext * heap * list ibv_wr) :=
  if negb (mc_valid_index g conn_index) then Ok (ERR, g, hp, [])
  else
    c ← vec_at (mc_connections g) (Z.to_nat conn_index);
    '(rc, depth, hp', posted, _) ← post_batch (ibv_post_recv (cn_qp_num c)) make_recv_wr
       (GroupDepth (mc_multicast_addr g) false conn_index)
       (i32 (mc_max_wr_per_qp g)) (cn_recv_wr_depth c) hp request_list;
    Ok (rc, mc_set_connection g (Z.to_nat conn_index) (c <| cn_recv_wr_depth := depth |>),
        hp', posted).

(** ** Joining *)

(** The connections whose join the event thread counts. *)
Definition joins (es : list cm_event) : list nat :=
  omap (fun e => match e with
                 | MULTICAST_JOIN i _ _ ah => if ah =? 0 then None else Some i
                 | _ => None
                 end) es.

Lemma joins_cons e es :
  joins (e :: es) =
    match e with
    | MULTICAST_JOIN i _ _ ah => if ah =? 0 then joins es else i :: joins es
    | _ => joins es
    end.
Proof. destruct e; try done. unfold joins. cbn. by destruct (_ =? 0). Qed.
#[global] Arguments joins : simpl never.

Definition event_valid (n : nat) (e : cm_event) : Prop :=
  match e with
  | ADDR_RESOLVED i _ _ | MULTICAST_JOIN i _ _ _ => (i < n)%nat
  | _ => True
  end.

Lemma joins_valid n es : Forall (event_valid n) es -> forall k, k ∈ joins es -> (k < n)%nat.
Proof.
  intros Hes k. unfold joins. rewrite list_elem_of_omap. intros (e & He & Hk).
  rewrite Forall_forall in Hes. specialize (Hes e He). destruct e; try done.
  cbn in *. destruct (_ =? 0); [done|]. by injection Hk as <-.
Qed.

Lemma run_events_count n es : forall g,
  Forall (event_valid n) es -> length (mc_connections g) = n ->
  0 <= mc_num_active_connections g ->
  mc_num_active_connections g + Z.of_nat (length (joins es)) < 0x80000000 ->
  exists g', RdmaMulticastContext_run_events g es = Ok g' /\
    length (mc_connections g') = n /\
    mc_num_active_connections g' = mc_num_active_connections g + Z.of_nat (length (joins es)).
Proof.
  induction es as [|e es IH]; intros g Hes Hn H0 Hb; 
    [exists g; unfold joins; cbn; split_and!; done || lia|].
  apply Forall_cons in Hes as [He Hes]. cbn [RdmaMulticastContext_run_events].
  rewrite joins_cons in Hb |- *.
  destruct e as [i qp rc|i qpn qkey ah|i status|]; cbn in He, Hb |- *.
  - unfold RdmaMulticastContext_onAddressResolved.
    destruct (vec_at_lt (mc_connections g) i) as (c & -> & _); [lia|]. cbn.
    destruct qp; cbn;
      match goal with |- context [RdmaMulticastContext_run_events ?g' es] => apply (IH g') end;
      cbn; rewrite ?length_insert; done.
  - unfold RdmaMulticastContext_onMulticastJoin.
    destruct (vec_at_lt (mc_connections g) i) as (c & -> & _); [lia|]. cbn.
    destruct (ah =? 0); cbn in Hb |- *.
    + match goal with |- context [RdmaMulticastContext_run_events ?g' es] => apply (IH g') end;
        cbn; rewrite ?length_insert; done.
    + assert (Hi : i32 (mc_num_active_connections g + 1) = mc_num_active_connections g + 1)
        by word_lia.
      rewrite Hi. match goal with |- context [RdmaMulticastContext_run_events ?g' es] =>
        assert (IHg := IH g' Hes) end.
      cbn in IHg. rewrite length_insert in IHg.
      destruct (IHg Hn ltac:(lia) ltac:(lia)) as (g2 & Hrun & Hl & Ha).
      exists g2. split; [exact Hrun|]. split; [done|]. rewrite Ha. lia.
  - by apply IH.
  - by apply IH.
Qed.

(** [C26] [construct] waits for every connection.  Whatever events arrive, the
    event thread never indexes out of range and counts the confirmed joins; if
    the fabric confirms each connection at most once, the wait of [construct]
    is over exactly when every connection has joined.  In particular an address
    or join error of one connection leaves [construct] waiting for ever: error
    events are only logged. *)
Theorem mcast_join_exact g addr n es :
  mc_num_active_connections g = 0 -> Z.of_nat n < 0x80000000 ->
  Forall (event_valid n) es -> NoDup (joins es) ->
  exists g', RdmaMulticastContext_run_events (RdmaMulticastContext_begin g addr n) es = Ok g' /\
    (RdmaMulticastContext_waiting g' = false <-> forall k, (k < n)%nat -> k ∈ joins es).
Proof.
  intros H0 Hn Hes Hnd.
  assert (Hsub : joins es ⊆+ seq 0 n).
  { apply NoDup_submseteq; [done|]. intros k Hk%(joins_valid n); [|done].
    apply elem_of_seq. lia. }
  pose proof (submseteq_length _ _ Hsub) as Hlen. rewrite length_seq in Hlen.
  destruct (run_events_count n es (RdmaMulticastContext_begin g addr n) Hes) as (g' & Hrun & Hc & Ha);
    [apply length_replicate|cbn; lia|cbn; lia|].
  exists g'. split; [done|]. unfold RdmaMulticastContext_waiting. rewrite Hc, Ha. cbn. rewrite H0.
  rewrite Z.ltb_ge. split.
  - intros Hle k Hk. assert (Hp : joins es ≡ₚ seq 0 n).
    { apply submseteq_length_Permutation; [done|]. rewrite length_seq. lia. }
    rewrite Hp. apply elem_of_seq. lia.
  - intros Hall. assert (Hsub2 : seq 0 n ⊆+ joins es).
    { apply NoDup_submseteq; [apply NoDup_seq|]. intros k Hk%elem_of_seq. apply Hall. lia. }
    apply submseteq_length in Hsub2. rewrite length_seq in Hsub2. lia.
Qed.

(** Two connections, the second of which fails to join. *)
Lemma mcast_join_exact_witness : exists g',
  RdmaMulticastContext_run_events
    (RdmaMulticastContext_begin (RdmaMulticastContext_ctor 128 64) "239.0.0.1" 2)
    [ADDR_RESOLVED 0 (Some 21) 0; ADDR_RESOLVED 1 (Some 22) 0; MULTICAST_JOIN 0 99 1 5; CM_ERROR 1 (-1)]
    = Ok g' /\
  (RdmaMulticastContext_waiting g' = false <-> forall k, (k < 2)%nat -> k ∈ [0%nat]).
Proof.
  apply (mcast_join_exact (RdmaMulticastContext_ctor 128 64) "239.0.0.1" 2
    [ADDR_RESOLVED 0 (Some 21) 0; ADDR_RESOLVED 1 (Some 22) 0; MULTICAST_JOIN 0 99 1 5;
     CM_ERROR 1 (-1)]); [done|done|repeat constructor; cbn; lia|cbn; apply NoDup_singleton].
Defined.

(** ** Registration over the connections *)

(** The part of a registration that was done before an error. *)
Lemma mcast_register_spec reg addr len acc cs : forall i ret cs',
  (forall j a n c mr, reg j a n c = Some mr -> mr_addr mr = a /\ mr_length mr = n) ->
  0 < len -> Forall (fun c => regions_ok (cn_memory_regions c)) cs ->
  mcast_register_loop reg i cs addr len acc = (ret, cs') ->
  Forall (fun c => regions_ok (cn_memory_regions c)) cs' /\ length cs' = length cs /\
  (ret = 0 -> Forall (fun c => exists mr, mr ∈ cn_memory_regions c /\ mr_addr mr = addr /\
                                 mr_length mr = len) cs').
Proof.
  induction cs as [|c cs IH]; intros i ret cs' Hreg Hlen Hok; cbn [mcast_register_loop].
  { intros [= <- <-]. by split_and!. }
  apply Forall_cons in Hok as [Hc Hok].
  assert (Hc' := register_ok (reg i) (Hreg i) (cn_memory_regions c) addr len acc Hc Hlen).
  assert (Hin : forall mrs, RdmaContext_registerMemoryRegion (reg i) (cn_memory_regions c) addr len
                  acc = (0, mrs) -> exists mr, mr ∈ mrs /\ mr_addr mr = addr /\ mr_length mr = len).
  { unfold RdmaContext_registerMemoryRegion, registerMemoryRegion_insert. intros mrs.
    destruct (registerMemoryRegion_check _ _ _); [done|].
    destruct (reg i addr len acc) as [mr|] eqn:Hr; [|done]. intros [= <-].
    exists mr. split; [|by apply Hreg in Hr]. set_solver. }
  destruct (RdmaContext_registerMemoryRegion _ _ _ _ _) as [r mrs]. cbn in Hc'.
  destruct (Z.eqb_spec r 0) as [->|Hr]; cbn [negb].
  - destruct (mcast_register_loop reg (S i) cs addr len acc) as [r' cs1] eqn:Hrec.
    intros [= <- <-]. destruct (IH _ _ _ Hreg Hlen Hok Hrec) as (Hok' & Hl & Hall).
    split; [by constructor|]. split; [cbn; lia|]. intros Hz. constructor; [|by apply Hall].
    by apply Hin.
  - intros [= <- <-]. split; [by constructor|]. split; [done|]. done.
Qed.

(** Registration with a group keeps the regions of every connection disjoint,
    and success means every connection has the region.  It is not atomic: when
    the second connection's verb fails the first keeps the region, and from then
    on every attempt to register the range is refused as overlapping. *)
Theorem mcast_register_all_or_stuck reg g addr len acc ret g' :
  (forall j a n c mr, reg j a n c = Some mr -> mr_addr mr = a /\ mr_length mr = n) ->
  0 < len -> Forall (fun c => regions_ok (cn_memory_regions c)) (mc_connections g) ->
  RdmaMulticastContext_registerMemoryRegion reg g addr len acc = (ret, g') ->
  Forall (fun c => regions_ok (cn_memory_regions c)) (mc_connections g') /\
  (ret = 0 -> forall i c, mc_connections g' !! i = Some c ->
     exists mr, mr ∈ cn_memory_regions c /\ mr_addr mr = addr /\ mr_length mr = len) /\
  (forall c1 c2 cs mr, mc_connections g = c1 :: c2 :: cs ->
     registerMemoryRegion_check (cn_memory_regions c1) addr len = false ->
     reg 0%nat addr len acc = Some mr -> reg 1%nat addr len acc = None ->
     registerMemoryRegion_check (cn_memory_regions c2) addr len = false ->
     ret = ERR /\ RdmaMulticastContext_registerMemoryRegion reg g' addr len acc = (ERR, g')).
Proof.
  intros Hreg Hlen Hok. unfold RdmaMulticastContext_registerMemoryRegion.
  destruct (mcast_register_loop reg 0 (mc_connections g) addr len acc) as [r cs'] eqn:Hrun.
  intros [= <- <-]. cbn [mc_connections].
  destruct (mcast_register_spec _ _ _ _ _ _ _ _ Hreg Hlen Hok Hrun) as (Hok' & _ & Hall).
  split; [done|]. split; [intros Hz i c Hi; by apply (Forall_lookup_1 _ _ _ _ (Hall Hz) Hi)|].
  intros c1 c2 cs mr Hcs Hc1 Hr1 Hr2 Hc2. rewrite Hcs in Hrun. cbn [mcast_register_loop] in Hrun.
  unfold RdmaContext_registerMemoryRegion, registerMemoryRegion_insert in Hrun.
  rewrite Hc1, Hr1, Hc2, Hr2 in Hrun. cbn in Hrun. injection Hrun as <- <-. split; [done|]. cbn.
  unfold RdmaContext_registerMemoryRegion.
  assert (Hov : registerMemoryRegion_check (cn_memory_regions c1 ++ [mr]) addr len = true).
  { unfold registerMemoryRegion_check. rewrite existsb_app. cbn.
    destruct (Hreg _ _ _ _ _ Hr1) as [Ha Hn]. unfold mr_overlaps. rewrite Ha, Hn.
    apply orb_true_iff. right. lia. }
  rewrite Hov. done.
Qed.

Lemma mcast_register_all_or_stuck_witness : exists g',
  RdmaMulticastContext_registerMemoryRegion
    (fun i a n _ => match i with O => Some (mkMr a n 1 1) | _ => None end)
    (mkMcast "g" 0 [] [Connection_ctor; Connection_ctor] 2 128 64) 4096 64 1 = (ERR, g') /\
  RdmaMulticastContext_registerMemoryRegion
    (fun i a n _ => match i with O => Some (mkMr a n 1 1) | _ => None end) g' 4096 64 1
    = (ERR, g').
Proof.
  eexists. split; [reflexivity|].
  refine (proj2 (proj2 (proj2 (mcast_register_all_or_stuck
    (fun i a n _ => match i with O => Some (mkMr a n 1 1) | _ => None end)
    (mkMcast "g" 0 [] [Connection_ctor; Connection_ctor] 2 128 64) 4096 64 1 ERR _
    _ _ _ eq_refl)) Connection_ctor Connection_ctor [] (mkMr 4096 64 1 1)
    eq_refl eq_refl eq_refl eq_refl eq_refl)); [|lia|].
  - intros [|j] a n c mr [= <-]. done.
  - assert (Hnil : regions_ok (cn_memory_regions Connection_ctor)) by (split; [constructor|done]).
    by repeat constructor.
Defined.
