(* ===== verification/McastLifecycle.v ===== *)
(** * The life of a multicast context

    Models construction and destruction of [RdmaMulticastContext]
    (src/protocols/common/rdma_multicast.cpp) as operations on the resources of the
    process (Device.v): the event channel, and for each connection its id, its
    protection domain, completion queue, queue pair and address handle.
    [construct] and the event thread run interleaved, as a step relation; Multicast.v
    has what the handlers do to the counters and numbers.

    librdmacm and libibverbs are parameters: the return code of each call, 0 for
    success.  The events are those librdmacm documents: the address of an id that
    was asked for is resolved at most once, a join that was requested is confirmed
    at most once.  [rdma_destroy_id] destroys the id only: its queue pair has to be
    destroyed by the caller before. *)

From S2P Require Import Prelude Device.

(** The calls; [i] is the number of the connection. *)
Inductive cm_verb : Type :=
| CreateEventChannel | SetNonBlocking | LocalAddress | MulticastAddress
| CreateId (i : nat) | BindAddr (i : nat) | ResolveAddr (i : nat)
| AllocPdOf (i : nat) | CreateCqOf (i : nat) | CreateQpOf (i : nat) | InitQpHook (i : nat)
| JoinMulticast (i : nat) | CreateAh (i : nat).

(** The pointers of [RdmaMulticastContext::Connection]; [cr_qp] is [cm_id->qp]. *)
Record McastHandles := mkMcastHandles {
  cr_cm_id : option Z;
  cr_qp : option Z;
  cr_pd : option Z;
  cr_cq : option Z;
  cr_ah : option Z
}.
#[export] Instance McastHandles_fields : Fields McastHandles := mkFields (fun c =>
  mkMcastHandles (cr_cm_id c) (cr_qp c) (cr_pd c) (cr_cq c) (cr_ah c)).
Definition McastHandles_ctor : McastHandles := mkMcastHandles None None None None None.

(** Where [construct] is: before the iteration for connection [i], in the loop that
    waits, or done. *)
Inductive mcast_pc : Type := Resolving (i : nat) | Waiting | Returned (ret : Z).

Record McastGroup := mkMcastGroup {
  gr_event_channel : option Z;
  gr_running : bool;
  gr_connections : list McastHandles;
  gr_num_active_connections : Z;
  gr_pc : mcast_pc
}.
#[export] Instance McastGroup_fields : Fields McastGroup := mkFields (fun g =>
  mkMcastGroup (gr_event_channel g) (gr_running g) (gr_connections g) (gr_num_active_connections g)
    (gr_pc g)).

Section calls.
Variable rc : cm_verb -> Z.
Definition cm_ok (v : cm_verb) : bool := rc v =? 0.

(** ** The handlers of the event thread *)
Definition mcast_createQueuePair (i : nat) (c : McastHandles) (o : os) : Z * McastHandles * os :=
  let '(pd, o1) := os_acquire cm_ok (AllocPdOf i) o in
  let c1 := c <| cr_pd := pd |> in
  match pd with
  | None => (ERR, c1, o1)
  | Some _ =>
      let '(cq, o2) := os_acquire cm_ok (CreateCqOf i) o1 in
      let c2 := c1 <| cr_cq := cq |> in
      match cq with
      | None => (ERR, c2, o2)
      | Some _ =>
          let '(qp, o3) := os_acquire cm_ok (CreateQpOf i) o2 in
          match qp with
          | None => (ERR, c2, o3)
          | Some _ => (0, c2 <| cr_qp := qp |>, o3)
          end
      end
  end.

Definition mcast_onAddressResolved (i : nat) (c : McastHandles) (o : os) : Z * McastHandles * os :=
  let '(ret, c1, o1) := mcast_createQueuePair i c o in
  if negb (ret =? 0) then (ret, c1, o1)
  else if negb (rc (InitQpHook i) =? 0) then (rc (InitQpHook i), c1, o1)
  else (rc (JoinMulticast i), c1, o1).

(** [ibv_create_ah] reads the device through the protection domain. *)
Definition mcast_onMulticastJoin (i : nat) (c : McastHandles) (active : Z) (o : os)
  : outcome (Z * McastHandles * Z * os) :=
  match cr_pd c with
  | None => Trap TrapNull
  | Some _ =>
      let '(ah, o1) := os_acquire cm_ok (CreateAh i) o in
      let c1 := c <| cr_ah := ah |> in
      match ah with
      | None => Ok (ERR, c1, active, o1)
      | Some _ => Ok (0, c1, i32 (active + 1), o1)
      end
  end.

(** ** [construct] up to the loop, and an iteration of the loop *)
Definition mcast_begin (n : nat) (o : os) : McastGroup * os :=
  let '(ch, o1) := os_acquire cm_ok CreateEventChannel o in
  let g := mkMcastGroup ch false [] 0 in
  match ch with
  | None => (g (Returned ERR), o1)
  | Some _ =>
      if negb (rc SetNonBlocking =? 0) then (g (Returned (rc SetNonBlocking)), o1)
      else
        let g := mkMcastGroup ch true [] 0 in
        if negb (rc LocalAddress =? 0) then (g (Returned (rc LocalAddress)), o1)
        else if negb (rc MulticastAddress =? 0) then (g (Returned (rc MulticastAddress)), o1)
        else (mkMcastGroup ch true (replicate n McastHandles_ctor) 0 (Resolving 0), o1)
  end.

Definition mcast_connect (i : nat) (g : McastGroup) (o : os) : McastGroup * os :=
  let '(id, o1) := os_acquire cm_ok (CreateId i) o in
  match id with
  | None => (g <| gr_pc := Returned ERR |>, o1)
  | Some _ =>
      let g1 := g <| gr_connections := alter (fun c => c <| cr_cm_id := id |>) i (gr_connections g) |> in
      if negb (rc (BindAddr i) =? 0) then (g1 <| gr_pc := Returned (rc (BindAddr i)) |>, o1)
      else if negb (rc (ResolveAddr i) =? 0) then (g1 <| gr_pc := Returned (rc (ResolveAddr i)) |>, o1)
      else (g1 <| gr_pc := Resolving (S i) |>, o1)
  end.
End calls.

(** ** [deconstruct], which the destructor runs again *)
Definition destroy_ids (l : list McastHandles) (o : os) : os :=
  foldl (fun o c => release_opt (cr_cm_id c) o) o l.
Definition mcast_deconstruct (g : McastGroup) (o : os) : Z * McastGroup * os :=
  let o1 := destroy_ids (gr_connections g) o in
  (0, g <| gr_connections := [] |> <| gr_running := false |> <| gr_event_channel := None |>,
   release_opt (gr_event_channel g) o1).

(** ** [construct] and the event thread *)
Inductive mcast_up_step (n : nat) : McastGroup * os -> McastGroup * os -> Prop :=
| up_connect rc g o i :
    gr_pc g = Resolving i -> (i < n)%nat -> mcast_up_step n (g, o) (mcast_connect rc i g o)
| up_wait g o : gr_pc g = Resolving n -> mcast_up_step n (g, o) (g <| gr_pc := Waiting |>, o)
| up_return g o :
    gr_pc g = Waiting -> (gr_num_active_connections g <? Z.of_nat (length (gr_connections g))) = false ->
    mcast_up_step n (g, o) (g <| gr_pc := Returned 0 |>, o)
| up_resolved rc g o i c ret c' o' :
    gr_running g = true -> gr_connections g !! i = Some c -> is_Some (cr_cm_id c) -> cr_pd c = None ->
    mcast_onAddressResolved rc i c o = (ret, c', o') ->
    mcast_up_step n (g, o) (g <| gr_connections := <[i := c']> (gr_connections g) |>, o')
| up_joined rc g o i c ret c' active o' :
    gr_running g = true -> gr_connections g !! i = Some c -> is_Some (cr_qp c) -> cr_ah c = None ->
    mcast_onMulticastJoin rc i c (gr_num_active_connections g) o = Ok (ret, c', active, o') ->
    mcast_up_step n (g, o)
      (g <| gr_connections := <[i := c']> (gr_connections g) |> <| gr_num_active_connections := active |>, o').

(** ** Ownership *)

(** The process holds [held] and, besides, [L]; nothing was released wrongly. *)
Record owns (L : gset Z) (bad : nat) (held : list Z) (o : os) : Prop := {
  ow_nodup : NoDup held;
  ow_apart : forall h, h ∈ held -> h ∉ L;
  ow_live : os_live o = list_to_set held ∪ L;
  ow_next : os_ok o;
  ow_bad : os_bad_release o = bad
}.

#[export] Instance owns_proper L bad : Proper ((≡ₚ) ==> (=) ==> iff) (owns L bad).
Proof.
  assert (H : forall l l' o, l ≡ₚ l' -> owns L bad l o -> owns L bad l' o).
  { intros l l' o Hp [Hnd Hap Hlive ? ?]. constructor; try done.
    - by rewrite <- Hp.
    - intros h. rewrite <- Hp. apply Hap.
    - rewrite Hlive. f_equal. by apply list_to_set_perm_L. }
  intros l l' Hp o ? <-. split; by apply H.
Qed.

Lemma owns_acquire {V} (ok : V -> bool) v L bad held o :
  owns L bad held o -> exists h o', os_acquire ok v o = (h, o') /\ owns L bad (option_list h ++ held) o' /\
    (is_Some h <-> ok v = true).
Proof.
  intros Ho. pose proof Ho as [Hnd Hap Hlive Hok Hbad]. unfold os_acquire. destruct (ok v); [|by eexists _, _].
  eexists _, _. split; [done|]. split; [|by split; [|eexists]].
  assert (Hfresh : os_next o ∉ os_live o) by (intros Hin; specialize (Hok _ Hin); lia).
  constructor; cbn; try done.
  - apply NoDup_cons. set_solver.
  - set_solver.
  - rewrite Hlive. set_solver.
  - intros h. cbn. rewrite elem_of_union, elem_of_singleton. intros [->|Hh]; [lia|]. specialize (Hok h Hh). lia.
Qed.

Lemma owns_release h L bad held o : owns L bad (option_list h ++ held) o -> owns L bad held (release_opt h o).
Proof.
  destruct h as [h|]; [|done]. intros [Hnd Hap Hlive Hok Hbad]. cbn in *. apply NoDup_cons in Hnd as [Hh Hnd].
  rewrite (release_live h o (list_to_set held ∪ L)) by set_solver.
  constructor; cbn; try done; [set_solver|]. intros k Hk. apply Hok. rewrite Hlive. set_solver.
Qed.

(** What a connection holds, and what is left of it when its id is destroyed. *)
Definition conn_left (c : McastHandles) : list Z :=
  option_list (cr_pd c) ++ option_list (cr_cq c) ++ option_list (cr_qp c) ++ option_list (cr_ah c).
Definition conn_held (c : McastHandles) : list Z := option_list (cr_cm_id c) ++ conn_left c.
Definition group_held (g : McastGroup) : list Z :=
  option_list (gr_event_channel g) ++ (gr_connections g ≫= conn_held).

Lemma owns_destroy_ids l : forall L bad held o,
  owns L bad ((l ≫= conn_held) ++ held) o -> owns L bad ((l ≫= conn_left) ++ held) (destroy_ids l o).
Proof.
  induction l as [|c l IH]; intros L bad held o Ho; [done|]. cbn [destroy_ids foldl]. rewrite bind_cons in Ho |- *.
  assert (Ho' : owns L bad ((l ≫= conn_held) ++ conn_left c ++ held) (release_opt (cr_cm_id c) o)).
  { apply owns_release. eapply owns_proper; [|done|exact Ho]. unfold conn_held. solve_Permutation. }
  apply IH in Ho'. eapply owns_proper; [|done|exact Ho']. solve_Permutation.
Qed.

(** The order in which a connection gets its resources. *)
Definition conn_ok (c : McastHandles) : Prop :=
  (is_Some (cr_ah c) -> is_Some (cr_qp c)) /\ (is_Some (cr_qp c) -> is_Some (cr_cq c)) /\
  (is_Some (cr_cq c) -> is_Some (cr_pd c)) /\ (is_Some (cr_pd c) -> is_Some (cr_cm_id c)).

Lemma resolved_owns rc i c o ret c' o' L bad held :
  owns L bad (conn_held c ++ held) o -> conn_ok c -> is_Some (cr_cm_id c) -> cr_pd c = None ->
  mcast_onAddressResolved rc i c o = (ret, c', o') ->
  owns L bad (conn_held c' ++ held) o' /\ conn_ok c' /\ cr_cm_id c' = cr_cm_id c /\ cr_ah c' = None /\ cr_ah c = None.
Proof.
  intros Ho (Hah & Hqp & Hcq & Hpd) Hid Hno H.
  assert (cr_cq c = None) by (apply eq_None_not_Some; rewrite Hno in Hcq; by intros ?%Hcq%is_Some_None).
  assert (cr_qp c = None) by (apply eq_None_not_Some; intros ?%Hqp; by eapply eq_None_not_Some).
  assert (cr_ah c = None) by (apply eq_None_not_Some; intros ?%Hah; by eapply eq_None_not_Some).
  destruct c as [id qp pd cq ah]; cbn in *; subst.
  assert (HP : owns L bad (conn_held c' ++ held) o' /\ conn_ok c' /\ cr_cm_id c' = id /\ cr_ah c' = None).
  { unfold mcast_onAddressResolved, mcast_createQueuePair, conn_held, conn_left, conn_ok in *. cbn in Ho.
    destruct (owns_acquire (cm_ok rc) (AllocPdOf i) L bad _ o Ho) as ([pd|] & o1 & E1 & Ho1 & _); rewrite E1 in H; cbn in H.
    2: { simplify_eq. cbn in *. split; [done|]. cbn. naive_solver. }
    destruct (owns_acquire (cm_ok rc) (CreateCqOf i) L bad _ o1 Ho1) as ([cq|] & o2 & E2 & Ho2 & _); rewrite E2 in H; cbn in H.
    2: { simplify_eq. cbn in *. split; [|cbn; naive_solver]. eapply owns_proper; [|done|exact Ho2].
         rewrite <- !app_assoc. solve_Permutation. }
    destruct (owns_acquire (cm_ok rc) (CreateQpOf i) L bad _ o2 Ho2) as ([qp|] & o3 & E3 & Ho3 & _); rewrite E3 in H; cbn in H.
    all: repeat case_match; simplify_eq; cbn in *; (split; [|cbn; naive_solver]);
      (eapply owns_proper; [|done|eassumption]); rewrite <- ?app_assoc; solve_Permutation. }
  naive_solver.
Qed.

Lemma joined_owns rc i c active o ret c' active' o' L bad held :
  owns L bad (conn_held c ++ held) o -> conn_ok c -> is_Some (cr_qp c) -> cr_ah c = None ->
  mcast_onMulticastJoin rc i c active o = Ok (ret, c', active', o') ->
  owns L bad (conn_held c' ++ held) o' /\ conn_ok c' /\ cr_cm_id c' = cr_cm_id c /\
  active' = if cr_ah c' then i32 (active + 1) else active.
Proof.
  intros Ho Hok Hqp Hno H. destruct c as [id qp pd cq ah]; cbn in *; subst.
  unfold mcast_onMulticastJoin, conn_held, conn_left, conn_ok in *. cbn in *. destruct pd as [pd|]; [|done].
  destruct (owns_acquire (cm_ok rc) (CreateAh i) L bad _ o Ho) as ([ah|] & o1 & E1 & Ho1 & _); rewrite E1 in H;
    cbn in H; simplify_eq; cbn in *; (split; [|cbn; naive_solver]); [|done].
  eapply owns_proper; [|done|exact Ho1]. rewrite <- ?app_assoc. solve_Permutation.
Qed.

(** ** Invariant *)
Record up_inv (n : nat) (L : gset Z) (bad : nat) (x : McastGroup * os) : Prop := {
  ui_owns : owns L bad (group_held x.1) x.2;
  ui_conns : Forall conn_ok (gr_connections x.1);
  ui_active : gr_num_active_connections x.1 = Z.of_nat (length (omap cr_ah (gr_connections x.1)));
  ui_length : (length (gr_connections x.1) <= n)%nat;
  ui_running : gr_running x.1 = false -> gr_connections x.1 = [];
  ui_pc : match gr_pc x.1 with
          | Resolving i => length (gr_connections x.1) = n /\
              forall j c, (i <= j)%nat -> gr_connections x.1 !! j = Some c -> cr_cm_id c = None
          | Waiting => length (gr_connections x.1) = n
          | Returned r => r = 0 -> length (gr_connections x.1) = n /\
              Forall (fun c => is_Some (cr_ah c)) (gr_connections x.1)
          end
}.

Lemma begin_inv rc n o :
  os_ok o -> up_inv n (os_live o) (os_bad_release o) (mcast_begin rc n o).
Proof.
  intros Hok. assert (Ho : owns (os_live o) (os_bad_release o) [] o)
    by (constructor; try done; [by apply NoDup_nil|intros h ?%elem_of_nil; done|set_solver]).
  unfold mcast_begin. destruct (owns_acquire (cm_ok rc) CreateEventChannel _ _ _ _ Ho) as ([ch|] & o1 & -> & Ho1 & _).
  2: { constructor; cbn; (done || lia). }
  destruct (Z.eqb_spec (rc SetNonBlocking) 0) as [_|?]; [|constructor; cbn; (done || lia)].
  destruct (Z.eqb_spec (rc LocalAddress) 0) as [_|?]; [|constructor; cbn; (done || lia)].
  destruct (Z.eqb_spec (rc MulticastAddress) 0) as [_|?]; [|constructor; cbn; (done || lia)]. cbn.
  assert (Hnone : replicate n McastHandles_ctor ≫= conn_held = []) by (induction n; [done|by rewrite replicate_S]).
  constructor; cbn; try done.
  - unfold group_held. cbn. by rewrite Hnone.
  - by apply Forall_replicate.
  - clear. by induction n.
  - by rewrite length_replicate.
  - rewrite length_replicate. split; [done|]. by intros j c _ [-> _]%lookup_replicate.
Qed.

(** A change of connection [i] that keeps its id. *)
Lemma up_inv_conn n L bad g o o' i c c' active :
  up_inv n L bad (g, o) -> gr_connections g !! i = Some c -> cr_cm_id c' = cr_cm_id c -> conn_ok c' ->
  (forall held, owns L bad (conn_held c ++ held) o -> owns L bad (conn_held c' ++ held) o') ->
  active = gr_num_active_connections g +
    Z.of_nat (length (option_list (cr_ah c'))) - Z.of_nat (length (option_list (cr_ah c))) ->
  (is_Some (cr_ah c) -> is_Some (cr_ah c')) -> gr_running g = true ->
  up_inv n L bad (g <| gr_connections := <[i := c']> (gr_connections g) |>
                    <| gr_num_active_connections := active |>, o').
Proof.
  intros [Ho Hcs Hact Hlen _ Hpc] Hc Hid Hok' Hown -> Hah Hrun. cbn [fst snd] in *.
  destruct (list_focus _ _ _ Hc) as (l1 & l2 & Hl & Hins).
  constructor; cbn; rewrite ?length_insert; try done.
  - unfold group_held in *. cbn. rewrite Hins. rewrite Hl in Ho. rewrite !bind_app, !bind_cons in *.
    eapply owns_proper; [|done|apply (Hown (option_list (gr_event_channel g) ++ (l1 ≫= conn_held) ++ (l2 ≫= conn_held)))].
    + solve_Permutation.
    + eapply owns_proper; [|done|exact Ho]. solve_Permutation.
  - by apply Forall_insert.
  - rewrite Hact, Hins, Hl, !omap_app. cbn. destruct (cr_ah c), (cr_ah c'); cbn; rewrite !length_app; cbn; lia.
  - congruence.
  - destruct (gr_pc g) as [k| |r].
    + destruct Hpc as [? Hno]. split; [done|]. intros j d Hj Hd.
      destruct (decide (i = j)) as [<-|Hne]; [|rewrite list_lookup_insert_ne in Hd by done; by eapply Hno].
      rewrite list_lookup_insert_eq in Hd by (by eapply lookup_lt_Some). injection Hd as <-. rewrite Hid. by eapply Hno.
    + done.
    + intros Hr. destruct (Hpc Hr) as [? Hall]. split; [done|]. apply Forall_insert; [done|].
      apply Hah. rewrite Forall_forall in Hall. apply Hall. by eapply list_elem_of_lookup_2.
Qed.

Lemma connect_inv rc n L bad g o i :
  up_inv n L bad (g, o) -> gr_pc g = Resolving i -> (i < n)%nat -> up_inv n L bad (mcast_connect rc i g o).
Proof.
  intros [Ho Hcs Hact Hlen Hrun Hpc] Hi Hin. cbn [fst snd] in *. rewrite Hi in Hpc. destruct Hpc as [Hn Hno].
  destruct (lookup_lt_is_Some_2 (gr_connections g) i) as [c Hc]; [lia|].
  pose proof (Hno i c ltac:(lia) Hc) as Hid. destruct (list_focus _ _ _ Hc) as (l1 & l2 & Hl & Hins).
  unfold mcast_connect. destruct (owns_acquire (cm_ok rc) (CreateId i) _ _ _ _ Ho) as ([id|] & o1 & -> & Ho1 & _).
  2: { by constructor. }
  set (c' := c <| cr_cm_id := Some id |>).
  assert (Halter : alter (fun c => c <| cr_cm_id := Some id |>) i (gr_connections g) = <[i := c']> (gr_connections g)).
  { unfold c'. clear -Hc. revert i Hc. induction (gr_connections g) as [|d l IH]; intros [|i] Hc; [done|done| |].
    - by injection Hc as ->.
    - cbn. f_equal. by apply IH. }
  rewrite Halter.
  assert (Hpart : forall pc, (match pc with
      | Resolving k => k = S i | Waiting => False | Returned r => r <> 0 end) ->
    up_inv n L bad (g <| gr_connections := <[i := c']> (gr_connections g) |> <| gr_pc := pc |>, o1)).
  { intros pc Hp. constructor; cbn; rewrite ?length_insert; try done.
    - unfold group_held in *. cbn. rewrite Hins. rewrite Hl in Ho1. rewrite !bind_app, !bind_cons in *.
      eapply owns_proper; [|done|exact Ho1]. unfold conn_held, conn_left. cbn. rewrite Hid. solve_Permutation.
    - apply Forall_insert; [done|]. rewrite Forall_forall in Hcs.
      destruct (Hcs c) as (? & ? & ? & ?); [by eapply list_elem_of_lookup_2|]. by repeat split; cbn.
    - rewrite Hact, Hins, Hl, !omap_app. cbn. by destruct (cr_ah c).
    - intros Hr. rewrite (Hrun Hr) in Hc. done.
    - destruct pc as [k| |r]; [subst k|done|done]. split; [done|]. intros j d Hj Hd.
      rewrite list_lookup_insert_ne in Hd by lia. apply (Hno j); [lia|done]. }
  destruct (Z.eqb_spec (rc (BindAddr i)) 0); cbn [negb]; [|by apply Hpart].
  destruct (Z.eqb_spec (rc (ResolveAddr i)) 0); cbn [negb]; by apply Hpart.
Qed.

(** What the resources of the others are when connection [i] is handled. *)
Lemma up_inv_frame n L bad g o i c :
  up_inv n L bad (g, o) -> gr_connections g !! i = Some c ->
  conn_ok c /\ exists held, owns L bad (conn_held c ++ held) o.
Proof.
  intros [Ho Hcs _ _ _ _] Hc. cbn in *. rewrite Forall_forall in Hcs.
  split; [apply Hcs; by eapply list_elem_of_lookup_2|].
  destruct (list_focus _ _ _ Hc) as (l1 & l2 & Hl & _). unfold group_held in Ho.
  rewrite Hl, bind_app, bind_cons in Ho.
  exists (option_list (gr_event_channel g) ++ (l1 ≫= conn_held) ++ (l2 ≫= conn_held)).
  eapply owns_proper; [|done|exact Ho]. solve_Permutation.
Qed.

Lemma length_omap {A B} (f : A -> option B) l : (length (omap f l) <= length l)%nat.
Proof. induction l as [|a l IH]; [done|]. cbn. destruct (f a); cbn; lia. Qed.
Lemma omap_all {A B} (f : A -> option B) l :
  (length l <= length (omap f l))%nat -> Forall (fun a => is_Some (f a)) l.
Proof.
  induction l as [|a l IH]; [done|]. cbn. pose proof (length_omap f l) as Hle.
  destruct (f a) eqn:Ha; cbn; intros H; [|lia]. constructor; [by rewrite Ha|apply IH; lia].
Qed.

Lemma up_step_inv n L bad x y :
  Z.of_nat n < 0x80000000 -> up_inv n L bad x -> mcast_up_step n x y -> up_inv n L bad y.
Proof.
  intros Hn Hinv Hstep. destruct Hstep as [rc g o i Hi Hin|g o Hi|g o Hi Hw
    |rc g o i c ret c' o' Hrun Hc Hid Hpd H|rc g o i c ret c' active o' Hrun Hc Hqp Hah H].
  - by eapply connect_inv.
  - destruct Hinv as [Ho Hcs Hact Hlen Hr Hpc]. cbn in *. rewrite Hi in Hpc. constructor; cbn; try done. by destruct Hpc.
  - destruct Hinv as [Ho Hcs Hact Hlen Hr Hpc]. cbn in *. rewrite Hi in Hpc. constructor; cbn; try done.
    intros _. split; [done|]. apply omap_all. apply Z.ltb_ge in Hw. lia.
  - destruct (up_inv_frame _ _ _ _ _ _ _ Hinv Hc) as (Hok & held & Hown).
    destruct (resolved_owns rc i c o ret c' o' L bad held Hown Hok Hid Hpd H) as (_ & Hok' & Hid' & Hah' & Hah).
    replace (g <| gr_connections := <[i := c']> (gr_connections g) |>) with
      (g <| gr_connections := <[i := c']> (gr_connections g) |>
         <| gr_num_active_connections := gr_num_active_connections g |>) by (by destruct g).
    eapply up_inv_conn; try done; [|rewrite Hah', Hah; lia|rewrite Hah; by intros []].
    intros h Hh. by eapply resolved_owns.
  - destruct (up_inv_frame _ _ _ _ _ _ _ Hinv Hc) as (Hok & held & Hown).
    destruct (joined_owns rc i c _ o ret c' active o' L bad held Hown Hok Hqp Hah H) as (_ & Hok' & Hid' & Hact).
    eapply up_inv_conn; try done; [|rewrite Hact, Hah|rewrite Hah; by intros []].
    { intros h Hh. by eapply joined_owns. }
    pose proof (ui_active _ _ _ _ Hinv) as Ha. pose proof (ui_length _ _ _ _ Hinv) as Hl. cbn in Ha, Hl.
    pose proof (length_omap cr_ah (gr_connections g)). destruct (cr_ah c'); cbn; [|lia].
    assert (length (omap cr_ah (gr_connections g)) < length (gr_connections g))%nat.
    { destruct (list_focus _ _ _ Hc) as (l1 & l2 & -> & _). rewrite omap_app. cbn. rewrite Hah, !length_app. cbn.
      pose proof (length_omap cr_ah l1). pose proof (length_omap cr_ah l2). lia. }
    word_lia.
Qed.

Lemma up_run_inv n L bad x y :
  Z.of_nat n < 0x80000000 -> up_inv n L bad x -> rtc (mcast_up_step n) x y -> up_inv n L bad y.
Proof. intros Hn Hx. induction 1 as [|x y z Hs _ IH]; [done|]. apply IH. by eapply up_step_inv. Qed.

(** ** Theorem *)

(** [C38] What a multicast context leaves behind.  Whatever calls fail while
    [construct] and the event thread bring the context up, and however they
    interleave: a confirmed join is always handled without a null access;
    [deconstruct] then stops the event thread, releases the event channel and the
    ids of the connections, each once, and running it again in the destructor does
    nothing more.  Protection domains, completion queues, queue pairs and address
    handles of the connections stay open: after a [construct] that succeeded, four
    for each connection. *)
Theorem mcast_teardown_leaks rc n o g o' :
  os_ok o -> Z.of_nat n < 0x80000000 -> rtc (mcast_up_step n) (mcast_begin rc n o) (g, o') ->
  (forall rc i c, gr_connections g !! i = Some c -> is_Some (cr_qp c) ->
     exists r, mcast_onMulticastJoin rc i c (gr_num_active_connections g) o' = Ok r) /\
  let left := gr_connections g ≫= conn_left in
  exists g1 next, mcast_deconstruct g o' =
      (0, g1, mkOs (list_to_set left ∪ os_live o) next (os_bad_release o)) /\
    gr_running g1 = false /\ NoDup left /\ list_to_set left ## os_live o /\
    (forall o, mcast_deconstruct g1 o = (0, g1, o)) /\
    (gr_pc g = Returned 0 -> length left = (4 * n)%nat).
Proof.
  intros Hok Hn Hrun. pose proof (up_run_inv _ _ _ _ _ Hn (begin_inv rc n o Hok) Hrun) as [Ho Hcs _ _ _ Hpc].
  cbn [fst snd] in *. split.
  { intros rc' i c Hc Hqp. rewrite Forall_forall in Hcs.
    destruct (Hcs c) as (_ & Hq & Hcq & _); [by eapply list_elem_of_lookup_2|].
    unfold mcast_onMulticastJoin. destruct (Hcq (Hq Hqp)) as [pd ->].
    destruct (os_acquire _ _ _) as [[ah|] o1]; by eexists. }
  cbn zeta. set (left := gr_connections g ≫= conn_left).
  assert (Hfin : owns (os_live o) (os_bad_release o) left
                   (release_opt (gr_event_channel g) (destroy_ids (gr_connections g) o'))).
  { apply owns_release. eapply owns_proper; [|done|apply owns_destroy_ids].
    - apply Permutation_app_comm.
    - eapply owns_proper; [|done|exact Ho]. apply Permutation_app_comm. }
  unfold mcast_deconstruct. destruct (release_opt _ (destroy_ids _ _)) as [live next bad] eqn:Heq.
  destruct Hfin as [Hnd Hap Hlive _ Hbad]. cbn in Hlive, Hbad. subst live bad.
  eexists _, next. split; [reflexivity|]. split_and!; try done; [set_solver|].
  intros Hr. rewrite Hr in Hpc. destruct (Hpc eq_refl) as [Hlen Hall]. unfold left. rewrite <- Hlen. clear -Hall Hcs.
  induction (gr_connections g) as [|c l IH]; [done|]. rewrite bind_cons, length_app.
  apply Forall_cons in Hall as [[ah Hah] Hall]. apply Forall_cons in Hcs as [(Ha & Hq & Hc & _) Hcs].
  rewrite IH by done. unfold conn_left. rewrite Hah in *. destruct Ha as [qp Hqp]; [done|]. rewrite Hqp in *.
  destruct Hq as [cq Hcq]; [done|]. rewrite Hcq in *. destruct Hc as [pd Hpd]; [done|]. rewrite Hpd. cbn. lia.
Qed.

(** One connection, everything succeeds: four resources stay open. *)
Definition demo_rc (_ : cm_verb) : Z := 0.
Lemma demo_mcast_up : rtc (mcast_up_step 1) (mcast_begin demo_rc 1 (mkOs ∅ 1 0))
  (mkMcastGroup (Some 1) true [mkMcastHandles (Some 2) (Some 5) (Some 3) (Some 4) (Some 6)] 1 (Returned 0),
   mkOs ({[6]} ∪ ({[5]} ∪ ({[4]} ∪ ({[3]} ∪ ({[2]} ∪ ({[1]} ∪ ∅)))))) 7 0).
Proof.
  eapply rtc_l; [by eapply (up_connect 1 demo_rc _ _ 0); [|lia]|].
  eapply rtc_l; [by apply up_wait|].
  eapply rtc_l; [by eapply (up_resolved 1 demo_rc _ _ 0)|].
  eapply rtc_l; [by eapply (up_joined 1 demo_rc _ _ 0)|].
  eapply rtc_step_eq; [by apply up_return|]. reflexivity.
Qed.

Lemma mcast_teardown_leaks_witness : exists g1 next,
  mcast_deconstruct
    (mkMcastGroup (Some 1) true [mkMcastHandles (Some 2) (Some 5) (Some 3) (Some 4) (Some 6)] 1 (Returned 0))
    (mkOs ({[6]} ∪ ({[5]} ∪ ({[4]} ∪ ({[3]} ∪ ({[2]} ∪ ({[1]} ∪ ∅)))))) 7 0) =
  (0, g1, mkOs ({[3]} ∪ ({[4]} ∪ ({[5]} ∪ ({[6]} ∪ ∅))) ∪ ∅) next 0).
Proof.
  destruct (mcast_teardown_leaks demo_rc 1 (mkOs ∅ 1 0) _ _ ltac:(intros h Hh; cbn in Hh; by apply elem_of_empty in Hh)
    ltac:(lia) demo_mcast_up) as (_ & g1 & next & H & _).
  exists g1, next. exact H.
Defined.
