(* ===== verification/Controller.v ===== *)
(** * Sessions and connections

    Models [Controller] of src/protocols/rdma_unreliable/controller.{h,cpp}: the
    numbering of peers, the maps from peer names and from (GID, queue pair)
    addresses to node ids, the session ids [node * 256 + session] built from
    them, multicast groups, and the exchange of connection attributes.

    The endpoint store is [UdEndpoint]'s and a group is [Multicast]'s; the context
    that [RdmaMulticastContext::construct] brings up is an argument of
    [Controller_joinMulticast]. *)

From S2P Require Import Prelude Text Packet UdEndpoint PacketManager Multicast.

(** [NodeAddress]: GID bytes and queue pair number. *)
Notation node_address := (list Z * Z)%type.

(** [multicast_context_map_] is a std::map, traversed in key order: a list sorted
    by address. *)
Record Controller := mkController {
  ct_device_name : string;
  ct_lid : Z;
  ct_gid : list Z;
  ct_endpoint_store : RdmaUDEndPointStore;
  ct_multicast_context_map : list (string * RdmaMulticastContext);
  ct_node_id_map : gmap node_address Z;
  ct_peer_name_map : gmap string Z;
  ct_peer_name_rev_map : gmap Z string;
  ct_next_node_id : Z
}.
#[export] Instance Controller_fields : Fields Controller := mkFields (fun c =>
  mkController (ct_device_name c) (ct_lid c) (ct_gid c) (ct_endpoint_store c)
    (ct_multicast_context_map c) (ct_node_id_map c) (ct_peer_name_map c)
    (ct_peer_name_rev_map c) (ct_next_node_id c)).

(** Connection attributes: a map from names to text. *)
Notation Attributes := (gmap string text).

(** ** Multicast groups *)
Fixpoint group_find (addr : string) (l : list (string * RdmaMulticastContext)) : option RdmaMulticastContext :=
  match l with
  | [] => None
  | (a, g) :: l => if String.eqb a addr then Some g else group_find addr l
  end.

Fixpoint group_insert (addr : string) (g : RdmaMulticastContext) (l : list (string * RdmaMulticastContext))
  : list (string * RdmaMulticastContext) :=
  match l with
  | [] => [(addr, g)]
  | (a, x) :: rest =>
      match String.compare addr a with
      | Lt => (addr, g) :: l
      | Eq => (addr, g) :: rest
      | Gt => (a, x) :: group_insert addr g rest
      end
  end.

Definition group_erase (addr : string) (l : list (string * RdmaMulticastContext))
  : list (string * RdmaMulticastContext) :=
  filter (fun e => e.1 <> addr) l.

(** [joinMulticast]; [fabric] is the outcome of [RdmaMulticastContext::construct]:
    the new context, or [None] on failure.  The node id is consumed either way. *)
Definition Controller_joinMulticast (c : Controller) (multicast_addr : string)
    (fabric : option RdmaMulticastContext) : Z * Controller :=
  match group_find multicast_addr (ct_multicast_context_map c) with
  | Some _ => (ERR, c)
  | None =>
      let node_id := ct_next_node_id c in
      let c1 := c <| ct_next_node_id := i32 (node_id + 1) |> in
      match fabric with
      | None => (ERR, c1)
      | Some context =>
          (0, c1 <| ct_multicast_context_map :=
                    group_insert multicast_addr (context <| mc_group_id := node_id |>)
                      (ct_multicast_context_map c1) |>
                 <| ct_peer_name_map := <[multicast_addr := node_id]> (ct_peer_name_map c1) |>
                 <| ct_peer_name_rev_map :=
                      <[node_id := multicast_addr]> (ct_peer_name_rev_map c1) |>)
      end
  end.

Definition Controller_leaveMulticast (c : Controller) (multicast_addr : string) : Z * Controller :=
  match group_find multicast_addr (ct_multicast_context_map c) with
  | None => (ERR, c)
  | Some g => (fst (RdmaMulticastContext_deconstruct g), c <| ct_multicast_context_map :=
                        group_erase multicast_addr (ct_multicast_context_map c) |>)
  end.

(** [getMulticastContext(const std::string &)] *)
Definition Controller_getMulticastContext_addr (c : Controller) (multicast_addr : string)
  : option RdmaMulticastContext :=
  group_find multicast_addr (ct_multicast_context_map c).

(** The object the map points to is changed in place, by [setReplicas] among
    others. *)
Definition group_alter (f : RdmaMulticastContext -> RdmaMulticastContext) (addr : string)
    (l : list (string * RdmaMulticastContext)) : list (string * RdmaMulticastContext) :=
  (fun '(a, g) => (a, if String.eqb a addr then f g else g)) <$> l.
Definition Controller_setReplicas (c : Controller) (multicast_addr : string)
    (replicas : list string) : Controller :=
  c <| ct_multicast_context_map :=
       group_alter (fun g => g <| mc_replicas := replicas |>) multicast_addr
         (ct_multicast_context_map c) |>.

(** ** Sessions *)
Definition Controller_registerNode (c : Controller) (peer_addr : string) (gid : list Z)
    (qp_num_list : list Z) : Controller :=
  let node_id := ct_next_node_id c in
  c <| ct_next_node_id := i32 (node_id + 1) |>
    <| ct_node_id_map :=
         foldl (fun m qp_num => <[(gid, qp_num) := node_id]> m) (ct_node_id_map c) qp_num_list |>
    <| ct_peer_name_map := <[peer_addr := node_id]> (ct_peer_name_map c) |>
    <| ct_peer_name_rev_map := <[node_id := peer_addr]> (ct_peer_name_rev_map c) |>.

Definition session_id (node_id session : Z) : Z := i32 (node_id * 256 + session).

(** Bonded devices deliver packets whose GID need not be the registered one. *)
Definition is_bond (c : Controller) : bool :=
  match String.index 0 "mlx5_bond" (ct_device_name c) with Some _ => true | None => false end.

(** [findSession(ibv_gid &, uint32_t, uint8_t)] *)
Definition Controller_findSession_addr (c : Controller) (gid : list Z) (qp_num session : Z)
  : outcome Z :=
  if is_bond c
  then
    match filter (fun e => e.1.2 = qp_num) (map_to_list (ct_node_id_map c)) with
    | [] => Ok ERR
    | [(_, node_id)] => Ok (session_id node_id session)
    | _ => Trap TrapAssert
    end
  else
    match ct_node_id_map c !! (gid, qp_num) with
    | Some node_id => Ok (session_id node_id session)
    | None => Ok ERR
    end.

(** [findSession(const std::string &, uint8_t)] *)
Definition Controller_findSession_name (c : Controller) (peer_addr : string) (session : Z) : Z :=
  match ct_peer_name_map c !! peer_addr with
  | Some node_id => session_id node_id session
  | None => ERR
  end.

(** [getOrCreateEndpoint]: the path of the endpoint, or [None] for null. *)
Definition Controller_getOrCreateEndpoint (c : Controller) (session : Z)
  : option string * Controller :=
  match ct_peer_name_rev_map c !! sid_node session with
  | None => (None, c)
  | Some path =>
      let '(ok, s) := RdmaUDEndPointStore_getOrCreateEndpoint (ct_endpoint_store c) path in
      ((if ok then Some path else None), c <| ct_endpoint_store := s |>)
  end.

(** [getMulticastContext(int)] *)
Definition Controller_getMulticastContext (c : Controller) (session : Z) : option RdmaMulticastContext :=
  match ct_peer_name_rev_map c !! sid_node session with
  | None => None
  | Some name => group_find name (ct_multicast_context_map c)
  end.

(** Position of [name] in a replica list. *)
Fixpoint replica_index (name : string) (l : list string) (i : Z) : option Z :=
  match l with
  | [] => None
  | r :: l => if String.eqb r name then Some i else replica_index name l (i + 1)
  end.

(** [redirectMulticast]: the session of the group a replica belongs to and the
    replica's index; without a group the session itself, with the number of
    replicas of the last group left in [index].  [peer_name_rev_map_[node_id]]
    inserts an empty name for an unknown node. *)
Fixpoint redirect_loop (name : string) (sid index : Z) (l : list (string * RdmaMulticastContext)) : Z * Z :=
  match l with
  | [] => (sid, index)
  | (_, g) :: l =>
      match replica_index name (mc_replicas g) 0 with
      | Some i => (session_id (mc_group_id g) (Z.rem sid 256), i)
      | None => redirect_loop name sid (Z.of_nat (length (mc_replicas g))) l
      end
  end.
Definition Controller_redirectMulticast (c : Controller) (sid index : Z) : Z * Z * Controller :=
  let name := default EmptyString (ct_peer_name_rev_map c !! sid_node sid) in
  let touched := existsb (fun e => negb (Nat.eqb (length (mc_replicas e.2)) 0))
                   (ct_multicast_context_map c) in
  let c1 := if touched
            then c <| ct_peer_name_rev_map := <[sid_node sid := name]> (ct_peer_name_rev_map c) |>
            else c in
  (redirect_loop name sid index (ct_multicast_context_map c), c1).

(** ** Connection setup *)

(** [std::stoi]: throws when there is no number or it is out of range. *)
Definition stoi (l : text) : outcome Z :=
  let '(neg, l1) := skip_sign (skip_spaces l) in
  let '(v, seen, _) := scan_digits 10 l1 0 false in
  if negb seen then Trap TrapThrow
  else if (if neg then 0x80000000 else 0x7fffffff) <? v then Trap TrapThrow
  else Ok (if neg then - v else v).

Definition Controller_prepareConnection (c : Controller) (peer_addr : string) (local : Attributes)
  : Z * Controller * Attributes :=
  let '(ok, s) := RdmaUDEndPointStore_getOrCreateEndpoint (ct_endpoint_store c) peer_addr in
  let c1 := c <| ct_endpoint_store := s |> in
  if negb ok then (ERR, c1, local)
  else
    let qps := RdmaUDEndPointStore_qpNum s in
    let ext_qp_num_list := qps ++ concat ((fun e => RdmaMulticastContext_qpNum e.2) <$> ct_multicast_context_map c) in
    (0, c1, <["ext_qp" := ToString ext_qp_num_list]>
            (<["qp" := ToString qps]>
            (<["gid" := RdmaContext_gid (ct_gid c)]>
            (<["lid" := print_dec (ct_lid c)]> local)))).

(** [setupConnection]; [junk_gid] is the indeterminate GID of a string that does
    not parse. *)
Definition Controller_setupConnection (ibv_create_ah : list Z -> Z -> Z) (junk_gid : list Z)
    (c : Controller) (peer_addr : string) (peer : Attributes) : outcome (Z * Controller) :=
  let '(ok, s) := RdmaUDEndPointStore_getOrCreateEndpoint (ct_endpoint_store c) peer_addr in
  let c1 := c <| ct_endpoint_store := s |> in
  if negb ok then Ok (ERR, c1)
  else match us_endpoint_map s !! peer_addr with
  | None => Ok (ERR, c1)
  | Some endpoint =>
  match peer !! "lid", peer !! "gid", peer !! "qp", peer !! "ext_qp" with
  | Some lid_text, Some gid, Some qp, Some ext_qp =>
      lid ← stoi lid_text;
      qp_num_list ← FromString qp;
      ext_qp_num_list ← FromString ext_qp;
      let '(ret, endpoint') := RdmaUDEndPoint_setupConnection ibv_create_ah junk_gid endpoint
                                 gid (u16 lid) qp_num_list in
      let c2 := c1 <| ct_endpoint_store :=
                     s <| us_endpoint_map := <[peer_addr := endpoint']> (us_endpoint_map s) |> |> in
      if negb (ret =? 0) then Ok (ret, c2)
      else Ok (0, Controller_registerNode c2 peer_addr (default junk_gid (parse_gid gid))
                    ext_qp_num_list)
  | _, _, _, _ => Ok (ERR, c1)
  end
  end.

(** ** Reading back the LID *)
Lemma stoi_print n : is_u16 n -> stoi (print_dec n) = Ok n.
Proof.
  intros Hn. pose proof (proj1 Hn) as Hn0. unfold stoi, print_dec.
  set (fuel := S (Z.to_nat (Z.log2 n))).
  destruct (print_digits_head fuel 10 ltac:(lia) n [] Hn0 ltac:(lia)) as (d & l & Hd & Hd10).
  pose proof (scan_print fuel 10 ltac:(lia) n [] false Hn0 (log2_digits n Hn0) ltac:(lia)) as Hsc.
  rewrite Hd in Hsc |- *. rewrite skip_to_digit by lia. rewrite Hsc, scan_stop by done.
  cbn [negb]. by rewrite (proj2 (Z.ltb_ge _ _)) by (word_unfold; lia).
Qed.

(** ** The state a controller can reach *)
Section reachable.
Variable ibv_create_ah : list Z -> Z -> Z.
Variable junk_gid : list Z.

Inductive controller_step : Controller -> Controller -> Prop :=
| step_join c addr fabric :
    controller_step c (Controller_joinMulticast c addr fabric).2
| step_leave c addr :
    controller_step c (Controller_leaveMulticast c addr).2
| step_set_replicas c addr replicas :
    controller_step c (Controller_setReplicas c addr replicas)
| step_prepare c addr local ret c' local' :
    Controller_prepareConnection c addr local = (ret, c', local') ->
    controller_step c c'
| step_setup c addr peer ret c' :
    Controller_setupConnection ibv_create_ah junk_gid c addr peer = Ok (ret, c') ->
    controller_step c c'
| step_endpoint c sid :
    controller_step c (Controller_getOrCreateEndpoint c sid).2
| step_redirect c sid index :
    controller_step c (Controller_redirectMulticast c sid index).2.

(** Names, addresses and groups point at node ids below the next one, and the
    reverse map leads back from the id of a name (or of a group) to that name. *)
Record ctrl_inv (c : Controller) : Prop := mkCtrlInv {
  ci_next : 0 <= ct_next_node_id c;
  ci_name n i : ct_peer_name_map c !! n = Some i ->
    0 <= i < ct_next_node_id c /\ ct_peer_name_rev_map c !! i = Some n;
  ci_addr a i : ct_node_id_map c !! a = Some i ->
    0 <= i < ct_next_node_id c /\ is_Some (ct_peer_name_rev_map c !! i);
  ci_group a g : group_find a (ct_multicast_context_map c) = Some g ->
    0 <= mc_group_id g < ct_next_node_id c /\
    ct_peer_name_rev_map c !! mc_group_id g = Some a;
  ci_nodup : NoDup (fst <$> ct_multicast_context_map c)
}.

(** A controller after its constructor: no peer and no group yet. *)
Definition ctrl_initial (c : Controller) : Prop :=
  ct_next_node_id c = 0 /\ ct_multicast_context_map c = [] /\ ct_node_id_map c = ∅ /\
  ct_peer_name_map c = ∅ /\ ct_peer_name_rev_map c = ∅.

Lemma ctrl_inv_initial c : ctrl_initial c -> ctrl_inv c.
Proof.
  intros (Hn & Hg & Ha & Hp & Hr). split; rewrite ?Hn, ?Hg, ?Ha, ?Hp, ?Hr; [done| | | |constructor];
    intros *; by rewrite ?lookup_empty.
Qed.

(** ** Association lists *)
Lemma group_find_insert a g l b :
  group_find b (group_insert a g l) = if String.eqb a b then Some g else group_find b l.
Proof.
  induction l as [|[x h] l IH]; cbn [group_insert group_find]; [done|].
  destruct (String.compare a x) eqn:Hc; cbn [group_find].
  - apply String.compare_eq_iff in Hc as ->. by destruct (String.eqb x b).
  - done.
  - rewrite IH. destruct (String.eqb_spec a b) as [->|Hab]; [|done].
    destruct (String.eqb_spec x b) as [->|]; [|done].
    exfalso. revert Hc. clear. induction b as [|c b IH]; [done|]. cbn.
    unfold Ascii.compare. by rewrite N.compare_refl.
Qed.

Lemma group_find_None a l : group_find a l = None <-> a ∉ l.*1.
Proof.
  induction l as [|[x h] l IH]; cbn [group_find].
  - split; [intros _; apply not_elem_of_nil|done].
  - rewrite fmap_cons, not_elem_of_cons, <- IH. cbn [fst].
    destruct (String.eqb_spec x a) as [->|Hne]; [by split; [|intros [[] _]]|].
    split; [by intros ->; split; [congruence|]|by intros []].
Qed.

Lemma group_insert_keys a g l :
  NoDup l.*1 -> group_find a l = None -> NoDup (group_insert a g l).*1.
Proof.
  intros Hnd Hf%group_find_None.
  assert (Hp : (group_insert a g l).*1 ≡ₚ a :: l.*1).
  { assert (Hne : Forall (fun x => String.compare a x <> Eq) l.*1).
    { apply Forall_forall. intros x Hx He%String.compare_eq_iff. congruence. }
    clear Hnd Hf. induction l as [|[x h] l IH]; [done|]. cbn [fmap list_fmap fst] in Hne.
    apply Forall_cons in Hne as [Hx Hne]. cbn [group_insert].
    destruct (String.compare a x); [done|done|]. rewrite fmap_cons, IH by done. cbn. constructor. }
  rewrite Hp. by apply NoDup_cons.
Qed.

Lemma group_erase_keys a l : NoDup l.*1 -> NoDup (group_erase a l).*1.
Proof. intros Hnd. apply (sublist_NoDup _ _ Hnd), fmap_sublist, sublist_filter. Qed.

Lemma group_alter_find f a l b g :
  (forall x, mc_group_id (f x) = mc_group_id x) ->
  group_find b (group_alter f a l) = Some g ->
  exists g', group_find b l = Some g' /\ mc_group_id g' = mc_group_id g.
Proof.
  intros Hf. induction l as [|[x h] l IH]; cbn; [done|]. destruct (String.eqb x b); [|done].
  intros [= <-]. exists h. split; [done|]. destruct (String.eqb x a); [by rewrite Hf|done].
Qed.

Lemma group_alter_keys f a l : (group_alter f a l).*1 = l.*1.
Proof. induction l as [|[x h] l IH]; [done|]. cbn. by f_equal. Qed.

Lemma group_find_erase a l b g :
  group_find b (group_erase a l) = Some g -> group_find b l = Some g.
Proof.
  unfold group_erase. induction l as [|[x h] l IH]; [done|]. rewrite filter_cons.
  destruct (decide _) as [Hx|Hx]; cbn [group_find fst] in *.
  - destruct (String.eqb x b); [done|]. by apply IH.
  - destruct (String.eqb_spec x b) as [->|]; [|by apply IH].
    intros Hf. exfalso. destruct (decide (b = a)) as [->|Hne]; [|by apply Hx].
    clear IH Hx. induction l as [|[y k] l IH]; [done|]. rewrite filter_cons in Hf.
    destruct (decide _) as [Hy|]; [|by apply IH]. cbn in Hf, Hy.
    destruct (String.eqb_spec y a) as [->|]; [done|by apply IH].
Qed.

Lemma register_addrs_lookup (gid qps : list Z) (id : Z) (m : gmap node_address Z) a :
  foldl (fun m qp => <[(gid, qp) := id]> m) m qps !! a
    = if decide (a.1 = gid /\ a.2 ∈ qps) then Some id else m !! a.
Proof.
  revert m. induction qps as [|qp qps IH]; intros m; cbn [foldl].
  - rewrite decide_False; [done|]. intros [_ H]. by apply elem_of_nil in H.
  - rewrite IH. destruct a as [g q]; cbn.
    destruct (decide (g = gid /\ q ∈ qps)) as [[-> Hq]|Hn].
    + rewrite decide_True; [done|]. split; [done|by right].
    + destruct (decide (g = gid /\ q ∈ qp :: qps)) as [[-> [->|Hq]%elem_of_cons]|Hn2].
      * by rewrite lookup_insert_eq.
      * by destruct Hn.
      * rewrite lookup_insert_ne; [done|]. intros [= -> ->]. apply Hn2. split; [done|by left].
Qed.

(** ** Preservation *)

(** Operations that only touch the endpoint store keep the invariant. *)
Lemma ctrl_inv_store c s : ctrl_inv c -> ctrl_inv (c <| ct_endpoint_store := s |>).
Proof. by intros []. Qed.

(** Giving the next id to a name, with some addresses and possibly a group. *)
Lemma ctrl_inv_fresh c name addrs groups :
  ctrl_inv c -> ct_next_node_id c < 0x7fffffff ->
  (forall a i, addrs !! a = Some i -> i = ct_next_node_id c \/ ct_node_id_map c !! a = Some i) ->
  (forall a g, group_find a groups = Some g ->
     (a = name /\ mc_group_id g = ct_next_node_id c) \/
     group_find a (ct_multicast_context_map c) = Some g) ->
  NoDup groups.*1 ->
  ctrl_inv (mkController (ct_device_name c) (ct_lid c) (ct_gid c) (ct_endpoint_store c) groups
    addrs (<[name := ct_next_node_id c]> (ct_peer_name_map c))
    (<[ct_next_node_id c := name]> (ct_peer_name_rev_map c)) (i32 (ct_next_node_id c + 1))).
Proof.
  intros [Hn Hname Haddr Hgroup _] Hlt Ha Hg Hnd.
  assert (Hi : i32 (ct_next_node_id c + 1) = ct_next_node_id c + 1) by word_lia.
  split; cbn; rewrite ?Hi; [lia| | | |done].
  - intros n i. rewrite lookup_insert_Some. intros [[-> <-]|[Hne Hl]].
    + rewrite lookup_insert_eq. split; [lia|done].
    + destruct (Hname n i Hl). rewrite lookup_insert_ne by lia. split; [lia|done].
  - intros a i [->|Hl]%Ha; [rewrite lookup_insert_eq; split; [lia|done]|].
    destruct (Haddr a i Hl). rewrite lookup_insert_ne by lia. split; [lia|done].
  - intros a g [[-> ->]|Hl]%Hg; [rewrite lookup_insert_eq; split; [lia|done]|].
    destruct (Hgroup a g Hl). rewrite lookup_insert_ne by lia. split; [lia|done].
Qed.

Lemma ctrl_inv_register c name gid qps :
  ctrl_inv c -> ct_next_node_id c < 0x7fffffff -> ctrl_inv (Controller_registerNode c name gid qps).
Proof.
  intros Hc Hlt.
  refine (ctrl_inv_fresh c name
    (foldl (fun m qp => <[(gid, qp) := ct_next_node_id c]> m) (ct_node_id_map c) qps) _
    Hc Hlt _ _ (ci_nodup c Hc)); [|by right].
  intros a i. rewrite register_addrs_lookup. destruct (decide _); [|by right].
  intros [= <-]. by left.
Qed.

(** The groups may be replaced by ones found under the same name and id before. *)
Lemma ctrl_inv_groups c groups :
  ctrl_inv c ->
  (forall a g, group_find a groups = Some g ->
     exists g', group_find a (ct_multicast_context_map c) = Some g' /\
                mc_group_id g' = mc_group_id g) ->
  NoDup groups.*1 ->
  ctrl_inv (c <| ct_multicast_context_map := groups |>).
Proof.
  intros [Hn Hname Haddr Hgroup _] Hg Hnd. split; [done|done|done| |done]. cbn.
  intros a g (g' & Hf & <-)%Hg. by apply Hgroup.
Qed.

Lemma ctrl_inv_join c addr fabric :
  ctrl_inv c -> ct_next_node_id c < 0x7fffffff ->
  ctrl_inv (Controller_joinMulticast c addr fabric).2.
Proof.
  intros Hc Hlt. unfold Controller_joinMulticast.
  destruct (group_find addr _) eqn:Hf; [done|]. destruct fabric as [context|].
  - refine (ctrl_inv_fresh c addr _ _ Hc Hlt _ _ _);
      [by right| |apply group_insert_keys; [apply Hc|done]]. intros a g. cbn. rewrite group_find_insert.
    destruct (String.eqb_spec addr a) as [->|]; [intros [= <-]; by left|by right].
  - assert (Hi : i32 (ct_next_node_id c + 1) = ct_next_node_id c + 1)
      by (destruct Hc; word_lia).
    destruct Hc as [Hn Hname Haddr Hgroup Hnd]. split; cbn; rewrite ?Hi; [lia| | | |done].
    + intros n i Hl. destruct (Hname n i Hl). split; [lia|done].
    + intros a i Hl. destruct (Haddr a i Hl). split; [lia|done].
    + intros a g Hl. destruct (Hgroup a g Hl). split; [lia|done].
Qed.

Lemma ctrl_inv_step c c' :
  controller_step c c' -> ctrl_inv c -> ct_next_node_id c < 0x7fffffff -> ctrl_inv c'.
Proof.
  intros [c0 addr fabric|c0 addr|c0 addr replicas|c0 addr local ret c1 local' Hp
         |c0 addr peer ret c1 Hs|c0 sid|c0 sid index] Hc Hlt.
  - by apply ctrl_inv_join.
  - unfold Controller_leaveMulticast. destruct (group_find addr _); [|done].
    apply ctrl_inv_groups; [done|intros a g Hg%group_find_erase; eauto|].
    by apply group_erase_keys, Hc.
  - apply ctrl_inv_groups; [done|intros a g; by apply group_alter_find|].
    rewrite group_alter_keys. apply Hc.
  - revert Hp. unfold Controller_prepareConnection.
    destruct (RdmaUDEndPointStore_getOrCreateEndpoint _ _) as [[] s]; cbn;
      intros [= _ <- _]; by apply ctrl_inv_store.
  - revert Hs. unfold Controller_setupConnection.
    destruct (RdmaUDEndPointStore_getOrCreateEndpoint _ _) as [ok s] eqn:Hget.
    destruct ok; cbn [negb]; [|intros [= _ <-]; by apply ctrl_inv_store].
    destruct (us_endpoint_map s !! addr); [|intros [= _ <-]; by apply ctrl_inv_store].
    repeat match goal with
    | |- match ?x with Some _ => _ | None => _ end = _ -> _ =>
        destruct x; [|intros [= _ <-]; by apply ctrl_inv_store]
    end.
    intros Hs. outcome_inv. destruct (RdmaUDEndPoint_setupConnection _ _ _ _ _ _) as [rc e].
    destruct (negb (rc =? 0)); injection Hs as _ <-;
      [by repeat apply ctrl_inv_store|].
    apply ctrl_inv_register; [by repeat apply ctrl_inv_store|done].
  - unfold Controller_getOrCreateEndpoint. destruct (ct_peer_name_rev_map c0 !! _); [|done].
    destruct (RdmaUDEndPointStore_getOrCreateEndpoint _ _). by apply ctrl_inv_store.
  - unfold Controller_redirectMulticast. destruct (existsb _ _); cbn [snd]; [|done].
    destruct Hc as [Hn Hname Haddr Hgroup Hnd]. split; cbn; [done| | | |done].
    + intros n i Hl. destruct (Hname n i Hl) as [Hb Hr]. split; [done|].
      destruct (decide (sid_node sid = i)) as [<-|]; [|by rewrite lookup_insert_ne].
      by rewrite Hr, lookup_insert_eq.
    + intros a i Hl. destruct (Haddr a i Hl) as [Hb [n Hr]]. split; [done|].
      destruct (decide (sid_node sid = i)) as [<-|]; [|by rewrite lookup_insert_ne].
      by rewrite Hr, lookup_insert_eq.
    + intros a g Hl. destruct (Hgroup a g Hl) as [Hb Hr]. split; [done|].
      destruct (decide (sid_node sid = mc_group_id g)) as [->|]; [|by rewrite lookup_insert_ne].
      by rewrite Hr, lookup_insert_eq.
Qed.

(** Steps taken while the node ids in use keep [node * 256 + session] within an
    [int]: fewer than 2^23 registrations. *)
Definition bounded_step (c c' : Controller) : Prop :=
  ct_next_node_id c < 0x800000 /\ controller_step c c'.

Lemma ctrl_inv_run c0 c : rtc bounded_step c0 c -> ctrl_inv c0 -> ctrl_inv c.
Proof.
  induction 1 as [|c0 c1 c [Hlt Hs] _ IH]; [done|]. intros Hc. apply IH.
  apply (ctrl_inv_step c0); [done|done|lia].
Qed.
End reachable.

(** ** Session ids *)
Lemma session_id_fits node session :
  0 <= node < 0x800000 -> 0 <= session < 256 ->
  session_id node session = node * 256 + session /\ 0 <= session_id node session /\
  sid_node (session_id node session) = node /\ sid_session (session_id node session) = session.
Proof.
  intros Hn Hs. assert (Hid : session_id node session = node * 256 + session)
    by (unfold session_id; word_lia).
  rewrite Hid. destruct (sid_split node session ltac:(lia) Hs). split_and!; [done|lia|done|done].
Qed.


Definition demo_group (qps : list Z) : RdmaMulticastContext :=
  mkMcast "" 0 [] ((fun qp => Connection_ctor <| cn_qp_num := qp |>) <$> qps)
    (Z.of_nat (length qps)) 128 64.


(** ** The connection handshake *)
Lemma endpoint_created s path :
  path <> "" -> exists s' e,
    RdmaUDEndPointStore_getOrCreateEndpoint s path = (true, s') /\
    us_endpoint_map s' !! path = Some e /\ us_qp_list s' = us_qp_list s /\
    (ep_connected e = true -> us_endpoint_map s !! path = Some e).
Proof.
  intros Hne. unfold RdmaUDEndPointStore_getOrCreateEndpoint.
  rewrite (proj2 (String.eqb_neq path "")) by done.
  destruct (us_endpoint_map s !! path) as [e|] eqn:He; [by exists s, e|].
  eexists _, RdmaUDEndPoint_ctor. split; [done|]. cbn. by rewrite lookup_insert_eq.
Qed.

(** Queue pairs a host announces: its own, then those of its groups. *)
Definition announced_qps (c : Controller) : list Z :=
  us_qp_list (ct_endpoint_store c) ++
  concat ((fun e => RdmaMulticastContext_qpNum e.2) <$> ct_multicast_context_map c).


Definition demo_host (gid : list Z) (qps : list Z) : Controller :=
  mkController "mlx5_0" 7 gid (mkStore ∅ qps [0] [0] 128 64)
    [("239.0.0.1", demo_group [21])] ∅ ∅ ∅ 1.


(** On a bonded device a packet is attributed by its queue pair number
    alone.  Numbers are only unique per device: once two peers with different
    GIDs have announced the same number, the first packet from either aborts the
    process. *)
Theorem bond_qp_collision_aborts c gid1 gid2 qp i j gid session :
  is_bond c = true -> gid1 <> gid2 ->
  ct_node_id_map c !! (gid1, qp) = Some i -> ct_node_id_map c !! (gid2, qp) = Some j ->
  Controller_findSession_addr c gid qp session = Trap TrapAssert.
Proof.
  intros Hb Hne H1%elem_of_map_to_list H2%elem_of_map_to_list.
  unfold Controller_findSession_addr. rewrite Hb. set (l := filter _ _).
  assert (Hl : forall g k, ((g, qp), k) ∈ map_to_list (ct_node_id_map c) -> ((g, qp), k) ∈ l)
    by (intros g k Hin; by apply list_elem_of_filter).
  apply Hl in H1, H2. destruct l as [|x [|y l]]; [by apply elem_of_nil in H1| |by destruct x].
  apply list_elem_of_singleton in H1, H2. congruence.
Qed.

Lemma bond_qp_collision_aborts_witness : exists c,
  Controller_findSession_addr c (repeat 9 16) 11 0 = Trap TrapAssert.
Proof.
  pose (c0 := (demo_host (repeat 1 16) [31]) <| ct_device_name := "mlx5_bond_0" |>).
  pose (c1 := Controller_registerNode c0 "a:1" (repeat 9 16) [11]).
  exists (Controller_registerNode c1 "b:1" (repeat 8 16) [11; 12]).
  by apply (bond_qp_collision_aborts _ (repeat 9 16) (repeat 8 16) 11 1 2).
Defined.

(** ** Replicas of multicast groups *)
Lemma replica_index_spec name l : forall i r,
  replica_index name l i = Some r ->
  0 <= i -> exists k, r = i + Z.of_nat k /\ l !! k = Some name /\ name ∉ take k l.
Proof.
  induction l as [|x l IH]; intros i r; cbn [replica_index]; [done|].
  destruct (String.eqb_spec x name) as [->|Hne].
  - intros [= <-] _. exists 0%nat. split; [lia|]. split; [done|]. apply not_elem_of_nil.
  - intros Hr Hi. destruct (IH _ _ Hr ltac:(lia)) as (k & -> & Hk & Hn).
    exists (S k). split; [lia|]. split; [done|]. cbn. apply not_elem_of_cons. by split.
Qed.

Lemma replica_index_None name l i : replica_index name l i = None -> name ∉ l.
Proof.
  revert i. induction l as [|x l IH]; intros i; cbn [replica_index].
  - intros _. apply not_elem_of_nil.
  - destruct (String.eqb_spec x name); [done|]. intros Hr%IH. by apply not_elem_of_cons.
Qed.

Lemma redirect_loop_spec name sid index l :
  let '(sid', index') := redirect_loop name sid index l in
  (sid' = sid /\ Forall (fun e => name ∉ mc_replicas e.2) l) \/
  exists l1 a g l2 k,
    l = l1 ++ (a, g) :: l2 /\ Forall (fun e => name ∉ mc_replicas e.2) l1 /\
    sid' = session_id (mc_group_id g) (Z.rem sid 256) /\ index' = Z.of_nat k /\
    mc_replicas g !! k = Some name /\ name ∉ take k (mc_replicas g).
Proof.
  revert index. induction l as [|[a g] l IH]; intros index; cbn [redirect_loop]; [by left|].
  destruct (replica_index name (mc_replicas g) 0) as [i|] eqn:Hi.
  - right. destruct (replica_index_spec _ _ _ _ Hi ltac:(lia)) as (k & -> & Hk & Hn).
    by exists [], a, g, l, k.
  - apply replica_index_None in Hi. specialize (IH (Z.of_nat (length (mc_replicas g)))).
    destruct (redirect_loop _ _ _ l) as [sid' index'].
    destruct IH as [[-> Hf]|(l1 & b & h & l2 & k & -> & Hf & Hrest)].
    + left. split; [done|]. by constructor.
    + right. exists ((a, g) :: l1), b, h, l2, k. split; [done|]. split; [by constructor|done].
Qed.

(** Acknowledgements of replicas are redirected to their group.  For a known
    peer [redirectMulticast] returns the peer's own session when no group lists
    it; otherwise the session of the first group (in address order) that does,
    with the same session number, and the peer's position among that group's
    replicas, a valid index that no other replica of the group shares.  The
    controller is unchanged. *)
Theorem redirect_multicast_exact create junk c0 c sid index name sid' index' c' :
  ctrl_initial c0 -> rtc (bounded_step create junk) c0 c -> ct_next_node_id c <= 0x800000 ->
  0 <= sid -> ct_peer_name_rev_map c !! sid_node sid = Some name ->
  Controller_redirectMulticast c sid index = (sid', index', c') ->
  ct_peer_name_rev_map c' = ct_peer_name_rev_map c /\
  ((sid' = sid /\ Forall (fun e => name ∉ mc_replicas e.2) (ct_multicast_context_map c)) \/
   exists l1 a g l2,
     ct_multicast_context_map c = l1 ++ (a, g) :: l2 /\
     Forall (fun e => name ∉ mc_replicas e.2) l1 /\
     sid_node sid' = mc_group_id g /\ sid_session sid' = sid_session sid /\
     Controller_getMulticastContext c sid' = Some g /\
     0 <= index' < Z.of_nat (length (mc_replicas g)) /\
     mc_replicas g !! Z.to_nat index' = Some name /\
     (forall k, mc_replicas g !! k = Some name -> index' <= Z.of_nat k)).
Proof.
  intros Hc0 Hrun Hbound Hsid Hname. unfold Controller_redirectMulticast. rewrite Hname.
  cbn [from_option id]. intros Hr.
  pose proof (ctrl_inv_run create junk c0 c Hrun (ctrl_inv_initial c0 Hc0)) as [_ _ _ Hgroup Hnd].
  pose proof (redirect_loop_spec name sid index (ct_multicast_context_map c)) as Hspec.
  destruct (redirect_loop name sid index (ct_multicast_context_map c)) as [s i].
  injection Hr as -> -> Hc'. split.
  { destruct (existsb _ _); subst c'; [|done]. by apply insert_id. }
  destruct Hspec as [[-> Hf]|(l1 & a & g & l2 & k & Hl & Hf & -> & -> & Hk & Hn)]; [by left|].
  right. exists l1, a, g, l2. split; [done|]. split; [done|].
  assert (Hfind : group_find a (ct_multicast_context_map c) = Some g).
  { rewrite Hl in Hnd |- *. clear -Hnd. induction l1 as [|[b h] l1 IH]; cbn [app group_find].
    - by rewrite String.eqb_refl.
    - cbn [app fmap list_fmap fst] in Hnd. apply NoDup_cons in Hnd as [Hb Hnd].
      destruct (String.eqb_spec b a) as [->|]; [|by apply IH].
      exfalso. apply Hb. change (list_fmap _ _ fst ?x) with (fst <$> x).
      rewrite fmap_app. set_solver. }
  destruct (Hgroup a g Hfind) as [Hgid Hrev].
  assert (Hrem : 0 <= Z.rem sid 256 < 256) by (apply Z.rem_bound_pos; lia).
  destruct (session_id_fits (mc_group_id g) (Z.rem sid 256) ltac:(lia) Hrem) as (_ & _ & Hsn & Hss).
  split; [done|]. split; [rewrite Hss; unfold sid_session; by rewrite u8_small|].
  split; [unfold Controller_getMulticastContext; by rewrite Hsn, Hrev|].
  apply lookup_lt_Some in Hk as Hlen. split; [lia|]. rewrite Nat2Z.id. split; [done|].
  intros k' Hk'. destruct (decide (k' < k)%nat) as [Hlt|]; [|lia]. exfalso. apply Hn.
  apply list_elem_of_lookup. exists k'. by rewrite lookup_take_lt.
Qed.

(** A sender that knows the group "g" (node 0) with replicas "a" and "b" and the
    peers "a" (node 1) and "b" (node 2). *)
Lemma redirect_multicast_exact_witness : exists c sid' index' c',
  Controller_redirectMulticast c (2 * 256 + 5) 0 = (sid', index', c') /\
  ((sid' = 2 * 256 + 5 /\ Forall (fun e => "b" ∉ mc_replicas e.2) (ct_multicast_context_map c)) \/
   sid_session sid' = 5) /\ sid' = 5 /\ index' = 1.
Proof.
  pose (c0 := mkController "mlx5_0" 7 (repeat 9 16) (mkStore ∅ [11] [0] [0] 128 64) [] ∅ ∅ ∅ 0).
  pose (peer := <["ext_qp" := ToString []]> (<["qp" := ToString []]>
    (<["gid" := RdmaContext_gid (repeat 8 16)]> (<["lid" := print_dec 4]> (∅ : Attributes))))).
  pose (setup := fun c n => match Controller_setupConnection (fun _ _ => 1) [] c n peer with
                            | Ok (_, c') => c' | Trap _ => c end).
  pose (c1 := (Controller_joinMulticast c0 "g" (Some (demo_group []))).2).
  pose (c2 := Controller_setReplicas c1 "g" ["a"; "b"]).
  pose (c3 := setup c2 "a"). pose (c4 := setup c3 "b").
  destruct (Controller_redirectMulticast c4 (2 * 256 + 5) 0) as [[sid' index'] c'] eqn:Hr.
  exists c4, sid', index', c'. split; [done|].
  assert (Hval : sid' = 5 /\ index' = 1) by (vm_compute in Hr; by injection Hr as <- <- _).
  split; [|done].
  destruct (redirect_multicast_exact (fun _ _ => 1) [] c0 c4 (2 * 256 + 5) 0 "b" sid' index' c')
    as [_ [[-> Hf]|(l1 & a & g & l2 & _ & _ & _ & Hss & _)]];
    [by split_and!| |done|lia|done|done|by left|by right].
  apply (rtc_l _ _ c1); [|apply (rtc_l _ _ c2); [|apply (rtc_l _ _ c3); [|apply rtc_once]]];
    (split; [done|]).
  - apply (step_join _ _ c0 "g" (Some (demo_group []))).
  - apply (step_set_replicas _ _ c1 "g" ["a"; "b"]).
  - apply (step_setup _ _ c2 "a" peer 0). by vm_compute.
  - apply (step_setup _ _ c3 "b" peer 0). by vm_compute.
Defined.
