(* ===== verification/Context.v ===== *)
(** * The unicast transport

    Models [Context] of src/protocols/rdma_unreliable/context.{h,cpp}: the object
    behind one RDMA device that owns the controller, the packet manager, the
    active sessions and the tasks, and whose [runStep] polls completions, sends
    acknowledgements and (re)transmits data.

    The state record holds everything the methods read or write: the objects of
    the other files, the process memory, the heap of work requests, and what the
    NIC has been given.  Pointers to queues are the session ids they belong to,
    a pointer to an acknowledgement handle is the id of its session.

    Parameters: the verbs [ibv_post_send] and [ibv_post_recv]; the address
    [operator new] returns; the order in which an unordered_map is traversed;
    the contents of uninitialised packet handles.  The result of polling a
    completion queue and the clock are arguments of the methods. *)

From S2P Require Import Prelude MemoryRegions Text Mem Packet BufferPool SecondaryQueue.
From S2P Require Import SendQueue McastSendQueue ReceiveQueue PacketManager Tasks Congestion.
From S2P Require Import RequestCache Posting UdEndpoint Controller.

(** [Context::Task]; [queue] is the queue of session [tk_queue]. *)
Record Task := mkTask {
  tk_session : Z;
  tk_last_sn : Z;
  tk_is_send : bool;
  tk_queue : Z
}.

(** [Context::SessionInfo]; a null queue pointer is [None]. *)
Record SessionInfo := mkSessionInfo {
  si_ack_handle : PacketHandle;
  si_send_packets : Z;
  si_recv_packets : Z;
  si_ack_packets : Z;
  si_wnd : Cwnd;
  si_send_queue : option Z;
  si_receive_queue : option Z;
  si_mcast_send_queue : option Z;
  si_last_send_ts : Z
}.
#[export] Instance SessionInfo_fields : Fields SessionInfo := mkFields (fun s =>
  mkSessionInfo (si_ack_handle s) (si_send_packets s) (si_recv_packets s) (si_ack_packets s)
    (si_wnd s) (si_send_queue s) (si_receive_queue s) (si_mcast_send_queue s)
    (si_last_send_ts s)).
Definition SessionInfo_ctor (junk : PacketHandle) : SessionInfo :=
  mkSessionInfo (PacketHandle_ctor junk) 0 0 0 (Cwnd_initial kWndSize) None None None 0.

Record Stats := mkStats { st_send_packets : Z; st_recv_packets : Z; st_ack_packets : Z }.
#[export] Instance Stats_fields : Fields Stats := mkFields (fun s =>
  mkStats (st_send_packets s) (st_recv_packets s) (st_ack_packets s)).

Record Context := mkContext {
  cx_mtu_size : Z;
  cx_controller : Controller;
  cx_memory_region_list : list ibv_mr;
  cx_packet_manager : PacketManager;
  cx_task_map : gmap Z Task;
  cx_next_task_id : Z;
  cx_active_session_map : gmap Z SessionInfo;
  cx_rto : Rto;
  cx_local_arena_lkey : Z;
  cx_recv_handles : list PacketHandle;
  cx_recv_handles_qp_index_map : gmap Z Z;
  cx_stats : Stats;
  cx_request_cache : RequestCache;
  cx_heap : heap;
  cx_mem : mem;
  cx_random : Z;
  cx_posted_send : list ibv_wr;
  cx_posted_recv : list ibv_wr
}.
#[export] Instance Context_fields : Fields Context := mkFields (fun c =>
  mkContext (cx_mtu_size c) (cx_controller c) (cx_memory_region_list c) (cx_packet_manager c)
    (cx_task_map c) (cx_next_task_id c) (cx_active_session_map c) (cx_rto c)
    (cx_local_arena_lkey c) (cx_recv_handles c) (cx_recv_handles_qp_index_map c) (cx_stats c)
    (cx_request_cache c) (cx_heap c) (cx_mem c) (cx_random c) (cx_posted_send c)
    (cx_posted_recv c)).

(** A work completion, [struct ibv_wc]. *)
Inductive wc_opcode_t : Type := IBV_WC_SEND | IBV_WC_RECV | IBV_WC_OTHER.
Record ibv_wc := mkWc {
  wc_wr_id : Z;
  wc_success : bool;
  wc_opcode : wc_opcode_t;
  wc_imm_data : Z;
  wc_with_imm : bool;
  wc_byte_len : Z;
  wc_src_qp : Z
}.

Definition kNumReceiveHandles : nat := 128.
Definition kRequestBatchSize : nat := 4.
Definition kMinWindowSize : Z := 8.

(** Offset of [sgid] in [struct ibv_grh]. *)
Definition sgid_offset : Z := 8.

(** ** Access to the parts of the state *)
Definition cx_pool (c : Context) : PacketBufferPool := pm_pool (cx_packet_manager c).
Definition cx_store (c : Context) : RdmaUDEndPointStore := ct_endpoint_store (cx_controller c).
Definition cx_set_pool (c : Context) (p : PacketBufferPool) : Context :=
  c <| cx_packet_manager := (cx_packet_manager c) <| pm_pool := p |> |>.
Definition cx_set_store (c : Context) (s : RdmaUDEndPointStore) : Context :=
  c <| cx_controller := (cx_controller c) <| ct_endpoint_store := s |> |>.
Definition cx_set_session (c : Context) (sid : Z) (s : SessionInfo) : Context :=
  c <| cx_active_session_map := <[sid := s]> (cx_active_session_map c) |>.
Definition cx_set_send_queue (c : Context) (qid : Z) (q : SendQueue) : Context :=
  c <| cx_packet_manager := (cx_packet_manager c) <| pm_send_queue :=
         <[qid := q]> (pm_send_queue (cx_packet_manager c)) |> |>.
Definition cx_set_receive_queue (c : Context) (qid : Z) (q : ReceiveQueue) : Context :=
  c <| cx_packet_manager := (cx_packet_manager c) <| pm_receive_queue :=
         <[qid := q]> (pm_receive_queue (cx_packet_manager c)) |> |>.

(** Following a pointer that must not be null, or a lookup that must succeed. *)
Definition deref {A : Type} (p : option A) : outcome A :=
  match p with Some a => Ok a | None => Trap TrapNull end.
Definition cx_send_queue (c : Context) (qid : Z) : outcome SendQueue :=
  deref (pm_send_queue (cx_packet_manager c) !! qid).
Definition cx_receive_queue (c : Context) (qid : Z) : outcome ReceiveQueue :=
  deref (pm_receive_queue (cx_packet_manager c) !! qid).

Section context.
Variable ibv_post_send : Z -> list ibv_wr -> Z * nat.
Variable ibv_post_recv : Z -> list ibv_wr -> Z * nat.
Variable operator_new : heap -> Z.
Variable traverse : gmap Z SessionInfo -> list Z.
Variable junk : PacketHandle.

Definition Context_ctor (mtu_size max_packets queue_capacity : Z) (controller : Controller)
    (m : mem) (rnd : Z) : Context :=
  mkContext (u32 mtu_size) controller []
    (PacketManager_ctor mtu_size max_packets queue_capacity kWndSize)
    ∅ 0 ∅ (Rto_initial Context_rto_config) 0 [] ∅ (mkStats 0 0 0) RequestCache_ctor ∅ m rnd [] [].

(** ** Work requests *)

(** [request_cache_.allocate()] followed by placement new of [r]. *)
Definition Context_new_request (c : Context) (r : Request) : outcome (Z * Context) :=
  '(ptr, cache, hp) ←
    RequestCache_allocate (cx_request_cache c) (cx_heap c) (operator_new (cx_heap c));
  Ok (ptr, c <| cx_request_cache := cache |> <| cx_heap := <[ptr := r]> hp |>).

(** [submitNormalRecvWR]; the handle is only asked for its raw packet.  The
    index map's [operator[]] inserts 0 for a packet it does not know. *)
Definition Context_submitNormalRecvWR (c : Context) (raw_packet : Z) : outcome (Z * Context) :=
  let index := default 0 (cx_recv_handles_qp_index_map c !! raw_packet) in
  let c1 := c <| cx_recv_handles_qp_index_map :=
                   <[raw_packet := index]> (cx_recv_handles_qp_index_map c) |> in
  '(request, c2) ← Context_new_request c1
     (Request_default <| req_addr0 := raw_packet |>
        <| req_length0 := pm_mtu_size (cx_packet_manager c) |>
        <| req_lkey0 := cx_local_arena_lkey c |>);
  '(rc, s, hp, posted) ← RdmaUDEndPointStore_postReceiveRequest ibv_post_recv (cx_store c2)
     (cx_heap c2) [request] index;
  Ok (rc, (cx_set_store c2 s) <| cx_heap := hp |>
            <| cx_posted_recv := cx_posted_recv c2 ++ posted |>).

(** [endpoint->postSendRequest(request_list)] *)
Definition Context_post_send (c : Context) (endpoint : string) (request_list : list Z)
  : outcome (Z * Context) :=
  e ← deref (us_endpoint_map (cx_store c) !! endpoint);
  '(rc, rnd, s, hp, posted) ← RdmaUDEndPoint_postSendRequest ibv_post_send e (cx_random c)
     (cx_store c) (cx_heap c) request_list;
  Ok (rc, (cx_set_store c s) <| cx_heap := hp |> <| cx_random := rnd |>
            <| cx_posted_send := cx_posted_send c ++ posted |>).

(** [controller_.getOrCreateEndpoint(session)] *)
Definition Context_endpoint (c : Context) (sid : Z) : option string * Context :=
  let '(e, ct) := Controller_getOrCreateEndpoint (cx_controller c) sid in
  (e, c <| cx_controller := ct |>).

(** ** Submitting tasks *)

(** The block of [send] and [receive] that activates a session on first use:
    [active_session_map_[session]] creates the entry before the packet for its
    acknowledgements is allocated. *)
Definition Context_activate (c : Context) (session : Z) : outcome (Z * Context) :=
  match cx_active_session_map c !! session with
  | Some _ => Ok (0, c)
  | None =>
      let info := SessionInfo_ctor junk in
      let '(ret, p, h) :=
        PacketBufferPool_allocatePacket (cx_pool c) (cx_mem c) (si_ack_handle info) false in
      let info1 := info <| si_ack_handle := h |> in
      let c1 := cx_set_session (cx_set_pool c p) session info1 in
      if negb (ret =? 0) then Ok (ret, c1)
      else
        pm ← PacketManager_setup (cx_packet_manager c1) session junk;
        Ok (0, cx_set_session (c1 <| cx_packet_manager := pm |>) session
                 (info1 <| si_send_queue := Some session |>
                        <| si_receive_queue := Some session |>
                        <| si_mcast_send_queue := Some session |>))
  end.

(** [task_map_[next_task_id_.fetch_add(1)] = Task{...}] *)
Definition Context_add_task (c : Context) (t : Task) : Z * Context :=
  let task_id := cx_next_task_id c in
  (task_id, c <| cx_next_task_id := i32 (task_id + 1) |>
              <| cx_task_map := <[task_id := t]> (cx_task_map c) |>).

Definition Context_send (c : Context) (peer_name : string) (buffer_list : list Buffer)
  : outcome (Z * Context) :=
  let session := Controller_findSession_name (cx_controller c) peer_name 0 in
  if session <? 0 then Ok (ERR, c)
  else
    '(ret, c1) ← Context_activate c session;
    if negb (ret =? 0) then Ok (ret, c1)
    else
      info ← deref (cx_active_session_map c1 !! session);
      qid ← deref (si_send_queue info);
      queue ← cx_send_queue c1 qid;
      '(ret2, last_sn, queue', p) ← SendQueue_push (cx_mem c1) queue (cx_pool c1) buffer_list;
      let c2 := cx_set_pool (cx_set_send_queue c1 qid queue') p in
      if negb (ret2 =? 0) then Ok (ret2, c2)
      else Ok (Context_add_task c2 (mkTask session last_sn true qid)).

Definition Context_receive (c : Context) (peer_name : string) (buffer_list : list Buffer)
  : outcome (Z * Context) :=
  let session := Controller_findSession_name (cx_controller c) peer_name 0 in
  if session <? 0 then Ok (ERR, c)
  else
    '(ret, c1) ← Context_activate c session;
    if negb (ret =? 0) then Ok (ret, c1)
    else
      info ← deref (cx_active_session_map c1 !! session);
      qid ← deref (si_receive_queue info);
      queue ← cx_receive_queue c1 qid;
      '(ret2, last_sn, queue') ← ReceiveQueue_push queue buffer_list;
      let c2 := cx_set_receive_queue c1 qid queue' in
      if negb (ret2 =? 0) then Ok (ret2, c2)
      else Ok (Context_add_task c2 (mkTask session last_sn false qid)).

Definition Context_getStatus (c : Context) (task_id : Z) : outcome Status :=
  match cx_task_map c !! task_id with
  | None => Ok UNKNOWN
  | Some task =>
      if tk_is_send task
      then queue ← cx_send_queue c (tk_queue task); queue_status queue (tk_last_sn task)
      else queue ← cx_receive_queue c (tk_queue task); queue_status queue (tk_last_sn task)
  end.

Definition Context_freeTask (c : Context) (task_id : Z) : Z * Context :=
  match cx_task_map c !! task_id with
  | None => (ERR, c)
  | Some _ => (0, c <| cx_task_map := delete task_id (cx_task_map c) |>)
  end.

(** ** Receiving *)

(** [updateWndOnSuccess]: [active_session_map_[session]] exists here. *)
Definition Context_updateWndOnSuccess (c : Context) (session rwnd qid : Z) : outcome Context :=
  info ← deref (cx_active_session_map c !! session);
  w ← updateWnd (cx_mtu_size c) (si_wnd info) rwnd;
  queue ← cx_send_queue c qid;
  let c1 := cx_set_session c session (info <| si_wnd := w |>) in
  Ok (if negb (SendQueue_getWndSize queue =? cw_cwnd w)
      then cx_set_send_queue c1 qid (SendQueue_setWndSize queue (cw_cwnd w))
      else c1).

(** [case PKT_CMD_DATA] *)
Definition Context_on_data (c : Context) (session : Z) (handle : PacketHandle) : outcome Context :=
  info ← deref (cx_active_session_map c !! session);
  qid ← deref (si_receive_queue info);
  queue ← cx_receive_queue c qid;
  '(_, queue', m) ← ReceiveQueue_markCompleted queue (cx_mem c) handle;
  Ok (cx_set_session
        ((cx_set_receive_queue c qid queue') <| cx_mem := m |>
           <| cx_stats := (cx_stats c) <| st_recv_packets :=
                 u64 (st_recv_packets (cx_stats c) + 1) |> |>)
        session (info <| si_recv_packets := u64 (si_recv_packets info + 1) |>)).

(** [case PKT_CMD_ACK] *)
Definition Context_on_ack (c : Context) (current_ts session : Z) (handle : PacketHandle)
  : outcome Context :=
  info ← deref (cx_active_session_map c !! session);
  qid ← deref (si_send_queue info);
  queue ← cx_send_queue c qid;
  '(_, queue', p) ← SendQueue_markCompleted (cx_mem c) queue (cx_pool c) (ph_sn handle);
  let c1 := cx_set_pool (cx_set_send_queue c qid queue') p in
  let c2 := c1 <| cx_rto := updateRTO Context_rto_config (cx_rto c1)
                              (rtt_sample current_ts (ph_ts handle)) |> in
  Context_updateWndOnSuccess c2 session (ph_wnd handle) qid.

Definition Context_processReceivedPacket (c : Context) (current_ts : Z) (wc : ibv_wc)
  : outcome (Z * Context) :=
  request ← deref (cx_heap c !! wc_wr_id wc);
  match wc_opcode wc with
  | IBV_WC_SEND =>
      match req_context request with
      | None => Ok (0, c)
      | Some sid =>
          info ← deref (cx_active_session_map c !! sid);
          if ph_cmd (si_ack_handle info) =? PKT_CMD_ACK
          then Ok (0, cx_set_session c sid
                        (info <| si_ack_handle := (si_ack_handle info) <| ph_inflight := false |> |>))
          else Ok (0, c)
      end
  | IBV_WC_RECV =>
      let imm_data := if wc_with_imm wc then wc_imm_data wc else 0 in
      let '(ret, handle0) := PacketHandle_setRawPacket (PacketHandle_ctor junk)
                               (req_addr0 request) true in
      if negb (ret =? 0) then Ok (ret, c)
      else
        let '(ret2, handle) := PacketHandle_deserialize handle0 (cx_mem c) imm_data
                                 (wc_byte_len wc) in
        if negb (ret2 =? 0) then Ok (ret2, c)
        else
          let sgid := ld_bytes (cx_mem c) (req_addr0 request + sgid_offset) 16 in
          session ← Controller_findSession_addr (cx_controller c) sgid (wc_src_qp wc)
                      (ph_session handle);
          c1 ← (if session <? 0 then Ok c
                else match cx_active_session_map c !! session with
                     | None => Trap TrapAssert
                     | Some _ =>
                         if ph_cmd handle =? PKT_CMD_DATA then Context_on_data c session handle
                         else if ph_cmd handle =? PKT_CMD_ACK
                         then Context_on_ack c current_ts session handle
                         else Ok c
                     end);
          Context_submitNormalRecvWR c1 (PacketHandle_getRawPacket handle)
  | IBV_WC_OTHER => Ok (0, c)
  end.

(** The loop of [pollCompletedPackets] over the completions it polled. *)
Fixpoint Context_poll_loop (c : Context) (current_ts : Z) (wcs : list ibv_wc) : outcome Context :=
  match wcs with
  | [] => Ok c
  | wc :: wcs =>
      request ← deref (cx_heap c !! wc_wr_id wc);
      s ← release_depth (cx_store c) request;
      if negb (wc_success wc) then Trap TrapAbort
      else
        '(_, c1) ← Context_processReceivedPacket (cx_set_store c s) current_ts wc;
        let '(cache, hp) := RequestCache_deallocate (cx_request_cache c1) (cx_heap c1)
                              (wc_wr_id wc) in
        Context_poll_loop (c1 <| cx_request_cache := cache |> <| cx_heap := hp |>) current_ts wcs
  end.

(** [polled]: what [ibv_poll_cq] returns, [None] for an error. *)
Definition Context_pollCompletedPackets (c : Context) (current_ts : Z)
    (polled : option (list ibv_wc)) : outcome (Z * Context) :=
  match polled with
  | None => Ok (ERR, c)
  | Some wcs => c' ← Context_poll_loop c current_ts wcs; Ok (Z.of_nat (length wcs), c')
  end.

(** ** Sending acknowledgements *)

(** One iteration of [sendAckPackets]: a return code ends the function.  The
    reference to the receive queue is bound first but used after the test. *)
Definition Context_send_ack (c : Context) (sid : Z) : outcome (option Z * Context) :=
  info ← deref (cx_active_session_map c !! sid);
  let handle := si_ack_handle info in
  let recv_packets := si_recv_packets info in
  if (recv_packets <=? si_ack_packets info) || ph_inflight handle then Ok (None, c)
  else
    qid ← deref (si_receive_queue info);
    queue ← cx_receive_queue c qid;
    let '(head, tail) := ReceiveQueue_getIndexRange queue in
    let h1 := handle <| ph_session := sid_session sid |>
                     <| ph_cmd := PKT_CMD_ACK |>
                     <| ph_wnd := u16 (Z.max (u64 (head - tail)) kMinWindowSize) |>
                     <| ph_sn := ReceiveQueue_getAckSN queue |>
                     <| ph_ts := ReceiveQueue_getLastTS queue |>
                     <| ph_inflight := true |> in
    let '(slices, h2, m) := PacketHandle_serialize_array h1 (cx_mem c) in
    let info1 := info <| si_ack_handle := h2 |> in
    let c1 := (cx_set_session c sid info1) <| cx_mem := m |> in
    match slices with
    | None => Ok (Some ERR, c1)
    | Some (slice0, _, imm_data) =>
        '(request, c2) ← Context_new_request c1
           (Request_default <| req_addr0 := buf_addr slice0 |>
              <| req_length0 := buf_length slice0 |>
              <| req_lkey0 := cx_local_arena_lkey c |>
              <| req_imm_data := imm_data |>
              <| req_context := Some sid |>);
        let '(endpoint, c3) := Context_endpoint c2 sid in
        match endpoint with
        | None => Ok (Some ERR, c3)
        | Some path =>
            '(ret, c4) ← Context_post_send c3 path [request];
            if negb (ret =? 1) then Ok (Some ERR, c4)
            else Ok (None, (cx_set_session c4 sid (info1 <| si_ack_packets := recv_packets |>))
                             <| cx_stats := (cx_stats c4) <| st_ack_packets :=
                                  u64 (st_ack_packets (cx_stats c4) + 1) |> |>)
        end
    end.

Fixpoint Context_ack_loop (c : Context) (sids : list Z) : outcome (Z * Context) :=
  match sids with
  | [] => Ok (0, c)
  | sid :: sids =>
      '(ret, c1) ← Context_send_ack c sid;
      match ret with Some rc => Ok (rc, c1) | None => Context_ack_loop c1 sids end
  end.
Definition Context_sendAckPackets (c : Context) : outcome (Z * Context) :=
  Context_ack_loop c (traverse (cx_active_session_map c)).

(** ** Sending data *)

(** The variables of one iteration over the sessions: [sl_session] is the copy
    of the map's entry that [for (auto session : active_session_map_)] makes. *)
Record send_loop := mkSendLoop {
  sl_context : Context;
  sl_session : SessionInfo;
  sl_request_list : list Z;
  sl_endpoint : option string
}.

(** How an iteration over the packets ends. *)
Inductive loop_exit : Type := LoopNext | LoopSkip | LoopReturn (rc : Z).

(** [endpoint->postSendRequest(request_list)] and the counters. *)
Definition Context_flush (st : send_loop) : outcome send_loop :=
  match sl_request_list st with
  | [] => Ok st
  | request_list =>
      endpoint ← deref (sl_endpoint st);
      '(ret, c) ← Context_post_send (sl_context st) endpoint request_list;
      let len := Z.of_nat (length request_list) in
      if ret =? len
      then
        let s := sl_session st in
        Ok (mkSendLoop
              (c <| cx_stats := (cx_stats c) <| st_send_packets :=
                      u64 (st_send_packets (cx_stats c) + len) |> |>)
              (s <| si_send_packets := u64 (si_send_packets s + len) |>) [] (sl_endpoint st))
      else Ok (mkSendLoop c (sl_session st) [] (sl_endpoint st))
  end.

(** [if (!endpoint) endpoint = controller_.getOrCreateEndpoint(session)] *)
Definition Context_ensure_endpoint (c : Context) (sid : Z) (endpoint : option string)
  : option string * Context :=
  match endpoint with
  | Some path => (Some path, c)
  | None => Context_endpoint c sid
  end.

(** The body of the loop over packet indices. *)
Definition Context_send_packet (current_ts sid qid curr : Z) (st : send_loop)
  : outcome (loop_exit * send_loop) :=
  let c := sl_context st in
  let s := sl_session st in
  queue ← cx_send_queue c qid;
  handle ← SendQueue_getMutableEntry queue curr;
  if u64 (current_ts - ph_ts handle) <? rt_rto (cx_rto c) then Ok (LoopSkip, st)
  else
    let resend := negb (ph_ts handle =? 0) in
    let s1 := if resend then s <| si_wnd := wndOnResend (cx_mtu_size c) (si_wnd s) |> else s in
    let queue1 := if resend then SendQueue_setWndSize queue (cw_cwnd (si_wnd s1)) else queue in
    let s2 := s1 <| si_last_send_ts := current_ts |> in
    let '(slices, handle', m) :=
      PacketHandle_serialize_array (handle <| ph_ts := current_ts |>) (cx_mem c) in
    let c1 := (cx_set_send_queue c qid (SendQueue_setEntry queue1 curr handle'))
                <| cx_mem := m |> in
    match slices with
    | None => Ok (LoopReturn ERR, mkSendLoop c1 s2 (sl_request_list st) (sl_endpoint st))
    | Some (slice0, slice1, imm_data) =>
        '(request, c2) ← Context_new_request c1
           (mkRequest (buf_addr slice0) (buf_addr slice1) (buf_length slice0) (buf_length slice1)
              (cx_local_arena_lkey c)
              (fst (RdmaContext_key (cx_memory_region_list c) (buf_addr slice1)))
              imm_data None UNKNOWN None);
        let '(endpoint, c3) := Context_ensure_endpoint c2 sid (sl_endpoint st) in
        match endpoint with
        | None => Ok (LoopReturn ERR, mkSendLoop c3 s2 (sl_request_list st) None)
        | Some path =>
            let st1 := mkSendLoop c3 s2 (sl_request_list st ++ [request]) (Some path) in
            if Nat.eqb (length (sl_request_list st1)) kRequestBatchSize
            then st2 ← Context_flush st1; Ok (LoopNext, st2)
            else Ok (LoopNext, st1)
        end
    end.

(** [for (curr = tail; !skip_remaining && curr < head; curr++)]: [n] indices
    remain. *)
Fixpoint Context_packet_loop (n : nat) (current_ts sid qid curr : Z) (st : send_loop)
  : outcome (option Z * send_loop) :=
  match n with
  | O => Ok (None, st)
  | S n =>
      '(exit, st1) ← Context_send_packet current_ts sid qid curr st;
      match exit with
      | LoopReturn rc => Ok (Some rc, st1)
      | LoopSkip => Ok (None, st1)
      | LoopNext => Context_packet_loop n current_ts sid qid (u64 (curr + 1)) st1
      end
  end.

(** One session.  The copy [session] is dropped at the end of the iteration. *)
Definition Context_send_session (c : Context) (current_ts sid : Z) : outcome (option Z * Context) :=
  session ← deref (cx_active_session_map c !! sid);
  if u64 (current_ts - si_last_send_ts session) <? u64 (rt_rto (cx_rto c) * 2) / 3
  then Ok (None, c)
  else
    qid ← deref (si_send_queue session);
    queue ← cx_send_queue c qid;
    let '(head0, tail) := SendQueue_getIndexRange queue in
    let head := Z.min head0 (u64 (tail + cw_cwnd (si_wnd session))) in
    '(ret, st) ← Context_packet_loop (Z.to_nat (head - tail)) current_ts sid qid tail
                   (mkSendLoop c session [] None);
    match ret with
    | Some rc => Ok (Some rc, sl_context st)
    | None => st' ← Context_flush st; Ok (None, sl_context st')
    end.

Fixpoint Context_data_loop (c : Context) (current_ts : Z) (sids : list Z) : outcome (Z * Context) :=
  match sids with
  | [] => Ok (0, c)
  | sid :: sids =>
      '(ret, c1) ← Context_send_session c current_ts sid;
      match ret with Some rc => Ok (rc, c1) | None => Context_data_loop c1 current_ts sids end
  end.
Definition Context_sendDataPackets (c : Context) (current_ts : Z) : outcome (Z * Context) :=
  Context_data_loop c current_ts (traverse (cx_active_session_map c)).

(** ** A step of the worker *)
Definition Context_runStep (c : Context) (current_ts : Z)
    (recv_polled send_polled : option (list ibv_wc)) : outcome (Z * Context) :=
  '(ret, c1) ← Context_pollCompletedPackets c current_ts recv_polled;
  if ret <? 0 then Ok (ret, c1)
  else
    '(_, c2) ← Context_sendAckPackets c1;
    '(ret2, c3) ← Context_sendDataPackets c2 current_ts;
    if negb (ret2 =? 0) then Ok (ret2, c3)
    else
      '(ret3, c4) ← Context_pollCompletedPackets c3 current_ts send_polled;
      if ret3 <? 0 then Ok (ret3, c4) else Ok (0, c4).

(** ** Life cycle *)

(** The loop of [construct] that allocates and posts the receive handles.  The
    queue pair of a handle is recorded after its receive is posted. *)
Fixpoint Context_post_handles (n : nat) (i : Z) (c : Context) : outcome (Z * Context) :=
  match n with
  | O => Ok (0, c)
  | S n =>
      h ← vec_at (cx_recv_handles c) (Z.to_nat i);
      let '(ret, p, h') := PacketBufferPool_allocatePacket (cx_pool c) (cx_mem c) h true in
      let c1 := (cx_set_pool c p) <| cx_recv_handles :=
                   <[Z.to_nat i := h']> (cx_recv_handles c) |> in
      if ret <? 0 then Ok (ret, c1)
      else
        '(ret2, c2) ← Context_submitNormalRecvWR c1 (PacketHandle_getRawPacket h');
        if ret2 <? 0 then Ok (ret2, c2)
        else
          let nqp := Z.of_nat (length (RdmaUDEndPointStore_qpNum (cx_store c2))) in
          if nqp =? 0 then Trap TrapDivZero
          else Context_post_handles n (i + 1)
                 (c2 <| cx_recv_handles_qp_index_map :=
                        <[PacketHandle_getRawPacket h' := i32 (i mod nqp)]>
                          (cx_recv_handles_qp_index_map c2) |>)
  end.

(** [construct]; [controller] is the outcome of [Controller::construct], which
    opens the device. *)
Definition Context_construct (numa_alloc_onnode : Z -> Z -> Z) (socket_id access : Z)
    (ibv_reg_mr : Z -> Z -> Z -> option ibv_mr) (controller : Z * Controller) (c : Context)
  : outcome (Z * Context) :=
  let c1 := c <| cx_controller := controller.2 |> in
  if controller.1 <? 0 then Ok (controller.1, c1)
  else
    '(ret, pm, m) ←
      PacketManager_construct numa_alloc_onnode socket_id (cx_packet_manager c1) (cx_mem c1);
    let c2 := c1 <| cx_packet_manager := pm |> <| cx_mem := m |> in
    if ret <? 0 then Ok (ret, c2)
    else
      let arena_base := bp_arena (cx_pool c2) in
      let '(ret2, mrs) := RdmaContext_registerMemoryRegion ibv_reg_mr (cx_memory_region_list c2)
                            arena_base (PacketBufferPool_getCapacity (cx_pool c2)) access in
      let c3 := c2 <| cx_memory_region_list := mrs |> in
      if negb (ret2 =? 0) then Ok (ret2, c3)
      else Context_post_handles kNumReceiveHandles 0
             (c3 <| cx_local_arena_lkey :=
                      fst (RdmaContext_key (cx_memory_region_list c3) arena_base) |>
                 <| cx_recv_handles := replicate kNumReceiveHandles (PacketHandle_ctor junk) |>).

(** [deconstruct], up to the release of the device. *)
Definition Context_deconstruct (ibv_dereg_mr : ibv_mr -> Z) (c : Context) : outcome Context :=
  '(_, mrs) ← RdmaContext_unregisterMemoryRegion ibv_dereg_mr (cx_memory_region_list c)
                (bp_arena (cx_pool c));
  let '(_, pm, m) := PacketManager_deconstruct (cx_packet_manager c) (cx_mem c) in
  Ok (c <| cx_active_session_map := ∅ |> <| cx_memory_region_list := mrs |>
        <| cx_packet_manager := pm |> <| cx_mem := m |>).

Definition Context_registerLocalMemory (ibv_reg_mr : Z -> Z -> Z -> option ibv_mr) (access : Z)
    (c : Context) (addr length : Z) : Z * Context :=
  let '(ret, mrs) := RdmaContext_registerMemoryRegion ibv_reg_mr (cx_memory_region_list c)
                       addr length access in
  (ret, c <| cx_memory_region_list := mrs |>).
Definition Context_unregisterLocalMemory (ibv_dereg_mr : ibv_mr -> Z) (c : Context) (addr : Z)
  : outcome (Z * Context) :=
  '(ret, mrs) ← RdmaContext_unregisterMemoryRegion ibv_dereg_mr (cx_memory_region_list c) addr;
  Ok (ret, c <| cx_memory_region_list := mrs |>).

Definition Context_prepareConnection (c : Context) (peer_addr : string) (local : Attributes)
  : Z * Context * Attributes :=
  let '(ret, ct, attributes) := Controller_prepareConnection (cx_controller c) peer_addr local in
  (ret, c <| cx_controller := ct |>, attributes).
Definition Context_setupConnection (ibv_create_ah : list Z -> Z -> Z) (junk_gid : list Z)
    (c : Context) (peer_addr : string) (peer : Attributes) : outcome (Z * Context) :=
  '(ret, ct) ← Controller_setupConnection ibv_create_ah junk_gid (cx_controller c) peer_addr peer;
  Ok (ret, c <| cx_controller := ct |>).
End context.

(** ** What sending data leaves alone *)

(** The sessions, the timer and the tasks of a context. *)
Definition sessions_of (c : Context) : gmap Z SessionInfo * Rto * gmap Z Task :=
  (cx_active_session_map c, cx_rto c, cx_task_map c).

Section frame.
Variable ibv_post_send : Z -> list ibv_wr -> Z * nat.
Variable ibv_post_recv : Z -> list ibv_wr -> Z * nat.
Variable operator_new : heap -> Z.
Variable traverse : gmap Z SessionInfo -> list Z.
Variable junk : PacketHandle.

Lemma new_request_sessions c r ptr c' :
  Context_new_request operator_new c r = Ok (ptr, c') -> sessions_of c' = sessions_of c.
Proof. unfold Context_new_request. intros H. outcome_run. by simplify_eq. Qed.

Lemma endpoint_sessions c sid e c' :
  Context_endpoint c sid = (e, c') -> sessions_of c' = sessions_of c.
Proof.
  unfold Context_endpoint. destruct (Controller_getOrCreateEndpoint _ _). by intros [= <- <-].
Qed.

Lemma ensure_endpoint_sessions c sid e0 e c' :
  Context_ensure_endpoint c sid e0 = (e, c') -> sessions_of c' = sessions_of c.
Proof. destruct e0; [by intros [= <- <-]|apply endpoint_sessions]. Qed.

Lemma post_send_sessions c path l ret c' :
  Context_post_send ibv_post_send c path l = Ok (ret, c') -> sessions_of c' = sessions_of c.
Proof. unfold Context_post_send. intros H. outcome_run. by simplify_eq. Qed.

Lemma submit_sessions c raw ret c' :
  Context_submitNormalRecvWR ibv_post_recv operator_new c raw = Ok (ret, c') ->
  sessions_of c' = sessions_of c.
Proof.
  unfold Context_submitNormalRecvWR. intros H. outcome_run. simplify_eq.
  match goal with E : Context_new_request _ _ _ = _ |- _ =>
    apply new_request_sessions in E; exact E end.
Qed.

Lemma flush_sessions st st' :
  Context_flush ibv_post_send st = Ok st' ->
  sessions_of (sl_context st') = sessions_of (sl_context st).
Proof.
  unfold Context_flush. intros H. outcome_run; simplify_eq; [done| |];
    match goal with E : Context_post_send _ _ _ _ = _ |- _ =>
      apply post_send_sessions in E; exact E end.
Qed.

Lemma send_packet_sessions now sid qid curr st e st' :
  Context_send_packet ibv_post_send operator_new now sid qid curr st = Ok (e, st') ->
  sessions_of (sl_context st') = sessions_of (sl_context st).
Proof.
  unfold Context_send_packet. intros H. outcome_run; simplify_eq; try done.
  all: repeat match goal with
  | H : Context_flush _ _ = Ok _ |- _ => apply flush_sessions in H
  | H : Context_ensure_endpoint _ _ _ = _ |- _ => apply ensure_endpoint_sessions in H
  | H : Context_new_request _ _ _ = Ok _ |- _ => apply new_request_sessions in H
  end; cbn [sl_context] in *; unfold sessions_of in *; cbn in *; congruence.
Qed.

Lemma packet_loop_sessions n now sid qid : forall curr st r st',
  Context_packet_loop ibv_post_send operator_new n now sid qid curr st = Ok (r, st') ->
  sessions_of (sl_context st') = sessions_of (sl_context st).
Proof.
  induction n as [|n IH]; intros curr st r st' H; cbn [Context_packet_loop] in H;
    outcome_run; simplify_eq; try done;
    match goal with E : Context_send_packet _ _ _ _ _ _ _ = _ |- _ =>
      apply send_packet_sessions in E end; try done.
  rewrite (IH _ _ _ _ H). done.
Qed.

Lemma send_session_sessions c now sid r c' :
  Context_send_session ibv_post_send operator_new c now sid = Ok (r, c') ->
  sessions_of c' = sessions_of c.
Proof.
  unfold Context_send_session. intros H. outcome_run; simplify_eq; try done;
    match goal with E : Context_packet_loop _ _ _ _ _ _ _ _ = _ |- _ =>
      apply packet_loop_sessions in E end; [done|].
  match goal with E : Context_flush _ _ = _ |- _ => apply flush_sessions in E end.
  cbn [sl_context] in *. unfold sessions_of in *. cbn in *. congruence.
Qed.

Lemma data_loop_sessions now sids : forall c ret c',
  Context_data_loop ibv_post_send operator_new c now sids = Ok (ret, c') ->
  sessions_of c' = sessions_of c.
Proof.
  induction sids as [|sid sids IH]; intros c ret c' H; cbn [Context_data_loop] in H;
    outcome_run; simplify_eq; try done;
    match goal with E : Context_send_session _ _ _ _ _ = _ |- _ =>
      apply send_session_sessions in E end; [done|].
  rewrite (IH _ _ _ H). done.
Qed.
End frame.

(** ** The states a context reaches *)
Section reachable.
Variable ibv_post_send : Z -> list ibv_wr -> Z * nat.
Variable ibv_post_recv : Z -> list ibv_wr -> Z * nat.
Variable operator_new : heap -> Z.
Variable traverse : gmap Z SessionInfo -> list Z.
Variable junk : PacketHandle.
Variable ibv_create_ah : list Z -> Z -> Z.
Variable junk_gid : list Z.
Variable ibv_reg_mr : Z -> Z -> Z -> option ibv_mr.
Variable ibv_dereg_mr : ibv_mr -> Z.

(** Calls of the application and of the worker thread, in any order.  Between
    two of them the NIC and the application may write to memory. *)
Inductive context_step : Context -> Context -> Prop :=
| cs_send c peer buffers ret c' :
    Context_send junk c peer buffers = Ok (ret, c') -> context_step c c'
| cs_receive c peer buffers ret c' :
    Context_receive junk c peer buffers = Ok (ret, c') -> context_step c c'
| cs_free_task c id : context_step c (Context_freeTask c id).2
| cs_run_step c now recv_polled send_polled ret c' :
    Context_runStep ibv_post_send ibv_post_recv operator_new traverse junk c now
      recv_polled send_polled = Ok (ret, c') ->
    context_step c c'
| cs_prepare c peer local : context_step c (Context_prepareConnection c peer local).1.2
| cs_setup c peer attributes ret c' :
    Context_setupConnection ibv_create_ah junk_gid c peer attributes = Ok (ret, c') ->
    context_step c c'
| cs_register c access addr length :
    context_step c (Context_registerLocalMemory ibv_reg_mr access c addr length).2
| cs_unregister c addr ret c' :
    Context_unregisterLocalMemory ibv_dereg_mr c addr = Ok (ret, c') -> context_step c c'
| cs_memory c m : context_step c (c <| cx_mem := m |>).

(** The congestion state a session was created with, apart from the window and
    the credit that acknowledgements move. *)
Definition session_inert (s : SessionInfo) : Prop :=
  cw_ssthresh (si_wnd s) = kMinSSThreshValue /\ si_last_send_ts s = 0 /\ si_send_packets s = 0.

Record context_inv (x : gmap Z SessionInfo * Rto * gmap Z Task) : Prop := mkContextInv {
  cxi_rto : rto_wf x.1.2 /\
            kMinRTO Context_rto_config <= rt_rto x.1.2 <= kMaxRTO Context_rto_config;
  cxi_inert : map_Forall (fun _ s => session_inert s) x.1.1
}.

Lemma context_inv_tasks ss r t t' : context_inv (ss, r, t) -> context_inv (ss, r, t').
Proof. by intros []. Qed.

Lemma context_inv_session ss r t sid s :
  context_inv (ss, r, t) -> session_inert s -> context_inv (<[sid := s]> ss, r, t).
Proof. intros [Hr Hi] Hs. split; [done|]. by apply map_Forall_insert_2. Qed.

Lemma context_inv_lookup c sid s :
  context_inv (sessions_of c) -> deref (cx_active_session_map c !! sid) = Ok s ->
  session_inert s.
Proof.
  intros [_ Hi]. destruct (cx_active_session_map c !! sid) eqn:Hl; [|done].
  intros [= <-]. by apply (Hi sid).
Qed.

Lemma context_inv_rto ss r t rtt :
  context_inv (ss, r, t) -> 0 <= rtt < 2 ^ 48 ->
  context_inv (ss, updateRTO Context_rto_config r rtt, t).
Proof.
  intros [[Hw _] Hi] Hrtt. split; [|done]. cbn. split; [by apply updateRTO_exact|].
  by apply (updateRTO_range Context_rto_config).
Qed.

Lemma activate_inv c sid ret c' :
  Context_activate junk c sid = Ok (ret, c') ->
  context_inv (sessions_of c) -> context_inv (sessions_of c').
Proof.
  unfold Context_activate. intros H Hc. outcome_run; simplify_eq; [done| |].
  - by apply context_inv_session.
  - apply context_inv_session; [|done]. by apply context_inv_session.
Qed.

Lemma send_inv c peer l ret c' :
  Context_send junk c peer l = Ok (ret, c') ->
  context_inv (sessions_of c) -> context_inv (sessions_of c').
Proof.
  unfold Context_send, Context_add_task. intros H Hc.
  outcome_run; simplify_eq; [done| | |];
    match goal with E : Context_activate _ _ _ = _ |- _ => apply activate_inv in E; [|done] end;
    [done|done|]. by eapply context_inv_tasks.
Qed.

Lemma receive_inv c peer l ret c' :
  Context_receive junk c peer l = Ok (ret, c') ->
  context_inv (sessions_of c) -> context_inv (sessions_of c').
Proof.
  unfold Context_receive, Context_add_task. intros H Hc.
  outcome_run; simplify_eq; [done| | |];
    match goal with E : Context_activate _ _ _ = _ |- _ => apply activate_inv in E; [|done] end;
    [done|done|]. by eapply context_inv_tasks.
Qed.

Lemma on_data_inv c sid h c' :
  Context_on_data c sid h = Ok c' ->
  context_inv (sessions_of c) -> context_inv (sessions_of c').
Proof.
  unfold Context_on_data. intros H Hc. outcome_run; simplify_eq.
  apply context_inv_session; [done|].
  match goal with E : deref (cx_active_session_map _ !! _) = _ |- _ =>
    exact (context_inv_lookup _ _ _ Hc E) end.
Qed.

Lemma on_ack_inv c now sid h c' :
  Context_on_ack c now sid h = Ok c' ->
  context_inv (sessions_of c) -> context_inv (sessions_of c').
Proof.
  unfold Context_on_ack, Context_updateWndOnSuccess. intros H Hc. outcome_run; simplify_eq.
  assert (Hr := context_inv_rto _ _ _ (rtt_sample now (ph_ts h)) Hc
                  (rtt_sample_range now (ph_ts h))).
  match goal with
  | Ew : updateWnd _ (si_wnd ?s) _ = Ok ?w, El : deref _ = Ok ?s |- _ =>
      destruct (context_inv_lookup c sid s Hc El) as (Hss & Hts & Hsp);
      apply updateWnd_ssthresh in Ew as [Ew _]
  end.
  match goal with |- context [if ?b then _ else _] => destruct b end;
    (apply context_inv_session; [exact Hr|]); split_and!; cbn; congruence.
Qed.

Lemma process_inv c now wc ret c' :
  Context_processReceivedPacket ibv_post_recv operator_new junk c now wc = Ok (ret, c') ->
  context_inv (sessions_of c) -> context_inv (sessions_of c').
Proof.
  unfold Context_processReceivedPacket. intros H Hc. outcome_run; simplify_eq; try done.
  { apply context_inv_session; [done|].
    match goal with E : deref (cx_active_session_map _ !! _) = _ |- _ =>
      exact (context_inv_lookup _ _ _ Hc E) end. }
  all: match goal with E : Context_submitNormalRecvWR _ _ _ _ = _ |- _ =>
         apply submit_sessions in E as -> end; try done.
  - by eapply on_data_inv.
  - by eapply on_ack_inv.
Qed.

Lemma poll_loop_inv now wcs : forall c c',
  Context_poll_loop ibv_post_recv operator_new junk c now wcs = Ok c' ->
  context_inv (sessions_of c) -> context_inv (sessions_of c').
Proof.
  induction wcs as [|wc wcs IH]; intros c c' H Hc; cbn [Context_poll_loop] in H;
    outcome_run; simplify_eq; [done|].
  apply (IH _ _ H).
  match goal with E : Context_processReceivedPacket _ _ _ _ _ _ = _ |- _ =>
    exact (process_inv _ _ _ _ _ E Hc) end.
Qed.

Lemma poll_inv c now polled ret c' :
  Context_pollCompletedPackets ibv_post_recv operator_new junk c now polled = Ok (ret, c') ->
  context_inv (sessions_of c) -> context_inv (sessions_of c').
Proof.
  unfold Context_pollCompletedPackets. intros H Hc. outcome_run; simplify_eq; [|done].
  by eapply poll_loop_inv.
Qed.

Lemma send_ack_inv c sid r c' :
  Context_send_ack ibv_post_send operator_new c sid = Ok (r, c') ->
  context_inv (sessions_of c) -> context_inv (sessions_of c').
Proof.
  unfold Context_send_ack. intros H Hc. outcome_run; simplify_eq; try done.
  all: match goal with E : deref (cx_active_session_map _ !! _) = Ok _ |- _ =>
         pose proof (context_inv_lookup _ _ _ Hc E) as Hs end.
  all: repeat match goal with
  | H : Context_post_send _ _ _ _ = Ok _ |- _ => apply post_send_sessions in H
  | H : Context_endpoint _ _ = _ |- _ => apply endpoint_sessions in H
  | H : Context_new_request _ _ _ = Ok _ |- _ => apply new_request_sessions in H
  end.
  all: try (by apply context_inv_session).
  all: try (unfold sessions_of at 1; cbn; apply context_inv_session; [|done];
            match goal with |- context_inv (_ ?x, _ ?x, _ ?x) =>
              change (context_inv (sessions_of x)) end).
  all: repeat match goal with H : sessions_of ?a = _ |- context_inv (sessions_of ?a) =>
         rewrite H end.
  all: by apply context_inv_session.
Qed.

Lemma ack_loop_inv sids : forall c ret c',
  Context_ack_loop ibv_post_send operator_new c sids = Ok (ret, c') ->
  context_inv (sessions_of c) -> context_inv (sessions_of c').
Proof.
  induction sids as [|sid sids IH]; intros c ret c' H Hc; cbn [Context_ack_loop] in H;
    outcome_run; simplify_eq; try done;
    match goal with E : Context_send_ack _ _ _ _ = _ |- _ => apply send_ack_inv in E; [|done] end;
    [done|]. by apply (IH _ _ _ H).
Qed.

Lemma run_step_inv c now recv_polled send_polled ret c' :
  Context_runStep ibv_post_send ibv_post_recv operator_new traverse junk c now
    recv_polled send_polled = Ok (ret, c') ->
  context_inv (sessions_of c) -> context_inv (sessions_of c').
Proof.
  unfold Context_runStep, Context_sendAckPackets, Context_sendDataPackets. intros H Hc.
  destruct (Context_pollCompletedPackets _ _ _ c _ _) as [[r1 c1]|] eqn:E1; [|done].
  apply poll_inv in E1; [|done]. cbn in H. destruct (r1 <? 0); [by simplify_eq|].
  destruct (Context_ack_loop _ _ c1 _) as [[r2 c2]|] eqn:E2; [|done].
  apply ack_loop_inv in E2; [|done]. cbn in H.
  destruct (Context_data_loop _ _ c2 _ _) as [[r3 c3]|] eqn:E3; [|done].
  apply data_loop_sessions in E3. rewrite <- E3 in E2. cbn in H.
  destruct (negb (r3 =? 0)); [by simplify_eq|].
  destruct (Context_pollCompletedPackets _ _ _ c3 _ _) as [[r4 c4]|] eqn:E4; [|done].
  apply poll_inv in E4; [|done]. cbn in H. by destruct (r4 <? 0); simplify_eq.
Qed.

Lemma context_step_inv c c' :
  context_step c c' -> context_inv (sessions_of c) -> context_inv (sessions_of c').
Proof.
  intros [c0 peer l ret c1 H|c0 peer l ret c1 H|c0 id|c0 now rp sp ret c1 H|c0 peer local
         |c0 peer attributes ret c1 H|c0 access addr length|c0 addr ret c1 H|c0 m] Hc.
  - by eapply send_inv.
  - by eapply receive_inv.
  - unfold Context_freeTask. destruct (cx_task_map c0 !! id); [|done].
    by eapply context_inv_tasks.
  - by eapply run_step_inv.
  - unfold Context_prepareConnection.
    by destruct (Controller_prepareConnection _ _ _) as [[ret ct] attributes].
  - unfold Context_setupConnection in H. outcome_run. by simplify_eq.
  - unfold Context_registerLocalMemory. by destruct (RdmaContext_registerMemoryRegion _ _ _ _ _).
  - unfold Context_unregisterLocalMemory in H. outcome_run. by simplify_eq.
  - done.
Qed.

(** A context before its first task. *)
Definition context_initial (c : Context) : Prop :=
  cx_active_session_map c = ∅ /\ cx_rto c = Rto_initial Context_rto_config.

Lemma context_inv_reachable c0 c :
  context_initial c0 -> rtc context_step c0 c -> context_inv (sessions_of c).
Proof.
  intros [Hs Hr] Hrun. assert (H0 : context_inv (sessions_of c0)).
  { unfold sessions_of. rewrite Hs, Hr. split; [unfold rto_wf; cbn; lia|apply map_Forall_empty]. }
  clear Hs Hr. induction Hrun as [|c0 c1 c Hstep _ IH]; [done|].
  by apply IH, (context_step_inv c0).
Qed.

(** In every state a context reaches, whatever tasks are submitted and
    whatever packets, acknowledgements, timestamps and clock values it sees, the
    retransmission timer is within [kMinRTO, kMaxRTO]. *)
Theorem context_timer_in_range c0 c :
  context_initial c0 -> rtc context_step c0 c ->
  kMinRTO Context_rto_config <= rt_rto (cx_rto c) <= kMaxRTO Context_rto_config.
Proof. intros H0 Hrun. by destruct (context_inv_reachable c0 c H0 Hrun) as [[_ H] _]. Qed.

(** [C33] The sender's congestion state is never updated on a retransmission.
    [sendDataPackets] works on a copy of the session, so in every state a
    context reaches every session still has the initial slow-start threshold,
    no recorded send time and no sent packet, and a call of [sendDataPackets]
    leaves the sessions, the timer and the tasks exactly as they were, also when
    it retransmits. *)
Theorem congestion_feedback_lost c0 c now ret c' :
  context_initial c0 -> rtc context_step c0 c ->
  Context_sendDataPackets ibv_post_send operator_new traverse c now = Ok (ret, c') ->
  sessions_of c' = sessions_of c /\
  forall sid s, cx_active_session_map c' !! sid = Some s ->
    cw_ssthresh (si_wnd s) = kMinSSThreshValue /\ si_last_send_ts s = 0 /\ si_send_packets s = 0.
Proof.
  intros H0 Hrun H. apply data_loop_sessions in H. split; [done|].
  pose proof (context_inv_reachable c0 c H0 Hrun) as Hc. rewrite <- H in Hc.
  destruct Hc as [_ Hi]. intros sid s Hs. by apply (Hi sid).
Qed.
End reachable.

(** ** A context to evaluate

    One peer "b", eight packets of 256 bytes, a NIC that accepts everything. *)
Definition demo_new (hp : heap) : Z := foldr Z.max 0 ((map_to_list hp).*1) + 1.
Definition demo_traverse (m : gmap Z SessionInfo) : list Z := (map_to_list m).*1.
Definition demo_post (_ : Z) (_ : list ibv_wr) : Z * nat := (0, 0%nat).
Definition demo_junk : PacketHandle := mkPacketHandle 7 7 7 7 7 true true 7 true 7 7 7.
Definition demo_peer : Attributes :=
  <["ext_qp" := ToString [31]]> (<["qp" := ToString [31]]>
    (<["gid" := RdmaContext_gid (repeat 8 16)]> (<["lid" := print_dec 4]> ∅))).
Definition outcome_state {A S : Type} (d : S) (o : outcome (A * S)) : S :=
  match o with Ok (_, s) => s | Trap _ => d end.

Definition demo_start (max_packets : Z) : Context :=
  let c := Context_ctor 256 max_packets 128
             (mkController "mlx5_0" 7 (repeat 9 16) (mkStore ∅ [11] [0] [0] 128 64) [] ∅ ∅ ∅ 0)
             ∅ 1 in
  match PacketManager_construct (fun _ _ => 4096) 0 (cx_packet_manager c) (cx_mem c) with
  | Ok (_, pm, m) => c <| cx_packet_manager := pm |> <| cx_mem := m |>
  | Trap _ => c
  end.
Definition demo_connected (max_packets : Z) : Context :=
  outcome_state (demo_start max_packets)
    (Context_setupConnection (fun _ _ => 1) [] (demo_start max_packets) "b" demo_peer).
Definition demo_run (c : Context) (now : Z) : outcome (Z * Context) :=
  Context_runStep demo_post demo_post demo_new demo_traverse demo_junk c now (Some []) (Some []).
Definition demo_sent : Context :=
  outcome_state (demo_connected 8)
    (Context_send demo_junk (demo_connected 8) "b" [mkBuffer 100000 300]).
Definition demo_flying : Context := outcome_state demo_sent (demo_run demo_sent 10000).
Definition demo_resent : Context := outcome_state demo_flying (demo_run demo_flying 20000).

Lemma demo_reachable :
  rtc (context_step demo_post demo_post demo_new demo_traverse demo_junk (fun _ _ => 1) []
    (fun _ _ _ => None) (fun _ => 0)) (demo_start 8) demo_resent.
Proof.
  apply (rtc_l _ _ (demo_connected 8)); [|apply (rtc_l _ _ demo_sent);
    [|apply (rtc_l _ _ demo_flying); [|apply rtc_once]]].
  - apply (cs_setup _ _ _ _ _ _ _ _ _ _ "b" demo_peer 0). by vm_compute.
  - apply (cs_send _ _ _ _ _ _ _ _ _ _ "b" [mkBuffer 100000 300] 0). by vm_compute.
  - apply (cs_run_step _ _ _ _ _ _ _ _ _ _ 10000 (Some []) (Some []) 0). by vm_compute.
  - apply (cs_run_step _ _ _ _ _ _ _ _ _ _ 20000 (Some []) (Some []) 0). by vm_compute.
Qed.

Lemma context_timer_in_range_witness : 128 <= rt_rto (cx_rto demo_resent) <= 8196.
Proof.
  apply (context_timer_in_range demo_post demo_post demo_new demo_traverse demo_junk
    (fun _ _ => 1) [] (fun _ _ _ => None) (fun _ => 0) (demo_start 8) demo_resent);
    [by split|apply demo_reachable].
Defined.

(** The packet was sent at 10000 and again at 20000 and 30000. *)
Lemma congestion_feedback_lost_witness : exists c',
  Context_sendDataPackets demo_post demo_new demo_traverse demo_resent 30000 = Ok (0, c') /\
  length (cx_posted_send c') = 3%nat /\
  forall sid s, cx_active_session_map c' !! sid = Some s -> si_last_send_ts s = 0.
Proof.
  pose (c' := outcome_state demo_resent
    (Context_sendDataPackets demo_post demo_new demo_traverse demo_resent 30000)).
  exists c'. assert (Hrun : Context_sendDataPackets demo_post demo_new demo_traverse demo_resent
    30000 = Ok (0, c')) by by vm_compute.
  split; [done|]. split; [by vm_compute|]. intros sid s Hs.
  destruct (congestion_feedback_lost demo_post demo_post demo_new demo_traverse demo_junk
    (fun _ _ => 1) [] (fun _ _ _ => None) (fun _ => 0) (demo_start 8) demo_resent 30000 0 c'
    ltac:(by split) demo_reachable Hrun) as [_ Hi].
  by destruct (Hi sid s Hs) as (_ & ? & _).
Defined.

(** ** Error paths *)

(** A failed allocation poisons the session.  When the pool is empty at the
    first task for a peer, [send] reports -1 but leaves an entry in
    [active_session_map_] whose queue pointers are null; the next [send] or
    [receive] for that peer, even after packets are available again, takes the
    entry for a ready one and dereferences a null pointer. *)
Theorem failed_activation_poisons_session junk c peer buffers session :
  Controller_findSession_name (cx_controller c) peer 0 = session -> 0 <= session ->
  cx_active_session_map c !! session = None -> bp_global_free_buffer (cx_pool c) = 0 ->
  exists c', Context_send junk c peer buffers = Ok (ERR, c') /\ cx_task_map c' = cx_task_map c /\
    forall c2 buffers2, cx_controller c2 = cx_controller c' ->
      cx_active_session_map c2 = cx_active_session_map c' ->
      Context_send junk c2 peer buffers2 = Trap TrapNull /\
      Context_receive junk c2 peer buffers2 = Trap TrapNull.
Proof.
  intros Hs Hpos Hnone Hempty. unfold Context_send at 1.
  rewrite Hs, (proj2 (Z.ltb_ge _ _) Hpos).
  unfold Context_activate at 1. rewrite Hnone. unfold PacketBufferPool_allocatePacket.
  rewrite Hempty. cbn. eexists. split; [done|]. split; [done|]. intros c2 buffers2 Hct Hss.
  assert (Hc2 : Controller_findSession_name (cx_controller c2) peer 0 = session)
    by by rewrite Hct.
  assert (Hl : exists info, cx_active_session_map c2 !! session = Some info /\
                            si_send_queue info = None /\ si_receive_queue info = None).
  { rewrite Hss. cbn. rewrite lookup_insert_eq. by eexists. }
  destruct Hl as (info & Hl & Hsq & Hrq).
  unfold Context_send, Context_receive. rewrite Hc2, (proj2 (Z.ltb_ge _ _) Hpos).
  unfold Context_activate. rewrite Hl. cbn. rewrite Hl. cbn. rewrite Hsq, Hrq. done.
Qed.

Lemma failed_activation_poisons_session_witness : exists c',
  Context_send demo_junk (demo_connected 0) "b" [mkBuffer 100000 300] = Ok (ERR, c') /\
  Context_receive demo_junk c' "b" [mkBuffer 100000 300] = Trap TrapNull.
Proof.
  destruct (failed_activation_poisons_session demo_junk (demo_connected 0) "b"
    [mkBuffer 100000 300] 0 ltac:(by vm_compute) ltac:(lia) ltac:(by vm_compute)
    ltac:(by vm_compute)) as (c' & Hrun & _ & Hbad).
  exists c'. split; [done|]. by apply Hbad.
Defined.

(** What a received packet with a GRH decodes to. *)
Lemma deserialize_received h0 addr m imm len :
  addr <> 0 -> sizeof_PktHdr + kGRHSize <= len ->
  exists h, PacketHandle_deserialize (snd (PacketHandle_setRawPacket h0 addr true)) m imm len
              = (0, h) /\
    ph_session h = PktHdrImm_session imm /\ ph_cmd h = PktHdrImm_cmd imm /\
    ph_packet_buf h = addr.
Proof.
  intros Haddr Hlen. unfold PacketHandle_setRawPacket, PacketHandle_deserialize.
  cbn [snd ph_with_grh]. rewrite (proj2 (Z.ltb_ge _ _) Hlen).
  unfold PacketHandle_decode.
  match goal with |- context [ph_packet_buf ?h =? 0] => change (ph_packet_buf h) with addr end.
  rewrite (proj2 (Z.eqb_neq _ _) Haddr). eexists. split; [reflexivity|].
  match goal with |- context [if ?b then _ else _] => by destruct b end.
Qed.

(** A peer can stop the process.  Once a connection is set up, a data or
    acknowledgement packet that arrives before the local application has
    submitted its first task for that session fails an assertion. *)
Theorem early_packet_aborts post_recv new junk c now wc request session :
  cx_heap c !! wc_wr_id wc = Some request -> wc_opcode wc = IBV_WC_RECV ->
  req_addr0 request <> 0 -> sizeof_PktHdr + kGRHSize <= wc_byte_len wc ->
  Controller_findSession_addr (cx_controller c)
    (ld_bytes (cx_mem c) (req_addr0 request + sgid_offset) 16) (wc_src_qp wc)
    (PktHdrImm_session (if wc_with_imm wc then wc_imm_data wc else 0)) = Ok session ->
  0 <= session -> cx_active_session_map c !! session = None ->
  Context_processReceivedPacket post_recv new junk c now wc = Trap TrapAssert.
Proof.
  intros Hreq Hop Haddr Hlen Hfind Hpos Hnone.
  unfold Context_processReceivedPacket. rewrite Hreq. cbn [deref mbind outcome_bind].
  rewrite Hop. set (imm := if wc_with_imm wc then _ else _) in *.
  destruct (deserialize_received (PacketHandle_ctor junk) (req_addr0 request) (cx_mem c) imm
    (wc_byte_len wc) Haddr Hlen) as (h & Hd & Hsession & _ & _).
  destruct (PacketHandle_setRawPacket (PacketHandle_ctor junk) _ true) as [r0 h0] eqn:Hraw.
  injection Hraw as <- <-. cbn [Z.eqb negb snd] in *. rewrite Hd. cbn [Z.eqb negb].
  rewrite Hsession, Hfind. cbn [mbind outcome_bind].
  by rewrite (proj2 (Z.ltb_ge _ _) Hpos), Hnone.
Qed.

(** A data packet from peer "b" in the buffer at 4096, before any task. *)
Definition demo_early : Context :=
  (demo_connected 8) <| cx_heap := <[1 := Request_default <| req_addr0 := 4096 |>]> ∅ |>
    <| cx_mem := st_bytes ∅ (4096 + sgid_offset) (repeat 8 16) |>.

Lemma early_packet_aborts_witness :
  Context_processReceivedPacket demo_post demo_new demo_junk demo_early 10000
    (mkWc 1 true IBV_WC_RECV 0 true 100 31) = Trap TrapAssert.
Proof.
  apply (early_packet_aborts demo_post demo_new demo_junk demo_early 10000
    (mkWc 1 true IBV_WC_RECV 0 true 100 31) (Request_default <| req_addr0 := 4096 |>) 0);
    by vm_compute.
Defined.
