(* ===== verification/Reliable.v ===== *)
(** * The reliable protocol

    Models [RdmaReliableProtocol] of src/protocols/rdma_reliable/impl.{h,cpp}:
    whole buffers are handed to the reliable queue pairs of a peer; a task is the
    list of its work requests, whose status the polling of completion queues
    sets.  Both drivers are modelled: [runStep], called by the application, and
    one iteration of the background worker.

    Tasks are shared objects: a task (and its requests) is destroyed when neither
    the task map nor the worker's variable refers to it any more.  Parameters are
    the verbs, the address [operator new] returns and what polling reports. *)

From S2P Require Import Prelude MemoryRegions Text Packet Tasks RequestCache Posting RcEndpoint.
From S2P Require Import Controller Context.

Inductive RequestType : Type := SEND | RECEIVE.

Record ReliableTask := mkReliableTask {
  rk_type : RequestType;
  rk_id : Z;
  rk_endpoint : option string;
  rk_request_list : list Z
}.
#[export] Instance ReliableTask_fields : Fields ReliableTask := mkFields (fun t =>
  mkReliableTask (rk_type t) (rk_id t) (rk_endpoint t) (rk_request_list t)).

(** A null entry of [task_map_] is [Some None].  The last two members are the
    variables of [runBackgroundWorker]. *)
Record RdmaReliableProtocol := mkReliable {
  rl_valid : bool;
  rl_background_running : bool;
  rl_next_task_id : Z;
  rl_task_map : gmap Z (option ReliableTask);
  rl_pending_task : list Z;
  rl_lid : Z;
  rl_gid : list Z;
  rl_num_qp_per_endpoint : nat;
  rl_max_wr_per_qp : Z;
  rl_memory_region_list : list ibv_mr;
  rl_endpoint_map : gmap string RdmaRCEndPoint;
  rl_spawn_worker : bool;
  rl_heap : heap;
  rl_posted_send : list ibv_wr;
  rl_posted_recv : list ibv_wr;
  rl_task : option ReliableTask;
  rl_inflight_requests : Z
}.
#[export] Instance RdmaReliableProtocol_fields : Fields RdmaReliableProtocol := mkFields (fun p =>
  mkReliable (rl_valid p) (rl_background_running p) (rl_next_task_id p) (rl_task_map p) (rl_pending_task p) (rl_lid p) (rl_gid p)
    (rl_num_qp_per_endpoint p) (rl_max_wr_per_qp p) (rl_memory_region_list p) (rl_endpoint_map p)
    (rl_spawn_worker p) (rl_heap p) (rl_posted_send p) (rl_posted_recv p) (rl_task p)
    (rl_inflight_requests p)).

(** [~Task] *)
Definition delete_requests (hp : heap) (l : list Z) : heap := foldl (fun hp r => delete r hp) hp l.

(** Dropping the reference the map has to task [id]. *)
Definition rl_erase (p : RdmaReliableProtocol) (id : Z) : RdmaReliableProtocol :=
  let p1 := p <| rl_task_map := delete id (rl_task_map p) |> in
  match rl_task_map p !! id with
  | Some (Some t) =>
      let held := match rl_task p with Some t' => rk_id t' =? rk_id t | None => false end in
      if held then p1 else p1 <| rl_heap := delete_requests (rl_heap p) (rk_request_list t) |>
  | _ => p1
  end.

(** The constructor; the configuration comes with the context. *)
Definition RdmaReliableProtocol_ctor (num_qp_per_endpoint : nat) (max_wr_per_qp : Z)
    (spawn_worker : bool) : RdmaReliableProtocol :=
  mkReliable false false 0 ∅ [] 0 [] num_qp_per_endpoint max_wr_per_qp [] ∅ spawn_worker ∅ [] [] None 0.

Section reliable.
Variable ibv_create_qp : nat -> option Z.
Variable ibv_destroy_qp : ibv_qp -> Z.
Variable ibv_modify_qp : ibv_qp -> qp_state_t -> Z.
Variable ibv_post_send : Z -> list ibv_wr -> Z * nat.
Variable ibv_post_recv : Z -> list ibv_wr -> Z * nat.
Variable operator_new : heap -> Z.
Variable junk_gid : list Z.

(** ** Construction *)

(** [device] is what opening the device gives: a code, and the LID and GID of the
    port. *)
Definition RdmaReliableProtocol_construct (p : RdmaReliableProtocol) (device : Z * (Z * list Z))
  : Z * RdmaReliableProtocol :=
  let '(ret, (lid, gid)) := device in
  if negb (ret =? 0) then (ret, p)
  else
    let p1 := p <| rl_lid := lid |> <| rl_gid := gid |> in
    let p2 := if rl_spawn_worker p1 then p1 <| rl_background_running := true |> else p1 in
    (0, p2 <| rl_valid := true |>).

(** [endpoint_map_.clear()]: the destructor of every endpoint. *)
Definition RdmaRCEndPointStore_deconstruct (s : gmap string RdmaRCEndPoint) : outcome unit :=
  foldl (fun acc x => _ ← acc; RdmaRCEndPoint_dtor ibv_destroy_qp x.2) (Ok tt) (map_to_list s).

(** Tasks go with the map that holds them and with the worker that held one. *)
Definition rl_clear_tasks (p : RdmaReliableProtocol) : RdmaReliableProtocol :=
  let tasks := (omap snd (map_to_list (rl_task_map p))) ++ option_list (rl_task p) in
  p <| rl_heap := foldl (fun hp t => delete_requests hp (rk_request_list t)) (rl_heap p) tasks |>
    <| rl_task_map := ∅ |> <| rl_task := None |>.

Definition RdmaReliableProtocol_deconstruct (p : RdmaReliableProtocol)
  : outcome (Z * RdmaReliableProtocol) :=
  if negb (rl_valid p) then Ok (0, p)
  else
    let p1 := if rl_spawn_worker p then p <| rl_background_running := false |> else p in
    let p2 := rl_clear_tasks p1 <| rl_pending_task := [] |> in
    _ ← RdmaRCEndPointStore_deconstruct (rl_endpoint_map p2);
    Ok (0, p2 <| rl_endpoint_map := ∅ |> <| rl_memory_region_list := [] |> <| rl_valid := false |>).

(** ** Connections *)
Definition rl_endpoint (p : RdmaReliableProtocol) (peer_name : string)
  : outcome (option RdmaRCEndPoint * RdmaReliableProtocol) :=
  '(e, s) ← RdmaRCEndPointStore_getOrCreateEndpoint ibv_create_qp ibv_destroy_qp
              (rl_endpoint_map p) (rl_num_qp_per_endpoint p) (rl_max_wr_per_qp p) peer_name;
  Ok (e, p <| rl_endpoint_map := s |>).

Definition RdmaReliableProtocol_prepareConnection (p : RdmaReliableProtocol) (peer_name : string)
    (local : Attributes) : outcome (Z * RdmaReliableProtocol * Attributes) :=
  '(e, p1) ← rl_endpoint p peer_name;
  match e with
  | None => Ok (ERR, p1, local)
  | Some endpoint =>
      qps ← RdmaRCEndPoint_qpNum endpoint;
      Ok (0, p1, <["qp" := ToString qps]>
                 (<["gid" := RdmaContext_gid (rl_gid p)]>
                 (<["lid" := print_dec (rl_lid p)]> local)))
  end.

Definition RdmaReliableProtocol_setupConnection (p : RdmaReliableProtocol) (peer_name : string)
    (peer : Attributes) : outcome (Z * RdmaReliableProtocol) :=
  '(e, p1) ← rl_endpoint p peer_name;
  match e with
  | None => Ok (ERR, p1)
  | Some endpoint =>
      match peer !! "lid", peer !! "gid", peer !! "qp" with
      | Some lid_text, Some gid, Some qp =>
          lid ← stoi lid_text;
          qp_num_list ← FromString qp;
          '(ret, endpoint') ← RdmaRCEndPoint_setupConnection ibv_modify_qp endpoint
             (default junk_gid (parse_gid gid)) (u16 lid) qp_num_list;
          Ok (ret, p1 <| rl_endpoint_map := <[peer_name := endpoint']> (rl_endpoint_map p1) |>)
      | _, _, _ => Ok (ERR, p1)
      end
  end.

(** ** Tasks *)
Definition RdmaReliableProtocol_allocateTask (p : RdmaReliableProtocol) (type : RequestType)
  : ReliableTask * RdmaReliableProtocol :=
  let task_id := rl_next_task_id p in
  let task := mkReliableTask type task_id None [] in
  let p1 := rl_erase p task_id in
  (task, p1 <| rl_next_task_id := i32 (task_id + 1) |>
            <| rl_task_map := <[task_id := Some task]> (rl_task_map p1) |>).

Definition RdmaReliableProtocol_freeTask (p : RdmaReliableProtocol) (task_id : Z)
  : Z * RdmaReliableProtocol := (0, rl_erase p task_id).

(** The loop of [send] and [receive]: a request per buffer, until one is not
    registered. *)
Fixpoint build_requests (mrs : list ibv_mr) (hp : heap) (buffer_list : list Buffer)
  : bool * list Z * heap :=
  match buffer_list with
  | [] => (true, [], hp)
  | b :: buffer_list =>
      let lkey := fst (RdmaContext_key mrs (buf_addr b)) in
      if lkey =? 0 then (false, [], hp)
      else
        let request := operator_new hp in
        let r := Request_default <| req_addr0 := buf_addr b |> <| req_length0 := buf_length b |>
                   <| req_lkey0 := lkey |> <| req_status := PENDING |> in
        let '(ok, l, hp') := build_requests mrs (<[request := r]> hp) buffer_list in
        (ok, request :: l, hp')
  end.

(** [send] and [receive] differ in the type of the task. *)
Definition RdmaReliableProtocol_submit (type : RequestType) (p : RdmaReliableProtocol)
    (peer_name : string) (buffer_list : list Buffer) : outcome (Z * RdmaReliableProtocol) :=
  let '(task0, p1) := RdmaReliableProtocol_allocateTask p type in
  let '(ok, l, hp) := build_requests (rl_memory_region_list p1) (rl_heap p1) buffer_list in
  let task := task0 <| rk_request_list := l |> in
  let p2 := p1 <| rl_heap := hp |>
               <| rl_task_map := <[rk_id task := Some task]> (rl_task_map p1) |> in
  if negb ok then Ok (ERR, (RdmaReliableProtocol_freeTask p2 (rk_id task)).2)
  else
    '(e, p3) ← rl_endpoint p2 peer_name;
    match e with
    | Some endpoint =>
        if RdmaRCEndPoint_connected endpoint
        then Ok (rk_id task,
                 p3 <| rl_task_map := <[rk_id task := Some (task <| rk_endpoint := Some peer_name |>)]>
                         (rl_task_map p3) |>
                    <| rl_pending_task := rl_pending_task p3 ++ [rk_id task] |>)
        else Ok (ERR, (RdmaReliableProtocol_freeTask p3 (rk_id task)).2)
    | None => Ok (ERR, (RdmaReliableProtocol_freeTask p3 (rk_id task)).2)
    end.
Definition RdmaReliableProtocol_send := RdmaReliableProtocol_submit SEND.
Definition RdmaReliableProtocol_receive := RdmaReliableProtocol_submit RECEIVE.

(** [getTaskById]: a null entry counts as absent. *)
Definition RdmaReliableProtocol_getTaskById (p : RdmaReliableProtocol) (task_id : Z)
  : option ReliableTask := mjoin (rl_task_map p !! task_id).

(** The loop of [getStatus]: the summary and the bytes transferred. *)
Fixpoint status_loop (hp : heap) (l : list Z) (summary : Status) (bytes : Z)
  : outcome (Status * Z) :=
  match l with
  | [] => Ok (summary, bytes)
  | request :: l =>
      entry ← deref (hp !! request);
      let bytes' := if bool_decide (req_status entry = SUCCESS)
                    then u64 (u64 (bytes + req_length0 entry) + req_length1 entry) else bytes in
      let s1 := if bool_decide (req_status entry = PENDING) && bool_decide (summary = SUCCESS)
                then PENDING else summary in
      let s2 := if bool_decide (req_status entry = FAILED) then FAILED else s1 in
      status_loop hp l s2 bytes'
  end.
Definition RdmaReliableProtocol_getStatus (p : RdmaReliableProtocol) (task_id : Z)
  : outcome (Status * Z) :=
  match RdmaReliableProtocol_getTaskById p task_id with
  | None => Ok (UNKNOWN, 0)
  | Some task => status_loop (rl_heap p) (rk_request_list task) SUCCESS 0
  end.

(** ** Posting and polling *)

(** The body of [if (task && ...)]: post the task, mark what was not posted as
    failed.  Returns the number of requests posted. *)
Definition rl_post_task (p : RdmaReliableProtocol) (task : ReliableTask)
  : outcome (Z * RdmaReliableProtocol) :=
  path ← deref (rk_endpoint task);
  e ← deref (rl_endpoint_map p !! path);
  '(ret, e', hp, posted) ←
    (match rk_type task with
     | SEND => RdmaRCEndPoint_postSendRequest ibv_post_send path e (rl_heap p) (rk_request_list task)
     | RECEIVE => RdmaRCEndPoint_postReceiveRequest ibv_post_recv path e (rl_heap p)
                    (rk_request_list task)
     end);
  let p1 := p <| rl_endpoint_map := <[path := e']> (rl_endpoint_map p) |> in
  let p2 := match rk_type task with
            | SEND => p1 <| rl_posted_send := rl_posted_send p ++ posted |>
            | RECEIVE => p1 <| rl_posted_recv := rl_posted_recv p ++ posted |>
            end in
  if ret <? 0 then Ok (ret, p2 <| rl_heap := set_failed hp (rk_request_list task) |>)
  else Ok (ret, p2 <| rl_heap := set_failed hp (drop (Z.to_nat ret) (rk_request_list task)) |>).

(** [task = task_map_[pending_task_.front()]; pending_task_.pop()] *)
Definition rl_take_task (p : RdmaReliableProtocol) : option ReliableTask * RdmaReliableProtocol :=
  match rl_pending_task p with
  | [] => (None, p)
  | id :: pending =>
      let entry := default None (rl_task_map p !! id) in
      (entry, p <| rl_pending_task := pending |>
                <| rl_task_map := <[id := entry]> (rl_task_map p) |>)
  end.

(** [__sync_fetch_and_sub(request->qp_depth, 1)] *)
Definition rl_release_depth (p : RdmaReliableProtocol) (r : Request) : outcome RdmaReliableProtocol :=
  match req_qp_depth r with
  | Some (RcDepth path side qp_index) =>
      e ← deref (rl_endpoint_map p !! path);
      let depths := if side then rc_send_wr_depth_list e else rc_recv_wr_depth_list e in
      d ← vec_at depths (Z.to_nat qp_index);
      let depths' := <[Z.to_nat qp_index := i32 (d - 1)]> depths in
      let e' := if side then e <| rc_send_wr_depth_list := depths' |>
                else e <| rc_recv_wr_depth_list := depths' |> in
      Ok (p <| rl_endpoint_map := <[path := e']> (rl_endpoint_map p) |>)
  | Some _ => Ok p
  | None => Trap TrapNull
  end.

(** The loop of [poll]: identifier and success of every completion. *)
Fixpoint rl_poll_loop (p : RdmaReliableProtocol) (wcs : list (Z * bool))
  : outcome RdmaReliableProtocol :=
  match wcs with
  | [] => Ok p
  | (wr_id, success) :: wcs =>
      request ← deref (rl_heap p !! wr_id);
      p1 ← rl_release_depth p request;
      rl_poll_loop (p1 <| rl_heap := <[wr_id := request <| req_status :=
                      if success then SUCCESS else FAILED |>]> (rl_heap p1) |>) wcs
  end.
Definition RdmaReliableProtocol_poll (p : RdmaReliableProtocol)
    (polled : option (list (Z * bool))) : outcome (Z * RdmaReliableProtocol) :=
  match polled with
  | None => Ok (ERR, p)
  | Some wcs => p' ← rl_poll_loop p wcs; Ok (Z.of_nat (length wcs), p')
  end.

(** The first half of [runStep]: take a task and post it.  One with more requests
    than a queue pair holds is taken and not posted. *)
Definition rl_post_phase (p : RdmaReliableProtocol) : outcome RdmaReliableProtocol :=
  let '(task, p1) := rl_take_task p in
  match task with
  | Some t =>
      if Z.of_nat (length (rk_request_list t)) <=? rl_max_wr_per_qp p1
      then '(_, p2) ← rl_post_task p1 t; Ok p2
      else Ok p1
  | None => Ok p1
  end.

Definition RdmaReliableProtocol_runStep (p : RdmaReliableProtocol)
    (send_polled recv_polled : option (list (Z * bool))) : outcome (Z * RdmaReliableProtocol) :=
  if rl_spawn_worker p then Ok (0, p)
  else
    p2 ← rl_post_phase p;
    '(_, p3) ← RdmaReliableProtocol_poll p2 send_polled;
    '(_, p4) ← RdmaReliableProtocol_poll p3 recv_polled;
    Ok (0, p4).

(** [task = nullptr] in the worker: the last reference destroys the task. *)
Definition rl_drop_task (p : RdmaReliableProtocol) (t : ReliableTask) : RdmaReliableProtocol :=
  let p1 := p <| rl_task := None |> in
  match rl_task_map p !! rk_id t with
  | Some (Some _) => p1
  | _ => p1 <| rl_heap := delete_requests (rl_heap p) (rk_request_list t) |>
  end.

Definition rl_worker_poll (p : RdmaReliableProtocol) (polled : option (list (Z * bool)))
  : outcome RdmaReliableProtocol :=
  '(ret, p1) ← RdmaReliableProtocol_poll p polled;
  Ok (if 0 <? ret then p1 <| rl_inflight_requests := u64 (rl_inflight_requests p1 - ret) |> else p1).

(** One iteration of the loop of [runBackgroundWorker]. *)
Definition rl_worker_iteration (p : RdmaReliableProtocol)
    (send_polled recv_polled : option (list (Z * bool))) : outcome RdmaReliableProtocol :=
  let p1 := match rl_task p with
            | Some _ => p
            | None => let '(task, p') := rl_take_task p in p' <| rl_task := task |>
            end in
  p2 ← (match rl_task p1 with
        | Some t =>
            if u64 (rl_inflight_requests p1 + Z.of_nat (length (rk_request_list t)))
                 <=? rl_max_wr_per_qp p1
            then
              '(ret, p2) ← rl_post_task p1 t;
              Ok (rl_drop_task
                    (if ret <? 0 then p2
                     else p2 <| rl_inflight_requests := u64 (rl_inflight_requests p2 + ret) |>) t)
            else Ok p1
        | None => Ok p1
        end);
  p3 ← rl_worker_poll p2 send_polled;
  rl_worker_poll p3 recv_polled.

Definition RdmaReliableProtocol_registerLocalMemory (ibv_reg_mr : Z -> Z -> Z -> option ibv_mr)
    (access : Z) (p : RdmaReliableProtocol) (addr length : Z) : Z * RdmaReliableProtocol :=
  let '(ret, mrs) := RdmaContext_registerMemoryRegion ibv_reg_mr (rl_memory_region_list p)
                       addr length access in
  (ret, p <| rl_memory_region_list := mrs |>).
Definition RdmaReliableProtocol_unregisterLocalMemory (ibv_dereg_mr : ibv_mr -> Z)
    (p : RdmaReliableProtocol) (addr : Z) : outcome (Z * RdmaReliableProtocol) :=
  '(ret, mrs) ← RdmaContext_unregisterMemoryRegion ibv_dereg_mr (rl_memory_region_list p) addr;
  Ok (ret, p <| rl_memory_region_list := mrs |>).
End reliable.

(** ** A task that does not fit *)

(** Polling leaves the queue of tasks and what was posted alone. *)
Definition rl_work (p : RdmaReliableProtocol)
  : option ReliableTask * list Z * list ibv_wr * list ibv_wr * Z :=
  (rl_task p, rl_pending_task p, rl_posted_send p, rl_posted_recv p, rl_max_wr_per_qp p).

Lemma release_depth_work p r p' : rl_release_depth p r = Ok p' -> rl_work p' = rl_work p.
Proof. unfold rl_release_depth. intros H. outcome_run; by simplify_eq. Qed.

Lemma poll_loop_work wcs : forall p p', rl_poll_loop p wcs = Ok p' -> rl_work p' = rl_work p.
Proof.
  induction wcs as [|[id ok] wcs IH]; intros p p' H; cbn [rl_poll_loop] in H; [by simplify_eq|].
  outcome_inv. apply IH in H. rewrite H. cbn.
  match goal with E : rl_release_depth _ _ = Ok _ |- _ => apply release_depth_work in E; exact E end.
Qed.

Lemma worker_poll_work p polled p' :
  rl_worker_poll p polled = Ok p' ->
  rl_work p' = rl_work p.
Proof.
  unfold rl_worker_poll, RdmaReliableProtocol_poll. intros H.
  destruct polled as [wcs|]; cbn in H; [|by simplify_eq]. outcome_run. simplify_eq.
  match goal with E : rl_poll_loop _ _ = Ok _ |- _ => apply poll_loop_work in E end.
  by destruct (0 <? _).
Qed.

(** A task with more requests than a queue pair holds is never carried out.
    [runStep] takes it from the queue and drops it: nothing is posted and its
    requests stay as they are, pending for ever, while [getStatus] keeps
    answering.  The background worker keeps it as its current task: whatever
    completes, no iteration posts anything or takes another task, so every later
    task waits for ever too. *)
Theorem oversized_task_never_posted post_send post_recv p tid pending t :
  Z.of_nat (length (rk_request_list t)) < 0x8000000000000000 ->
  0 <= rl_max_wr_per_qp p < Z.of_nat (length (rk_request_list t)) ->
  (rl_pending_task p = tid :: pending -> rl_task_map p !! tid = Some (Some t) ->
     exists p', rl_post_phase post_send post_recv p = Ok p' /\
       rl_pending_task p' = pending /\ rl_heap p' = rl_heap p /\
       rl_posted_send p' = rl_posted_send p /\ rl_posted_recv p' = rl_posted_recv p /\
       RdmaReliableProtocol_getStatus p' tid = RdmaReliableProtocol_getStatus p tid) /\
  (forall p', rl_task p = Some t ->
     rtc (fun a b => exists sp rp, 0 <= rl_inflight_requests a <= 0x8000000000000000 /\
            rl_worker_iteration post_send post_recv a sp rp = Ok b) p p' ->
     rl_work p' = rl_work p).
Proof.
  intros Hlen Hmax. split.
  - intros Hp Hid. unfold rl_post_phase, rl_take_task. rewrite Hp, Hid. cbn [default from_option id].
    cbn [rl_max_wr_per_qp field_set]. rewrite (proj2 (Z.leb_gt _ _)) by (cbn; lia).
    eexists. split; [done|]. split_and!; try done.
    unfold RdmaReliableProtocol_getStatus, RdmaReliableProtocol_getTaskById. cbn.
    by rewrite lookup_insert_eq, Hid.
  - intros p' Ht Hrun. induction Hrun as [p|p p1 p2 (sp & rp & Hb & Hstep) _ IH]; [done|].
    assert (Hw : rl_work p1 = rl_work p).
    { unfold rl_worker_iteration in Hstep. rewrite Ht in Hstep. cbn in Hstep. rewrite Ht in Hstep.
      rewrite (proj2 (Z.leb_gt _ _)) in Hstep by (rewrite u64_small; word_unfold; lia).
      cbn in Hstep. outcome_inv.
      match goal with E : rl_worker_poll p _ = Ok _ |- _ => apply worker_poll_work in E end.
      apply worker_poll_work in Hstep. congruence. }
    rewrite <- Hw. unfold rl_work in Hw. injection Hw as Hwt Hwp Hws Hwr Hwm.
    apply IH; [lia|congruence].
Qed.

(** Two requests and a queue pair for one. *)
Definition demo_pair : ReliableTask := mkReliableTask SEND 0 (Some "b:1") [10; 20].
Definition demo_small : RdmaReliableProtocol :=
  (RdmaReliableProtocol_ctor 1 1 false) <| rl_heap := <[10 := Request_default]> (<[20 := Request_default]> ∅) |>
    <| rl_task_map := <[0 := Some demo_pair]> ∅ |> <| rl_pending_task := [0] |>.
Lemma oversized_task_never_posted_witness :
  exists p', rl_post_phase (fun _ _ => (0, 0%nat)) (fun _ _ => (0, 0%nat)) demo_small = Ok p' /\
    rl_pending_task p' = [] /\ rl_posted_send p' = [] /\
    RdmaReliableProtocol_getStatus p' 0 = RdmaReliableProtocol_getStatus demo_small 0.
Proof.
  destruct (oversized_task_never_posted (fun _ _ => (0, 0%nat)) (fun _ _ => (0, 0%nat)) demo_small 0 []
    demo_pair) as [H _]; [cbn; lia|cbn; lia|].
  destruct H as (p' & Hrun & Hp & _ & Hs & _ & Hst); [done|vm_compute; reflexivity|].
  exists p'. split_and!; [exact Hrun|exact Hp|exact Hs|exact Hst].
Defined.

(** ** Freeing a task whose requests are in flight *)
Lemma lookup_delete_requests l : forall hp k,
  delete_requests hp l !! k = if decide (k ∈ l) then None else hp !! k.
Proof.
  unfold delete_requests. induction l as [|r l IH]; intros hp k; cbn.
  { by rewrite decide_False by apply not_elem_of_nil. }
  rewrite IH. destruct (decide (k ∈ l)); [by rewrite decide_True by (apply elem_of_cons; by right)|].
  destruct (decide (k = r)) as [->|Hne].
  - rewrite decide_True by (apply elem_of_cons; by left). apply lookup_delete_eq.
  - rewrite decide_False by (by apply not_elem_of_cons). by apply lookup_delete_ne.
Qed.

(** [freeTask] on a task whose requests the NIC still has destroys them: the
    completion of one of them then refers to a request that no longer exists. *)
Theorem free_inflight_task_crashes p id t r success wcs :
  rl_task p = None -> rl_task_map p !! id = Some (Some t) -> r ∈ rk_request_list t ->
  RdmaReliableProtocol_poll (RdmaReliableProtocol_freeTask p id).2 (Some ((r, success) :: wcs))
    = Trap TrapNull.
Proof.
  intros Ht Hid Hr. unfold RdmaReliableProtocol_freeTask, rl_erase. rewrite Hid, Ht. cbn.
  rewrite lookup_delete_requests, decide_True by done. done.
Qed.

Lemma free_inflight_task_crashes_witness :
  RdmaReliableProtocol_poll (RdmaReliableProtocol_freeTask demo_small 0).2 (Some [(20, true)])
    = Trap TrapNull.
Proof.
  apply (free_inflight_task_crashes demo_small 0 demo_pair 20 true []);
    [reflexivity|vm_compute; reflexivity|cbn; set_solver].
Defined.
