(* ===== verification/ReliableSafety.v ===== *)
(** * Memory safety of the reliable protocol

    The states [RdmaReliableProtocol] (Reliable.v) reaches through calls of the
    application, [runStep]'s two halves and completions of posted requests, and
    that in none of them it touches a request that is gone, a null pointer or a
    counter out of range, as long as the application frees a task only when none
    of its requests is in flight.

    The step relation carries the requests the NIC has: posting adds the ones it
    accepted, a completion removes one. *)

From S2P Require Import Prelude MemoryRegions Text Packet Tasks RequestCache Posting RcEndpoint.
From S2P Require Import Controller Context Reliable.

(** ** Counting requests in flight *)
Definition counts (hp : heap) (path : string) (side : bool) (r : Z) : Prop :=
  exists req, hp !! r = Some req /\ req_qp_depth req = Some (RcDepth path side 0).
#[export] Instance counts_dec hp path side r : Decision (counts hp path side r).
Proof.
  destruct (hp !! r) as [req|] eqn:Hr.
  - destruct (decide (req_qp_depth req = Some (RcDepth path side 0))) as [H|H].
    + left. by exists req.
    + right. intros (req' & Hr' & H'). congruence.
  - right. intros (req' & Hr' & _). congruence.
Defined.
Definition in_flight (hp : heap) (path : string) (side : bool) (out : list Z) : Z :=
  Z.of_nat (length (filter (counts hp path side) out)).

Lemma in_flight_cons hp path side r out :
  in_flight hp path side (r :: out) =
    (if decide (counts hp path side r) then 1 else 0) + in_flight hp path side out.
Proof. unfold in_flight. rewrite filter_cons. destruct (decide _); cbn [length]; lia. Qed.

Lemma in_flight_app hp path side out l :
  in_flight hp path side (out ++ l) = in_flight hp path side out + in_flight hp path side l.
Proof. unfold in_flight. rewrite filter_app, length_app. lia. Qed.

Lemma in_flight_iff hp hp' path side out :
  (forall r, r ∈ out -> counts hp' path side r <-> counts hp path side r) ->
  in_flight hp' path side out = in_flight hp path side out.
Proof.
  induction out as [|r out IH]; intros Heq; [done|]. rewrite !in_flight_cons.
  rewrite IH by (intros x Hx; apply Heq; set_solver).
  pose proof (Heq r ltac:(set_solver)). f_equal.
  destruct (decide _), (decide _); tauto.
Qed.

Lemma in_flight_all hp path side l :
  (forall r, r ∈ l -> counts hp path side r) -> in_flight hp path side l = Z.of_nat (length l).
Proof.
  induction l as [|r l IH]; intros Hl; [done|]. rewrite in_flight_cons, IH by set_solver.
  rewrite decide_True by set_solver. cbn [length]. lia.
Qed.

Lemma in_flight_none hp path side l :
  (forall r, r ∈ l -> ~ counts hp path side r) -> in_flight hp path side l = 0.
Proof.
  induction l as [|r l IH]; intros Hl; [done|]. rewrite in_flight_cons, IH by set_solver.
  rewrite decide_False by set_solver. lia.
Qed.

Lemma in_flight_remove hp path side out id :
  NoDup out -> id ∈ out ->
  in_flight hp path side out =
    (if decide (counts hp path side id) then 1 else 0)
      + in_flight hp path side (filter (fun r => r <> id) out).
Proof.
  induction out as [|r out IH]; intros Hnd Hid; [set_solver|].
  apply NoDup_cons in Hnd as [Hr Hnd]. rewrite filter_cons, in_flight_cons.
  destruct (decide (r <> id)) as [Hne|He].
  - rewrite in_flight_cons, IH; [lia|done|set_solver].
  - apply dec_stable in He as ->. f_equal. f_equal. symmetry.
    clear -Hr. induction out as [|x out IH]; [done|]. rewrite filter_cons, decide_True by set_solver.
    f_equal. apply IH. set_solver.
Qed.

Lemma in_flight_nonneg hp path side out : 0 <= in_flight hp path side out.
Proof. unfold in_flight. lia. Qed.

Lemma counts_eq hp hp' path side r :
  hp' !! r = hp !! r -> counts hp' path side r <-> counts hp path side r.
Proof. unfold counts. by intros ->. Qed.

(** ** The invariant *)
Definition rc_depths (side : bool) (e : RdmaRCEndPoint) : list Z :=
  if side then rc_send_wr_depth_list e else rc_recv_wr_depth_list e.

(** The first counter of each side of an endpoint is the number of its requests
    in flight, which fits a queue pair. *)
Record endpoint_ok (max : Z) (hp : heap) (out : list Z) (path : string) (e : RdmaRCEndPoint)
  : Prop := {
  eo_qps : rc_qp_list e <> [] /\ Forall is_Some (rc_qp_list e);
  eo_max : rc_max_wr_depth e = max;
  eo_depth : forall side, rc_depths side e !! 0%nat = Some (in_flight hp path side out) /\
    in_flight hp path side out <= max
}.

Record task_ok (p : RdmaReliableProtocol) (id : Z) (t : ReliableTask) : Prop := {
  tk_is : rk_id t = id;
  tk_old : id < rl_next_task_id p;
  tk_live : Forall (fun r => is_Some (rl_heap p !! r)) (rk_request_list t);
  tk_nodup : NoDup (rk_request_list t)
}.

Record rl_inv (p : RdmaReliableProtocol) (out : list Z) : Prop := {
  rv_mode : rl_spawn_worker p = false /\ rl_task p = None;
  rv_max : 0 <= rl_max_wr_per_qp p < 0x80000000 /\ (0 < rl_num_qp_per_endpoint p)%nat;
  rv_eps : forall path e, rl_endpoint_map p !! path = Some e ->
    endpoint_ok (rl_max_wr_per_qp p) (rl_heap p) out path e;
  rv_out : NoDup out;
  rv_flying : forall r, r ∈ out -> exists path side,
    counts (rl_heap p) path side r /\ is_Some (rl_endpoint_map p !! path);
  rv_tasks : forall id t, rl_task_map p !! id = Some (Some t) -> task_ok p id t;
  rv_apart : forall i j t u r, i <> j -> rl_task_map p !! i = Some (Some t) ->
    rl_task_map p !! j = Some (Some u) -> r ∈ rk_request_list t -> r ∉ rk_request_list u;
  rv_pending : NoDup (rl_pending_task p) /\
    forall id, id ∈ rl_pending_task p -> id < rl_next_task_id p;
  rv_waiting : forall id t, id ∈ rl_pending_task p -> rl_task_map p !! id = Some (Some t) ->
    (exists path, rk_endpoint t = Some path /\ is_Some (rl_endpoint_map p !! path)) /\
    forall r, r ∈ rk_request_list t -> r ∉ out;
  rv_next : 0 <= rl_next_task_id p
}.

(** Heaps that agree on what is in flight count alike. *)
Lemma endpoint_ok_heap max hp hp' out path e :
  (forall r, r ∈ out -> hp' !! r = hp !! r) ->
  endpoint_ok max hp out path e -> endpoint_ok max hp' out path e.
Proof.
  intros Heq [Hq Hm Hd]. split; [done|done|]. intros side.
  rewrite (in_flight_iff hp hp') by (intros r Hr; by apply counts_eq, Heq). apply Hd.
Qed.

Section steps.
Variable ibv_create_qp : nat -> option Z.
Variable ibv_destroy_qp : ibv_qp -> Z.
Variable ibv_modify_qp : ibv_qp -> qp_state_t -> Z.
Variable ibv_post_send : Z -> list ibv_wr -> Z * nat.
Variable ibv_post_recv : Z -> list ibv_wr -> Z * nat.
Variable operator_new : heap -> Z.
Variable junk_gid : list Z.

(** [operator new] returns memory that is not in use; the device has the queue
    pairs the configuration asks for; a failing post reports a request of the
    list. *)
Hypothesis new_fresh : forall hp : heap, hp !! operator_new hp = None.
Hypothesis create_succeeds : forall i, is_Some (ibv_create_qp i).
Hypothesis post_send_bad : forall qp wrs, wrs <> [] -> fst (ibv_post_send qp wrs) <> 0 ->
  (snd (ibv_post_send qp wrs) < length wrs)%nat.
Hypothesis post_recv_bad : forall qp wrs, wrs <> [] -> fst (ibv_post_recv qp wrs) <> 0 ->
  (snd (ibv_post_recv qp wrs) < length wrs)%nat.

(** ** Endpoints *)
Lemma create_qps_ok n : forall i, exists l,
  create_qps ibv_create_qp n i = (true, l) /\ length l = n /\ Forall is_Some l.
Proof.
  induction n as [|n IH]; intros i; cbn; [by exists []|].
  destruct (create_succeeds i) as [num ->]. destruct (IH (S i)) as (l & -> & Hl & Hall).
  eexists. split; [done|]. split; [cbn; lia|]. constructor; [by eexists|done].
Qed.

(** Looking up or creating an endpoint. *)
Lemma endpoint_inv p out path :
  rl_inv p out -> exists e p',
    rl_endpoint ibv_create_qp ibv_destroy_qp p path = Ok (e, p') /\ rl_inv p' out /\
    (exists s, p' = p <| rl_endpoint_map := s |> /\ rl_endpoint_map p ⊆ s) /\
    (forall x, e = Some x -> rl_endpoint_map p' !! path = Some x).
Proof.
  intros Hinv. pose proof Hinv as [Hmode [Hmax Hnum] Heps Hout Hfly Htasks Hapart Hpend Hwait Hnext].
  unfold rl_endpoint, RdmaRCEndPointStore_getOrCreateEndpoint.
  assert (Hsame : p <| rl_endpoint_map := rl_endpoint_map p |> = p) by (by destruct p).
  destruct (String.eqb path "").
  { eexists _, _. split; [done|]. rewrite Hsame. split_and!; [done| |done].
    exists (rl_endpoint_map p). by rewrite Hsame. }
  destruct (rl_endpoint_map p !! path) as [e|] eqn:He.
  { eexists _, _. split; [done|]. rewrite Hsame. split_and!; [done| |by intros x [= <-]].
    exists (rl_endpoint_map p). by rewrite Hsame. }
  unfold RdmaRCEndPoint_construct. cbn [RdmaRCEndPoint_ctor rc_status_].
  destruct (create_qps_ok (rl_num_qp_per_endpoint p) 0) as (l & -> & Hl & Hall).
  cbn [negb Z.eqb mbind outcome_bind]. set (e := _ <| rc_status_ := _ |>).
  eexists _, _. split; [done|]. split_and!.
  2: { eexists. split; [done|]. by apply insert_subseteq. }
  2: { intros x [= <-]. apply lookup_insert_eq. }
  assert (Hmono : forall q, is_Some (rl_endpoint_map p !! q) ->
            is_Some (<[path := e]> (rl_endpoint_map p) !! q)).
  { intros q Hq. destruct (decide (q = path)) as [->|Hne];
      [rewrite lookup_insert_eq; by eexists|by rewrite lookup_insert_ne]. }
  constructor; cbn; try done.
  - intros q e' Hq. destruct (decide (q = path)) as [->|Hne].
    + rewrite lookup_insert_eq in Hq. injection Hq as <-.
      assert (Hzero : forall side, in_flight (rl_heap p) path side out = 0).
      { intros side. apply in_flight_none. intros r Hr (req & Hreq & Href).
        destruct (Hfly r Hr) as (q & sd & (req' & Hreq' & Href') & [x Hx]). congruence. }
      split; cbn.
      * split; [|done]. intros Hnil. rewrite Hnil in Hl. cbn in Hl. lia.
      * clear -Hmax. word_lia.
      * intros side. rewrite Hzero. split; [|lia].
        destruct side; cbn; by apply lookup_replicate_2.
    + rewrite lookup_insert_ne in Hq by done. by apply Heps.
  - intros r Hr. destruct (Hfly r Hr) as (q & sd & Hc & Hs). exists q, sd. eauto.
  - intros id t Ht. destruct (Htasks id t Ht). by constructor.
  - intros id t Hid Ht. destruct (Hwait id t Hid Ht) as [(q & Hq & Hs) Hr].
    split; [|done]. exists q. eauto.
Qed.

(** Replacing an endpoint by one with the same counters. *)
Lemma replace_endpoint_inv p out path e e' :
  rl_inv p out -> rl_endpoint_map p !! path = Some e ->
  rc_qp_list e' <> [] -> Forall is_Some (rc_qp_list e') -> rc_max_wr_depth e' = rc_max_wr_depth e ->
  (forall side, rc_depths side e' = rc_depths side e) ->
  rl_inv (p <| rl_endpoint_map := <[path := e']> (rl_endpoint_map p) |>) out.
Proof.
  intros [Hmode Hmax Heps Hout Hfly Htasks Hapart Hpend Hwait Hnext] He Hne Hall Hm Hd.
  assert (Hmono : forall q, is_Some (rl_endpoint_map p !! q) ->
            is_Some (<[path := e']> (rl_endpoint_map p) !! q)).
  { intros q Hq. destruct (decide (q = path)) as [->|Hn];
      [rewrite lookup_insert_eq; by eexists|by rewrite lookup_insert_ne]. }
  constructor; cbn; try done.
  - intros q x Hq. destruct (decide (q = path)) as [->|Hn].
    + rewrite lookup_insert_eq in Hq. injection Hq as <-. destruct (Heps path e He) as [_ Hmx Hdp].
      split; [done|congruence|]. intros side. rewrite Hd. apply Hdp.
    + rewrite lookup_insert_ne in Hq by done. by apply Heps.
  - intros r Hr. destruct (Hfly r Hr) as (q & sd & Hc & Hs). exists q, sd. eauto.
  - intros id t Ht. destruct (Htasks id t Ht). by constructor.
  - intros id t Hid Ht. destruct (Hwait id t Hid Ht) as [(q & Hq & Hs) Hr].
    split; [|done]. exists q. eauto.
Qed.

Lemma setup_connection_inv p out peer attributes ret p' :
  rl_inv p out ->
  RdmaReliableProtocol_setupConnection ibv_create_qp ibv_destroy_qp ibv_modify_qp junk_gid p peer
    attributes = Ok (ret, p') -> rl_inv p' out.
Proof.
  intros Hinv H. unfold RdmaReliableProtocol_setupConnection in H.
  destruct (endpoint_inv p out peer Hinv) as (e & p1 & Hrun & Hinv1 & _ & He). rewrite Hrun in H.
  cbn [mbind outcome_bind] in H. destruct e as [e|]; [|by simplify_eq]. specialize (He e eq_refl).
  destruct (attributes !! "lid"), (attributes !! "gid"), (attributes !! "qp");
    try (by simplify_eq). outcome_inv.
  match goal with E : RdmaRCEndPoint_setupConnection _ _ _ _ _ = Ok ?x |- _ =>
    rename E into Hset; destruct x as [ret' e'] end. injection H as <- <-.
  destruct (rv_eps _ _ Hinv1 peer e He) as [[Hne Hall] _ _].
  unfold RdmaRCEndPoint_setupConnection in Hset.
  destruct (Nat.eqb _ _) eqn:Hlen in Hset; cbn in Hset.
  - apply Nat.eqb_eq in Hlen. outcome_run; simplify_eq;
      (match goal with E : setup_qps _ _ _ _ _ = Ok (_, ?l) |- _ =>
         apply setup_qps_spec in E as (Hl & Hs & _); [|done|done];
         assert (Hlne : l <> []) by (intros ->; by destruct (rc_qp_list e)) end);
      by apply (replace_endpoint_inv p1 out peer e).
  - injection Hset as <- <-. by apply (replace_endpoint_inv p1 out peer e).
Qed.
(** ** Tasks *)
Lemma build_requests_spec mrs buffers : forall hp ok l hp',
  build_requests operator_new mrs hp buffers = (ok, l, hp') ->
  NoDup l /\ (forall r, r ∈ l -> hp !! r = None /\ is_Some (hp' !! r)) /\
  (forall k, k ∉ l -> hp' !! k = hp !! k).
Proof.
  induction buffers as [|b buffers IH]; intros hp ok l hp' H; cbn [build_requests] in H.
  { injection H as <- <- <-. split_and!; [constructor|set_solver|done]. }
  destruct (_ =? 0) in H.
  { injection H as <- <- <-. split_and!; [constructor|set_solver|done]. }
  set (x := Request_default <| _ := _ |>) in H.
  destruct (build_requests operator_new mrs _ buffers) as [[ok' l'] h'] eqn:Hb.
  injection H as <- <- <-. apply IH in Hb as (Hnd & Hin & Hout).
  pose proof (new_fresh hp) as Hnew. set (r := operator_new hp) in *.
  assert (Hr : r ∉ l') by (intros Hr; destruct (Hin r Hr) as [Hx _]; by rewrite lookup_insert_eq in Hx).
  split_and!.
  - by apply NoDup_cons.
  - intros k [->|Hk]%elem_of_cons.
    + split; [done|]. rewrite Hout, lookup_insert_eq by done. by eexists.
    + destruct (Hin k Hk) as [Hx Hy]. split; [|done]. apply lookup_insert_None in Hx. tauto.
  - intros k [Hk Hk']%not_elem_of_cons. by rewrite Hout, lookup_insert_ne by done.
Qed.

Lemma flying_live p out r : rl_inv p out -> r ∈ out -> is_Some (rl_heap p !! r).
Proof. intros Hinv Hr. destruct (rv_flying _ _ Hinv r Hr) as (q & sd & (req & Hq & _) & _). by eexists. Qed.

(** A new task with fresh requests. *)
Lemma add_task_inv p out t hp' :
  rl_inv p out -> rl_next_task_id p < 0x7fffffff -> rk_id t = rl_next_task_id p ->
  NoDup (rk_request_list t) ->
  (forall r, r ∈ rk_request_list t -> rl_heap p !! r = None /\ is_Some (hp' !! r)) ->
  (forall k, k ∉ rk_request_list t -> hp' !! k = rl_heap p !! k) ->
  rl_inv (p <| rl_next_task_id := rl_next_task_id p + 1 |> <| rl_heap := hp' |>
            <| rl_task_map := <[rk_id t := Some t]> (rl_task_map p) |>) out.
Proof.
  intros Hinv Hlt Hid Hnd Hin Hsame.
  pose proof Hinv as [Hmode Hmax Heps Hout Hfly Htasks Hapart [Hpn Hpl] Hwait Hnext].
  assert (Hlive : forall k, is_Some (rl_heap p !! k) -> hp' !! k = rl_heap p !! k).
  { intros k [x Hk]. apply Hsame. intros Hkl. destruct (Hin k Hkl). congruence. }
  assert (Hold : forall id u, rl_task_map p !! id = Some (Some u) -> id <> rk_id t /\
            forall r, r ∈ rk_request_list u -> r ∉ rk_request_list t).
  { intros id u Hu. destruct (Htasks id u Hu) as [_ Ho Hl _]. split; [lia|].
    intros r Hr Hrt. rewrite Forall_forall in Hl. destruct (Hl r Hr) as [x Hx].
    destruct (Hin r Hrt). congruence. }
  assert (Hout' : forall r, r ∈ out -> hp' !! r = rl_heap p !! r)
    by (intros r Hr; apply Hlive; by apply (flying_live p out)).
  constructor; cbn; try done.
  - intros path e He. apply (endpoint_ok_heap _ (rl_heap p)); [done|]. by apply Heps.
  - intros r Hr. destruct (Hfly r Hr) as (q & sd & Hc & Hs). exists q, sd.
    split; [|done]. by apply (counts_eq (rl_heap p)); [apply Hout'|].
  - intros id u [(<- & [= <-])|[Hne Hu]]%lookup_insert_Some.
    + constructor; cbn; [done|lia| |done]. apply Forall_forall. intros r Hr. by apply Hin.
    + destruct (Htasks id u Hu) as [? ? Hl ?]. constructor; cbn; [done|lia| |done].
      eapply Forall_impl; [exact Hl|]. intros r Hr. cbn. by rewrite Hlive.
  - intros i j u v r Hij [(<- & [= <-])|[Hi Hu]]%lookup_insert_Some
      [(<- & [= <-])|[Hj Hv]]%lookup_insert_Some Hr; try done.
    + intros Hrv. by apply (Hold j v Hv) in Hrv.
    + by apply (Hold i u Hu).
    + by apply (Hapart i j u v).
  - split; [done|]. intros id Hi. specialize (Hpl id Hi). lia.
  - intros id u Hi [(<- & _)|[Hne Hu]]%lookup_insert_Some; [|by apply (Hwait id u)].
    specialize (Hpl _ Hi). lia.
  - lia.
Qed.

(** Dropping a task none of whose requests is in flight. *)
Lemma erase_inv p out id :
  rl_inv p out ->
  (forall t, rl_task_map p !! id = Some (Some t) -> forall r, r ∈ rk_request_list t -> r ∉ out) ->
  rl_inv (rl_erase p id) out.
Proof.
  intros Hinv Hfree. pose proof Hinv as [[Hsp Hnt] Hmax Heps Hout Hfly Htasks Hapart Hpend Hwait Hnext].
  unfold rl_erase. rewrite Hnt.
  assert (Hdel : forall (m : gmap Z (option ReliableTask)) k u,
            delete id m !! k = Some (Some u) -> k <> id /\ m !! k = Some (Some u)).
  { intros m k u [Hne Hk]%lookup_delete_Some. done. }
  destruct (rl_task_map p !! id) as [[t|]|] eqn:Ht; cbn.
  - specialize (Hfree t eq_refl).
    assert (Hk : forall r, r ∉ rk_request_list t ->
              delete_requests (rl_heap p) (rk_request_list t) !! r = rl_heap p !! r)
      by (intros r Hr; by rewrite lookup_delete_requests, decide_False).
    constructor; cbn; try done.
    + intros path e He. apply (endpoint_ok_heap _ (rl_heap p)); [|by apply Heps].
      intros r Hr. apply Hk. intros Hrt. by apply (Hfree r).
    + intros r Hr. destruct (Hfly r Hr) as (q & sd & Hc & Hs). exists q, sd. split; [|done].
      apply (counts_eq (rl_heap p)); [|done]. apply Hk. intros Hrt. by apply (Hfree r).
    + intros k u [Hne Hu]%Hdel. destruct (Htasks k u Hu) as [? ? Hl ?]. constructor; try done. cbn.
      apply Forall_forall. intros r Hr. rewrite Hk by (by apply (Hapart k id u t)).
      rewrite Forall_forall in Hl. by apply Hl.
    + intros i j u v r Hij [_ Hu]%Hdel [_ Hv]%Hdel. by apply (Hapart i j u v).
    + intros k u Hki [_ Hu]%Hdel. by apply (Hwait k u).
  - constructor; cbn; try done.
    + intros k u [Hne Hu]%Hdel. destruct (Htasks k u Hu). by constructor.
    + intros i j u v r Hij [_ Hu]%Hdel [_ Hv]%Hdel. by apply (Hapart i j u v).
    + intros k u Hki [_ Hu]%Hdel. by apply (Hwait k u).
  - constructor; cbn; try done.
    + intros k u [Hne Hu]%Hdel. destruct (Htasks k u Hu). by constructor.
    + intros i j u v r Hij [_ Hu]%Hdel [_ Hv]%Hdel. by apply (Hapart i j u v).
    + intros k u Hki [_ Hu]%Hdel. by apply (Hwait k u).
Qed.

(** Queueing a task. *)
Lemma queue_task_inv p out id t path :
  rl_inv p out -> rl_task_map p !! id = Some (Some t) -> id ∉ rl_pending_task p ->
  (forall r, r ∈ rk_request_list t -> r ∉ out) -> is_Some (rl_endpoint_map p !! path) ->
  rl_inv (p <| rl_task_map := <[id := Some (t <| rk_endpoint := Some path |>)]> (rl_task_map p) |>
            <| rl_pending_task := rl_pending_task p ++ [id] |>) out.
Proof.
  intros Hinv Ht Hnew Hfree Hep.
  pose proof Hinv as [Hmode Hmax Heps Hout Hfly Htasks Hapart [Hpn Hpl] Hwait Hnext].
  assert (Hsame : forall k u, <[id := Some (t <| rk_endpoint := Some path |>)]> (rl_task_map p) !! k
            = Some (Some u) -> exists u0, rl_task_map p !! k = Some (Some u0) /\
            rk_id u = rk_id u0 /\ rk_request_list u = rk_request_list u0 /\ (k <> id -> u = u0) /\
            (k = id -> rk_endpoint u = Some path)).
  { intros k u [(<- & [= <-])|[Hne Hu]]%lookup_insert_Some; [by exists t|by exists u]. }
  constructor; cbn; try done.
  - intros k u (u0 & Hu & Hi & Hr & _ & _)%Hsame. destruct (Htasks k u0 Hu).
    constructor; cbn; congruence || by rewrite Hr.
  - intros i j u v r Hij (u0 & Hu & _ & Hr & _)%Hsame (v0 & Hv & _ & Hr' & _)%Hsame.
    rewrite Hr, Hr'. by apply (Hapart i j u0 v0).
  - split.
    + apply NoDup_app. split_and!; [done| |apply NoDup_singleton]. intros k Hk Hk'. set_solver.
    + intros k [Hk|Hk]%elem_of_app; [by apply Hpl|]. assert (k = id) as -> by set_solver.
      by destruct (Htasks id t Ht).
  - intros k u Hk (u0 & Hu & _ & Hr & Heq & Hpath)%Hsame. destruct (decide (k = id)) as [->|Hne].
    + rewrite Hr. rewrite Ht in Hu. injection Hu as <-. split; [|done]. exists path. auto.
    + rewrite (Heq Hne) in *. apply (Hwait k u0); [|done]. set_solver.
Qed.

(** A new task: the map has no live task of that number. *)
Lemma allocate_task_eq p out type :
  rl_inv p out -> rl_next_task_id p < 0x7fffffff ->
  RdmaReliableProtocol_allocateTask p type =
    (mkReliableTask type (rl_next_task_id p) None [],
     p <| rl_next_task_id := rl_next_task_id p + 1 |>
       <| rl_task_map := <[rl_next_task_id p := Some (mkReliableTask type (rl_next_task_id p) None [])]>
                           (rl_task_map p) |>).
Proof.
  intros Hinv Hlt. unfold RdmaReliableProtocol_allocateTask, rl_erase.
  assert (Hi : i32 (rl_next_task_id p + 1) = rl_next_task_id p + 1).
  { pose proof (rv_next _ _ Hinv) as Hn. clear -Hlt Hn. word_lia. }
  rewrite Hi. destruct (rl_task_map p !! rl_next_task_id p) as [[t|]|] eqn:Ht.
  - destruct (rv_tasks _ _ Hinv _ t Ht). lia.
  - cbn. by rewrite insert_delete_eq.
  - cbn. by rewrite insert_delete_eq.
Qed.

(** [send] and [receive] return and keep the invariant. *)
Lemma submit_inv type p out peer buffers :
  rl_inv p out -> rl_next_task_id p < 0x7fffffff ->
  exists ret p', RdmaReliableProtocol_submit ibv_create_qp ibv_destroy_qp operator_new type p peer
    buffers = Ok (ret, p') /\ rl_inv p' out.
Proof.
  intros Hinv Hlt. unfold RdmaReliableProtocol_submit.
  rewrite (allocate_task_eq p out type Hinv Hlt). set (id := rl_next_task_id p).
  set (task0 := mkReliableTask type id None []). set (p1 := p <| rl_next_task_id := _ |> <| _ := _ |>).
  assert (Hmr : rl_memory_region_list p1 = rl_memory_region_list p) by done.
  assert (Hhp : rl_heap p1 = rl_heap p) by done. rewrite Hmr, Hhp.
  destruct (build_requests operator_new _ _ buffers) as [[ok l] hp] eqn:Hb.
  apply build_requests_spec in Hb as (Hnd & Hin & Hsame).
  set (task := task0 <| rk_request_list := l |>).
  pose proof (add_task_inv p out task hp Hinv Hlt eq_refl Hnd Hin Hsame) as Hadd.
  assert (Hid : rk_id task = id) by done.
  match goal with |- context [RdmaReliableProtocol_freeTask ?q] => set (p2 := q) end.
  match type of Hadd with rl_inv ?q _ => assert (Hp2 : p2 = q) end.
  { unfold p2, p1. cbn. f_equal. by rewrite insert_insert_eq. }
  assert (Hfree : forall r, r ∈ l -> r ∉ out).
  { intros r Hr Hro. destruct (flying_live p out r Hinv Hro) as [x Hx]. destruct (Hin r Hr). congruence. }
  rewrite <- Hp2 in Hadd.
  assert (Hpend : rl_pending_task p2 = rl_pending_task p) by (by rewrite Hp2).
  assert (Hmap : rl_task_map p2 !! id = Some (Some task)) by (rewrite Hp2; apply lookup_insert_eq).
  rewrite Hid. clearbody p2. clear Hp2 Hmr Hhp p1.
  assert (Hdrop : forall q, rl_inv q out -> rl_task_map q = rl_task_map p2 -> rl_inv (rl_erase q id) out).
  { intros q Hq Hm. apply erase_inv; [done|]. rewrite Hm, Hmap. by intros t [= <-]. }
  unfold RdmaReliableProtocol_freeTask. cbn [snd].
  destruct ok; cbn [negb]; [|eexists _, _; split; [done|]; by apply Hdrop].
  destruct (endpoint_inv p2 out peer Hadd) as (e & p3 & -> & Hinv3 & (s & Hp3 & Hs) & He).
  cbn [mbind outcome_bind].
  assert (Hm3 : rl_task_map p3 = rl_task_map p2) by (by rewrite Hp3).
  assert (Hd3 : rl_pending_task p3 = rl_pending_task p) by (by rewrite Hp3).
  destruct e as [e|]; [|eexists _, _; split; [done|]; by apply Hdrop].
  destruct (RdmaRCEndPoint_connected e); [|eexists _, _; split; [done|]; by apply Hdrop].
  eexists _, _. split; [done|]. apply queue_task_inv; try done.
  - by rewrite Hm3.
  - rewrite Hd3. intros Hpd. apply (rv_pending _ _ Hinv) in Hpd. unfold id in Hpd. lia.
  - rewrite (He e eq_refl). by eexists.
Qed.

(** ** Posting *)
Definition side_of (type : RequestType) : bool :=
  match type with SEND => true | RECEIVE => false end.

(** What posting [l] changes in the heap, [ids] being the requests accepted. *)
Record post_heap (hp hp' : heap) (l ids : list Z) (ref : depth_ref) : Prop := {
  ph_prefix : ids = take (length ids) l;
  ph_live : forall k, is_Some (hp' !! k) <-> is_Some (hp !! k);
  ph_same : forall k, k ∉ l -> hp' !! k = hp !! k;
  ph_ref : forall k r, k ∈ ids -> hp' !! k = Some r -> req_qp_depth r = Some ref
}.

Lemma post_heap_failed hp hp' l ids ref l' :
  post_heap hp hp' l ids ref -> l' ⊆ l -> post_heap hp (set_failed hp' l') l ids ref.
Proof.
  intros [Hp Hl Hs Hr] Hsub. split; [done|..].
  - intros k. rewrite <- Hl, lookup_set_failed. destruct (decide _); [apply fmap_is_Some|done].
  - intros k Hk. rewrite lookup_set_failed, decide_False by set_solver. by apply Hs.
  - intros k r Hk. rewrite lookup_set_failed. destruct (decide _); [|by apply Hr].
    destruct (hp' !! k) as [x|] eqn:Hx; [|done]. intros [= <-]. by apply (Hr k x).
Qed.

Lemma post_batch_ok post make ref max depth hp l :
  0 <= depth <= max -> max < 0x80000000 -> Z.of_nat (length l) <= max ->
  Forall (fun r => is_Some (hp !! r)) l -> (forall k r, wr_id (make k r) = k) ->
  (forall wrs, wrs <> [] -> fst (post wrs) <> 0 -> (snd (post wrs) < length wrs)%nat) ->
  exists rc hp' posted err,
    post_batch post make ref max depth hp l =
      Ok (rc, depth + Z.of_nat (length posted), hp', posted, err) /\
    0 <= rc <= Z.of_nat (length l) /\ post_heap hp hp' l (wr_id <$> posted) ref /\
    depth + Z.of_nat (length posted) <= max.
Proof.
  intros Hd Hmax Hlen Hlive Hid Hbad.
  destruct (post_batch_spec post make ref max depth hp l)
    as (rc & d' & hp' & posted & err & Hrun & Hrc & Hpl & Hd' & Hb & _); [lia|lia|lia|done|done|].
  pose proof (post_batch_heap _ _ _ _ _ _ _ _ _ _ _ _ Hid Hrun) as (Hw & Hl & Hs & Hr).
  subst d'. exists rc, hp', posted, err. split_and!; try done; try lia.
  split; rewrite ?length_fmap; try done. by rewrite Hw.
Qed.

(** Both posting functions, on an endpoint whose counters are right. *)
Lemma rc_post_ok type max hp out path e l :
  endpoint_ok max hp out path e -> 0 <= max < 0x80000000 -> Z.of_nat (length l) <= max ->
  Forall (fun r => is_Some (hp !! r)) l ->
  exists ret e' hp' posted,
    match type with
    | SEND => RdmaRCEndPoint_postSendRequest ibv_post_send path e hp l
    | RECEIVE => RdmaRCEndPoint_postReceiveRequest ibv_post_recv path e hp l
    end = Ok (ret, e', hp', posted) /\
    0 <= ret <= Z.of_nat (length l) /\
    post_heap hp hp' l (wr_id <$> posted) (RcDepth path (side_of type) 0) /\
    rc_qp_list e' = rc_qp_list e /\ rc_max_wr_depth e' = rc_max_wr_depth e /\
    rc_depths (negb (side_of type)) e' = rc_depths (negb (side_of type)) e /\
    rc_depths (side_of type) e' !! 0%nat =
      Some (in_flight hp path (side_of type) out + Z.of_nat (length posted)) /\
    in_flight hp path (side_of type) out + Z.of_nat (length posted) <= max.
Proof.
  intros [[Hne Hqp] Hm Hd] Hmax Hlen Hlive. destruct (Hd (side_of type)) as [Hdep Hle].
  destruct (rc_qp_list e) as [|[qp|] qps] eqn:Hq; [done| |by apply Forall_cons in Hqp as [[? ?] _]].
  assert (Hrq : RdmaRCEndPoint_qp e 0 = Ok qp) by (unfold RdmaRCEndPoint_qp; by rewrite Hq).
  pose proof (in_flight_nonneg hp path (side_of type) out) as Hnn.
  pose proof (lookup_lt_Some _ _ _ Hdep) as Hlt.
  destruct type; cbn [side_of rc_depths negb] in *.
  - unfold RdmaRCEndPoint_postSendRequest, vec_at. rewrite Hdep, Hrq, Hm. cbn [mbind outcome_bind].
    destruct (post_batch_ok (ibv_post_send (qp_num qp)) make_rc_send_wr (RcDepth path true 0) max
      (in_flight hp path true out) hp l) as (rc & hp' & posted & err & -> & Hrc & Hph & Hb);
      [lia|lia|lia|done|done|by apply post_send_bad|].
    eexists _, _, _, _. split; [done|]. split_and!; try lia; try done.
    cbn. by rewrite list_lookup_insert_eq.
  - unfold RdmaRCEndPoint_postReceiveRequest, vec_at. rewrite Hdep, Hrq, Hm. cbn [mbind outcome_bind].
    destruct (post_batch_ok (ibv_post_recv (qp_num qp)) make_recv_wr (RcDepth path false 0) max
      (in_flight hp path false out) hp l) as (rc & hp' & posted & err & -> & Hrc & Hph & Hb);
      [lia|lia|lia|done|done|by apply post_recv_bad|].
    eexists _, _, _, _. split; [done|]. split_and!; try lia; try done.
    cbn. by rewrite list_lookup_insert_eq.
Qed.

(** The members the invariant reads besides endpoints and requests. *)
Definition rl_core (p : RdmaReliableProtocol) :=
  (rl_spawn_worker p, rl_task p, rl_max_wr_per_qp p, rl_num_qp_per_endpoint p, rl_task_map p,
   rl_pending_task p, rl_next_task_id p).

(** Requests [ids] of [l] are now in flight at [path]. *)
Lemma posted_inv p q out path side l ids e e' :
  rl_inv p out -> rl_core q = rl_core p -> rl_endpoint_map p !! path = Some e ->
  rl_endpoint_map q = <[path := e']> (rl_endpoint_map p) ->
  post_heap (rl_heap p) (rl_heap q) l ids (RcDepth path side 0) ->
  Forall (fun r => is_Some (rl_heap p !! r)) l -> NoDup l -> (forall r, r ∈ l -> r ∉ out) ->
  (forall k u, k ∈ rl_pending_task p -> rl_task_map p !! k = Some (Some u) ->
     forall r, r ∈ rk_request_list u -> r ∉ l) ->
  rc_qp_list e' = rc_qp_list e -> rc_max_wr_depth e' = rc_max_wr_depth e ->
  rc_depths (negb side) e' = rc_depths (negb side) e ->
  rc_depths side e' !! 0%nat =
    Some (in_flight (rl_heap p) path side out + Z.of_nat (length ids)) ->
  in_flight (rl_heap p) path side out + Z.of_nat (length ids) <= rl_max_wr_per_qp p ->
  rl_inv q (out ++ ids).
Proof.
  intros [Hmode Hmax Heps Hout Hfly Htasks Hapart Hpend Hwait Hnext] Hcore He Hmap
    [Hpre Hlv Hsm Href] Hlive Hnd Hdis Hothers Hq Hm Hd' Hd Hle.
  unfold rl_core in Hcore. injection Hcore as Hc1 Hc2 Hc3 Hc4 Hc5 Hc6 Hc7.
  assert (Hsub : forall r, r ∈ ids -> r ∈ l).
  { intros r Hr. rewrite Hpre in Hr. apply elem_of_take in Hr as (i & Hi & _).
    by eapply list_elem_of_lookup_2. }
  assert (Hidc : forall r, r ∈ ids -> counts (rl_heap q) path side r).
  { intros r Hr. rewrite Forall_forall in Hlive. destruct (proj2 (Hlv r) (Hlive r (Hsub r Hr))) as [x Hx].
    exists x. split; [done|]. by apply (Href r). }
  assert (Hoc : forall pa sd r, r ∈ out -> counts (rl_heap q) pa sd r <-> counts (rl_heap p) pa sd r).
  { intros pa sd r Hr. apply counts_eq, Hsm. intros Hl. by apply (Hdis r). }
  assert (Hothr : forall pa sd, (pa, sd) <> (path, side) ->
            in_flight (rl_heap q) pa sd (out ++ ids) = in_flight (rl_heap p) pa sd out).
  { intros pa sd Hne. rewrite in_flight_app, (in_flight_iff (rl_heap p)) by auto.
    rewrite (in_flight_none _ _ _ ids); [lia|]. intros r Hr (x & Hx & Hx').
    destruct (Hidc r Hr) as (y & Hy & Hy'). congruence. }
  assert (Hmono : forall k, is_Some (rl_endpoint_map p !! k) -> is_Some (rl_endpoint_map q !! k)).
  { intros k Hk. rewrite Hmap. destruct (decide (k = path)) as [->|Hn];
      [rewrite lookup_insert_eq; by eexists|by rewrite lookup_insert_ne]. }
  split; rewrite ?Hc1, ?Hc2, ?Hc3, ?Hc4, ?Hc5, ?Hc6, ?Hc7; try done.
  - rewrite Hmap. intros k x [(<- & <-)|[Hne Hx]]%lookup_insert_Some.
    + destruct (Heps path e He) as [Hqs Hmx Hds]. split; [by rewrite Hq|congruence|].
      intros sd. destruct (decide (sd = side)) as [->|Hn].
      * rewrite in_flight_app, (in_flight_iff (rl_heap p)), (in_flight_all _ _ _ ids) by auto. done.
      * assert (sd = negb side) as -> by (by destruct sd, side). rewrite Hothr by congruence.
        rewrite Hd'. apply Hds.
    + destruct (Heps k x Hx) as [Hqs Hmx Hds]. split; [done|done|]. intros sd.
      rewrite Hothr by congruence. apply Hds.
  - apply NoDup_app. split_and!; [done| |].
    + intros r Hr Hi. apply (Hdis r); auto.
    + rewrite Hpre. rewrite <- (take_drop (length ids) l) in Hnd. by apply NoDup_app in Hnd as [? _].
  - intros r [Hr|Hr]%elem_of_app.
    + destruct (Hfly r Hr) as (pa & sd & Hc & Hs). exists pa, sd. split; [by apply Hoc|auto].
    + exists path, side. split; [auto|]. apply Hmono. by rewrite He; eexists.
  - intros k t Ht. destruct (Htasks k t Ht) as [H1 H2 H3 H4]. split; [done|by rewrite Hc7| |done].
    eapply Forall_impl; [exact H3|]. intros r Hr. by apply Hlv.
  - intros k t Hk Ht. destruct (Hwait k t Hk Ht) as [(pa & Hpa & Hs) Hr].
    split; [exists pa; auto|]. intros r Hrt [Ho|Hi]%elem_of_app; [by apply (Hr r)|].
    apply (Hothers k t Hk Ht r Hrt). auto.
Qed.

(** The requests posted between two states. *)
Definition newly_posted (p q : RdmaReliableProtocol) : list Z :=
  wr_id <$> drop (length (rl_posted_send p)) (rl_posted_send q) ++
            drop (length (rl_posted_recv p)) (rl_posted_recv q).

Lemma post_task_inv p out id t path :
  rl_inv p out -> rl_task_map p !! id = Some (Some t) -> id ∉ rl_pending_task p ->
  rk_endpoint t = Some path -> is_Some (rl_endpoint_map p !! path) ->
  (forall r, r ∈ rk_request_list t -> r ∉ out) ->
  Z.of_nat (length (rk_request_list t)) <= rl_max_wr_per_qp p ->
  exists ret q, rl_post_task ibv_post_send ibv_post_recv p t = Ok (ret, q) /\
    rl_inv q (out ++ newly_posted p q).
Proof.
  intros Hinv Ht Hnp Hpath [e He] Hfree Hlen.
  destruct (rv_tasks _ _ Hinv id t Ht) as [_ _ Hlive Hnd].
  destruct (rc_post_ok (rk_type t) (rl_max_wr_per_qp p) (rl_heap p) out path e (rk_request_list t))
    as (ret & e' & hp & posted & Hrun & Hret & Hph & Hq & Hm & Hd' & Hd & Hle);
    [by apply (rv_eps _ _ Hinv)|apply (rv_max _ _ Hinv)|done|done|].
  unfold rl_post_task. rewrite Hpath. cbn [deref mbind outcome_bind]. rewrite He.
  cbn [deref mbind outcome_bind]. rewrite Hrun. cbn [mbind outcome_bind].
  rewrite (proj2 (Z.ltb_ge ret 0)) by lia. eexists _, _. split; [done|].
  set (q := _ <| rl_heap := _ |>).
  assert (Hnew : newly_posted p q = wr_id <$> posted).
  { unfold newly_posted, q. destruct (rk_type t); cbn;
      by rewrite drop_app_length, drop_all, ?app_nil_r. }
  rewrite Hnew.
  apply (posted_inv p q out path (side_of (rk_type t)) (rk_request_list t) (wr_id <$> posted) e e');
    rewrite ?length_fmap; try done.
  - unfold q. by destruct (rk_type t).
  - unfold q. by destruct (rk_type t).
  - unfold q. cbn. apply post_heap_failed; [done|]. intros r Hr.
    rewrite <- (take_drop (Z.to_nat ret) (rk_request_list t)). apply elem_of_app. by right.
  - intros k u Hk Hu r Hr. apply (rv_apart _ _ Hinv k id u t); [|done..]. by intros ->.
Qed.

(** Taking a task from the queue. *)
Lemma take_task_inv p out :
  rl_inv p out -> exists o q, rl_take_task p = (o, q) /\ rl_inv q out /\
    rl_posted_send q = rl_posted_send p /\ rl_posted_recv q = rl_posted_recv p /\
    (forall t, o = Some t -> exists id path, rl_task_map q !! id = Some (Some t) /\
       id ∉ rl_pending_task q /\ rk_endpoint t = Some path /\ is_Some (rl_endpoint_map q !! path) /\
       forall r, r ∈ rk_request_list t -> r ∉ out).
Proof.
  intros Hinv. pose proof Hinv as [Hmode Hmax Heps Hout Hfly Htasks Hapart [Hpn Hpl] Hwait Hnext].
  unfold rl_take_task. destruct (rl_pending_task p) as [|id pending] eqn:Hp.
  { eexists _, _. split; [done|]. split_and!; done. }
  apply NoDup_cons in Hpn as [Hid Hpn]. eexists _, _. split; [done|].
  assert (Hold : forall k u, <[id := default None (rl_task_map p !! id)]> (rl_task_map p) !! k
            = Some (Some u) -> rl_task_map p !! k = Some (Some u)).
  { intros k u [(<- & Hu)|[_ Hu]]%lookup_insert_Some; [|done].
    destruct (rl_task_map p !! id) as [o|] eqn:Ho; cbn in Hu; congruence. }
  split_and!; try done.
  - constructor; cbn; try done.
    + intros k u Hu%Hold. destruct (Htasks k u Hu). by constructor.
    + intros i j u v r Hij Hu%Hold Hv%Hold. by apply (Hapart i j u v).
    + split; [done|]. intros k Hk. apply Hpl. set_solver.
    + intros k u Hk Hu%Hold. apply (Hwait k u); [set_solver|done].
  - intros t Ht. cbn. destruct (rl_task_map p !! id) as [o|] eqn:Ho; cbn in Ht; [|done]. subst o.
    destruct (Hwait id t) as [(path & Hpath & Hs) Hr]; [set_solver|done|].
    exists id, path. split_and!; try done. cbn. by rewrite lookup_insert_eq.
Qed.

(** The first half of [runStep]. *)
Lemma post_phase_inv p out :
  rl_inv p out -> exists q, rl_post_phase ibv_post_send ibv_post_recv p = Ok q /\
    rl_inv q (out ++ newly_posted p q).
Proof.
  intros Hinv. unfold rl_post_phase.
  destruct (take_task_inv p out Hinv) as (o & p1 & -> & Hinv1 & Hs & Hr & Ho).
  assert (Hkeep : newly_posted p p1 = []) by (unfold newly_posted; by rewrite Hs, Hr, !drop_all).
  assert (Hself : rl_inv p1 (out ++ newly_posted p p1)) by (by rewrite Hkeep, app_nil_r).
  destruct o as [t|]; [|by eexists].
  destruct (Z.leb_spec (Z.of_nat (length (rk_request_list t))) (rl_max_wr_per_qp p1)) as [Hle|_];
    [|by eexists].
  destruct (Ho t eq_refl) as (id & path & Hid & Hnp & Hpath & Hep & Hfree).
  destruct (post_task_inv p1 out id t path) as (ret & q & -> & Hq); try done.
  eexists. split; [done|]. unfold newly_posted in *. by rewrite <- Hs, <- Hr.
Qed.

(** ** Completions *)
Lemma completed_inv p q out path side id e e' :
  rl_inv p out -> id ∈ out -> counts (rl_heap p) path side id ->
  rl_core q = rl_core p -> rl_endpoint_map p !! path = Some e ->
  rl_endpoint_map q = <[path := e']> (rl_endpoint_map p) ->
  (forall pa sd r, counts (rl_heap q) pa sd r <-> counts (rl_heap p) pa sd r) ->
  (forall k, is_Some (rl_heap p !! k) -> is_Some (rl_heap q !! k)) ->
  rc_qp_list e' = rc_qp_list e -> rc_max_wr_depth e' = rc_max_wr_depth e ->
  rc_depths (negb side) e' = rc_depths (negb side) e ->
  rc_depths side e' !! 0%nat = Some (in_flight (rl_heap p) path side out - 1) ->
  rl_inv q (filter (fun r => r <> id) out).
Proof.
  intros [Hmode Hmax Heps Hout Hfly Htasks Hapart Hpend Hwait Hnext] Hid Hcnt Hcore He Hmap Hcs Hlv
    Hq Hm Hd' Hd.
  unfold rl_core in Hcore. injection Hcore as Hc1 Hc2 Hc3 Hc4 Hc5 Hc6 Hc7.
  set (out' := filter _ out).
  assert (Hout' : forall r, r ∈ out' -> r ∈ out) by (intros r Hr; by apply list_elem_of_filter in Hr as [_ ?]).
  assert (Hfl : forall pa sd, in_flight (rl_heap q) pa sd out' =
            in_flight (rl_heap p) pa sd out - (if decide ((pa, sd) = (path, side)) then 1 else 0)).
  { intros pa sd. rewrite (in_flight_iff (rl_heap p) (rl_heap q)) by auto.
    rewrite (in_flight_remove (rl_heap p) pa sd out id) by done. fold out'.
    destruct Hcnt as (x & Hx & Href).
    destruct (decide (counts _ _ _ id)) as [(y & Hy & Hy')|Hn], (decide _) as [Heq|Hne]; try lia.
    - rewrite Hx in Hy. injection Hy as <-. congruence.
    - injection Heq as -> ->. destruct Hn. by exists x. }
  assert (Hmono : forall k, is_Some (rl_endpoint_map p !! k) -> is_Some (rl_endpoint_map q !! k)).
  { intros k Hk. rewrite Hmap. destruct (decide (k = path)) as [->|Hn];
      [rewrite lookup_insert_eq; by eexists|by rewrite lookup_insert_ne]. }
  split; rewrite ?Hc1, ?Hc2, ?Hc3, ?Hc4, ?Hc5, ?Hc6, ?Hc7; try done.
  - rewrite Hmap. intros k y [(<- & <-)|[Hne Hy]]%lookup_insert_Some.
    + destruct (Heps path e He) as [Hqs Hmx Hds]. split; [by rewrite Hq|congruence|].
      intros sd. rewrite Hfl. specialize (Hds sd) as [Hdl Hdm]. destruct (decide (sd = side)) as [->|Hn].
      * rewrite decide_True by done. split; [done|lia].
      * assert (sd = negb side) as -> by (by destruct sd, side). rewrite decide_False by congruence.
        rewrite Hd', Z.sub_0_r. done.
    + destruct (Heps k y Hy) as [Hqs Hmx Hds]. split; [done|done|]. intros sd.
      rewrite Hfl, decide_False by congruence. rewrite Z.sub_0_r. apply Hds.
  - by apply NoDup_filter.
  - intros r Hr%Hout'. destruct (Hfly r Hr) as (pa & sd & Hc & Hs). exists pa, sd.
    split; [by apply Hcs|auto].
  - intros k t Ht. destruct (Htasks k t Ht) as [H1 H2 H3 H4]. split; [done|by rewrite Hc7| |done].
    eapply Forall_impl; [exact H3|]. intros r Hr. by apply Hlv.
  - intros k t Hk Ht. destruct (Hwait k t Hk Ht) as [(pa & Hpa & Hs) Hr].
    split; [exists pa; auto|]. intros r Hrt Ho%Hout'. by apply (Hr r).
Qed.

Lemma poll_one_inv p out id success :
  rl_inv p out -> id ∈ out ->
  exists q, rl_poll_loop p [(id, success)] = Ok q /\ rl_inv q (filter (fun r => r <> id) out).
Proof.
  intros Hinv Hid. destruct (rv_flying _ _ Hinv id Hid) as (path & side & Hc & [e He]).
  pose proof Hc as (x & Hx & Href). destruct (rv_eps _ _ Hinv path e He) as [Hqs Hmx Hds].
  destruct (Hds side) as [Hd Hle]. pose proof (rv_max _ _ Hinv) as [Hmax _].
  pose proof (in_flight_nonneg (rl_heap p) path side out) as Hnn.
  assert (Hi : i32 (in_flight (rl_heap p) path side out - 1) = in_flight (rl_heap p) path side out - 1)
    by (clear -Hnn Hle Hmax; word_lia).
  unfold rl_poll_loop, rl_release_depth. rewrite Hx. cbn [deref mbind outcome_bind].
  rewrite Href, He. cbn [deref mbind outcome_bind]. unfold vec_at, rc_depths in *.
  change (Z.to_nat 0) with 0%nat. rewrite Hd. cbn [mbind outcome_bind]. rewrite Hi.
  eexists. split; [done|].
  eapply (completed_inv p _ out path side id e); try done; try (by destruct side).
  - intros pa sd r. unfold counts. cbn. destruct (decide (r = id)) as [->|Hne].
    + rewrite lookup_insert_eq, Hx. split; intros (y & [= <-] & Hy); eexists; (split; [done|]); exact Hy.
    + by rewrite lookup_insert_ne.
  - intros k Hk. cbn. destruct (decide (k = id)) as [->|Hne];
      [rewrite lookup_insert_eq; by eexists|by rewrite lookup_insert_ne].
  - destruct side; cbn; by rewrite list_lookup_insert_eq by (by eapply lookup_lt_Some).
Qed.

(** A batch of completions of requests in flight. *)
Lemma poll_loop_app l1 : forall p l2,
  rl_poll_loop p (l1 ++ l2) = p' ← rl_poll_loop p l1; rl_poll_loop p' l2.
Proof.
  induction l1 as [|[id ok] l1 IH]; intros p l2; [done|]. cbn.
  destruct (rl_heap p !! id); [|done]. cbn. destruct (rl_release_depth p _); [|done]. cbn. apply IH.
Qed.

Lemma rl_poll_loop_inv wcs : forall p out,
  rl_inv p out -> NoDup wcs.*1 -> (forall id, id ∈ wcs.*1 -> id ∈ out) ->
  exists q, rl_poll_loop p wcs = Ok q /\ rl_inv q (filter (fun r => r ∉ wcs.*1) out).
Proof.
  induction wcs as [|[id ok] wcs IH]; intros p out Hinv Hnd Hin.
  { exists p. split; [done|]. replace (filter _ out) with out; [done|].
    clear. induction out as [|r out IH]; [done|]. rewrite filter_cons, decide_True by set_solver.
    by rewrite <- IH. }
  apply NoDup_cons in Hnd as [Hid Hnd].
  destruct (poll_one_inv p out id ok) as (p1 & Hp1 & Hinv1); [done|apply Hin; left|].
  destruct (IH p1 _ Hinv1 Hnd) as (q & Hq & Hinvq).
  { intros k Hk. apply list_elem_of_filter. split; [by intros ->|]. apply Hin. by right. }
  exists q. split; [by rewrite (poll_loop_app [(id, ok)] p wcs : rl_poll_loop p ((id, ok) :: wcs) = _), Hp1|].
  replace (filter _ out) with (filter (fun r => r ∉ wcs.*1) (filter (fun r => r <> id) out)); [done|].
  rewrite list_filter_filter. apply list_filter_iff. intros r. cbn. rewrite not_elem_of_cons. tauto.
Qed.

(** Completions the NIC can report: of distinct requests it has. *)
Definition polled (l : option (list (Z * bool))) : list Z := (default [] l).*1.
Definition completes (send_polled recv_polled : option (list (Z * bool))) (out : list Z) : Prop :=
  NoDup (polled send_polled ++ polled recv_polled) /\
  forall id, id ∈ polled send_polled ++ polled recv_polled -> id ∈ out.

Lemma rl_poll_inv p out l :
  rl_inv p out -> NoDup (polled l) -> (forall id, id ∈ polled l -> id ∈ out) ->
  exists ret q, RdmaReliableProtocol_poll p l = Ok (ret, q) /\
    rl_inv q (filter (fun r => r ∉ polled l) out).
Proof.
  intros Hinv Hnd Hin. destruct l as [wcs|]; cbn.
  - destruct (rl_poll_loop_inv wcs p out) as (q & -> & Hq); try done. cbn. by eexists _, _.
  - eexists _, _. split; [done|]. replace (filter _ out) with out; [done|].
    clear. induction out as [|r out IH]; [done|]. rewrite filter_cons, decide_True by set_solver.
    by rewrite <- IH.
Qed.

Lemma rl_run_step_inv p out p2 sp rp :
  rl_inv p out -> rl_post_phase ibv_post_send ibv_post_recv p = Ok p2 ->
  completes sp rp (out ++ newly_posted p p2) ->
  exists q, RdmaReliableProtocol_runStep ibv_post_send ibv_post_recv p sp rp = Ok (0, q) /\
    rl_inv q (filter (fun r => r ∉ polled sp ++ polled rp) (out ++ newly_posted p p2)).
Proof.
  intros Hinv Hp2 [Hnd Hin]. unfold RdmaReliableProtocol_runStep.
  rewrite (proj1 (rv_mode _ _ Hinv)), Hp2. cbn [mbind outcome_bind].
  destruct (post_phase_inv p out Hinv) as (p2' & Hrun & Hinv2). rewrite Hp2 in Hrun.
  injection Hrun as <-. set (out2 := out ++ newly_posted p p2) in *.
  apply NoDup_app in Hnd as (Hnd1 & Hdis & Hnd2).
  destruct (rl_poll_inv p2 out2 sp) as (r1 & p3 & -> & Hinv3); [done|done|intros; apply Hin; set_solver|].
  cbn [mbind outcome_bind].
  destruct (rl_poll_inv p3 (filter (fun r => r ∉ polled sp) out2) rp) as (r2 & p4 & -> & Hinv4); [done|done| |].
  { intros id Hid. apply list_elem_of_filter. split; [|apply Hin; set_solver].
    intros Hs. by apply (Hdis id). }
  eexists. split; [done|]. rewrite list_filter_filter in Hinv4.
  erewrite list_filter_iff; [exact Hinv4|]. intros r. cbn. rewrite not_elem_of_app. tauto.
Qed.

(** ** Runs *)
Inductive reliable_step : RdmaReliableProtocol * list Z -> RdmaReliableProtocol * list Z -> Prop :=
| rs_construct p out device :
    reliable_step (p, out) ((RdmaReliableProtocol_construct p device).2, out)
| rs_submit p out type peer buffers ret p' :
    rl_next_task_id p < 0x7fffffff ->
    RdmaReliableProtocol_submit ibv_create_qp ibv_destroy_qp operator_new type p peer buffers
      = Ok (ret, p') ->
    reliable_step (p, out) (p', out)
| rs_free p out id :
    (forall t, rl_task_map p !! id = Some (Some t) -> forall r, r ∈ rk_request_list t -> r ∉ out) ->
    reliable_step (p, out) ((RdmaReliableProtocol_freeTask p id).2, out)
| rs_prepare p out peer local ret p' local' :
    RdmaReliableProtocol_prepareConnection ibv_create_qp ibv_destroy_qp p peer local
      = Ok (ret, p', local') ->
    reliable_step (p, out) (p', out)
| rs_setup p out peer attributes ret p' :
    RdmaReliableProtocol_setupConnection ibv_create_qp ibv_destroy_qp ibv_modify_qp junk_gid p peer
      attributes = Ok (ret, p') ->
    reliable_step (p, out) (p', out)
| rs_register p out reg access addr len :
    reliable_step (p, out) ((RdmaReliableProtocol_registerLocalMemory reg access p addr len).2, out)
| rs_unregister p out dereg addr ret p' :
    RdmaReliableProtocol_unregisterLocalMemory dereg p addr = Ok (ret, p') ->
    reliable_step (p, out) (p', out)
| rs_run p out p2 sp rp p' :
    rl_post_phase ibv_post_send ibv_post_recv p = Ok p2 ->
    completes sp rp (out ++ newly_posted p p2) ->
    RdmaReliableProtocol_runStep ibv_post_send ibv_post_recv p sp rp = Ok (0, p') ->
    reliable_step (p, out)
      (p', filter (fun r => r ∉ polled sp ++ polled rp) (out ++ newly_posted p p2)).

Lemma regions_inv p out mrs : rl_inv p out -> rl_inv (p <| rl_memory_region_list := mrs |>) out.
Proof.
  intros [Hmode Hmax Heps Hout Hfly Htasks Hapart Hpend Hwait Hnext]. split; try done.
  intros id t Ht. destruct (Htasks id t Ht). by split.
Qed.

Lemma reliable_step_inv s s' : reliable_step s s' -> rl_inv s.1 s.2 -> rl_inv s'.1 s'.2.
Proof.
  destruct 1 as [p out [code [lid gid]]|p out type peer buffers ret p' Hn Hrun|p out id Hfree|p out peer local ret p' local' Hrun
    |p out peer at' ret p' Hrun|p out reg access addr len|p out dereg addr ret p' Hrun
    |p out p2 sp rp p' Hp2 Hc Hrun]; cbn [fst snd]; intros Hinv.
  - unfold RdmaReliableProtocol_construct. destruct (negb _); [done|]. cbn.
    destruct Hinv as [Hmode Hmax Heps Hout Hfly Htasks Hapart Hpend Hwait Hnext].
    destruct (rl_spawn_worker p); split; try done; intros k t Ht; destruct (Htasks k t Ht); by split.
  - destruct (submit_inv type p out peer buffers Hinv Hn) as (r & q & Hq & Hi). congruence.
  - by apply erase_inv.
  - unfold RdmaReliableProtocol_prepareConnection in Hrun.
    destruct (endpoint_inv p out peer Hinv) as (e & p1 & Hep & Hinv1 & _). rewrite Hep in Hrun.
    cbn in Hrun. destruct e; outcome_run; by simplify_eq.
  - by apply (setup_connection_inv p out peer at' ret p').
  - unfold RdmaReliableProtocol_registerLocalMemory.
    destruct (RdmaContext_registerMemoryRegion _ _ _ _ _). by apply regions_inv.
  - unfold RdmaReliableProtocol_unregisterLocalMemory in Hrun. outcome_run. simplify_eq.
    by apply regions_inv.
  - destruct (rl_run_step_inv p out p2 sp rp Hinv Hp2 Hc) as (q & Hq & Hi). congruence.
Qed.

Lemma reliable_run_inv s s' : rtc reliable_step s s' -> rl_inv s.1 s.2 -> rl_inv s'.1 s'.2.
Proof. induction 1 as [|x y z Hxy _ IH]; [done|]. intros Hx. by apply IH, (reliable_step_inv x). Qed.

Lemma reliable_ctor_inv num max :
  (0 < num)%nat -> 0 <= max < 0x80000000 -> rl_inv (RdmaReliableProtocol_ctor num max false) [].
Proof.
  intros Hnum Hmax. split; cbn; try done; try apply NoDup_nil_2;
    try (by intros ? ? ?%lookup_empty_Some); try (by intros r Hr%elem_of_nil);
    try (by intros id t Hr%elem_of_nil).
  split; [apply NoDup_nil_2|]. by intros id Hid%elem_of_nil.
Qed.

Lemma status_loop_ok hp l : forall s n,
  Forall (fun r => is_Some (hp !! r)) l -> exists r, status_loop hp l s n = Ok r.
Proof.
  induction l as [|r l IH]; intros s n Hl; [by eexists|]. apply Forall_cons in Hl as [[x Hx] Hl].
  cbn. rewrite Hx. cbn. by apply IH.
Qed.

Lemma qp_num_ok e : Forall is_Some (rc_qp_list e) -> exists l, RdmaRCEndPoint_qpNum e = Ok l.
Proof.
  unfold RdmaRCEndPoint_qpNum. induction (rc_qp_list e) as [|q l IH]; intros Hl; [by eexists|].
  apply Forall_cons in Hl as [[x ->] Hl]. cbn. destruct (IH Hl) as [l' ->]. by eexists.
Qed.

Lemma rc_dtor_ok e : Forall is_Some (rc_qp_list e) -> RdmaRCEndPoint_dtor ibv_destroy_qp e = Ok tt.
Proof.
  intros Hl. unfold RdmaRCEndPoint_dtor, RdmaRCEndPoint_deconstruct.
  assert (Hd : exists rc, destroy_qps ibv_destroy_qp (rc_qp_list e) = Ok rc).
  { induction Hl as [|q l [x ->] _ IH]; [by eexists|]. cbn. destruct (negb _); [by eexists|done]. }
  destruct (rc_qp_list e) eqn:Hq; [done|]. destruct Hd as [rc ->]. cbn. by destruct (negb _).
Qed.

Lemma rc_store_deconstruct_ok s :
  (forall path e, s !! path = Some e -> Forall is_Some (rc_qp_list e)) ->
  RdmaRCEndPointStore_deconstruct ibv_destroy_qp s = Ok tt.
Proof.
  intros Hs. unfold RdmaRCEndPointStore_deconstruct.
  assert (Hl : Forall (fun x => Forall is_Some (rc_qp_list x.2)) (map_to_list s)).
  { apply Forall_forall. intros [path e] He%elem_of_map_to_list. by apply (Hs path). }
  induction Hl as [|x l Hx _ IH]; [done|]. cbn. by rewrite rc_dtor_ok.
Qed.

End steps.

(** One buffer sent to a peer: it is in flight after [runStep], and its completion
    is handled. *)
Definition demo_create (i : nat) : option Z := Some (11 + Z.of_nat i).
Definition rl_new (hp : heap) : Z := fresh (dom hp : gset Z).
Definition demo_state {A} (o : outcome (A * RdmaReliableProtocol)) : RdmaReliableProtocol :=
  match o with Ok (_, p) => p | Trap _ => RdmaReliableProtocol_ctor 0 0 false end.
Definition demo_rl0 : RdmaReliableProtocol := RdmaReliableProtocol_ctor 1 128 false.
Definition demo_rl1 : RdmaReliableProtocol :=
  (RdmaReliableProtocol_registerLocalMemory demo_reg_mr 1 demo_rl0 0x1000 0x100).2.
Definition demo_attributes : Attributes :=
  <["lid" := print_dec 5]> (<["gid" := RdmaContext_gid (replicate 16 17)]>
    (<["qp" := ToString [7]]> ∅)).
Definition demo_rl2 : RdmaReliableProtocol :=
  demo_state (RdmaReliableProtocol_setupConnection demo_create (fun _ => 0) (fun _ _ => 0) [] demo_rl1
    "b:1" demo_attributes).
Definition demo_rl3 : RdmaReliableProtocol :=
  demo_state (RdmaReliableProtocol_submit demo_create (fun _ => 0) rl_new SEND demo_rl2 "b:1"
    [mkBuffer 0x1000 0x100]).
Definition demo_rl4 : RdmaReliableProtocol :=
  demo_state (RdmaReliableProtocol_runStep demo_post demo_post demo_rl3 (Some []) (Some [])).

