(* ===== verification/Session.v ===== *)
(** * Sessions and the public interface

    Models [SessionManager] (src/session_manager.{h,cpp}), the interface
    [Protocol] (src/protocol.h) and [RapidTransfer] (src/rapid_transfer.cpp,
    include/rapid_transfer.h): connecting to a peer on first use, accepting
    connections, and the calls of the application.

    [Protocol] is a type class with the methods of the C++ class; [Connects] adds
    what connecting two hosts relies on.  The JSON library and the RPC library
    are parameters: printing and parsing attributes, and what a call to a remote
    host gives, which may change the state of the remote host. *)

From S2P Require Import Prelude Text Packet Tasks Controller.

(** ** The protocol interface *)
Class Protocol (P : Type) := {
  prepareConnection : P -> string -> Attributes -> outcome (Z * P * Attributes);
  setupConnection : P -> string -> Attributes -> outcome (Z * P);
  proto_send : P -> string -> list Buffer -> outcome (Z * P);
  proto_receive : P -> string -> list Buffer -> outcome (Z * P);
  proto_getStatus : P -> Z -> outcome (Status * P);
  proto_freeTask : P -> Z -> Z * P;
  proto_registerLocalMemory : P -> Z -> Z -> Z * P;
  proto_unregisterLocalMemory : P -> Z -> outcome (Z * P);
  proto_runStep : P -> outcome (Z * P);
  proto_joinMulticast : P -> string -> outcome (Z * P);
  proto_leaveMulticast : P -> string -> outcome (Z * P);
  proto_setMulticastReplicas : P -> string -> list string -> Z * P
}.

(** The default of the multicast methods. *)
Definition not_implemented {P : Type} (p : P) : Z * P := (ERR, p).

(** What a protocol promises about connections: [announces p peer a] says that
    the attributes [a] describe the local end for [peer], [linked p peer a] that
    the local end for [peer] is connected to the end that [a] describes. *)
Class Connects (P : Type) `{Protocol P} := {
  announces : P -> string -> Attributes -> Prop;
  linked : P -> string -> Attributes -> Prop;
  prepare_announces p peer p' a :
    prepareConnection p peer ∅ = Ok (0, p', a) -> announces p' peer a;
  setup_linked p peer a p' : setupConnection p peer a = Ok (0, p') -> linked p' peer a;
  setup_announces p peer a ret p' b :
    setupConnection p peer a = Ok (ret, p') -> announces p peer b -> announces p' peer b
}.

(** ** Addresses *)
Definition DOT : ascii := char_of 46.

(** [std::getline(iss, token, '.')] until it fails. *)
Definition getline_dots (l token : text) : list text := getline_tokens DOT l token.
Fixpoint stoi_all (l : list text) : outcome (list Z) :=
  match l with
  | [] => Ok []
  | token :: l => b ← stoi token; bytes ← stoi_all l; Ok (b :: bytes)
  end.

Definition SessionManager_isMulticastAddress (address : string) : outcome bool :=
  let l := String.list_ascii_of_string address in
  if bool_decide (COLON ∈ l) then Ok false
  else
    bytes ← stoi_all (getline_dots l []);
    match bytes with
    | [b0; _; _; _] => Ok ((224 <=? b0) && (b0 <=? 239))
    | _ => Ok false
    end.

(** [address.find(':')] and the two substrings. *)
Fixpoint split_colon (l : text) : option (text * text) :=
  match l with
  | [] => None
  | c :: l =>
      if decide (c = COLON) then Some ([], l)
      else match split_colon l with Some (h, r) => Some (c :: h, r) | None => None end
  end.
Definition parseHostPort (address : string) : outcome (option (text * Z)) :=
  match split_colon (String.list_ascii_of_string address) with
  | None => Ok None
  | Some (hostname, rest) => port ← stoi rest; Ok (Some (hostname, u16 port))
  end.

(** [std::to_string] of an [int]. *)
Definition to_string (z : Z) : text :=
  if z <? 0 then char_of 45 :: print_dec (- z) else print_dec z.

(** ** State *)
Record SessionManager := mkSessionManager {
  sm_server : option Z;
  sm_on_accept : bool;
  sm_sessions : gset string;
  sm_uid : Z
}.
#[export] Instance SessionManager_fields : Fields SessionManager := mkFields (fun s =>
  mkSessionManager (sm_server s) (sm_on_accept s) (sm_sessions s) (sm_uid s)).
Definition SessionManager_ctor : SessionManager := mkSessionManager None false ∅ 0.

(** [rt_connected] lists the calls of the application's callback. *)
Record RapidTransfer (P : Type) := mkRapidTransfer {
  rt_session_manager : SessionManager;
  rt_protocol : P;
  rt_connected : list (string * bool)
}.
Arguments mkRapidTransfer {P} _ _ _.
Arguments rt_session_manager {P} _.
Arguments rt_protocol {P} _.
Arguments rt_connected {P} _.
#[export] Instance RapidTransfer_fields P : Fields (RapidTransfer P) := mkFields (fun t =>
  mkRapidTransfer (rt_session_manager t) (rt_protocol t) (rt_connected t)).

Section session.
Context {P : Type} `{Protocol P}.

(** Jsoncpp: printing an object with string members; parsing, which may fail
    ([None]) or give a value that is not such an object ([Some None]). *)
Variable json_write : Attributes -> text.
Variable json_parse : text -> option (option Attributes).

(** The remote hosts and the RPC library: a call either does not reach the host
    ([None]), fails ([Some None]) or returns text. *)
Variable W : Type.
Variable rpc : string -> text -> W -> outcome (option (option text) * W).

(** [readAttributes] into [attr]; -2 for an empty text. *)
Definition SessionManager_readAttributes (json_string : text) (attr : Attributes)
  : outcome (Z * Attributes) :=
  match json_string with
  | [] => Ok (-2, attr)
  | _ => match json_parse json_string with
         | None => Ok (ERR, attr)
         | Some None => Trap TrapThrow
         | Some (Some members) => Ok (0, members ∪ attr)
         end
  end.
Definition SessionManager_writeAttributes (attr : Attributes) : Z * text := (0, json_write attr).

Definition SessionManager_connect (sm : SessionManager) (address : string) (request : Attributes)
    (w : W) : outcome (Z * Attributes * SessionManager * W) :=
  let '(_, request_json) := SessionManager_writeAttributes request in
  '(reply, w') ← rpc address request_json w;
  match reply with
  | None => Ok (ERR, ∅, sm, w')
  | Some result =>
      '(ret, response) ← SessionManager_readAttributes (default [] result) ∅;
      if negb (ret =? 0) then Ok (ERR, response, sm, w')
      else Ok (0, response, sm <| sm_sessions := {[address]} ∪ sm_sessions sm |>, w')
  end.
Definition SessionManager_disconnect (sm : SessionManager) (address : string) : SessionManager :=
  sm <| sm_sessions := sm_sessions sm ∖ {[address]} |>.
Definition SessionManager_hasConnection (sm : SessionManager) (address : string) : bool :=
  bool_decide (address ∈ sm_sessions sm).
Definition SessionManager_startListener (sm : SessionManager) (address : string)
  : outcome (Z * SessionManager) :=
  parsed ← parseHostPort address;
  let sm1 := sm <| sm_on_accept := true |> in
  match parsed with
  | None => Ok (ERR, sm1)
  | Some (_, port) => Ok (0, sm1 <| sm_server := Some port |>)
  end.
Definition SessionManager_shutdownListener (sm : SessionManager) : Z * SessionManager :=
  (0, sm <| sm_server := None |>).

Definition SessionManager_dtor (sm : SessionManager) : SessionManager :=
  (SessionManager_shutdownListener sm).2 <| sm_sessions := ∅ |>.

(** ** The client side *)

(** The body of [if (!hasConnection(peer_name))].  The remote state is threaded
    through, so that the remote host may be part of the model. *)
Definition RapidTransfer_connect (t : RapidTransfer P) (peer_name : string) (w : W)
  : outcome (Z * RapidTransfer P * W) :=
  '(ret, p1, request) ← prepareConnection (rt_protocol t) peer_name ∅;
  let t1 := t <| rt_protocol := p1 |> in
  if negb (ret =? 0) then Ok (ERR, t1, w)
  else
    '(ret2, response, sm, w') ← SessionManager_connect (rt_session_manager t1) peer_name request w;
    let t2 := t1 <| rt_session_manager := sm |> in
    if negb (ret2 =? 0) then Ok (ERR, t2, w')
    else
      '(ret3, p3) ← setupConnection (rt_protocol t2) peer_name response;
      let t3 := t2 <| rt_protocol := p3 |> in
      if negb (ret3 =? 0)
      then Ok (ERR, t3 <| rt_session_manager := SessionManager_disconnect (rt_session_manager t3)
                            peer_name |>, w')
      else Ok (0, t3, w').
Definition RapidTransfer_makeConnectionIfNeeded (t : RapidTransfer P) (peer_name : string) (w : W)
  : outcome (Z * RapidTransfer P * W) :=
  multicast ← SessionManager_isMulticastAddress peer_name;
  if multicast : bool then Ok (0, t, w)
  else if SessionManager_hasConnection (rt_session_manager t) peer_name then Ok (0, t, w)
  else RapidTransfer_connect t peer_name w.

Definition RapidTransfer_send (t : RapidTransfer P) (peer_name : string) (buffer_list : list Buffer)
    (w : W) : outcome (Z * RapidTransfer P * W) :=
  '(ret, t1, w') ← RapidTransfer_makeConnectionIfNeeded t peer_name w;
  if negb (ret =? 0) then Ok (ret, t1, w')
  else
    '(ret2, p) ← proto_send (rt_protocol t1) peer_name buffer_list;
    let t2 := t1 <| rt_protocol := p |> in
    Ok (ret2, if ret2 <? 0
              then t2 <| rt_session_manager := SessionManager_disconnect (rt_session_manager t2)
                           peer_name |>
              else t2, w').

(** The loop of [setMulticastReplicas]. *)
Fixpoint connect_all (t : RapidTransfer P) (peers : list string) (w : W)
  : outcome (Z * RapidTransfer P * W) :=
  match peers with
  | [] => Ok (0, t, w)
  | entry :: peers =>
      '(ret, t1, w') ← RapidTransfer_makeConnectionIfNeeded t entry w;
      if negb (ret =? 0) then Ok (ret, t1, w') else connect_all t1 peers w'
  end.
Definition RapidTransfer_setMulticastReplicas (t : RapidTransfer P) (multicast_addr : string)
    (peer_name_list : list string) (w : W) : outcome (Z * RapidTransfer P * W) :=
  '(ret, t1, w') ← connect_all t peer_name_list w;
  if negb (ret =? 0) then Ok (ret, t1, w')
  else
    let '(ret2, p) := proto_setMulticastReplicas (rt_protocol t1) multicast_addr peer_name_list in
    Ok (ret2, t1 <| rt_protocol := p |>, w').

(** ** The server side *)

(** The closure [on_accept] of [startListener]. *)
Definition RapidTransfer_on_accept (t : RapidTransfer P) (peer_name : string) (request : Attributes)
  : outcome (Z * Attributes * RapidTransfer P) :=
  '(ret, p1, response) ← prepareConnection (rt_protocol t) peer_name ∅;
  let t1 := t <| rt_protocol := p1 |> in
  if negb (ret =? 0) then Ok (ERR, response, t1)
  else
    '(ret2, p2) ← setupConnection (rt_protocol t1) peer_name request;
    let t2 := t1 <| rt_protocol := p2 |> in
    if negb (ret2 =? 0) then Ok (ERR, response, t2)
    else Ok (0, response, t2 <| rt_connected := rt_connected t2 ++ [(peer_name, true)] |>).

Definition error_reply : text := String.list_ascii_of_string "<error>".
Definition server_peer (uid : Z) : string :=
  String.append "server/" (String.string_of_list_ascii (to_string uid)).

Definition SessionManager_exchangeMetadata (t : RapidTransfer P) (request_json : text)
  : outcome (text * RapidTransfer P) :=
  '(ret, request) ← SessionManager_readAttributes request_json ∅;
  if negb (ret =? 0) then Ok (error_reply, t)
  else
    let uid := sm_uid (rt_session_manager t) in
    let t1 := t <| rt_session_manager := (rt_session_manager t) <| sm_uid := i32 (uid + 1) |> |> in
    '(ret2, response, t2) ← RapidTransfer_on_accept t1 (server_peer uid) request;
    if negb (ret2 =? 0) then Ok (error_reply, t2)
    else let '(_, response_json) := SessionManager_writeAttributes response in
         Ok (response_json, t2).

(** ** The other calls pass through to the protocol *)
Definition with_protocol {A} (t : RapidTransfer P) (r : A * P) : A * RapidTransfer P :=
  (r.1, t <| rt_protocol := r.2 |>).
Definition RapidTransfer_receive (t : RapidTransfer P) (peer_name : string) (buffer_list : list Buffer)
  : outcome (Z * RapidTransfer P) :=
  r ← proto_receive (rt_protocol t) peer_name buffer_list; Ok (with_protocol t r).
Definition RapidTransfer_getStatus (t : RapidTransfer P) (task : Z) : outcome (Status * RapidTransfer P) :=
  r ← proto_getStatus (rt_protocol t) task; Ok (with_protocol t r).
Definition RapidTransfer_freeTask (t : RapidTransfer P) (task_id : Z) : Z * RapidTransfer P :=
  with_protocol t (proto_freeTask (rt_protocol t) task_id).
Definition RapidTransfer_registerLocalMemory (t : RapidTransfer P) (addr length : Z)
  : Z * RapidTransfer P := with_protocol t (proto_registerLocalMemory (rt_protocol t) addr length).
Definition RapidTransfer_unregisterLocalMemory (t : RapidTransfer P) (addr : Z)
  : outcome (Z * RapidTransfer P) :=
  r ← proto_unregisterLocalMemory (rt_protocol t) addr; Ok (with_protocol t r).
Definition RapidTransfer_runStep (t : RapidTransfer P) : outcome (Z * RapidTransfer P) :=
  r ← proto_runStep (rt_protocol t); Ok (with_protocol t r).
Definition RapidTransfer_joinMulticast (t : RapidTransfer P) (addr : string)
  : outcome (Z * RapidTransfer P) :=
  r ← proto_joinMulticast (rt_protocol t) addr; Ok (with_protocol t r).
Definition RapidTransfer_leaveMulticast (t : RapidTransfer P) (addr : string)
  : outcome (Z * RapidTransfer P) :=
  r ← proto_leaveMulticast (rt_protocol t) addr; Ok (with_protocol t r).
Definition RapidTransfer_startListener (t : RapidTransfer P) (listen_address : string)
  : outcome (Z * RapidTransfer P) :=
  '(ret, sm) ← SessionManager_startListener (rt_session_manager t) listen_address;
  Ok (ret, t <| rt_session_manager := sm |>).
Definition RapidTransfer_shutdownListener (t : RapidTransfer P) : Z * RapidTransfer P :=
  let '(ret, sm) := SessionManager_shutdownListener (rt_session_manager t) in
  (ret, t <| rt_session_manager := sm |>).
End session.

(** ** [Create] *)

(** [std::atoi]: 0 without a number. *)
Definition atoi (l : text) : Z :=
  let '(neg, l1) := skip_sign (skip_spaces l) in
  let '(v, _, _) := scan_digits 10 l1 0 false in i32 (if neg then - v else v).
Inductive protocol_kind : Type := KindReliable | KindUnreliable | KindUnreliableMcast.
Definition protocol_of_name (protocol : string) : option protocol_kind :=
  if String.eqb protocol "rdma_reliable" then Some KindReliable
  else if String.eqb protocol "rdma_unreliable" then Some KindUnreliable
  else if String.eqb protocol "rdma_unreliable_mcast" then Some KindUnreliableMcast
  else None.
(** [getenv] gives the value of a variable; [make] and [construct] are the
    constructor and [construct] of the protocol chosen.  [None] is a null
    pointer. *)
Definition RapidTransfer_Create {P : Type} (getenv : string -> option text)
    (make : protocol_kind -> Z -> Z -> Z -> P) (construct : P -> string -> Z -> Z -> outcome (Z * P))
    (protocol device_name : string) (rdma_port gid_index : Z) : outcome (option (RapidTransfer P)) :=
  let mtu_size := match getenv "RT_MTU_SIZE" with Some v => u64 (atoi v) | None => 1024 end in
  let max_packets := match getenv "RT_MAX_PACKETS" with
                     | Some v => u64 (atoi v) | None => 102400 / 4 * 6 end in
  let queue_capacity := match getenv "RT_QUEUE_CAPACITY" with
                        | Some v => u64 (atoi v) | None => 4096 end in
  match protocol_of_name protocol with
  | None => Ok None
  | Some kind =>
      '(ret, p) ← construct (make kind mtu_size max_packets queue_capacity) device_name rdma_port
                    gid_index;
      if negb (ret =? 0) then Ok None else Ok (Some (mkRapidTransfer SessionManager_ctor p []))
  end.

(** ** Sessions and sending *)
Section client.
Context {P : Type} `{Protocol P}.
Variable json_write : Attributes -> text.
Variable json_parse : text -> option (option Attributes).
Variable W : Type.
Variable rpc : string -> text -> W -> outcome (option (option text) * W).

Notation sessions t := (sm_sessions (rt_session_manager t)).

Lemma connect_sessions t peer w ret t' w' :
  RapidTransfer_connect json_write json_parse W rpc t peer w = Ok (ret, t', w') ->
  (ret = 0 /\ sessions t' = {[peer]} ∪ sessions t) \/
  (ret = ERR /\ (sessions t' = sessions t \/ sessions t' = ({[peer]} ∪ sessions t) ∖ {[peer]})).
Proof.
  unfold RapidTransfer_connect, SessionManager_connect. intros Hrun.
  outcome_run; simplify_eq; cbn in *; auto.
Qed.

(** [C22] Sessions are exactly the peers that can be sent to.  After
    [RapidTransfer::send] to an address that is not a multicast group, the peer
    has a session if and only if the call returned a task, and no other session
    changed: a failed handshake, a refused setup and a failed send all forget the
    peer, so that the next send connects again.  A peer that has a session is not
    contacted: the call then is the protocol's [send] and nothing else. *)
Theorem send_session_exact t peer buffers w ret t' w' :
  SessionManager_isMulticastAddress peer = Ok false ->
  RapidTransfer_send json_write json_parse W rpc t peer buffers w = Ok (ret, t', w') ->
  (peer ∈ sessions t' <-> 0 <= ret) /\
  (forall q, q <> peer -> q ∈ sessions t' <-> q ∈ sessions t) /\
  (peer ∈ sessions t -> w' = w /\ proto_send (rt_protocol t) peer buffers = Ok (ret, rt_protocol t')).
Proof.
  intros Hm Hrun. unfold RapidTransfer_send, RapidTransfer_makeConnectionIfNeeded in Hrun.
  rewrite Hm in Hrun. cbn [mbind outcome_bind] in Hrun. unfold SessionManager_hasConnection in Hrun.
  destruct (decide (peer ∈ sessions t)) as [Hin|Hout].
  - rewrite bool_decide_eq_true_2 in Hrun by done. cbn in Hrun. outcome_run. simplify_eq.
    destruct (Z.ltb_spec ret 0) as [Hneg|Hpos]; cbn; split_and!; try done; try set_solver by lia.
  - rewrite bool_decide_eq_false_2 in Hrun by done. outcome_run; simplify_eq;
      match goal with E : RapidTransfer_connect _ _ _ _ _ _ _ = Ok _ |- _ =>
        apply connect_sessions in E as [[? Hs]|[? Hs]] end; simplify_eq; unfold ERR in *; try done.
    + split_and!; [|set_solver|done]. split; [set_solver|lia].
    + match goal with |- context [?r <? 0] => destruct (Z.ltb_spec r 0) as [Hneg|Hpos] end;
        cbn; rewrite Hs; split_and!; try done; try set_solver by lia.
Qed.

(** A character that cannot start a number. *)
Definition no_number (c : ascii) : Prop :=
  is_space c = false /\ char_code c <> 45 /\ char_code c <> 43 /\
  match digit_val c with Some d => 10 <= d | None => True end.

Lemma stoi_no_number c l : no_number c -> stoi (c :: l) = Trap TrapThrow.
Proof.
  intros (Hs & Hm & Hp & Hd). unfold stoi. cbn [skip_spaces]. rewrite Hs. cbn [skip_sign].
  rewrite (proj2 (Z.eqb_neq _ 45)), (proj2 (Z.eqb_neq _ 43)) by done. cbn [scan_digits].
  destruct (digit_val c) as [d|]; [|done]. by rewrite (proj2 (Z.ltb_ge d 10)).
Qed.

(** The first token starts with the first character. *)
Lemma getline_head l : forall c token, exists t rest,
  getline_dots l (rev (c :: token)) = (c :: t) :: rest.
Proof.
  unfold getline_dots. induction l as [|x l IH]; intros c token; cbn [getline_tokens].
  - destruct (rev (c :: token)) as [|y r] eqn:Hr.
    + apply (f_equal length) in Hr. rewrite length_rev in Hr. done.
    + rewrite <- Hr, rev_involutive. by eexists _, _.
  - destruct (decide (x = DOT)); [rewrite rev_involutive; by eexists _, _|].
    destruct (IH c (token ++ [x])) as (t & rest & Ht).
    rewrite app_comm_cons, rev_app_distr in Ht. cbn in Ht. exists t, rest. exact Ht.
Qed.

(** A bare host name ends the program.  [send] to a name without a port whose
    first character cannot start a number throws [std::invalid_argument], which
    nothing catches, whatever the protocol and the state of the peer. *)
Theorem bare_hostname_throws t c rest buffers w :
  COLON ∉ c :: String.list_ascii_of_string rest -> no_number c -> c <> DOT ->
  RapidTransfer_send json_write json_parse W rpc t (String.String c rest) buffers w = Trap TrapThrow.
Proof.
  intros Hcolon Hc Hdot. unfold RapidTransfer_send, RapidTransfer_makeConnectionIfNeeded.
  unfold SessionManager_isMulticastAddress. cbn [String.list_ascii_of_string].
  rewrite bool_decide_eq_false_2 by done. unfold getline_dots. cbn [getline_tokens]. rewrite decide_False by done.
  destruct (getline_head (String.list_ascii_of_string rest) c []) as (tk & more & Ht).
  unfold getline_dots in Ht. change (rev [c]) with [c] in Ht. rewrite Ht. cbn [stoi_all]. by rewrite stoi_no_number.
Qed.
End client.

(** ** Connecting two hosts *)
Section handshake.
Context {P Q : Type} `{Connects P} `{Connects Q}.
Variable json_write : Attributes -> text.
Variable json_parse : text -> option (option Attributes).
(** Documented behaviour of the JSON library: a printed object is not empty and
    parses to itself; the error reply is not JSON. *)
Hypothesis json_nonempty : forall a, json_write a <> [].
Hypothesis json_roundtrip : forall a, json_parse (json_write a) = Some (Some a).
Hypothesis json_error : json_parse error_reply = None.

(** The network between a client and the server that listens at every address. *)
Definition remote_call (address : string) (request : text) (server : RapidTransfer Q)
  : outcome (option (option text) * RapidTransfer Q) :=
  '(reply, server') ← SessionManager_exchangeMetadata json_write json_parse server request;
  Ok (Some (Some reply), server').

Lemma read_written a : SessionManager_readAttributes json_parse (json_write a) ∅ = Ok (0, a).
Proof.
  unfold SessionManager_readAttributes. pose proof (json_nonempty a).
  destruct (json_write a) eqn:Hw; [done|]. rewrite <- Hw, json_roundtrip. by rewrite map_union_empty.
Qed.
Lemma read_error : SessionManager_readAttributes json_parse error_reply ∅ = Ok (ERR, ∅).
Proof. unfold SessionManager_readAttributes. by rewrite json_error. Qed.

(** What the server does with a request, and whether it accepted it. *)
Lemma exchange_spec server a reply server' :
  SessionManager_exchangeMetadata json_write json_parse server (json_write a) = Ok (reply, server') ->
  let name := server_peer (sm_uid (rt_session_manager server)) in
  reply = error_reply \/
  exists b, reply = json_write b /\ announces (rt_protocol server') name b /\
    linked (rt_protocol server') name a /\
    rt_connected server' = rt_connected server ++ [(name, true)].
Proof.
  intros Hrun name. unfold SessionManager_exchangeMetadata in Hrun. rewrite read_written in Hrun.
  cbn [mbind outcome_bind Z.eqb negb] in Hrun. unfold RapidTransfer_on_accept in Hrun.
  cbn [rt_protocol field_set] in Hrun.
  destruct (prepareConnection _ _ _) as [[[r p1] b]|] eqn:Hp; [|done]. cbn [mbind outcome_bind] in Hrun.
  destruct (Z.eqb_spec r 0) as [->|]; cbn [negb mbind outcome_bind] in Hrun; [|injection Hrun; auto].
  destruct (setupConnection _ _ _) as [[r2 p2]|] eqn:Hs in Hrun; [|done]. cbn [mbind outcome_bind] in Hrun.
  destruct (Z.eqb_spec r2 0) as [->|]; cbn [negb mbind outcome_bind] in Hrun; [|injection Hrun; auto].
  injection Hrun as <- <-. right. exists b. cbn. split_and!; try done.
  - eapply setup_announces; [exact Hs|]. by eapply prepare_announces.
  - by eapply setup_linked.
Qed.

(** The handshake links both hosts.  When a client connects to a server over
    [exchangeMetadata] and the call returns 0, the attributes each host announced
    are those the other is linked to: the client's end for the server's address
    and the server's end for the name it gave the client belong together, the
    client has a session and the server's application was told about the client.
    Proved for any two protocols that satisfy the interface. *)
Theorem handshake_links_both (t : RapidTransfer P) peer (server : RapidTransfer Q) ret t' server' :
  RapidTransfer_connect json_write json_parse (RapidTransfer Q) remote_call t peer server
    = Ok (ret, t', server') -> ret = 0 ->
  let name := server_peer (sm_uid (rt_session_manager server)) in
  exists a b,
    announces (rt_protocol t') peer a /\ linked (rt_protocol server') name a /\
    announces (rt_protocol server') name b /\ linked (rt_protocol t') peer b /\
    peer ∈ sm_sessions (rt_session_manager t') /\
    rt_connected server' = rt_connected server ++ [(name, true)].
Proof.
  intros Hrun -> name. unfold RapidTransfer_connect in Hrun.
  destruct (prepareConnection (rt_protocol t) peer ∅) as [[[r p1] a]|] eqn:Hp; [|done].
  cbn [mbind outcome_bind] in Hrun. destruct (Z.eqb_spec r 0) as [->|]; cbn [negb] in Hrun; [|done].
  unfold SessionManager_connect, SessionManager_writeAttributes, remote_call in Hrun.
  destruct (SessionManager_exchangeMetadata _ _ _ _) as [[reply srv]|] eqn:Hx; [|done].
  cbn [mbind outcome_bind] in Hrun.
  apply exchange_spec in Hx as [->|(b & -> & Hann & Hlink & Hcb)]; cbn [default from_option id] in Hrun.
  { rewrite read_error in Hrun. by injection Hrun. }
  rewrite read_written in Hrun. cbn [mbind outcome_bind Z.eqb negb] in Hrun. cbn [rt_protocol field_set] in Hrun.
  destruct (setupConnection _ _ _) as [[r3 p3]|] eqn:Hs; [|done]. cbn [mbind outcome_bind] in Hrun.
  destruct (Z.eqb_spec r3 0) as [->|]; cbn [negb] in Hrun; [|done]. injection Hrun as <- <-.
  exists a, b. cbn. split_and!; try done.
  - eapply setup_announces; [exact Hs|]. by eapply prepare_announces.
  - by eapply setup_linked.
  - set_solver.
Qed.
End handshake.
