(* ===== verification/Handshake.v ===== *)
(** * Connecting two hosts over the reliable protocol

    [RdmaReliableProtocol] (Reliable.v) and the unreliable protocol of
    src/protocols/rdma_unreliable/impl.{h,cpp} over [Context] as instances of the
    interface [Protocol] (Session.v), the laws of [Connects] for the reliable
    one, and the whole handshake of two hosts: client and server end up with
    queue pairs that are connected to each other. *)

From S2P Require Import Prelude MemoryRegions Text Packet Tasks RequestCache Posting RcEndpoint.
From S2P Require Import Controller Context Reliable ReliableSafety Session.

(** ** Queue pair numbers *)
Definition has_num (p : option ibv_qp) (n : Z) : Prop := exists q, p = Some q /\ qp_num q = n.

Lemma qp_num_spec e qps : RdmaRCEndPoint_qpNum e = Ok qps <-> Forall2 has_num (rc_qp_list e) qps.
Proof.
  unfold RdmaRCEndPoint_qpNum. revert qps. induction (rc_qp_list e) as [|p l IH]; intros qps; cbn.
  { split; [intros [= <-]; constructor|]. by intros ->%Forall2_nil_inv_l. }
  split.
  - intros Hrun. destruct (foldr _ _ l) as [ns|] eqn:Hl; [|done]. cbn in Hrun.
    destruct p as [q|]; [|done]. injection Hrun as <-. constructor; [by exists q|]. by apply IH.
  - intros Hall. apply Forall2_cons_inv_l in Hall as (n & ns & (q & -> & <-) & Hall & ->).
    apply IH in Hall as ->. done.
Qed.

Lemma setup_qps_keeps modify dgid lid l : forall peer ret l' qps,
  setup_qps modify l dgid lid peer = Ok (ret, l') -> Forall2 has_num l qps -> Forall2 has_num l' qps.
Proof.
  induction l as [|p l IH]; intros peer ret l' qps Hrun Hall; cbn in Hrun; [by simplify_eq|].
  apply Forall2_cons_inv_l in Hall as (n & ns & (q & -> & Hn) & Hall & ->).
  destruct peer as [|x peer]; [injection Hrun as <- <-; constructor; [by exists q|done]|].
  destruct (setup_qp modify q dgid lid x) as [r q'] eqn:Hq. apply setup_qp_spec in Hq as (Hnum & _).
  destruct (negb _).
  - injection Hrun as <- <-. constructor; [|done]. exists q'. by rewrite Hnum.
  - outcome_run. simplify_eq. constructor; [exists q'; by rewrite Hnum|]. by eapply IH.
Qed.

(** A setup that succeeds has no null queue pair. *)
Lemma setup_qps_ready modify dgid lid l : forall peer l',
  length l = length peer -> setup_qps modify l dgid lid peer = Ok (0, l') ->
  Forall2 (qp_ready dgid lid) l' peer.
Proof.
  induction l as [|p l IH]; intros [|n peer] l' Hlen Hrun; cbn in Hrun; try done; [by simplify_eq|].
  destruct p as [q|]; [|done]. destruct (setup_qp modify q dgid lid n) as [r q'] eqn:Hq.
  apply setup_qp_spec in Hq as (_ & _ & Hready & _).
  destruct (Z.eqb_spec r 0) as [->|]; cbn in Hrun; [|congruence].
  outcome_run. simplify_eq. constructor; [by apply Hready|]. apply IH; [cbn in Hlen; lia|done].
Qed.

Lemma setup_qps_succeeds modify dgid lid l : forall peer,
  (forall q s, modify q s = 0) -> length l = length peer -> Forall is_Some l ->
  exists l', setup_qps modify l dgid lid peer = Ok (0, l').
Proof.
  induction l as [|p l IH]; intros [|n peer] Hm Hlen Hall; cbn; try done; [by eexists|].
  apply Forall_cons in Hall as [[q ->] Hall].
  assert (Hq : exists q', setup_qp modify q dgid lid n = (0, q')).
  { unfold setup_qp, modify_qp. repeat (rewrite Hm; cbn). by eexists. }
  destruct Hq as [q' ->]. cbn.
  destruct (IH peer Hm ltac:(cbn in Hlen; lia) Hall) as [l' ->]. eexists. reflexivity.
Qed.

Lemma rc_setup_facts modify e dgid lid peer ret e' :
  RdmaRCEndPoint_setupConnection modify e dgid lid peer = Ok (ret, e') ->
  (ret = 0 -> Forall2 (qp_ready dgid lid) (rc_qp_list e') peer /\ RdmaRCEndPoint_connected e' = true) /\
  (forall qps, Forall2 has_num (rc_qp_list e) qps -> Forall2 has_num (rc_qp_list e') qps).
Proof.
  unfold RdmaRCEndPoint_setupConnection. intros Hrun.
  destruct (Nat.eqb_spec (length (rc_qp_list e)) (length peer)) as [Hlen|Hne]; cbn [negb] in Hrun;
    [|by simplify_eq].
  destruct (setup_qps _ _ _ _ _) as [[r l]|] eqn:Hs; [|done]. cbn [mbind outcome_bind] in Hrun.
  destruct (Z.eqb_spec r 0) as [->|Hr]; cbn [negb] in Hrun; injection Hrun as <- <-; cbn.
  - split; [|intros qps; by apply (setup_qps_keeps _ _ _ _ _ _ _ _ Hs)]. intros _. split; [|done].
    by eapply setup_qps_ready.
  - split; [done|]. intros qps. by apply (setup_qps_keeps _ _ _ _ _ _ _ _ Hs).
Qed.

(** ** The reliable protocol as an instance *)
Section reliable.
Variable ibv_create_qp : nat -> option Z.
Variable ibv_destroy_qp : ibv_qp -> Z.
Variable ibv_modify_qp : ibv_qp -> qp_state_t -> Z.
Variable ibv_post_send : Z -> list ibv_wr -> Z * nat.
Variable ibv_post_recv : Z -> list ibv_wr -> Z * nat.
Variable operator_new : heap -> Z.
Variable junk_gid : list Z.
Variable ibv_reg_mr : Z -> Z -> Z -> option ibv_mr.
Variable ibv_dereg_mr : ibv_mr -> Z.
Variable access : Z.
(** What polling the two completion queues reports in a state. *)
Variable polls : RdmaReliableProtocol -> option (list (Z * bool)) * option (list (Z * bool)).

(** Multicast is not implemented: the defaults of [Protocol]. *)
Definition reliable_protocol : Protocol RdmaReliableProtocol := {|
  prepareConnection := RdmaReliableProtocol_prepareConnection ibv_create_qp ibv_destroy_qp;
  setupConnection := RdmaReliableProtocol_setupConnection ibv_create_qp ibv_destroy_qp ibv_modify_qp
                       junk_gid;
  proto_send := RdmaReliableProtocol_send ibv_create_qp ibv_destroy_qp operator_new;
  proto_receive := RdmaReliableProtocol_receive ibv_create_qp ibv_destroy_qp operator_new;
  proto_getStatus := fun p id => r ← RdmaReliableProtocol_getStatus p id; Ok (r.1, p);
  proto_freeTask := RdmaReliableProtocol_freeTask;
  proto_registerLocalMemory := RdmaReliableProtocol_registerLocalMemory ibv_reg_mr access;
  proto_unregisterLocalMemory := RdmaReliableProtocol_unregisterLocalMemory ibv_dereg_mr;
  proto_runStep := fun p => RdmaReliableProtocol_runStep ibv_post_send ibv_post_recv p
                     (polls p).1 (polls p).2;
  proto_joinMulticast := fun p _ => Ok (not_implemented p);
  proto_leaveMulticast := fun p _ => Ok (not_implemented p);
  proto_setMulticastReplicas := fun p _ _ => not_implemented p
|}.
#[local] Existing Instance reliable_protocol.

(** The attributes of an endpoint with queue pairs [qps]. *)
Definition rl_attributes (p : RdmaReliableProtocol) (qps : list Z) : Attributes :=
  <["qp" := ToString qps]> (<["gid" := RdmaContext_gid (rl_gid p)]>
    (<["lid" := print_dec (rl_lid p)]> ∅)).
Definition rl_announces (p : RdmaReliableProtocol) (peer : string) (a : Attributes) : Prop :=
  exists e qps, rl_endpoint_map p !! peer = Some e /\ Forall2 has_num (rc_qp_list e) qps /\
    a = rl_attributes p qps.
Definition rl_linked (p : RdmaReliableProtocol) (peer : string) (a : Attributes) : Prop :=
  exists e lt gt qt lid qps, rl_endpoint_map p !! peer = Some e /\
    a !! "lid" = Some lt /\ a !! "gid" = Some gt /\ a !! "qp" = Some qt /\
    stoi lt = Ok lid /\ FromString qt = Ok qps /\
    Forall2 (qp_ready (default junk_gid (parse_gid gt)) (u16 lid)) (rc_qp_list e) qps /\
    RdmaRCEndPoint_connected e = true.

(** Looking up or creating an endpoint only adds the endpoint. *)
Lemma rl_endpoint_spec p peer e p1 :
  rl_endpoint ibv_create_qp ibv_destroy_qp p peer = Ok (Some e, p1) ->
  rl_endpoint_map p1 !! peer = Some e /\ rl_lid p1 = rl_lid p /\ rl_gid p1 = rl_gid p /\
  (forall x, rl_endpoint_map p !! peer = Some x -> e = x /\ rl_endpoint_map p1 = rl_endpoint_map p).
Proof.
  unfold rl_endpoint, RdmaRCEndPointStore_getOrCreateEndpoint. intros Hrun. outcome_run; simplify_eq; cbn.
  - split_and!; try done. intros x Hx. split; [congruence|done].
  - by rewrite lookup_insert_eq.
Qed.

Lemma rl_prepare_announces p peer p' a :
  RdmaReliableProtocol_prepareConnection ibv_create_qp ibv_destroy_qp p peer ∅ = Ok (0, p', a) ->
  rl_announces p' peer a.
Proof.
  intros Hrun. unfold RdmaReliableProtocol_prepareConnection in Hrun. outcome_run; simplify_eq.
  match goal with E : rl_endpoint _ _ _ _ = Ok (Some ?e, _), N : RdmaRCEndPoint_qpNum _ = Ok ?q |- _ =>
    apply rl_endpoint_spec in E as (He & Hl & Hg & _); apply qp_num_spec in N; exists e, q end.
  split_and!; [done|done|]. unfold rl_attributes. by rewrite Hl, Hg.
Qed.

(** What a call of [setupConnection] leaves. *)
Lemma rl_setup_spec p peer a ret p' :
  RdmaReliableProtocol_setupConnection ibv_create_qp ibv_destroy_qp ibv_modify_qp junk_gid p peer a
    = Ok (ret, p') ->
  rl_lid p' = rl_lid p /\ rl_gid p' = rl_gid p /\ (ret = 0 -> rl_linked p' peer a) /\
  forall e qps, rl_endpoint_map p !! peer = Some e -> Forall2 has_num (rc_qp_list e) qps ->
    exists e', rl_endpoint_map p' !! peer = Some e' /\ Forall2 has_num (rc_qp_list e') qps.
Proof.
  intros Hrun. unfold RdmaReliableProtocol_setupConnection in Hrun.
  destruct (rl_endpoint _ _ p peer) as [[o p1]|] eqn:He; [|done]. cbn [mbind outcome_bind] in Hrun.
  destruct o as [e0|].
  2: { injection Hrun as <- <-. unfold rl_endpoint, RdmaRCEndPointStore_getOrCreateEndpoint in He.
       outcome_run; simplify_eq; split_and!; try done; intros e qps Hx Hq; cbn; eauto. }
  apply rl_endpoint_spec in He as (He & Hl & Hg & Hold). rewrite <- Hl, <- Hg.
  assert (Hkeep : forall e qps, rl_endpoint_map p !! peer = Some e -> Forall2 has_num (rc_qp_list e) qps ->
            e = e0 /\ rl_endpoint_map p1 !! peer = Some e0) by (intros e qps Hx _; destruct (Hold e Hx); done).
  destruct (a !! "lid") as [lt|] eqn:Hlt, (a !! "gid") as [gt|] eqn:Hgt, (a !! "qp") as [qt|] eqn:Hqt;
    try (injection Hrun as <- <-; split_and!; try done; intros e qps Hx Hq;
         destruct (Hkeep e qps Hx Hq) as [-> Hm]; by exists e0).
  outcome_inv. match goal with E : RdmaRCEndPoint_setupConnection _ _ _ _ _ = Ok ?x |- _ =>
    destruct x as [r e']; apply rc_setup_facts in E as [Hready Hnum] end.
  injection Hrun as <- <-. split_and!; try done.
  - intros ->. destruct (Hready eq_refl) as [Hf Hc]. exists e', lt, gt, qt. eexists _, _.
    split_and!; try done. cbn. apply lookup_insert_eq.
  - intros e qps Hx Hq. destruct (Hkeep e qps Hx Hq) as [-> _]. exists e'. cbn.
    rewrite lookup_insert_eq. auto.
Qed.

Lemma rl_setup_announces p peer a ret p' b :
  RdmaReliableProtocol_setupConnection ibv_create_qp ibv_destroy_qp ibv_modify_qp junk_gid p peer a
    = Ok (ret, p') -> rl_announces p peer b -> rl_announces p' peer b.
Proof.
  intros (Hl & Hg & _ & Hkeep)%rl_setup_spec (e & qps & He & Hq & ->).
  destruct (Hkeep e qps He Hq) as (e' & He' & Hq'). exists e', qps. split_and!; try done.
  unfold rl_attributes. by rewrite Hl, Hg.
Qed.

Definition reliable_connects : @Connects RdmaReliableProtocol reliable_protocol := {|
  announces := rl_announces;
  linked := rl_linked;
  prepare_announces := rl_prepare_announces;
  setup_linked p peer a p' Hrun := proj1 (proj2 (proj2 (rl_setup_spec p peer a 0 p' Hrun))) eq_refl;
  setup_announces := rl_setup_announces
|}.
End reliable.

(** ** The whole handshake *)

(** Queue pair [p] sends to queue pair [q], at the host with this address. *)
Definition qp_toward (gid : list Z) (lid : Z) (p q : option ibv_qp) : Prop :=
  exists a b, p = Some a /\ q = Some b /\ qp_state a = IBV_QPS_RTS /\ qp_dgid a = gid /\
    qp_dlid a = lid /\ qp_dest_qp_num a = qp_num b.

Lemma ready_toward gid lid l1 : forall l2 qps,
  Forall2 (qp_ready gid lid) l1 qps -> Forall2 has_num l2 qps -> Forall2 (qp_toward gid lid) l1 l2.
Proof.
  induction l1 as [|p l1 IH]; intros l2 qps H1 H2.
  - apply Forall2_nil_inv_l in H1 as ->. apply Forall2_nil_inv_r in H2 as ->. constructor.
  - apply Forall2_cons_inv_l in H1 as (n & ns & (a & -> & Hs & Hg & Hl & Hd) & H1 & ->).
    apply Forall2_cons_inv_r in H2 as (q & l2' & (b & -> & Hb) & H2 & ->).
    constructor; [|by apply (IH _ ns)]. exists a, b. split_and!; congruence.
Qed.

(** A host whose address can be told to others. *)
Definition addressable (p : RdmaReliableProtocol) : Prop :=
  is_u16 (rl_lid p) /\ length (rl_gid p) = 16%nat /\ Forall is_u8 (rl_gid p).

Lemma rl_attributes_lookup p qps :
  rl_attributes p qps !! "lid" = Some (print_dec (rl_lid p)) /\
  rl_attributes p qps !! "gid" = Some (RdmaContext_gid (rl_gid p)) /\
  rl_attributes p qps !! "qp" = Some (ToString qps).
Proof.
  unfold rl_attributes. rewrite lookup_insert_eq. rewrite !(lookup_insert_ne _ "qp") by done.
  rewrite lookup_insert_eq, !(lookup_insert_ne _ "gid") by done. by rewrite lookup_insert_eq.
Qed.

Section host.
Variable create : nat -> option Z.
Variable destroy : ibv_qp -> Z.
Variable modify : ibv_qp -> qp_state_t -> Z.
Variable junk : list Z.
(** A device that provides queue pairs with 32-bit numbers and accepts every
    transition. *)
Hypothesis create_ok : forall i, exists n, create i = Some n /\ is_u32 n.
Hypothesis modify_ok : forall q s, modify q s = 0.

Lemma create_qps_nums n : forall i, exists l qps,
  create_qps create n i = (true, l) /\ length l = n /\ Forall2 has_num l qps /\ Forall is_u32 qps.
Proof.
  induction n as [|n IH]; intros i; cbn; [by exists [], []|].
  destruct (create_ok i) as (num & -> & Hnum). destruct (IH (S i)) as (l & qps & -> & Hl & Hall & Hu).
  eexists _, (num :: qps). split; [done|]. split; [cbn; lia|]. split; [|by constructor].
  constructor; [by eexists|done].
Qed.

(** A first [prepareConnection] announces the new endpoint. *)
Lemma rl_prepare_ok p peer :
  peer <> "" -> rl_endpoint_map p !! peer = None ->
  exists p1 e qps, RdmaReliableProtocol_prepareConnection create destroy p peer ∅
      = Ok (0, p1, rl_attributes p qps) /\
    rl_endpoint_map p1 !! peer = Some e /\ rl_lid p1 = rl_lid p /\ rl_gid p1 = rl_gid p /\
    Forall2 has_num (rc_qp_list e) qps /\ Forall is_u32 qps /\
    length qps = rl_num_qp_per_endpoint p.
Proof.
  intros Hne Hnew. unfold RdmaReliableProtocol_prepareConnection, rl_endpoint.
  unfold RdmaRCEndPointStore_getOrCreateEndpoint, RdmaRCEndPoint_construct.
  rewrite (proj2 (String.eqb_neq peer "")), Hnew by done. cbn [RdmaRCEndPoint_ctor rc_status_].
  destruct (create_qps_nums (rl_num_qp_per_endpoint p) 0) as (l & qps & -> & Hl & Hall & Hu).
  cbn [negb Z.eqb mbind outcome_bind]. set (e := _ <| rc_status_ := _ |>).
  assert (Hq : RdmaRCEndPoint_qpNum e = Ok qps) by (by apply qp_num_spec).
  rewrite Hq. cbn [mbind outcome_bind]. eexists _, e, qps. split; [done|]. cbn.
  rewrite lookup_insert_eq. apply Forall2_length in Hall as Hlen. split_and!; try done. congruence.
Qed.

(** [setupConnection] with the attributes of an addressable host. *)
Lemma rl_setup_ok p peer e own q qps :
  peer <> "" -> rl_endpoint_map p !! peer = Some e -> Forall2 has_num (rc_qp_list e) own ->
  addressable q -> Forall is_u32 qps -> length qps = length own ->
  exists p' e', RdmaReliableProtocol_setupConnection create destroy modify junk p peer
      (rl_attributes q qps) = Ok (0, p') /\
    rl_endpoint_map p' !! peer = Some e' /\ Forall2 has_num (rc_qp_list e') own /\
    Forall2 (qp_ready (rl_gid q) (rl_lid q)) (rc_qp_list e') qps.
Proof.
  intros Hne He Hown (Hlid & Hglen & Hgid) Hu Hlen.
  destruct (rl_attributes_lookup q qps) as (H1 & H2 & H3).
  unfold RdmaReliableProtocol_setupConnection, rl_endpoint, RdmaRCEndPointStore_getOrCreateEndpoint.
  rewrite (proj2 (String.eqb_neq peer "")), He by done. cbn [mbind outcome_bind].
  rewrite H1, H2, H3, stoi_print, FromString_ToString by done. cbn [mbind outcome_bind].
  rewrite parse_gid_print, u16_small by done. cbn [default from_option id].
  assert (Hsome : Forall is_Some (rc_qp_list e)).
  { apply Forall_forall. intros x Hx. apply list_elem_of_lookup in Hx as [i Hi].
    destruct (Forall2_lookup_l _ _ _ _ _ Hown Hi) as (n & _ & (y & -> & _)). by eexists. }
  pose proof (Forall2_length _ _ _ Hown) as Hol.
  assert (Hset : exists e', RdmaRCEndPoint_setupConnection modify e (rl_gid q) (rl_lid q) qps = Ok (0, e')).
  { unfold RdmaRCEndPoint_setupConnection. rewrite (proj2 (Nat.eqb_eq _ _)) by lia. cbn [negb].
    destruct (setup_qps_succeeds modify (rl_gid q) (rl_lid q) (rc_qp_list e) qps) as [l ->];
      [done|lia|done|]. by eexists. }
  destruct Hset as [e' Hset]. rewrite Hset. cbn [mbind outcome_bind].
  apply rc_setup_facts in Hset as [Hready Hnum]. destruct (Hready eq_refl) as [Hf _].
  eexists _, e'. split; [done|]. cbn. rewrite lookup_insert_eq. split_and!; auto.
Qed.
End host.

Section two_hosts.
Variables create_c create_s : nat -> option Z.
Variables destroy_c destroy_s : ibv_qp -> Z.
Variables modify_c modify_s : ibv_qp -> qp_state_t -> Z.
Variable ibv_post_send : Z -> list ibv_wr -> Z * nat.
Variable ibv_post_recv : Z -> list ibv_wr -> Z * nat.
Variable operator_new : heap -> Z.
Variable junk : list Z.
Variable ibv_reg_mr : Z -> Z -> Z -> option ibv_mr.
Variable ibv_dereg_mr : ibv_mr -> Z.
Variable access : Z.
Variable polls : RdmaReliableProtocol -> option (list (Z * bool)) * option (list (Z * bool)).
Variable json_write : Attributes -> text.
Variable json_parse : text -> option (option Attributes).

Definition client_protocol : Protocol RdmaReliableProtocol :=
  reliable_protocol create_c destroy_c modify_c ibv_post_send ibv_post_recv operator_new junk
    ibv_reg_mr ibv_dereg_mr access polls.
Definition server_protocol : Protocol RdmaReliableProtocol :=
  reliable_protocol create_s destroy_s modify_s ibv_post_send ibv_post_recv operator_new junk
    ibv_reg_mr ibv_dereg_mr access polls.
Definition client_connect (t : RapidTransfer RdmaReliableProtocol) (peer : string)
    (server : RapidTransfer RdmaReliableProtocol) :=
  @RapidTransfer_connect _ client_protocol json_write json_parse (RapidTransfer RdmaReliableProtocol)
    (@remote_call _ server_protocol json_write json_parse) t peer server.

Hypothesis json_nonempty : forall a, json_write a <> [].
Hypothesis json_roundtrip : forall a, json_parse (json_write a) = Some (Some a).
Hypothesis create_c_ok : forall i, exists n, create_c i = Some n /\ is_u32 n.
Hypothesis create_s_ok : forall i, exists n, create_s i = Some n /\ is_u32 n.
Hypothesis modify_c_ok : forall q s, modify_c q s = 0.
Hypothesis modify_s_ok : forall q s, modify_s q s = 0.

Lemma server_peer_nonempty uid : server_peer uid <> "".
Proof. done. Qed.

(** The server accepts the attributes of an addressable client. *)
Lemma server_accepts q qps server :
  let name := server_peer (sm_uid (rt_session_manager server)) in
  rl_endpoint_map (rt_protocol server) !! name = None -> addressable q -> Forall is_u32 qps ->
  length qps = rl_num_qp_per_endpoint (rt_protocol server) ->
  exists server' e own,
    @SessionManager_exchangeMetadata _ server_protocol json_write json_parse server
      (json_write (rl_attributes q qps))
      = Ok (json_write (rl_attributes (rt_protocol server) own), server') /\
    rl_endpoint_map (rt_protocol server') !! name = Some e /\ Forall2 has_num (rc_qp_list e) own /\
    Forall is_u32 own /\ length own = length qps /\
    Forall2 (qp_ready (rl_gid q) (rl_lid q)) (rc_qp_list e) qps.
Proof.
  intros name Hnew Hq Hu Hlen. unfold SessionManager_exchangeMetadata.
  rewrite read_written by done. cbn [mbind outcome_bind Z.eqb negb].
  unfold RapidTransfer_on_accept. fold name.
  destruct (rl_prepare_ok create_s destroy_s create_s_ok (rt_protocol server) name)
    as (p1 & e & own & Hprep & He & Hl & Hg & Hnum & Hou & Hol); [done|done|].
  destruct (rl_setup_ok create_s destroy_s modify_s junk modify_s_ok p1 name e own q qps)
    as (p2 & e2 & Hset & He2 & Hnum2 & Hready); try done; [lia|].
  cbn [rt_protocol field_set server_protocol reliable_protocol prepareConnection setupConnection].
  rewrite Hprep. cbn [mbind outcome_bind Z.eqb negb rt_protocol field_set].
  rewrite Hset. cbn [mbind outcome_bind Z.eqb negb].
  eexists _, e2, own. split; [done|]. cbn. split_and!; try done. lia.
Qed.

Lemma two_hosts_connect t peer server :
  let name := server_peer (sm_uid (rt_session_manager server)) in
  let client := rt_protocol t in let host := rt_protocol server in
  peer <> "" -> rl_endpoint_map client !! peer = None -> rl_endpoint_map host !! name = None ->
  addressable client -> addressable host ->
  rl_num_qp_per_endpoint client = rl_num_qp_per_endpoint host ->
  exists t' server' ec es,
    client_connect t peer server = Ok (0, t', server') /\
    rl_endpoint_map (rt_protocol t') !! peer = Some ec /\
    rl_endpoint_map (rt_protocol server') !! name = Some es /\
    length (rc_qp_list ec) = rl_num_qp_per_endpoint client /\
    Forall2 (qp_toward (rl_gid host) (rl_lid host)) (rc_qp_list ec) (rc_qp_list es) /\
    Forall2 (qp_toward (rl_gid client) (rl_lid client)) (rc_qp_list es) (rc_qp_list ec).
Proof.
  intros name client host Hne Hnc Hns Hac Hah Hnum.
  destruct (rl_prepare_ok create_c destroy_c create_c_ok client peer)
    as (p1 & e1 & qps & Hprep & He1 & Hl1 & Hg1 & Hq1 & Hu1 & Hlen1); [done|done|].
  destruct (server_accepts client qps server) as (server' & es & own & Hx & Hes & Hqs & Hus & Hls & Hrs);
    [done|done|done|unfold host in *; lia|].
  destruct (rl_setup_ok create_c destroy_c modify_c junk modify_c_ok p1 peer e1 qps host own)
    as (p3 & ec & Hset & Hec & Hqc & Hrc); try done.
  unfold client_connect, RapidTransfer_connect.
  cbn [client_protocol reliable_protocol prepareConnection setupConnection]. fold client. rewrite Hprep.
  cbn [mbind outcome_bind Z.eqb negb rt_session_manager rt_protocol field_set].
  unfold SessionManager_connect, SessionManager_writeAttributes, remote_call.
  rewrite Hx. cbn [mbind outcome_bind default from_option id].
  rewrite read_written by done. cbn [mbind outcome_bind Z.eqb negb]. fold host. rewrite Hset.
  cbn [mbind outcome_bind Z.eqb negb]. eexists _, server', ec, es. split; [done|]. cbn.
  split_and!; try done.
  - apply Forall2_length in Hqc. lia.
  - by apply (ready_toward _ _ _ _ own).
  - by apply (ready_toward _ _ _ _ qps).
Qed.
(** [C9] Two hosts connect.  With devices that provide queue pairs and accept their
    transitions, and as many queue pairs per endpoint on both sides, a client that
    connects to a server for the first time succeeds: the names, LIDs, GIDs and
    queue pair numbers travel as JSON text and come back as they were, and
    afterwards queue pair [i] of the client's endpoint is ready to send to queue
    pair [i] of the server's endpoint at the server's address, and the other way
    round. *)
Theorem reliable_handshake_pairs t peer server :
  let name := server_peer (sm_uid (rt_session_manager server)) in
  let client := rt_protocol t in let host := rt_protocol server in
  peer <> "" -> rl_endpoint_map client !! peer = None -> rl_endpoint_map host !! name = None ->
  addressable client -> addressable host ->
  rl_num_qp_per_endpoint client = rl_num_qp_per_endpoint host ->
  exists t' server' ec es,
    client_connect t peer server = Ok (0, t', server') /\
    rl_endpoint_map (rt_protocol t') !! peer = Some ec /\
    rl_endpoint_map (rt_protocol server') !! name = Some es /\
    length (rc_qp_list ec) = rl_num_qp_per_endpoint client /\
    Forall2 (qp_toward (rl_gid host) (rl_lid host)) (rc_qp_list ec) (rc_qp_list es) /\
    Forall2 (qp_toward (rl_gid client) (rl_lid client)) (rc_qp_list es) (rc_qp_list ec).
Proof. apply two_hosts_connect. Qed.
End two_hosts.

(** ** A concrete instance *)

(** Attributes as a number written in binary: a printer and parser with the
    documented behaviour. *)
Fixpoint bits_write (p : positive) : text :=
  match p with
  | xH => [char_of 49]
  | xO p => char_of 48 :: bits_write p
  | xI p => char_of 49 :: bits_write p
  end.
Fixpoint bits_parse (l : text) : option positive :=
  match l with
  | [] => None
  | [c] => if decide (c = char_of 49) then Some xH else None
  | c :: l =>
      if decide (c = char_of 48) then xO <$> bits_parse l
      else if decide (c = char_of 49) then xI <$> bits_parse l else None
  end.
Definition demo_json_write (a : Attributes) : text := bits_write (encode a).
Definition demo_json_parse (l : text) : option (option Attributes) := decode <$> bits_parse l.

Lemma bits_roundtrip p : bits_parse (bits_write p) = Some p.
Proof.
  assert (Hne : forall p, exists c l, bits_write p = c :: l) by (intros [p'|p'|]; cbn; eauto).
  induction p as [p IH|p IH|]; [| |done]; cbn; destruct (Hne p) as (c & l & Hl);
    rewrite Hl in *; by rewrite IH.
Qed.
Lemma demo_json_nonempty a : demo_json_write a <> [].
Proof. unfold demo_json_write. by destruct (encode a). Qed.
Lemma demo_json_roundtrip a : demo_json_parse (demo_json_write a) = Some (Some a).
Proof. unfold demo_json_parse, demo_json_write. rewrite bits_roundtrip. cbn. by rewrite decode_encode. Qed.

Definition demo_client_rl : RdmaReliableProtocol :=
  (RdmaReliableProtocol_ctor 2 128 false) <| rl_lid := 5 |> <| rl_gid := repeat 9 16 |>.
Definition demo_server_rl : RdmaReliableProtocol :=
  (RdmaReliableProtocol_ctor 2 128 false) <| rl_lid := 6 |> <| rl_gid := repeat 8 16 |>.
Definition demo_engine (p : RdmaReliableProtocol) : RapidTransfer RdmaReliableProtocol :=
  mkRapidTransfer SessionManager_ctor p [].
Definition demo_create_c (i : nat) : option Z := Some (Z.of_nat i mod 0x1000 + 11).
Definition demo_create_s (i : nat) : option Z := Some (Z.of_nat i mod 0x1000 + 77).
Definition demo_polls (p : RdmaReliableProtocol)
  : option (list (Z * bool)) * option (list (Z * bool)) := (Some [], Some []).
Notation demo_connect := (client_connect demo_create_c demo_create_s (fun _ => 0) (fun _ => 0)
  (fun _ _ => 0) (fun _ _ => 0) demo_post demo_post rl_new [] demo_reg_mr (fun _ => 0) 1 demo_polls
  demo_json_write demo_json_parse) (only parsing).

Lemma demo_create_c_ok i : exists n, demo_create_c i = Some n /\ is_u32 n.
Proof.
  eexists. split; [done|]. pose proof (Z.mod_pos_bound (Z.of_nat i) 0x1000 eq_refl). word_unfold. lia.
Qed.
Lemma demo_create_s_ok i : exists n, demo_create_s i = Some n /\ is_u32 n.
Proof.
  eexists. split; [done|]. pose proof (Z.mod_pos_bound (Z.of_nat i) 0x1000 eq_refl). word_unfold. lia.
Qed.
Lemma demo_addressable p : rl_lid p = 5 \/ rl_lid p = 6 -> rl_gid p = repeat 9 16 \/ rl_gid p = repeat 8 16 ->
  addressable p.
Proof.
  intros Hl Hg. split_and!.
  - word_unfold. lia.
  - by destruct Hg as [-> | ->].
  - destruct Hg as [-> | ->]; cbn; repeat constructor; word_unfold; lia.
Qed.

Lemma reliable_handshake_pairs_witness : exists t' server' ec es,
  demo_connect (demo_engine demo_client_rl) "b:1" (demo_engine demo_server_rl) = Ok (0, t', server') /\
  rl_endpoint_map (rt_protocol t') !! "b:1" = Some ec /\
  rl_endpoint_map (rt_protocol server') !! "server/0" = Some es /\
  Forall2 (qp_toward (repeat 8 16) 6) (rc_qp_list ec) (rc_qp_list es).
Proof.
  destruct (reliable_handshake_pairs demo_create_c demo_create_s (fun _ => 0) (fun _ => 0)
    (fun _ _ => 0) (fun _ _ => 0) demo_post demo_post rl_new [] demo_reg_mr (fun _ => 0) 1 demo_polls
    demo_json_write demo_json_parse demo_json_nonempty demo_json_roundtrip demo_create_c_ok
    demo_create_s_ok (fun _ _ => eq_refl) (fun _ _ => eq_refl) (demo_engine demo_client_rl) "b:1"
    (demo_engine demo_server_rl)) as (t' & server' & ec & es & Hrun & Hec & Hes & _ & Hp & _);
    [done|done|done|apply demo_addressable; auto|apply demo_addressable; auto|done|].
  exists t', server', ec, es. split_and!; [exact Hrun|exact Hec|exact Hes|exact Hp].
Defined.

(** The interface theorem at the same run. *)
Lemma handshake_links_both_witness : exists t' server' a,
  demo_connect (demo_engine demo_client_rl) "b:1" (demo_engine demo_server_rl) = Ok (0, t', server') /\
  rl_announces (rt_protocol t') "b:1" a /\ rl_linked [] (rt_protocol server') "server/0" a /\
  "b:1" ∈ sm_sessions (rt_session_manager t').
Proof.
  destruct (two_hosts_connect demo_create_c demo_create_s (fun _ => 0) (fun _ => 0)
    (fun _ _ => 0) (fun _ _ => 0) demo_post demo_post rl_new [] demo_reg_mr (fun _ => 0) 1 demo_polls
    demo_json_write demo_json_parse demo_json_nonempty demo_json_roundtrip demo_create_c_ok
    demo_create_s_ok (fun _ _ => eq_refl) (fun _ _ => eq_refl) (demo_engine demo_client_rl) "b:1"
    (demo_engine demo_server_rl)) as (t' & server' & ec & es & Hrun & _);
    [done|done|done|apply demo_addressable; auto|apply demo_addressable; auto|done|].
  destruct (@handshake_links_both _ _ _
    (reliable_connects demo_create_c (fun _ => 0) (fun _ _ => 0) demo_post demo_post rl_new []
       demo_reg_mr (fun _ => 0) 1 demo_polls) _
    (reliable_connects demo_create_s (fun _ => 0) (fun _ _ => 0) demo_post demo_post rl_new []
       demo_reg_mr (fun _ => 0) 1 demo_polls)
    demo_json_write demo_json_parse demo_json_nonempty demo_json_roundtrip eq_refl
    (demo_engine demo_client_rl) "b:1" (demo_engine demo_server_rl) 0 t' server' Hrun eq_refl)
    as (a & b & Ha & Hl & _ & _ & Hs & _).
  exists t', server', a. split_and!; [exact Hrun|exact Ha|exact Hl|exact Hs].
Defined.

(** A peer with a session, and a host that cannot be reached. *)
Notation demo_reliable := (reliable_protocol demo_create (fun _ => 0) (fun _ _ => 0) demo_post demo_post
  rl_new [] demo_reg_mr (fun _ => 0) 1 demo_polls) (only parsing).
Lemma send_session_exact_witness :
  let t := mkRapidTransfer (SessionManager_ctor <| sm_sessions := {["b:1"]} |>) demo_rl2 [] in
  exists t', @RapidTransfer_send _ demo_reliable demo_json_write demo_json_parse unit
      (fun _ _ w => Ok (None, w)) t "b:1" [mkBuffer 0x1000 0x100] tt = Ok (0, t', tt) /\
    "b:1" ∈ sm_sessions (rt_session_manager t').
Proof.
  intros t. destruct (@RapidTransfer_send _ demo_reliable demo_json_write demo_json_parse unit
      (fun _ _ w => Ok (None, w)) t "b:1" [mkBuffer 0x1000 0x100] tt) as [[[ret t'] []]|] eqn:Hrun;
    [|vm_compute in Hrun; discriminate].
  destruct (send_session_exact _ _ _ _ _ _ _ _ _ _ _ (eq_refl : SessionManager_isMulticastAddress "b:1" = Ok false) Hrun)
    as (Hiff & _).
  assert (Hret : ret = 0) by (vm_compute in Hrun; by injection Hrun as <- _).
  exists t'. split; [by rewrite Hret|]. apply Hiff. lia.
Defined.

Lemma bare_hostname_throws_witness :
  @RapidTransfer_send _ demo_reliable demo_json_write demo_json_parse unit
    (fun _ _ w => Ok (None, w)) (demo_engine demo_client_rl) "node7" [] tt = Trap TrapThrow.
Proof.
  apply bare_hostname_throws; [vm_compute; set_solver| |done].
  split_and!; done.
Defined.
