(* ===== verification/ContextMcast.v ===== *)
(** * The multicast transport

    Models [ContextMcast] of src/protocols/rdma_unreliable/context_mcast.{h,cpp}:
    data goes from one sender to a multicast group, every replica of the group
    acknowledges on its own unicast session, and the acknowledgements are
    redirected to the group's send queue.

    The members it shares with [Context] are kept in a [Context] record, whose
    request cache and [last_send_ts] it does not have and never touches: requests
    come from [new] and are given back with [delete].  The operations that leave
    the receive handles of the groups alone are functions on that record.

    Parameters are those of [Context]; a group's memory verbs take the group and
    the connection they act on. *)

From S2P Require Import Prelude MemoryRegions Text Mem Packet BufferPool SecondaryQueue.
From S2P Require Import SendQueue McastSendQueue ReceiveQueue PacketManager Tasks Congestion.
From S2P Require Import RequestCache Posting UdEndpoint Multicast Controller Context.

Record ContextMcast := mkContextMcast {
  mx_context : Context;
  mx_multicast_recv_info_map : gmap string (list PacketHandle)
}.
#[export] Instance ContextMcast_fields : Fields ContextMcast := mkFields (fun c =>
  mkContextMcast (mx_context c) (mx_multicast_recv_info_map c)).

(** ** Access to groups and queues *)
Definition mx_groups (c : Context) : list (string * RdmaMulticastContext) :=
  ct_multicast_context_map (cx_controller c).
Definition mx_set_groups (c : Context) (l : list (string * RdmaMulticastContext)) : Context :=
  c <| cx_controller := (cx_controller c) <| ct_multicast_context_map := l |> |>.
Definition mx_set_group (c : Context) (addr : string) (g : RdmaMulticastContext) : Context :=
  mx_set_groups c (group_alter (fun _ => g) addr (mx_groups c)).
Definition mx_queue (c : Context) (qid : Z) : outcome McastSendQueue :=
  deref (pm_mcast_send_queue (cx_packet_manager c) !! qid).
Definition mx_set_queue (c : Context) (qid : Z) (q : McastSendQueue) : Context :=
  c <| cx_packet_manager := (cx_packet_manager c) <| pm_mcast_send_queue :=
         <[qid := q]> (pm_mcast_send_queue (cx_packet_manager c)) |> |>.

Section context_mcast.
Variable ibv_post_send : Z -> list ibv_wr -> Z * nat.
Variable ibv_post_recv : Z -> list ibv_wr -> Z * nat.
Variable operator_new : heap -> Z.
Variable traverse : gmap Z SessionInfo -> list Z.
Variable junk : PacketHandle.

Definition ContextMcast_ctor (mtu_size max_packets queue_capacity : Z) (controller : Controller)
    (m : mem) (rnd : Z) : ContextMcast :=
  mkContextMcast
    ((Context_ctor mtu_size max_packets queue_capacity controller m rnd)
       <| cx_rto := Rto_initial ContextMcast_rto_config |>) ∅.

(** ** Work requests *)

(** [new Request{...}] *)
Definition ContextMcast_new_request (c : Context) (r : Request) : Z * Context :=
  let request := operator_new (cx_heap c) in
  (request, c <| cx_heap := <[request := r]> (cx_heap c) |>).

Definition ContextMcast_submitNormalRecvWR (c : Context) (raw_packet : Z) : outcome (Z * Context) :=
  let index := default 0 (cx_recv_handles_qp_index_map c !! raw_packet) in
  let c1 := c <| cx_recv_handles_qp_index_map :=
                   <[raw_packet := index]> (cx_recv_handles_qp_index_map c) |> in
  let '(request, c2) := ContextMcast_new_request c1
     (Request_default <| req_addr0 := raw_packet |>
        <| req_length0 := pm_mtu_size (cx_packet_manager c) |>
        <| req_lkey0 := cx_local_arena_lkey c |>) in
  '(rc, s, hp, posted) ← RdmaUDEndPointStore_postReceiveRequest ibv_post_recv (cx_store c2)
     (cx_heap c2) [request] index;
  Ok (rc, (cx_set_store c2 s) <| cx_heap := hp |>
            <| cx_posted_recv := cx_posted_recv c2 ++ posted |>).

Definition ContextMcast_submitMulticastRecvWR (c : Context) (multicast_addr : string)
    (raw_packet : Z) : outcome (Z * Context) :=
  match Controller_getMulticastContext_addr (cx_controller c) multicast_addr with
  | None => Ok (ERR, c)
  | Some context =>
      let index := default 0 (cx_recv_handles_qp_index_map c !! raw_packet) in
      let c1 := c <| cx_recv_handles_qp_index_map :=
                       <[raw_packet := index]> (cx_recv_handles_qp_index_map c) |> in
      let '(request, c2) := ContextMcast_new_request c1
         (Request_default <| req_addr0 := raw_packet |>
            <| req_length0 := pm_mtu_size (cx_packet_manager c) |>
            <| req_lkey0 := fst (RdmaMulticastContext_key context raw_packet 0) |>) in
      '(rc, context', hp, posted) ← RdmaMulticastContext_postReceiveRequest ibv_post_recv context
         (cx_heap c2) [request] index;
      Ok (rc, (mx_set_group c2 multicast_addr context') <| cx_heap := hp |>
                <| cx_posted_recv := cx_posted_recv c2 ++ posted |>)
  end.

(** [__sync_fetch_and_sub(request->qp_depth, 1)] *)
Definition ContextMcast_release_depth (c : Context) (r : Request) : outcome Context :=
  match req_qp_depth r with
  | Some (GroupDepth addr side conn_index) =>
      g ← deref (group_find addr (mx_groups c));
      cn ← vec_at (mc_connections g) (Z.to_nat conn_index);
      let cn' := if side then cn <| cn_send_wr_depth := i32 (cn_send_wr_depth cn - 1) |>
                 else cn <| cn_recv_wr_depth := i32 (cn_recv_wr_depth cn - 1) |> in
      Ok (mx_set_group c addr (mc_set_connection g (Z.to_nat conn_index) cn'))
  | _ => s ← release_depth (cx_store c) r; Ok (cx_set_store c s)
  end.

(** ** Groups *)

(** The loop of [joinMulticast] over the receive handles of the group. *)
Fixpoint ContextMcast_join_handles (n : nat) (i : Z) (c : ContextMcast) (multicast_addr : string)
  : outcome (Z * ContextMcast) :=
  match n with
  | O => Ok (0, c)
  | S n =>
      handles ← deref (mx_multicast_recv_info_map c !! multicast_addr);
      h ← vec_at handles (Z.to_nat i);
      let cx := mx_context c in
      let '(ret, p, h') := PacketBufferPool_allocatePacket (cx_pool cx) (cx_mem cx) h true in
      let c1 := c <| mx_context := cx_set_pool cx p |>
                  <| mx_multicast_recv_info_map :=
                       <[multicast_addr := <[Z.to_nat i := h']> handles]>
                         (mx_multicast_recv_info_map c) |> in
      if ret <? 0 then Ok (ret, c1)
      else
        '(ret2, cx2) ← ContextMcast_submitMulticastRecvWR (mx_context c1) multicast_addr
                         (PacketHandle_getRawPacket h');
        if ret2 <? 0 then Ok (ret2, c1 <| mx_context := cx2 |>)
        else ContextMcast_join_handles n (i + 1)
               (c1 <| mx_context := cx2 <| cx_recv_handles_qp_index_map :=
                        <[PacketHandle_getRawPacket h' := 0]>
                          (cx_recv_handles_qp_index_map cx2) |> |>) multicast_addr
  end.

(** [std::vector::resize]; the handles it adds are default-initialised. *)
Definition resize_handles (l : list PacketHandle) (n : nat) : list PacketHandle :=
  take n l ++ replicate (n - length l) (PacketHandle_ctor junk).

(** [joinMulticast]; [fabric] as in [Controller_joinMulticast]. *)
Definition ContextMcast_joinMulticast (ibv_reg_mr : nat -> Z -> Z -> Z -> option ibv_mr)
    (access : Z) (fabric : option RdmaMulticastContext) (c : ContextMcast)
    (multicast_addr : string) : outcome (Z * ContextMcast) :=
  let cx := mx_context c in
  let '(ret, ct) := Controller_joinMulticast (cx_controller cx) multicast_addr fabric in
  let cx1 := cx <| cx_controller := ct |> in
  if negb (ret =? 0) then Ok (ret, c <| mx_context := cx1 |>)
  else
    let handles := default [] (mx_multicast_recv_info_map c !! multicast_addr) in
    let info := <[multicast_addr := resize_handles handles kNumReceiveHandles]>
                  (mx_multicast_recv_info_map c) in
    context ← deref (Controller_getMulticastContext_addr (cx_controller cx1) multicast_addr);
    let '(ret2, context') := RdmaMulticastContext_registerMemoryRegion ibv_reg_mr context
                               (bp_arena (cx_pool cx1)) (PacketBufferPool_getCapacity (cx_pool cx1))
                               access in
    let c1 := mkContextMcast (mx_set_group cx1 multicast_addr context') info in
    if negb (ret2 =? 0) then Ok (ret2, c1)
    else ContextMcast_join_handles kNumReceiveHandles 0 c1 multicast_addr.

Definition free_handles (p : PacketBufferPool) (m : mem) (l : list PacketHandle)
  : PacketBufferPool * mem :=
  foldl (fun '(p, m) h => let '(_, p', m') := PacketBufferPool_freePacket p m h in (p', m')) (p, m) l.

Definition ContextMcast_leaveMulticast (ibv_dereg_mr : ibv_mr -> Z) (c : ContextMcast)
    (multicast_addr : string) : outcome (Z * ContextMcast) :=
  let cx := mx_context c in
  context ← deref (Controller_getMulticastContext_addr (cx_controller cx) multicast_addr);
  '(_, context') ← RdmaMulticastContext_unregisterMemoryRegion ibv_dereg_mr context
                     (bp_arena (cx_pool cx));
  let cx1 := mx_set_group cx multicast_addr context' in
  let '(p, m) := free_handles (cx_pool cx1) (cx_mem cx1)
                   (default [] (mx_multicast_recv_info_map c !! multicast_addr)) in
  let cx2 := (cx_set_pool cx1 p) <| cx_mem := m |> in
  let '(ret, ct) := Controller_leaveMulticast (cx_controller cx2) multicast_addr in
  Ok (ret, mkContextMcast (cx2 <| cx_controller := ct |>)
             (delete multicast_addr (mx_multicast_recv_info_map c))).

Definition ContextMcast_setMulticastReplicas (c : Context) (multicast_addr : string)
    (peer_name_list : list string) : Z * Context :=
  match Controller_getMulticastContext_addr (cx_controller c) multicast_addr with
  | None => (ERR, c)
  | Some context =>
      let '(ret, pm) := PacketManager_setMulticastReplicaNum (cx_packet_manager c)
                          (mc_group_id context) (Z.of_nat (length peer_name_list)) in
      (ret, c <| cx_controller := Controller_setReplicas (cx_controller c) multicast_addr
                                    peer_name_list |>
              <| cx_packet_manager := pm |>)
  end.

(** ** Submitting tasks *)
Definition ContextMcast_send (c : Context) (peer_name : string) (buffer_list : list Buffer)
  : outcome (Z * Context) :=
  match Controller_getMulticastContext_addr (cx_controller c) peer_name with
  | None => Ok (ERR, c)
  | Some _ =>
      let session := Controller_findSession_name (cx_controller c) peer_name 0 in
      if session <? 0 then Trap TrapAssert
      else
        '(ret, c1) ← Context_activate junk c session;
        if negb (ret =? 0) then Ok (ret, c1)
        else
          info ← deref (cx_active_session_map c1 !! session);
          qid ← deref (si_mcast_send_queue info);
          queue ← mx_queue c1 qid;
          '(ret2, last_sn, queue', p) ←
            McastSendQueue_push (cx_mem c1) queue (cx_pool c1) buffer_list;
          let c2 := cx_set_pool (mx_set_queue c1 qid queue') p in
          if negb (ret2 =? 0) then Ok (ret2, c2)
          else Ok (Context_add_task c2 (mkTask session last_sn true qid))
  end.

(** [receive]: a group address is refused, the rest is [Context]'s. *)
Definition ContextMcast_receive (c : Context) (peer_name : string) (buffer_list : list Buffer)
  : outcome (Z * Context) :=
  match Controller_getMulticastContext_addr (cx_controller c) peer_name with
  | Some _ => Ok (ERR, c)
  | None => Context_receive junk c peer_name buffer_list
  end.

Definition ContextMcast_getStatus (c : Context) (task_id : Z) : outcome Status :=
  match cx_task_map c !! task_id with
  | None => Ok UNKNOWN
  | Some task =>
      if tk_is_send task
      then queue ← mx_queue c (tk_queue task); queue_status queue (tk_last_sn task)
      else queue ← cx_receive_queue c (tk_queue task); queue_status queue (tk_last_sn task)
  end.

Definition ContextMcast_freeTask (c : Context) (task_id : Z) : Z * Context :=
  match cx_task_map c !! task_id with
  | None => (ERR, c)
  | Some _ => (0, c <| cx_task_map := delete task_id (cx_task_map c) |>)
  end.

(** ** Receiving *)
Definition ContextMcast_updateWndOnSuccess (c : Context) (session rwnd : Z) : outcome Context :=
  info ← deref (cx_active_session_map c !! session);
  w ← updateWnd (cx_mtu_size c) (si_wnd info) rwnd;
  qid ← deref (si_mcast_send_queue info);
  queue ← mx_queue c qid;
  let c1 := cx_set_session c session (info <| si_wnd := w |>) in
  Ok (if negb (McastSendQueue_getWndSize queue =? cw_cwnd w)
      then mx_set_queue c1 qid (McastSendQueue_setWndSize queue (cw_cwnd w))
      else c1).

(** [case PKT_CMD_DATA]: nothing is done, and nothing counted, when no buffer is
    posted. *)
Definition ContextMcast_on_data (c : Context) (session : Z) (handle : PacketHandle)
  : outcome Context :=
  match cx_active_session_map c !! session with
  | None => Trap TrapAssert
  | Some info =>
      qid ← deref (si_receive_queue info);
      queue ← cx_receive_queue c qid;
      let '(head, tail) := ReceiveQueue_getIndexRange queue in
      if head =? tail then Ok c
      else
        '(_, queue', m) ← ReceiveQueue_markCompleted queue (cx_mem c) handle;
        Ok (cx_set_session
              ((cx_set_receive_queue c qid queue') <| cx_mem := m |>
                 <| cx_stats := (cx_stats c) <| st_recv_packets :=
                       u64 (st_recv_packets (cx_stats c) + 1) |> |>)
              session (info <| si_recv_packets := u64 (si_recv_packets info + 1) |>))
  end.

(** [case PKT_CMD_ACK] *)
Definition ContextMcast_on_ack (c : Context) (current_ts sid : Z) (handle : PacketHandle)
  : outcome Context :=
  let '(session, index, ct) := Controller_redirectMulticast (cx_controller c) sid 0 in
  let c1 := c <| cx_controller := ct |> in
  match cx_active_session_map c1 !! session with
  | None => Trap TrapAssert
  | Some info =>
      qid ← deref (si_mcast_send_queue info);
      queue ← mx_queue c1 qid;
      '(_, queue', p) ← McastSendQueue_markCompleted (cx_mem c1) queue (cx_pool c1) index
                          (ph_sn handle);
      let c2 := cx_set_pool (mx_set_queue c1 qid queue') p in
      ContextMcast_updateWndOnSuccess
        (c2 <| cx_rto := updateRTO ContextMcast_rto_config (cx_rto c2)
                           (rtt_sample current_ts (ph_ts handle)) |>)
        session (ph_wnd handle)
  end.

(** [multicast_addr] is empty for a packet of the datagram queue pairs. *)
Definition ContextMcast_processReceivedPacket (c : Context) (current_ts : Z) (wc : ibv_wc)
    (multicast_addr : string) : outcome (Z * Context) :=
  request ← deref (cx_heap c !! wc_wr_id wc);
  match wc_opcode wc with
  | IBV_WC_SEND =>
      match req_context request with
      | None => Ok (0, c)
      | Some sid =>
          info ← deref (cx_active_session_map c !! sid);
          if ph_cmd (si_ack_handle info) =? PKT_CMD_ACK
          then Ok (0, cx_set_session c sid
                        (info <| si_ack_handle := (si_ack_handle info) <| ph_inflight := false |> |>))
          else Ok (0, c)
      end
  | IBV_WC_RECV =>
      let imm_data := if wc_with_imm wc then wc_imm_data wc else 0 in
      let '(ret, handle0) := PacketHandle_setRawPacket (PacketHandle_ctor junk)
                               (req_addr0 request) true in
      if negb (ret =? 0) then Ok (ret, c)
      else
        let '(ret2, handle) := PacketHandle_deserialize handle0 (cx_mem c) imm_data
                                 (wc_byte_len wc) in
        if negb (ret2 =? 0) then Ok (ret2, c)
        else
          let sgid := ld_bytes (cx_mem c) (req_addr0 request + sgid_offset) 16 in
          session0 ← Controller_findSession_addr (cx_controller c) sgid (wc_src_qp wc)
                       (ph_session handle);
          let session := if (session0 <? 0) && negb (String.eqb multicast_addr "")
                         then Controller_findSession_name (cx_controller c) multicast_addr
                                (ph_session handle)
                         else session0 in
          c1 ← (if session <? 0 then Ok c
                else if ph_cmd handle =? PKT_CMD_DATA
                then ContextMcast_on_data c session handle
                else if ph_cmd handle =? PKT_CMD_ACK
                then ContextMcast_on_ack c current_ts session handle
                else Ok c);
          if negb (String.eqb multicast_addr "")
          then ContextMcast_submitMulticastRecvWR c1 multicast_addr (PacketHandle_getRawPacket handle)
          else ContextMcast_submitNormalRecvWR c1 (PacketHandle_getRawPacket handle)
  | IBV_WC_OTHER => Ok (0, c)
  end.

(** The loop over polled completions that both polling functions have. *)
Fixpoint ContextMcast_poll_loop (c : Context) (current_ts : Z) (multicast_addr : string)
    (wcs : list ibv_wc) : outcome Context :=
  match wcs with
  | [] => Ok c
  | wc :: wcs =>
      request ← deref (cx_heap c !! wc_wr_id wc);
      c1 ← ContextMcast_release_depth c request;
      if negb (wc_success wc) then Trap TrapAbort
      else
        '(_, c2) ← ContextMcast_processReceivedPacket c1 current_ts wc multicast_addr;
        ContextMcast_poll_loop (c2 <| cx_heap := delete (wc_wr_id wc) (cx_heap c2) |>)
          current_ts multicast_addr wcs
  end.

Definition ContextMcast_pollCompletedPackets (c : Context) (current_ts : Z)
    (polled : option (list ibv_wc)) : outcome (Z * Context) :=
  match polled with
  | None => Ok (ERR, c)
  | Some wcs => c' ← ContextMcast_poll_loop c current_ts "" wcs;
                Ok (Z.of_nat (length wcs), c')
  end.

(** [pollMcastCompletedPackets]: [polled] has what each connection of the group
    reports, in order. *)
Fixpoint ContextMcast_pollMcastCompletedPackets (c : Context) (current_ts : Z)
    (multicast_addr : string) (total_nr_poll : Z) (polled : list (option (list ibv_wc)))
  : outcome (Z * Context) :=
  match polled with
  | [] => Ok (total_nr_poll, c)
  | None :: _ => Ok (ERR, c)
  | Some wcs :: polled =>
      c' ← ContextMcast_poll_loop c current_ts multicast_addr wcs;
      ContextMcast_pollMcastCompletedPackets c' current_ts multicast_addr
        (i32 (total_nr_poll + Z.of_nat (length wcs))) polled
  end.

(** ** Sending acknowledgements *)
Definition ContextMcast_send_ack (c : Context) (sid : Z) : outcome (option Z * Context) :=
  info ← deref (cx_active_session_map c !! sid);
  let handle := si_ack_handle info in
  let recv_packets := si_recv_packets info in
  if (recv_packets <=? si_ack_packets info) || ph_inflight handle then Ok (None, c)
  else
    qid ← deref (si_receive_queue info);
    queue ← cx_receive_queue c qid;
    let h1 := handle <| ph_session := sid_session sid |>
                     <| ph_cmd := PKT_CMD_ACK |>
                     <| ph_wnd := ReceiveQueue_getWndSize queue |>
                     <| ph_sn := ReceiveQueue_getAckSN queue |>
                     <| ph_ts := ReceiveQueue_getLastTS queue |>
                     <| ph_inflight := true |> in
    let '(slices, h2, m) := PacketHandle_serialize_vector h1 (cx_mem c) in
    let info1 := info <| si_ack_handle := h2 |> in
    let c1 := (cx_set_session c sid info1) <| cx_mem := m |> in
    match slices with
    | Some ([slice0], imm_data) =>
        let '(request, c2) := ContextMcast_new_request c1
           (Request_default <| req_addr0 := buf_addr slice0 |>
              <| req_length0 := buf_length slice0 |>
              <| req_lkey0 := cx_local_arena_lkey c |>
              <| req_imm_data := imm_data |>
              <| req_context := Some sid |>) in
        let '(endpoint, c3) := Context_endpoint c2 sid in
        match endpoint with
        | None => Ok (Some ERR, c3)
        | Some path =>
            '(ret, c4) ← Context_post_send ibv_post_send c3 path [request];
            if negb (ret =? 1) then Ok (Some ERR, c4)
            else Ok (None, (cx_set_session c4 sid (info1 <| si_ack_packets := recv_packets |>))
                             <| cx_stats := (cx_stats c4) <| st_ack_packets :=
                                  u64 (st_ack_packets (cx_stats c4) + 1) |> |>)
        end
    | _ => Ok (Some ERR, c1)
    end.

Fixpoint ContextMcast_ack_loop (c : Context) (sids : list Z) : outcome (Z * Context) :=
  match sids with
  | [] => Ok (0, c)
  | sid :: sids =>
      '(ret, c1) ← ContextMcast_send_ack c sid;
      match ret with Some rc => Ok (rc, c1) | None => ContextMcast_ack_loop c1 sids end
  end.
Definition ContextMcast_sendAckPackets (c : Context) : outcome (Z * Context) :=
  ContextMcast_ack_loop c (traverse (cx_active_session_map c)).

(** ** Sending data *)

(** The variables of one iteration over the sessions; [ml_session] is the copy
    [for (auto session : active_session_map_)] makes. *)
Record mcast_loop := mkMcastLoop {
  ml_context : Context;
  ml_session : SessionInfo;
  ml_request_list : list Z
}.

(** [context->postSendRequest(request_list)]: the return code is not looked at. *)
Definition ContextMcast_flush (multicast_addr : string) (st : mcast_loop) : outcome mcast_loop :=
  let c := ml_context st in
  let s := ml_session st in
  let len := Z.of_nat (length (ml_request_list st)) in
  context ← deref (group_find multicast_addr (mx_groups c));
  '(_, context', hp, posted) ←
    RdmaMulticastContext_postSendRequest ibv_post_send context (cx_heap c) (ml_request_list st) 0;
  Ok (mkMcastLoop
        ((mx_set_group c multicast_addr context') <| cx_heap := hp |>
           <| cx_posted_send := cx_posted_send c ++ posted |>
           <| cx_stats := (cx_stats c) <| st_send_packets :=
                u64 (st_send_packets (cx_stats c) + len) |> |>)
        (s <| si_send_packets := u64 (si_send_packets s + len) |>) []).

(** The request for the slices of a packet; [None] unless there are one or two. *)
Definition data_request (context : RdmaMulticastContext) (slices : list Buffer) (imm_data : Z)
  : option Request :=
  let lkey a := fst (RdmaMulticastContext_key context a 0) in
  match slices with
  | [s0] => Some (mkRequest (buf_addr s0) 0 (buf_length s0) 0 (lkey (buf_addr s0)) 0
                    imm_data None UNKNOWN None)
  | [s0; s1] => Some (mkRequest (buf_addr s0) (buf_addr s1) (buf_length s0) (buf_length s1)
                        (lkey (buf_addr s0)) (lkey (buf_addr s1)) imm_data None UNKNOWN None)
  | _ => None
  end.

(** The closure that [sendDataPackets] passes to [forEach], on the entry of
    index [curr]: its return code and the changed variables. *)
Definition ContextMcast_send_packet (current_ts : Z) (multicast_addr : string) (qid curr : Z)
    (st : mcast_loop) : outcome (Z * mcast_loop) :=
  let c := ml_context st in
  let s := ml_session st in
  queue ← mx_queue c qid;
  handle ← McastSendQueue_getMutableEntry queue curr;
  if u64 (current_ts - ph_ts handle) <? rt_rto (cx_rto c) then Ok (0, st)
  else
    let resend := negb (ph_ts handle =? 0) in
    let s1 := if resend then s <| si_wnd := wndOnResendMcast (cx_mtu_size c) (si_wnd s) |> else s in
    let queue1 := if resend then McastSendQueue_setWndSize queue (cw_cwnd (si_wnd s1)) else queue in
    let '(slices, handle', m) :=
      PacketHandle_serialize_vector (handle <| ph_ts := current_ts |>) (cx_mem c) in
    let c1 := (mx_set_queue c qid (McastSendQueue_setEntry queue1 curr handle'))
                <| cx_mem := m |> in
    context ← deref (group_find multicast_addr (mx_groups c));
    match (match slices with Some (l, imm_data) => data_request context l imm_data
                        | None => None end) with
    | None => Ok (ERR, mkMcastLoop c1 s1 (ml_request_list st))
    | Some r =>
        let '(request, c2) := ContextMcast_new_request c1 r in
        let st1 := mkMcastLoop c2 s1 (ml_request_list st ++ [request]) in
        if Nat.eqb (length (ml_request_list st1)) kRequestBatchSize
        then st2 ← ContextMcast_flush multicast_addr st1; Ok (0, st2)
        else Ok (0, st1)
    end.

(** [McastSendQueue::forEach] with that closure, which changes the queue the
    iteration runs over; [n] indices remain.  The return codes are ignored. *)
Fixpoint ContextMcast_forEach (n : nat) (current_ts : Z) (multicast_addr : string) (qid curr : Z)
    (st : mcast_loop) : outcome mcast_loop :=
  match n with
  | O => Ok st
  | S n =>
      '(_, st1) ← ContextMcast_send_packet current_ts multicast_addr qid curr st;
      ContextMcast_forEach n current_ts multicast_addr qid (u64 (curr + 1)) st1
  end.

Definition ContextMcast_send_session (c : Context) (current_ts sid : Z) : outcome Context :=
  session ← deref (cx_active_session_map c !! sid);
  match Controller_getMulticastContext (cx_controller c) sid with
  | None => Ok c
  | Some _ =>
      multicast_addr ← deref (ct_peer_name_rev_map (cx_controller c) !! sid_node sid);
      qid ← deref (si_mcast_send_queue session);
      queue ← mx_queue c qid;
      let '(head, tail) := McastSendQueue_getIndexRange queue in
      st ← ContextMcast_forEach (Z.to_nat (u64 (head - tail))) current_ts multicast_addr qid tail
             (mkMcastLoop c session []);
      match ml_request_list st with
      | [] => Ok (ml_context st)
      | _ => st' ← ContextMcast_flush multicast_addr st; Ok (ml_context st')
      end
  end.

Fixpoint ContextMcast_data_loop (c : Context) (current_ts : Z) (sids : list Z) : outcome Context :=
  match sids with
  | [] => Ok c
  | sid :: sids =>
      c1 ← ContextMcast_send_session c current_ts sid; ContextMcast_data_loop c1 current_ts sids
  end.
Definition ContextMcast_sendDataPackets (c : Context) (current_ts : Z) : outcome (Z * Context) :=
  c' ← ContextMcast_data_loop c current_ts (traverse (cx_active_session_map c)); Ok (0, c').

(** ** A step of the worker *)

(** The loop of [runStep] over the groups. *)
Fixpoint ContextMcast_poll_groups (c : Context) (current_ts : Z)
    (polled : string -> list (option (list ibv_wc))) (groups : list string)
  : outcome (Z * Context) :=
  match groups with
  | [] => Ok (0, c)
  | multicast_addr :: groups =>
      '(ret, c1) ← ContextMcast_pollMcastCompletedPackets c current_ts multicast_addr 0
                     (polled multicast_addr);
      if ret <? 0 then Ok (ret, c1) else ContextMcast_poll_groups c1 current_ts polled groups
  end.

Definition ContextMcast_runStep (c : Context) (current_ts : Z)
    (recv_polled : option (list ibv_wc)) (mcast_polled : string -> list (option (list ibv_wc)))
    (send_polled : option (list ibv_wc)) : outcome (Z * Context) :=
  '(ret, c1) ← ContextMcast_pollCompletedPackets c current_ts recv_polled;
  if ret <? 0 then Ok (ret, c1)
  else
    '(ret2, c2) ← ContextMcast_poll_groups c1 current_ts mcast_polled (mx_groups c1).*1;
    if ret2 <? 0 then Ok (ret2, c2)
    else
      '(_, c3) ← ContextMcast_sendAckPackets c2;
      '(ret3, c4) ← ContextMcast_sendDataPackets c3 current_ts;
      if negb (ret3 =? 0) then Ok (ret3, c4)
      else
        '(ret4, c5) ← ContextMcast_pollCompletedPackets c4 current_ts send_polled;
        if ret4 <? 0 then Ok (ret4, c5) else Ok (0, c5).

(** ** Life cycle *)

(** The loop of [construct] over the receive handles. *)
Fixpoint ContextMcast_post_handles (n : nat) (i : Z) (c : Context) : outcome (Z * Context) :=
  match n with
  | O => Ok (0, c)
  | S n =>
      h ← vec_at (cx_recv_handles c) (Z.to_nat i);
      let '(ret, p, h') := PacketBufferPool_allocatePacket (cx_pool c) (cx_mem c) h true in
      let c1 := (cx_set_pool c p) <| cx_recv_handles :=
                   <[Z.to_nat i := h']> (cx_recv_handles c) |> in
      if ret <? 0 then Ok (ret, c1)
      else
        '(ret2, c2) ← ContextMcast_submitNormalRecvWR c1 (PacketHandle_getRawPacket h');
        if ret2 <? 0 then Ok (ret2, c2)
        else
          let nqp := Z.of_nat (length (RdmaUDEndPointStore_qpNum (cx_store c2))) in
          if nqp =? 0 then Trap TrapDivZero
          else ContextMcast_post_handles n (i + 1)
                 (c2 <| cx_recv_handles_qp_index_map :=
                        <[PacketHandle_getRawPacket h' := i32 (i mod nqp)]>
                          (cx_recv_handles_qp_index_map c2) |>)
  end.

Definition ContextMcast_construct (numa_alloc_onnode : Z -> Z -> Z) (socket_id access : Z)
    (ibv_reg_mr : Z -> Z -> Z -> option ibv_mr) (controller : Z * Controller) (c : Context)
  : outcome (Z * Context) :=
  let c1 := c <| cx_controller := controller.2 |> in
  if controller.1 <? 0 then Ok (controller.1, c1)
  else
    '(ret, pm, m) ←
      PacketManager_construct numa_alloc_onnode socket_id (cx_packet_manager c1) (cx_mem c1);
    let c2 := c1 <| cx_packet_manager := pm |> <| cx_mem := m |> in
    if ret <? 0 then Ok (ret, c2)
    else
      let arena_base := bp_arena (cx_pool c2) in
      let '(ret2, mrs) := RdmaContext_registerMemoryRegion ibv_reg_mr (cx_memory_region_list c2)
                            arena_base (PacketBufferPool_getCapacity (cx_pool c2)) access in
      let c3 := c2 <| cx_memory_region_list := mrs |> in
      if negb (ret2 =? 0) then Ok (ret2, c3)
      else ContextMcast_post_handles kNumReceiveHandles 0
             (c3 <| cx_local_arena_lkey :=
                      fst (RdmaContext_key (cx_memory_region_list c3) arena_base) |>
                 <| cx_recv_handles := replicate kNumReceiveHandles (PacketHandle_ctor junk) |>).

(** [deconstruct], up to the release of the device. *)
Definition ContextMcast_deconstruct (ibv_dereg_mr : ibv_mr -> Z) (c : ContextMcast)
  : outcome ContextMcast :=
  cx ← Context_deconstruct ibv_dereg_mr (mx_context c);
  Ok (c <| mx_context := cx |>).

(** The device, then every group; the first error ends the function. *)
Fixpoint register_groups (ibv_reg_mr : string -> nat -> Z -> Z -> Z -> option ibv_mr)
    (addr length access : Z) (l : list (string * RdmaMulticastContext))
  : Z * list (string * RdmaMulticastContext) :=
  match l with
  | [] => (0, [])
  | (a, g) :: l =>
      let '(ret, g') := RdmaMulticastContext_registerMemoryRegion (ibv_reg_mr a) g addr length access in
      if negb (ret =? 0) then (ret, (a, g') :: l)
      else let '(ret', l') := register_groups ibv_reg_mr addr length access l in (ret', (a, g') :: l')
  end.
Definition ContextMcast_registerLocalMemory (ibv_reg_mr : Z -> Z -> Z -> option ibv_mr)
    (group_reg_mr : string -> nat -> Z -> Z -> Z -> option ibv_mr) (access : Z)
    (c : Context) (addr length : Z) : Z * Context :=
  let '(ret, c1) := Context_registerLocalMemory ibv_reg_mr access c addr length in
  if negb (ret =? 0) then (ret, c1)
  else
    let '(ret2, l) := register_groups group_reg_mr addr length access (mx_groups c1) in
    (ret2, mx_set_groups c1 l).

(** Errors are ignored. *)
Fixpoint unregister_groups (ibv_dereg_mr : ibv_mr -> Z) (addr : Z)
    (l : list (string * RdmaMulticastContext)) : outcome (list (string * RdmaMulticastContext)) :=
  match l with
  | [] => Ok []
  | (a, g) :: l =>
      '(_, g') ← RdmaMulticastContext_unregisterMemoryRegion ibv_dereg_mr g addr;
      l' ← unregister_groups ibv_dereg_mr addr l;
      Ok ((a, g') :: l')
  end.
Definition ContextMcast_unregisterLocalMemory (ibv_dereg_mr : ibv_mr -> Z) (c : Context) (addr : Z)
  : outcome (Z * Context) :=
  '(_, c1) ← Context_unregisterLocalMemory ibv_dereg_mr c addr;
  l ← unregister_groups ibv_dereg_mr addr (mx_groups c1);
  Ok (0, mx_set_groups c1 l).
End context_mcast.

(** ** A replica with nothing left to receive *)

(** What decides whether a replica sends anything: its sessions, its receive
    queues, the names of its peers and groups; and what it has sent. *)
Definition replies_of (c : Context)
  : gmap Z SessionInfo * gmap Z ReceiveQueue * gmap Z string * list string * list ibv_wr :=
  (cx_active_session_map c, pm_receive_queue (cx_packet_manager c),
   ct_peer_name_rev_map (cx_controller c), (mx_groups c).*1, cx_posted_send c).

(** Every packet counted was acknowledged, no buffer is posted, and no session is
    that of a group. *)
Definition session_settled (queues : gmap Z ReceiveQueue) (s : SessionInfo) : Prop :=
  si_recv_packets s <= si_ack_packets s /\
  exists qid q, si_receive_queue s = Some qid /\ queues !! qid = Some q /\ rq_head q = rq_tail q.
Record settled
    (x : gmap Z SessionInfo * gmap Z ReceiveQueue * gmap Z string * list string * list ibv_wr)
  : Prop := mkSettled {
  sl_sessions : map_Forall (fun _ s => session_settled x.1.1.1.2 s) x.1.1.1.1;
  sl_groups : forall sid name, is_Some (x.1.1.1.1 !! sid) -> x.1.1.2 !! sid_node sid = Some name ->
    name ∉ x.1.2;
  sl_unnamed : EmptyString ∉ x.1.2
}.

Lemma mx_set_groups_replies c l :
  l.*1 = (mx_groups c).*1 -> replies_of (mx_set_groups c l) = replies_of c.
Proof. intros Hl. unfold replies_of. cbn. by rewrite Hl. Qed.

Lemma mx_set_group_replies c addr g : replies_of (mx_set_group c addr g) = replies_of c.
Proof. apply mx_set_groups_replies, group_alter_keys. Qed.

Section settled.
Variable ibv_post_send : Z -> list ibv_wr -> Z * nat.
Variable ibv_post_recv : Z -> list ibv_wr -> Z * nat.
Variable operator_new : heap -> Z.
Variable traverse : gmap Z SessionInfo -> list Z.
Variable junk : PacketHandle.

Lemma submit_normal_replies c raw ret c' :
  ContextMcast_submitNormalRecvWR ibv_post_recv operator_new c raw = Ok (ret, c') ->
  replies_of c' = replies_of c.
Proof.
  unfold ContextMcast_submitNormalRecvWR, ContextMcast_new_request. intros H.
  outcome_run. by simplify_eq.
Qed.

Lemma submit_multicast_replies c addr raw ret c' :
  ContextMcast_submitMulticastRecvWR ibv_post_recv operator_new c addr raw = Ok (ret, c') ->
  replies_of c' = replies_of c.
Proof.
  unfold ContextMcast_submitMulticastRecvWR, ContextMcast_new_request. intros H.
  outcome_run; simplify_eq; [|done].
  exact (mx_set_group_replies _ addr _).
Qed.

Lemma release_depth_replies c r c' :
  ContextMcast_release_depth c r = Ok c' -> replies_of c' = replies_of c.
Proof.
  unfold ContextMcast_release_depth. intros H. outcome_run; simplify_eq; try done.
  all: apply mx_set_group_replies.
Qed.

Lemma settled_session x sid s s' :
  settled x -> x.1.1.1.1 !! sid = Some s -> si_recv_packets s' = si_recv_packets s ->
  si_ack_packets s' = si_ack_packets s -> si_receive_queue s' = si_receive_queue s ->
  settled (<[sid := s']> x.1.1.1.1, x.1.1.1.2, x.1.1.2, x.1.2, x.2).
Proof.
  intros [Hs Hg Hu] Hl Hr Ha Hq. split; cbn; [|intros k name Hk; apply Hg|done].
  - apply map_Forall_insert_2; [|done]. unfold session_settled. rewrite Hr, Ha, Hq. by apply (Hs sid).
  - destruct (decide (k = sid)) as [->|Hne]; [by exists s|]. by rewrite lookup_insert_ne in Hk.
Qed.

(** A data packet is dropped without being counted. *)
Lemma on_data_settled c sid h c' :
  settled (replies_of c) -> ContextMcast_on_data c sid h = Ok c' -> c' = c.
Proof.
  intros [Hs _ _] H. unfold ContextMcast_on_data in H.
  destruct (cx_active_session_map c !! sid) as [info|] eqn:Hinfo; [|done].
  destruct (Hs sid info Hinfo) as (_ & qid & q & Hq & Hqq & He). rewrite Hq in H. cbn in H, Hqq.
  unfold cx_receive_queue in H. rewrite Hqq in H. cbn in H.
  rewrite He, Z.eqb_refl in H. by injection H.
Qed.

(** An acknowledgement moves the window of a group and nothing a reply needs. *)
Lemma on_ack_settled c now sid h c' :
  settled (replies_of c) -> ContextMcast_on_ack c now sid h = Ok c' ->
  settled (replies_of c') /\ cx_posted_send c' = cx_posted_send c.
Proof.
  intros Hset H. unfold ContextMcast_on_ack in H.
  destruct (Controller_redirectMulticast (cx_controller c) sid 0) as [[s' index] ct] eqn:Hred.
  assert (Hct : settled (replies_of (c <| cx_controller := ct |>))).
  { unfold Controller_redirectMulticast in Hred. injection Hred as _ <-.
    destruct (existsb _ _); [|by destruct c as [? []]].
    destruct Hset as [Hs Hg Hu]. split; [done| |done]. cbn. intros k name Hk.
    destruct (decide (sid_node k = sid_node sid)) as [Heq|Hne].
    - rewrite Heq, lookup_insert_eq. intros [= <-].
      destruct (ct_peer_name_rev_map _ !! _) as [n|] eqn:Hn; [|exact Hu].
      apply (Hg k); [exact Hk|]. cbn. by rewrite Heq.
    - rewrite lookup_insert_ne by done. by apply Hg. }
  unfold ContextMcast_updateWndOnSuccess in H. cbn in H.
  destruct (cx_active_session_map c !! s') as [info|] eqn:Hinfo; [|done]. cbn in H.
  outcome_run. simplify_eq.
  destruct (negb _); (split; [|done]); by eapply (settled_session _ s' info) in Hct.
Qed.

Lemma process_settled c now wc addr ret c' :
  settled (replies_of c) ->
  ContextMcast_processReceivedPacket ibv_post_recv operator_new junk c now wc addr = Ok (ret, c') ->
  settled (replies_of c') /\ cx_posted_send c' = cx_posted_send c.
Proof.
  intros Hset H. unfold ContextMcast_processReceivedPacket in H. cbv zeta in H.
  outcome_inv. destruct (wc_opcode wc).
  - destruct (req_context _) as [sid|]; [|by simplify_eq]. outcome_inv.
    destruct (cx_active_session_map c !! sid) as [info|] eqn:Hinfo; [|done].
    match goal with E : deref (Some info) = Ok _ |- _ => injection E as <- end.
    destruct (_ =? _); simplify_eq; [|done]. split; [|done].
    by refine (settled_session (replies_of c) sid info _ Hset Hinfo _ _ _).
  - destruct (PacketHandle_setRawPacket _ _ _) as [r1 h0]. destruct (negb _); [by simplify_eq|].
    destruct (PacketHandle_deserialize _ _ _ _) as [r2 h]. destruct (negb _); [by simplify_eq|].
    outcome_inv. set (session := if _ && _ then _ else _) in *.
    match goal with E : (if session <? 0 then _ else _) = Ok ?c1 |- _ =>
      assert (H1 : settled (replies_of c1) /\ cx_posted_send c1 = cx_posted_send c) end.
    { destruct (session <? 0); [by simplify_eq|].
      destruct (_ =? PKT_CMD_DATA).
      { match goal with E : ContextMcast_on_data _ _ _ = Ok _ |- _ =>
          apply on_data_settled in E as ->; done end. }
      destruct (_ =? PKT_CMD_ACK); [by eapply on_ack_settled|by simplify_eq]. }
    destruct H1 as [Hs1 Hp1].
    destruct (negb _);
      [apply submit_multicast_replies in H|apply submit_normal_replies in H]; rewrite H, <- Hp1;
      (split; [done|]); unfold replies_of in H; congruence.
  - by simplify_eq.
Qed.

Lemma poll_loop_settled now addr wcs : forall c c',
  settled (replies_of c) ->
  ContextMcast_poll_loop ibv_post_recv operator_new junk c now addr wcs = Ok c' ->
  settled (replies_of c') /\ cx_posted_send c' = cx_posted_send c.
Proof.
  induction wcs as [|wc wcs IH]; intros c c' Hset H; cbn [ContextMcast_poll_loop] in H;
    [by simplify_eq|]. outcome_run.
  match goal with E : ContextMcast_release_depth _ _ = Ok _ |- _ =>
    apply release_depth_replies in E; rename E into Hd end.
  match goal with E : ContextMcast_processReceivedPacket _ _ _ _ _ _ _ = Ok _ |- _ =>
    apply process_settled in E as [Hs1 Hp1]; [|by rewrite Hd] end.
  apply IH in H as [Hs2 Hp2]; [|done]. split; [done|]. rewrite Hp2. cbn. rewrite Hp1.
  unfold replies_of in Hd. congruence.
Qed.
Lemma poll_settled c now polled ret c' :
  settled (replies_of c) ->
  ContextMcast_pollCompletedPackets ibv_post_recv operator_new junk c now polled = Ok (ret, c') ->
  settled (replies_of c') /\ cx_posted_send c' = cx_posted_send c.
Proof.
  intros Hset H. unfold ContextMcast_pollCompletedPackets in H. outcome_run; simplify_eq; [|done].
  by eapply poll_loop_settled.
Qed.

Lemma poll_group_settled now addr polled : forall c total ret c',
  settled (replies_of c) ->
  ContextMcast_pollMcastCompletedPackets ibv_post_recv operator_new junk c now addr total polled
    = Ok (ret, c') ->
  settled (replies_of c') /\ cx_posted_send c' = cx_posted_send c.
Proof.
  induction polled as [|[wcs|] polled IH]; intros c total ret c' Hset H;
    cbn [ContextMcast_pollMcastCompletedPackets] in H; [by simplify_eq| |by simplify_eq].
  outcome_inv. match goal with E : ContextMcast_poll_loop _ _ _ _ _ _ _ = Ok _ |- _ =>
    apply poll_loop_settled in E as [Hs1 Hp1]; [|done] end.
  apply IH in H as [Hs2 Hp2]; [|done]. split; [done|congruence].
Qed.

Lemma poll_groups_settled now polled groups : forall c ret c',
  settled (replies_of c) ->
  ContextMcast_poll_groups ibv_post_recv operator_new junk c now polled groups = Ok (ret, c') ->
  settled (replies_of c') /\ cx_posted_send c' = cx_posted_send c.
Proof.
  induction groups as [|addr groups IH]; intros c ret c' Hset H;
    cbn [ContextMcast_poll_groups] in H; [by simplify_eq|].
  outcome_run; match goal with
    E : ContextMcast_pollMcastCompletedPackets _ _ _ _ _ _ _ _ = Ok _ |- _ =>
    apply poll_group_settled in E as [Hs1 Hp1]; [|done] end; [by simplify_eq|].
  apply IH in H as [Hs2 Hp2]; [|done]. split; [done|congruence].
Qed.

Lemma ack_loop_settled sids : forall c ret c',
  settled (replies_of c) -> ContextMcast_ack_loop ibv_post_send operator_new c sids = Ok (ret, c') ->
  c' = c.
Proof.
  induction sids as [|sid sids IH]; intros c ret c' Hset H; cbn [ContextMcast_ack_loop] in H;
    [by simplify_eq|].
  unfold ContextMcast_send_ack in H.
  destruct (cx_active_session_map c !! sid) as [info|] eqn:Hinfo; [|done]. cbn in H.
  destruct (sl_sessions _ Hset sid info Hinfo) as (Hle & _).
  rewrite (proj2 (Z.leb_le _ _) Hle) in H. cbn in H. by apply IH in H.
Qed.

Lemma data_loop_settled now sids : forall c c',
  settled (replies_of c) -> ContextMcast_data_loop ibv_post_send operator_new c now sids = Ok c' ->
  c' = c.
Proof.
  induction sids as [|sid sids IH]; intros c c' Hset H; cbn [ContextMcast_data_loop] in H;
    [by simplify_eq|].
  unfold ContextMcast_send_session in H.
  destruct (cx_active_session_map c !! sid) as [info|] eqn:Hinfo; [|done]. cbn in H.
  unfold Controller_getMulticastContext in H.
  destruct (ct_peer_name_rev_map _ !! sid_node sid) as [name|] eqn:Hname; [|by apply IH in H].
  assert (Hnone : group_find name (ct_multicast_context_map (cx_controller c)) = None).
  { apply group_find_None. by apply (sl_groups _ Hset sid name); [exists info|]. }
  rewrite Hnone in H. by apply IH in H.
Qed.

(** One step of the worker thread, whatever the completion queues report. *)
Definition worker_step (c c' : Context) : Prop :=
  exists now recv_polled mcast_polled send_polled ret,
    ContextMcast_runStep ibv_post_send ibv_post_recv operator_new traverse junk c now
      recv_polled mcast_polled send_polled = Ok (ret, c').

Lemma worker_step_settled c c' :
  worker_step c c' -> settled (replies_of c) ->
  settled (replies_of c') /\ cx_posted_send c' = cx_posted_send c.
Proof.
  intros (now & rp & mp & sp & ret & H) Hset.
  unfold ContextMcast_runStep, ContextMcast_sendAckPackets, ContextMcast_sendDataPackets in H.
  outcome_run; simplify_eq; repeat match goal with
  | E : ContextMcast_pollCompletedPackets _ _ _ ?c1 _ _ = Ok _, S : settled (replies_of ?c1) |- _ =>
      apply poll_settled in E as [? ?]; [|exact S]
  | E : ContextMcast_poll_groups _ _ _ ?c1 _ _ _ = Ok _, S : settled (replies_of ?c1) |- _ =>
      apply poll_groups_settled in E as [? ?]; [|exact S]
  | E : ContextMcast_ack_loop _ _ ?c1 _ = Ok _, S : settled (replies_of ?c1) |- _ =>
      apply ack_loop_settled in E as ->; [|exact S]
  | E : ContextMcast_data_loop _ _ ?c1 _ _ = Ok _, S : settled (replies_of ?c1) |- _ =>
      apply data_loop_settled in E as ->; [|exact S]
  end; split; congruence || done.
Qed.
End settled.

(** [C35] A lost acknowledgement is never repeated.  Once a replica has
    acknowledged every packet it counted and has no buffer posted, no step of its
    worker thread hands another packet to the NIC, whatever arrives: the
    retransmissions of the sender, whose acknowledgement may have been lost, are
    dropped before they are counted.  Only a new [receive] changes that. *)
Theorem mcast_lost_ack_not_repeated post_send post_recv new traverse junk c c' :
  settled (replies_of c) ->
  rtc (worker_step post_send post_recv new traverse junk) c c' ->
  settled (replies_of c') /\ cx_posted_send c' = cx_posted_send c.
Proof.
  intros Hset Hrun. revert Hset. induction Hrun as [c|c c1 c2 Hstep _ IH]; [done|].
  intros Hset. apply worker_step_settled in Hstep as [Hs Hp]; [|done].
  destruct (IH Hs) as [Hs2 Hp2]. split; [done|congruence].
Qed.

(** A replica connected to "b" with a session but no buffer posted, and a data
    packet of "b" in the receive request 1. *)
Definition demo_idle : Context :=
  (outcome_state (demo_connected 8) (ContextMcast_receive demo_junk (demo_connected 8) "b" []))
    <| cx_heap := <[1 := Request_default <| req_addr0 := 4096 |>
                           <| req_qp_depth := Some (StoreDepth false 0) |>]> ∅ |>
    <| cx_mem := st_bytes ∅ (4096 + sgid_offset) (repeat 8 16) |>.
Definition demo_idle_step : outcome (Z * Context) :=
  ContextMcast_runStep demo_post demo_post demo_new demo_traverse demo_junk demo_idle 10000
    (Some [mkWc 1 true IBV_WC_RECV 0 true 100 31]) (fun _ => []) (Some []).

Lemma demo_idle_settled : settled (replies_of demo_idle).
Proof.
  assert (Hmap : exists s, cx_active_session_map demo_idle = {[0 := s]} /\
            session_settled (pm_receive_queue (cx_packet_manager demo_idle)) s).
  { eexists. split; [vm_compute; reflexivity|]. split; [done|]. eexists 0, _.
    split_and!; vm_compute; reflexivity. }
  destruct Hmap as (s & Hs & Hset). split.
  - unfold replies_of. cbn [fst snd]. rewrite Hs. by apply map_Forall_singleton.
  - intros sid name _ _. assert (Hg : (replies_of demo_idle).1.2 = []) by (vm_compute; reflexivity).
    rewrite Hg. apply not_elem_of_nil.
  - assert (Hg : (replies_of demo_idle).1.2 = []) by (vm_compute; reflexivity).
    rewrite Hg. apply not_elem_of_nil.
Qed.

Lemma mcast_lost_ack_not_repeated_witness : exists c',
  demo_idle_step = Ok (0, c') /\ length (cx_posted_recv c') = 1%nat /\ cx_posted_send c' = [].
Proof.
  pose (c' := outcome_state demo_idle demo_idle_step).
  assert (Hrun : demo_idle_step = Ok (0, c')) by (vm_compute; reflexivity).
  exists c'. split; [done|]. split; [vm_compute; reflexivity|].
  destruct (mcast_lost_ack_not_repeated demo_post demo_post demo_new demo_traverse demo_junk
    demo_idle c' demo_idle_settled) as [_ Hp].
  - apply rtc_once. eexists 10000, _, _, _, 0. exact Hrun.
  - rewrite Hp. vm_compute. reflexivity.
Defined.
