(* ===== verification/Unreliable.v ===== *)
(** * The unreliable protocols

    Models [RdmaUnreliableProtocol] and [RdmaUnreliableMcastProtocol]
    (src/protocols/rdma_unreliable/impl.{h,cpp}, impl_mcast.{h,cpp}): the two
    contexts behind the interface [Protocol], driven by a worker thread or by the
    application's own calls.

    Parameters, besides those of the contexts, are what a step of the worker finds
    when it runs: the time and what polling reports. *)

From S2P Require Import Prelude MemoryRegions Text Mem Packet BufferPool SecondaryQueue.
From S2P Require Import SendQueue McastSendQueue ReceiveQueue PacketManager Tasks Congestion.
From S2P Require Import RequestCache Posting UdEndpoint Multicast Controller Context ContextMcast Session.

Record RdmaUnreliableProtocol (C : Type) := mkUnreliable {
  un_context : C;
  un_spawn_worker : bool;
  un_worker_running : bool
}.
Arguments mkUnreliable {C} _ _ _.
Arguments un_context {C} _.
Arguments un_spawn_worker {C} _.
Arguments un_worker_running {C} _.
#[export] Instance RdmaUnreliableProtocol_fields C : Fields (RdmaUnreliableProtocol C) := mkFields (fun p =>
  mkUnreliable (un_context p) (un_spawn_worker p) (un_worker_running p)).

(** The multicast protocol has the same members around its own context. *)
Notation RdmaUnreliableMcastProtocol := (RdmaUnreliableProtocol ContextMcast) (only parsing).

(** ** Members shared by the two protocols *)
Section wrapper.
Context {C : Type}.
Variable context_runStep : C -> outcome (Z * C).
Variable context_getStatus : C -> Z -> outcome Status.

Definition Unreliable_construct (context_construct : C -> outcome (Z * C))
    (p : RdmaUnreliableProtocol C) : outcome (Z * RdmaUnreliableProtocol C) :=
  '(ret, c) ← context_construct (un_context p);
  let p1 := p <| un_context := c |> in
  if negb (ret =? 0) then Ok (ret, p1)
  else if negb (un_spawn_worker p1) then Ok (0, p1)
  else Ok (0, p1 <| un_worker_running := true |>).

(** [deconstruct] stops the worker first. *)
Definition Unreliable_deconstruct (context_deconstruct : C -> outcome C)
    (p : RdmaUnreliableProtocol C) : outcome (RdmaUnreliableProtocol C) :=
  let p1 := if un_spawn_worker p then p <| un_worker_running := false |> else p in
  c ← context_deconstruct (un_context p1);
  Ok (p1 <| un_context := c |>).

Definition Unreliable_runStep (p : RdmaUnreliableProtocol C)
  : outcome (Z * RdmaUnreliableProtocol C) :=
  if negb (un_spawn_worker p)
  then '(ret, c) ← context_runStep (un_context p); Ok (ret, p <| un_context := c |>)
  else Ok (0, p).

(** One iteration of the worker's loop; a step that fails ends the thread. *)
Definition Unreliable_worker_iteration (p : RdmaUnreliableProtocol C)
  : outcome (bool * RdmaUnreliableProtocol C) :=
  if negb (un_worker_running p) then Ok (false, p)
  else '(rc, c) ← context_runStep (un_context p);
       Ok (rc =? 0, p <| un_context := c |>).

(** [getStatus]: an application without a worker drives the transfer by asking. *)
Definition Unreliable_getStatus (p : RdmaUnreliableProtocol C) (task_id : Z)
  : outcome (Status * RdmaUnreliableProtocol C) :=
  status ← context_getStatus (un_context p) task_id;
  if bool_decide (status = PENDING) && negb (un_spawn_worker p)
  then '(_, p') ← Unreliable_runStep p; Ok (status, p')
  else Ok (status, p).

(** [doEventLoop]: the threshold is 0, so that no request is dropped. *)
Definition Unreliable_doEventLoop (current_ts last_ts : Z) (p : RdmaUnreliableProtocol C)
  : outcome (Z * RdmaUnreliableProtocol C) :=
  if u64 (current_ts - last_ts) <? 0 then Ok (0, p)
  else '(ret, c) ← context_runStep (un_context p); Ok (ret, p <| un_context := c |>).

Definition Mcast_getStatus (current_ts last_ts : Z) (p : RdmaUnreliableProtocol C) (task_id : Z)
  : outcome (Status * RdmaUnreliableProtocol C) :=
  status ← context_getStatus (un_context p) task_id;
  if bool_decide (status = PENDING) && negb (un_spawn_worker p)
  then '(_, p') ← Unreliable_doEventLoop current_ts last_ts p; Ok (status, p')
  else Ok (status, p).

(** The other calls pass through to the context. *)
Definition with_context {A} (p : RdmaUnreliableProtocol C) (r : A * C) : A * RdmaUnreliableProtocol C :=
  (r.1, p <| un_context := r.2 |>).
Definition lift_context {A} (p : RdmaUnreliableProtocol C) (r : outcome (A * C))
  : outcome (A * RdmaUnreliableProtocol C) := x ← r; Ok (with_context p x).
End wrapper.

Section instances.
Variable ibv_post_send : Z -> list ibv_wr -> Z * nat.
Variable ibv_post_recv : Z -> list ibv_wr -> Z * nat.
Variable operator_new : heap -> Z.
Variable traverse : gmap Z SessionInfo -> list Z.
Variable junk : PacketHandle.
Variable ibv_create_ah : list Z -> Z -> Z.
Variable junk_gid : list Z.
Variable ibv_reg_mr : Z -> Z -> Z -> option ibv_mr.
Variable ibv_dereg_mr : ibv_mr -> Z.
Variable access : Z.
Variable clock : Context -> Z.
Variable polls : Context -> option (list ibv_wc) * option (list ibv_wc).

Definition unreliable_step (c : Context) : outcome (Z * Context) :=
  Context_runStep ibv_post_send ibv_post_recv operator_new traverse junk c (clock c)
    (polls c).1 (polls c).2.

Definition unreliable_protocol : Protocol (RdmaUnreliableProtocol Context) := {|
  prepareConnection := fun p peer local =>
    let '(ret, c, a) := Context_prepareConnection (un_context p) peer local in
    Ok (ret, p <| un_context := c |>, a);
  setupConnection := fun p peer a =>
    lift_context p (Context_setupConnection ibv_create_ah junk_gid (un_context p) peer a);
  proto_send := fun p peer l => lift_context p (Context_send junk (un_context p) peer l);
  proto_receive := fun p peer l => lift_context p (Context_receive junk (un_context p) peer l);
  proto_getStatus := Unreliable_getStatus unreliable_step Context_getStatus;
  proto_freeTask := fun p id => with_context p (Context_freeTask (un_context p) id);
  proto_registerLocalMemory := fun p addr len =>
    with_context p (Context_registerLocalMemory ibv_reg_mr access (un_context p) addr len);
  proto_unregisterLocalMemory := fun p addr =>
    lift_context p (Context_unregisterLocalMemory ibv_dereg_mr (un_context p) addr);
  proto_runStep := Unreliable_runStep unreliable_step;
  proto_joinMulticast := fun p _ => Ok (not_implemented p);
  proto_leaveMulticast := fun p _ => Ok (not_implemented p);
  proto_setMulticastReplicas := fun p _ _ => not_implemented p
|}.

(** ** Multicast *)
Variable mcast_polls : Context -> string -> list (option (list ibv_wc)).
Variable fabric : ContextMcast -> string -> option RdmaMulticastContext.
Variable group_reg_mr : string -> nat -> Z -> Z -> Z -> option ibv_mr.
Variable last_ts : Z.

(** A call on the members the two contexts share. *)
Definition on_context {A} (c : ContextMcast) (r : A * Context) : A * ContextMcast :=
  (r.1, c <| mx_context := r.2 |>).
Definition lift_mcast {A} (p : RdmaUnreliableMcastProtocol) (r : outcome (A * Context))
  : outcome (A * RdmaUnreliableMcastProtocol) :=
  x ← r; Ok (with_context p (on_context (un_context p) x)).
Definition mcast_step (c : ContextMcast) : outcome (Z * ContextMcast) :=
  let cx := mx_context c in
  r ← ContextMcast_runStep ibv_post_send ibv_post_recv operator_new traverse junk cx (clock cx)
        (polls cx).1 (mcast_polls cx) (polls cx).2;
  Ok (on_context c r).

Definition mcast_protocol : Protocol RdmaUnreliableMcastProtocol := {|
  prepareConnection := fun p peer local =>
    let '(ret, c, a) := Context_prepareConnection (mx_context (un_context p)) peer local in
    Ok (ret, p <| un_context := (un_context p) <| mx_context := c |> |>, a);
  setupConnection := fun p peer a =>
    lift_mcast p (Context_setupConnection ibv_create_ah junk_gid (mx_context (un_context p)) peer a);
  proto_send := fun p peer l => lift_mcast p (ContextMcast_send junk (mx_context (un_context p)) peer l);
  proto_receive := fun p peer l =>
    lift_mcast p (ContextMcast_receive junk (mx_context (un_context p)) peer l);
  proto_getStatus := fun p id =>
    Mcast_getStatus mcast_step (fun c => ContextMcast_getStatus (mx_context c))
      (clock (mx_context (un_context p))) last_ts p id;
  proto_freeTask := fun p id =>
    with_context p (on_context (un_context p) (ContextMcast_freeTask (mx_context (un_context p)) id));
  proto_registerLocalMemory := fun p addr len =>
    with_context p (on_context (un_context p)
      (ContextMcast_registerLocalMemory ibv_reg_mr group_reg_mr access (mx_context (un_context p)) addr len));
  proto_unregisterLocalMemory := fun p addr =>
    lift_mcast p (ContextMcast_unregisterLocalMemory ibv_dereg_mr (mx_context (un_context p)) addr);
  proto_runStep := Unreliable_runStep mcast_step;
  proto_joinMulticast := fun p addr =>
    lift_context p (ContextMcast_joinMulticast ibv_post_recv operator_new junk (group_reg_mr addr) access
      (fabric (un_context p) addr) (un_context p) addr);
  proto_leaveMulticast := fun p addr =>
    lift_context p (ContextMcast_leaveMulticast ibv_dereg_mr (un_context p) addr);
  proto_setMulticastReplicas := fun p addr peers =>
    with_context p (on_context (un_context p)
      (ContextMcast_setMulticastReplicas (mx_context (un_context p)) addr peers))
|}.
End instances.

(** ** Connecting again *)
Notation endpoints c := (us_endpoint_map (ct_endpoint_store (cx_controller c))).

Lemma get_endpoint_keeps s path e ok s' :
  RdmaUDEndPointStore_getOrCreateEndpoint s path = (ok, s') ->
  us_endpoint_map s !! path = Some e -> us_endpoint_map s' !! path = Some e.
Proof.
  unfold RdmaUDEndPointStore_getOrCreateEndpoint. intros Hrun He. rewrite He in Hrun.
  destruct (String.eqb path ""); by simplify_eq.
Qed.

Lemma prepare_keeps c peer local ret c' a e :
  Context_prepareConnection c peer local = (ret, c', a) ->
  endpoints c !! peer = Some e -> endpoints c' !! peer = Some e.
Proof.
  unfold Context_prepareConnection, Controller_prepareConnection. intros Hrun He.
  destruct (RdmaUDEndPointStore_getOrCreateEndpoint _ _) as [ok s] eqn:Hg.
  pose proof (get_endpoint_keeps _ _ _ _ _ Hg He). destruct (negb ok); by simplify_eq.
Qed.

Lemma setup_keeps create junk_gid c peer a ret c' e :
  Context_setupConnection create junk_gid c peer a = Ok (ret, c') ->
  endpoints c !! peer = Some e -> ep_connected e = true -> endpoints c' !! peer = Some e.
Proof.
  unfold Context_setupConnection, Controller_setupConnection. intros Hrun He Hc.
  destruct (RdmaUDEndPointStore_getOrCreateEndpoint _ _) as [ok s] eqn:Hg.
  pose proof (get_endpoint_keeps _ _ _ _ _ Hg He) as Hs. rewrite Hs in Hrun.
  unfold RdmaUDEndPoint_setupConnection in Hrun. rewrite Hc in Hrun.
  outcome_run; simplify_eq; cbn; rewrite ?lookup_insert_eq; done.
Qed.

(** [C36] Connecting again to a known peer changes nothing.  When the endpoint of a
    peer is connected and the session was given up (a failed send does that), the
    next handshake may succeed, but whatever the peer answers, the endpoint keeps
    the address handle and the queue pairs of the first handshake: a peer that
    restarted with other queue pairs is never reached again. *)
Theorem unreliable_reconnect_stale post_send post_recv new traverse junk create junk_gid reg dereg access
    clock polls json_write json_parse W rpc t peer w ret t' w' e :
  endpoints (un_context (rt_protocol t)) !! peer = Some e -> ep_connected e = true ->
  @RapidTransfer_connect _ (unreliable_protocol post_send post_recv new traverse junk create junk_gid reg
    dereg access clock polls) json_write json_parse W rpc t peer w = Ok (ret, t', w') ->
  endpoints (un_context (rt_protocol t')) !! peer = Some e.
Proof.
  intros He Hc Hrun. unfold RapidTransfer_connect in Hrun. cbn [prepareConnection unreliable_protocol] in Hrun.
  destruct (Context_prepareConnection _ peer ∅) as [[r c1] a] eqn:Hp. apply prepare_keeps with (e := e) in Hp; [|done].
  cbn [mbind outcome_bind] in Hrun. destruct (negb _); [by simplify_eq|].
  destruct (SessionManager_connect _ _ _ _ _ _ _ _) as [[[[r2 response] sm] w2]|]; [|done].
  cbn [mbind outcome_bind] in Hrun. destruct (negb _); [by simplify_eq|].
  cbn [setupConnection unreliable_protocol rt_protocol un_context field_set] in Hrun.
  unfold lift_context in Hrun. destruct (Context_setupConnection _ _ _ _ _) as [[r3 c3]|] eqn:Hs; [|done].
  apply setup_keeps with (e := e) in Hs; [|done|done]. cbn in Hrun.
  destruct (negb _); by simplify_eq.
Qed.

(** The peer answers with queue pair 99; the endpoint keeps 31. *)
Definition demo_known_endpoint : RdmaUDEndPoint := mkEndPoint true (RdmaContext_gid (repeat 8 16)) 4 [31] 1.
Definition demo_known : RapidTransfer (RdmaUnreliableProtocol Context) :=
  mkRapidTransfer SessionManager_ctor
    (mkUnreliable (Context_ctor 256 8 8
       (mkController "mlx5_0" 7 (repeat 9 16) (mkStore (<["b:1" := demo_known_endpoint]> ∅) [11] [0] [0] 128 64)
          [] ∅ ∅ ∅ 0) ∅ 1) false false) [].
Notation demo_reconnect := (@RapidTransfer_connect _ (unreliable_protocol demo_post demo_post demo_new
    demo_traverse demo_junk (fun _ _ => 1) [] demo_reg_mr (fun _ => 0) 1 (fun _ => 0)
    (fun _ => (None, None))) (fun _ => [SPACE])
  (fun _ => Some (Some (<["qp" := ToString [99]]> demo_peer))) unit (fun _ r w => Ok (Some (Some r), w))
  demo_known "b:1" tt) (only parsing).
Lemma unreliable_reconnect_stale_witness : exists t',
  demo_reconnect = Ok (0, t', tt) /\
  endpoints (un_context (rt_protocol t')) !! "b:1" = Some demo_known_endpoint.
Proof.
  assert (Hret : match demo_reconnect with Ok (ret, _, _) => ret | Trap _ => ERR end = 0)
    by (vm_compute; reflexivity).
  destruct demo_reconnect as [[[ret t'] []]|] eqn:Hrun; [|discriminate Hret].
  exists t'. split; [by rewrite Hret|].
  eapply unreliable_reconnect_stale; [|reflexivity|exact Hrun]. vm_compute. reflexivity.
Defined.
