(* ===== verification/McastRound.v ===== *)
(** * A round of the multicast sender

    What [ContextMcast::sendDataPackets] does with each entry of a group's window, up to
    the state of the whole round (McastHostSend.v), and what an acknowledgement of a
    replica does to the group (src/protocols/rdma_unreliable/context_mcast.cpp): the
    composition of the controller, the group, the multicast send queue and the work
    requests. *)

From S2P Require Import Prelude MemoryRegions Text Mem Packet BufferPool SecondaryQueue.
From S2P Require Import SendQueue McastSendQueue ReceiveQueue PacketManager Tasks Congestion.
From S2P Require Import RequestCache Posting UdEndpoint Multicast Controller Context ContextMcast.

Lemma group_find_alter f addr l g :
  group_find addr l = Some g -> group_find addr (group_alter f addr l) = Some (f g).
Proof.
  induction l as [|[a h] l IH]; cbn; [done|].
  destruct (String.eqb_spec a addr) as [->|Hne]; [|exact IH]. by intros [= ->].
Qed.

(** ** Entries of the ring *)
Lemma set_entry_eq q i h :
  0 < ms_queue_capacity q -> length (ms_handle q) = Z.to_nat (ms_queue_capacity q) ->
  McastSendQueue_getMutableEntry (McastSendQueue_setEntry q i h) i = Ok h.
Proof.
  intros Hc Hl. unfold McastSendQueue_getMutableEntry. cbn. rewrite (proj2 (Z.eqb_neq _ 0)) by lia.
  apply vec_at_Some, list_lookup_insert_eq. pose proof (Z.mod_pos_bound i _ Hc). lia.
Qed.

Lemma set_entry_ne q i j h :
  0 < ms_queue_capacity q -> Z.abs (i - j) < ms_queue_capacity q -> i <> j ->
  McastSendQueue_getMutableEntry (McastSendQueue_setEntry q i h) j
    = McastSendQueue_getMutableEntry q j.
Proof.
  intros Hc Hd Hne. unfold McastSendQueue_getMutableEntry. cbn.
  rewrite (proj2 (Z.eqb_neq _ 0)) by lia. unfold vec_at.
  by rewrite list_lookup_insert_ne by (by apply ring_slot_neq).
Qed.

(** ** Sending *)
Section round.
Variable ibv_post_send : Z -> list ibv_wr -> Z * nat.
Variable operator_new : heap -> Z.
Variable addr : string.
Variables qid now rto : Z.
Variable q0 : McastSendQueue.
Variable sessions : gmap Z SessionInfo.
Variable timer : Rto.
Variable frags : list Buffer.
Variable out : list Z.
Variables depth max : Z.
Variable sent : list ibv_wr.

Hypothesis verbs_succeed : forall qp wrs, fst (ibv_post_send qp wrs) = 0.
Hypothesis q0_rep : ms_rep q0 frags out.
Hypothesis timer_rto : rt_rto timer = rto.
Hypothesis rto_pos : 0 < rto.

Let tail := McastSendQueue_getMinTailIndex q0.

(** Entry [i] of [q] is not to be sent (again) yet. *)
Definition entry_fresh (q : McastSendQueue) (i : Z) : Prop :=
  exists h, McastSendQueue_getMutableEntry q i = Ok h /\ u64 (now - ph_ts h) < rto.

(** Entry [i] of [q] was never sent, or its timer has run out. *)
Definition entry_due (q : McastSendQueue) (i : Z) : bool :=
  match McastSendQueue_getMutableEntry q i with
  | Ok h => rto <=? u64 (now - ph_ts h)
  | Trap _ => false
  end.
Definition due_count (k : Z) : nat :=
  length (filter (fun i => entry_due q0 i = true) (seqZ tail k)).

(** After [k] entries: those are fresh, the others as they were, and every due
    one has become a work request or a request still to be posted. *)
Record round_inv (k : Z) (st : mcast_loop) : Prop := mkRoundInv {
  ro_frame : cx_active_session_map (ml_context st) = sessions /\ cx_rto (ml_context st) = timer;
  ro_queue : exists q, pm_mcast_send_queue (cx_packet_manager (ml_context st)) !! qid = Some q /\
    ms_head q = ms_head q0 /\ ms_tail_list q = ms_tail_list q0 /\
    ms_queue_capacity q = ms_queue_capacity q0 /\ length (ms_handle q) = length (ms_handle q0) /\
    (forall i, tail <= i < tail + k -> entry_fresh q i) /\
    (forall i, tail + k <= i < ms_head q0 ->
       McastSendQueue_getMutableEntry q i = McastSendQueue_getMutableEntry q0 i);
  ro_group : exists g cn posted, group_find addr (mx_groups (ml_context st)) = Some g /\
    mc_connections g !! 0%nat = Some cn /\ mc_max_wr_per_qp g = max /\
    cn_send_wr_depth cn = depth + Z.of_nat (length posted) /\
    cx_posted_send (ml_context st) = sent ++ posted /\
    (length posted + length (ml_request_list st))%nat = due_count k;
  ro_live : Forall (fun p => is_Some (cx_heap (ml_context st) !! p)) (ml_request_list st)
}.

Hypothesis depth_room : 0 <= depth /\ depth + (ms_head q0 - tail) <= max < 0x80000000.

Lemma due_count_le k : 0 <= k -> Z.of_nat (due_count k) <= k.
Proof.
  intros Hk. unfold due_count. pose proof (length_filter (fun i => entry_due q0 i = true) (seqZ tail k)).
  rewrite length_seqZ in *. lia.
Qed.

Lemma due_count_succ k :
  0 <= k -> due_count (k + 1) = (due_count k + if entry_due q0 (tail + k) then 1 else 0)%nat.
Proof.
  intros Hk. unfold due_count. rewrite (seqZ_app tail k 1) by lia.
  rewrite filter_app, length_app. f_equal. rewrite (seqZ_cons _ 1), filter_cons by lia.
  rewrite seqZ_nil by lia. by destruct (entry_due q0 (tail + k)).
Qed.

(** Posting the collected requests. *)
Lemma flush_round k st :
  0 <= k <= ms_head q0 - tail -> round_inv k st ->
  exists st', ContextMcast_flush ibv_post_send addr st = Ok st' /\
    round_inv k st' /\ ml_request_list st' = [].
Proof.
  intros Hk [Hfr Hq (g & cn & posted & Hg & Hcn & Hmax & Hd & Hp & Hcount) Hlive].
  pose proof (due_count_le k ltac:(lia)) as Hdue. unfold ContextMcast_flush. rewrite Hg.
  cbn [deref mbind outcome_bind].
  unfold RdmaMulticastContext_postSendRequest, mc_valid_index.
  assert (Hlen := lookup_lt_Some _ _ _ Hcn). change (Z.to_nat 0) with 0%nat.
  rewrite (proj2 (Z.leb_le 0 0)), (proj2 (Z.ltb_lt 0 _)), (vec_at_Some _ _ _ Hcn) by lia.
  cbn [andb negb mbind outcome_bind].
  replace (i32 (mc_max_wr_per_qp g)) with max by (rewrite Hmax; word_lia).
  set (ref := GroupDepth _ _ _).
  destruct (post_batch_spec (ibv_post_send (cn_qp_num cn)) (make_mcast_send_wr g cn) ref max
    (cn_send_wr_depth cn) (cx_heap (ml_context st)) (ml_request_list st))
    as (rc & d' & hp' & new & err & Hrun & Hrc & _ & Hd' & _ & Hall); try done; try lia.
  { intros wrs _ Hbad. by rewrite verbs_succeed in Hbad. }
  destruct (Hall (verbs_succeed _)) as [Hnew ->]. rewrite Hrun.
  cbn [mbind outcome_bind negb Z.eqb]. eexists. split; [done|]. split; [|done]. split; cbn; try done.
  eexists _, (cn <| cn_send_wr_depth := d' |>), (posted ++ new).
  split_and!; [by apply group_find_alter|cbn; by rewrite list_lookup_insert_eq|done| | |].
  - cbn. rewrite length_app. lia.
  - by rewrite Hp, app_assoc.
  - cbn. rewrite length_app. lia.
Qed.

(** Entry [tail + k] of [q] becomes [h'], sent now, and a request [r] for it. *)
Lemma round_inv_sent k st q q1 h' c1 s1 r :
  0 <= k < ms_head q0 - tail -> round_inv k st -> due_count (k + 1) = S (due_count k) ->
  pm_mcast_send_queue (cx_packet_manager (ml_context st)) !! qid = Some q ->
  ms_head q1 = ms_head q /\ ms_tail_list q1 = ms_tail_list q /\
    ms_queue_capacity q1 = ms_queue_capacity q /\ ms_handle q1 = ms_handle q ->
  ph_ts h' = now ->
  cx_active_session_map c1 = cx_active_session_map (ml_context st) -> cx_rto c1 = cx_rto (ml_context st) ->
  pm_mcast_send_queue (cx_packet_manager c1) !! qid = Some (McastSendQueue_setEntry q1 (tail + k) h') ->
  mx_groups c1 = mx_groups (ml_context st) -> cx_posted_send c1 = cx_posted_send (ml_context st) ->
  let request := operator_new (cx_heap (ml_context st)) in
  cx_heap c1 = <[request := r]> (cx_heap (ml_context st)) ->
  round_inv (k + 1) (mkMcastLoop c1 s1 (ml_request_list st ++ [request])).
Proof.
  intros Hk [[Hse Hti] (q' & Hq' & Hh & Ht & Hc & Hl & Hfresh & Hold) (g & cn & posted & Hg & Hcn & Hmax & Hd & Hp & Hcount) Hlive]
    Hsucc Hq (Hq1h & Hq1t & Hq1c & Hq1l) Hts Hse1 Hti1 Hqq Hgr1 Hp1 request Hheap.
  rewrite Hq in Hq'. injection Hq' as <-.
  pose proof (ms_rep_head _ _ _ q0_rep) as (Hmin & Hhd & Hring). fold tail in Hmin, Hring.
  pose proof (sdr_cap _ _ _ (msr_send _ _ _ q0_rep)) as Hcap. cbn in Hcap.
  assert (Hget : forall i, McastSendQueue_getMutableEntry q1 i = McastSendQueue_getMutableEntry q i)
    by (intros i; unfold McastSendQueue_getMutableEntry; by rewrite Hq1c, Hq1l).
  split; cbn [ml_context ml_request_list].
  - by rewrite Hse1, Hti1.
  - exists (McastSendQueue_setEntry q1 (tail + k) h').
    split_and!; [done|by rewrite <- Hh|by rewrite <- Ht|by rewrite <- Hc| | |].
    + rewrite <- Hl, <- Hq1l. apply length_insert.
    + intros i Hi. destruct (decide (i = tail + k)) as [->|Hne].
      * exists h'. split; [|rewrite Hts, Z.sub_diag; exact rto_pos].
        apply set_entry_eq; rewrite Hq1c, ?Hq1l, ?Hl, Hc; [done|].
        apply (sdr_len _ _ _ (msr_send _ _ _ q0_rep)).
      * destruct (Hfresh i ltac:(lia)) as (hi & Hhi & Hfi). exists hi. split; [|done].
        by rewrite set_entry_ne, Hget by lia.
    + intros i Hi. rewrite set_entry_ne, Hget by lia. apply Hold. lia.
  - exists g, cn, posted. rewrite Hgr1, Hp1. split_and!; try done. rewrite length_app. cbn. lia.
  - rewrite Hheap. apply Forall_app. split; [|apply Forall_singleton; rewrite lookup_insert_eq; by eexists].
    eapply Forall_impl; [exact Hlive|]. cbn. intros p Hp'.
    destruct (decide (p = request)) as [->|Hne]; [rewrite lookup_insert_eq; by eexists|by rewrite lookup_insert_ne].
Qed.

(** The closure on the next entry. *)
Lemma send_packet_round k st :
  0 <= k < ms_head q0 - tail -> round_inv k st ->
  exists rc st', ContextMcast_send_packet ibv_post_send operator_new now addr qid (tail + k) st
    = Ok (rc, st') /\ round_inv (k + 1) st'.
Proof.
  intros Hk Hinv. pose proof Hinv as [Hfr (q & Hq & Hh & Ht & Hc & Hl & Hfresh & Hold) Hgr Hlive].
  pose proof (ms_rep_head _ _ _ q0_rep) as (Hmin & Hhd & Hring). fold tail in Hmin, Hring.
  pose proof (sdr_cap _ _ _ (msr_send _ _ _ q0_rep)) as Hcap. cbn in Hcap.
  destruct (sdr_slots _ _ _ (msr_send _ _ _ q0_rep) (tail + k)) as (h & b & Hslot & _ & Hok);
    [cbn; fold tail; lia|]. cbn in Hslot.
  destruct Hok as (Hnz & Hgrh & _).
  assert (Hent : McastSendQueue_getMutableEntry q0 (tail + k) = Ok h).
  { unfold McastSendQueue_getMutableEntry. rewrite (proj2 (Z.eqb_neq _ 0)) by lia.
    by apply vec_at_Some. }
  unfold ContextMcast_send_packet, mx_queue. rewrite Hq. cbn [deref mbind outcome_bind].
  rewrite (Hold (tail + k)), Hent by lia. cbn [mbind outcome_bind].
  destruct Hfr as [Hse Hti]. rewrite Hti, timer_rto.
  pose proof (due_count_succ k ltac:(lia)) as Hsucc. unfold entry_due in Hsucc. rewrite Hent in Hsucc.
  destruct (Z.ltb_spec (u64 (now - ph_ts h)) rto) as [Hlt|Hge].
  { eexists _, _. split; [done|].
    rewrite (proj2 (Z.leb_gt _ _)), Nat.add_0_r in Hsucc by lia.
    split; [done| | |done].
    - exists q. split_and!; try done.
      + intros i Hi. destruct (decide (i = tail + k)) as [->|]; [|apply Hfresh; lia].
        exists h. by rewrite Hold by lia.
      + intros i Hi. apply Hold. lia.
    - destruct Hgr as (g & cn & posted & ? & ? & ? & ? & ? & ?). exists g, cn, posted.
      by rewrite Hsucc. }
  rewrite (proj2 (Z.leb_le _ _) Hge) in Hsucc.
  rewrite PacketHandle_serialize_vector_eq by done.
  set (h' := _ <| ph_pkt_hdr_imm := _ |>). set (s1 := if negb _ then _ else ml_session st).
  set (q1 := if negb _ then McastSendQueue_setWndSize q _ else q).
  assert (Hq1 : ms_head q1 = ms_head q /\ ms_tail_list q1 = ms_tail_list q /\
            ms_queue_capacity q1 = ms_queue_capacity q /\ ms_handle q1 = ms_handle q)
    by (unfold q1; by destruct (negb _)).
  destruct Hgr as (g & cn & posted & Hg & Hcn & Hmax & Hd & Hp & Hcount). rewrite Hg.
  cbn [deref mbind outcome_bind].
  assert (Hreq : exists r, data_request g (PacketHandle_slices (h <| ph_ts := now |>))
            (PacketHandle_imm (h <| ph_ts := now |>)) = Some r).
  { unfold PacketHandle_slices. destruct (ph_data_buf _ =? 0); eexists; reflexivity. }
  destruct Hreq as [r ->]. cbn [ContextMcast_new_request].
  set (st1 := mkMcastLoop _ s1 _).
  assert (Hst1 : round_inv (k + 1) st1).
  { apply (round_inv_sent k st q q1 h' _ s1 r Hk Hinv); try done; [lia|]. apply lookup_insert_eq. }
  destruct (Nat.eqb _ _); [|by eexists _, _].
  destruct (flush_round (k + 1) st1 ltac:(lia) Hst1) as (st2 & Hrun & Hst2 & _).
  rewrite Hrun. by eexists _, _.
Qed.

End round.

(** ** Acknowledgements *)
Lemma updateWnd_total mtu w rwnd : 0 < mtu -> exists w', updateWnd mtu w rwnd = Ok w'.
Proof.
  intros Hm. unfold updateWnd. destruct (_ <? cw_ssthresh w); [by eexists|].
  set (incr0 := if cw_incr w <? mtu then mtu else cw_incr w).
  assert (Hi : 0 < incr0) by (unfold incr0; destruct (Z.ltb_spec (cw_incr w) mtu); lia).
  rewrite (proj2 (Z.eqb_neq incr0 0)), (proj2 (Z.eqb_neq mtu 0)) by lia.
  destruct (_ <=? _); by eexists.
Qed.

Lemma replica_index_found name l k : forall i,
  l !! k = Some name -> name ∉ take k l -> replica_index name l i = Some (i + Z.of_nat k).
Proof.
  revert k. induction l as [|x l IH]; intros k i Hk Hn; [done|]. cbn [replica_index].
  destruct k as [|k].
  - injection Hk as ->. rewrite String.eqb_refl. f_equal. lia.
  - cbn [take] in Hn. apply not_elem_of_cons in Hn as [Hx Hn].
    destruct (String.eqb_spec x name) as [->|]; [done|]. rewrite (IH k) by done. f_equal. lia.
Qed.

Lemma replica_index_missing name l : forall i, name ∉ l -> replica_index name l i = None.
Proof.
  induction l as [|x l IH]; intros i Hn; [done|]. apply not_elem_of_cons in Hn as [Hx Hn].
  cbn [replica_index]. destruct (String.eqb_spec x name) as [->|]; [done|]. by apply IH.
Qed.

Lemma redirect_loop_found name sid l1 a g l2 k : forall index,
  Forall (fun e => name ∉ mc_replicas e.2) l1 ->
  mc_replicas g !! k = Some name -> name ∉ take k (mc_replicas g) ->
  redirect_loop name sid index (l1 ++ (a, g) :: l2)
    = (session_id (mc_group_id g) (Z.rem sid 256), Z.of_nat k).
Proof.
  induction l1 as [|[b h] l1 IH]; intros index Hl1 Hk Hn; cbn [app redirect_loop].
  - by rewrite (replica_index_found _ _ k).
  - apply Forall_cons in Hl1 as [Hb Hl1]. cbn in Hb. rewrite replica_index_missing by done. by apply IH.
Qed.

(** The session of a group that the session [sid] of a replica belongs to. *)
Definition group_session (g : RdmaMulticastContext) (sid : Z) : Z :=
  session_id (mc_group_id g) (Z.rem sid 256).

(** An acknowledgement of a replica moves that replica's tail.  A packet of
    peer [name], the [k]-th replica of the first group that lists it, moves the
    [k]-th tail of the group's send queue to the acknowledged number, as far as
    it is within the window, and no other tail; other send queues and all receive
    queues are untouched, the sample goes into the timer, and the congestion
    window of the group, never above the window the replica announced, becomes
    the window of the queue. *)
Theorem mcast_ack_reaches_replica c now sid handle name l1 a g l2 k info qid q tail_ frags out :
  let gsid := group_session g sid in
  ct_peer_name_rev_map (cx_controller c) !! sid_node sid = Some name ->
  mx_groups c = l1 ++ (a, g) :: l2 -> Forall (fun e => name ∉ mc_replicas e.2) l1 ->
  mc_replicas g !! k = Some name -> name ∉ take k (mc_replicas g) ->
  cx_active_session_map c !! gsid = Some info -> si_mcast_send_queue info = Some qid ->
  pm_mcast_send_queue (cx_packet_manager c) !! qid = Some q ->
  ms_rep q frags out -> pool_inv (cx_pool c) (cx_mem c) out -> ms_queue_capacity q < 0x1000000 ->
  0 <= ph_sn handle < 0x1000000 -> ms_tail_list q !! k = Some tail_ -> 0 < cx_mtu_size c ->
  exists c' q' info',
    ContextMcast_on_ack c now sid handle = Ok c' /\
    pm_mcast_send_queue (cx_packet_manager c') = <[qid := q']> (pm_mcast_send_queue (cx_packet_manager c)) /\
    ms_tail_list q' = <[k := cumulative_ack tail_ (ms_head q) (ph_sn handle)]> (ms_tail_list q) /\
    pm_receive_queue (cx_packet_manager c') = pm_receive_queue (cx_packet_manager c) /\
    cx_rto c' = updateRTO ContextMcast_rto_config (cx_rto c) (rtt_sample now (ph_ts handle)) /\
    cx_active_session_map c' !! gsid = Some info' /\
    cw_cwnd (si_wnd info') <= ph_wnd handle /\
    (0 <= cw_cwnd (si_wnd info') <= ms_queue_capacity q -> ms_queue_capacity q < 0x10000 ->
     ms_wnd_size q' = cw_cwnd (si_wnd info')).
Proof.
  intros gsid Hname Hgr Hl1 Hk Hn Hinfo Hqid Hq Hrep Hpool Hcap Hsn Htail Hmtu.
  unfold ContextMcast_on_ack, Controller_redirectMulticast, mx_groups in *.
  rewrite Hname. cbn [from_option id default]. rewrite Hgr.
  rewrite (redirect_loop_found name sid l1 a g l2 k 0 Hl1 Hk Hn). fold (group_session g sid). fold gsid.
  set (ct := if existsb _ _ then _ else cx_controller c).
  change (cx_active_session_map (c <| cx_controller := ct |>)) with (cx_active_session_map c).
  rewrite Hinfo, Hqid. unfold mx_queue. cbn [deref mbind outcome_bind cx_packet_manager field_set].
  change (cx_packet_manager (c <| cx_controller := ct |>)) with (cx_packet_manager c).
  rewrite Hq. cbn [deref mbind outcome_bind].
  destruct (McastSendQueue_markCompleted_spec (cx_mem c) q (cx_pool c) frags out (Z.of_nat k) tail_
    (ph_sn handle) Hrep Hpool Hcap Hsn ltac:(lia) ltac:(by rewrite Nat2Z.id))
    as (q' & p' & out' & Hrun & _ & _ & Ht & _ & _ & Hc & _). rewrite Nat2Z.id in Ht.
  change (McastSendQueue_markCompleted _ q _ _ _) with
    (McastSendQueue_markCompleted (cx_mem c) q (cx_pool c) (Z.of_nat k) (ph_sn handle)).
  rewrite Hrun. cbn [mbind outcome_bind].
  destruct (updateWnd_total (cx_mtu_size c) (si_wnd info) (ph_wnd handle) Hmtu) as [w Hw].
  destruct (updateWnd_ssthresh _ _ _ _ Hw) as [_ Hle].
  unfold ContextMcast_updateWndOnSuccess. cbn -[updateWnd updateRTO rtt_sample].
  rewrite Hinfo. cbn -[updateWnd updateRTO rtt_sample]. rewrite Hw, Hqid.
  cbn -[updateRTO rtt_sample]. unfold mx_queue. cbn -[updateRTO rtt_sample].
  rewrite lookup_insert_eq. cbn -[updateRTO rtt_sample].
  destruct (Z.eqb_spec (McastSendQueue_getWndSize q') (cw_cwnd w)) as [Heq|Hne];
    cbn -[updateRTO rtt_sample].
  - eexists _, q', (info <| si_wnd := w |> <| si_mcast_send_queue := Some qid |>).
    split; [done|].
    split_and!; try done. apply lookup_insert_eq.
  - eexists _, (McastSendQueue_setWndSize q' (cw_cwnd w)),
      (info <| si_wnd := w |> <| si_mcast_send_queue := Some qid |>).
    split; [done|]. split_and!; try done; [apply insert_insert_eq|apply lookup_insert_eq|].
    intros Hb Hc16. cbn in *. rewrite Hc. word_lia.
Qed.

(** ** A sender to the group "g" (node 0) of the replicas "a" and "b" (nodes 1 and
    2) with one fragment in its window *)
Definition demo_gsession : SessionInfo :=
  (SessionInfo_ctor demo_junk) <| si_send_queue := Some 0 |> <| si_receive_queue := Some 0 |>
    <| si_mcast_send_queue := Some 0 |>.
Definition demo_gsender : Context :=
  let c := Context_ctor 64 1 4
    (mkController "mlx5_0" 7 (repeat 9 16) (mkStore ∅ [11] [0] [0] 128 64)
       [("g", (demo_group [21]) <| mc_replicas := ["a"; "b"] |>)] ∅
       (<["g" := 0]> (<["a" := 1]> (<["b" := 2]> ∅)))
       (<[0 := "g"]> (<[1 := "a"]> (<[2 := "b"]> ∅))) 3) ∅ 1 in
  c <| cx_active_session_map := {[0 := demo_gsession]} |>
    <| cx_rto := Rto_initial ContextMcast_rto_config |>
    <| cx_packet_manager := (cx_packet_manager c) <| pm_pool := snd demo_mcast |>
         <| pm_mcast_send_queue := {[0 := fst demo_mcast]} |> |>.

Lemma mcast_ack_reaches_replica_witness : exists c' q' info',
  ContextMcast_on_ack demo_gsender 20000 (2 * 256)
    (demo_junk <| ph_sn := 1 |> <| ph_ts := 10000 |> <| ph_wnd := 16 |>) = Ok c' /\
  pm_mcast_send_queue (cx_packet_manager c') !! 0 = Some q' /\ ms_tail_list q' = [0; 1] /\
  cx_active_session_map c' !! 0 = Some info' /\ cw_cwnd (si_wnd info') <= 16.
Proof.
  destruct demo_mcast_rep as (out & Hrep & Hpool).
  destruct (mcast_ack_reaches_replica demo_gsender 20000 (2 * 256)
    (demo_junk <| ph_sn := 1 |> <| ph_ts := 10000 |> <| ph_wnd := 16 |>) "b" [] "g"
    ((demo_group [21]) <| mc_replicas := ["a"; "b"] |>) [] 1 demo_gsession 0 (fst demo_mcast) 0
    [mkBuffer 1000 16] out)
    as (c' & q' & info' & Hrun & Hq & Ht & _ & _ & Hi & Hle & _); try done.
  - vm_compute. set_solver.
  - exists c', q', info'. split; [done|]. split; [rewrite Hq; apply lookup_insert_eq|].
    split; [rewrite Ht; vm_compute; reflexivity|]. split; [exact Hi|exact Hle].
Defined.
