(* ===== verification/Transfer.v ===== *)
(** * A transfer between two hosts

    Composes the packet, send queue and receive queue models into one system:
    the sending host's memory, pool and send queue, the receiving host's memory
    and receive queue, and a network between them that may lose, duplicate and
    reorder.  The steps are the calls [Context] makes
    (src/protocols/rdma_unreliable/context.cpp): [send] and [receive] push
    buffers, [sendDataPackets] serializes an entry of the window,
    [processReceivedPacket] deserializes a datagram and hands it to
    [ReceiveQueue::markCompleted] or an acknowledgement to
    [SendQueue::markCompleted], [sendAckPackets] sends the receiver's tail.

    Both applications may reuse their memory: the sender's once the fragments it
    held are acknowledged, the receiver's once it has read the fragments that
    arrived in it.

    Next to the two hosts the state records a history: the fragments pushed and
    posted, the bytes each sent fragment held when it was pushed, the indices
    received, the bytes the receiving application read, and for every datagram and
    acknowledgement on the network the full index behind its 24-bit number.  No
    step of the library uses the history except the two that bound how old a
    delivered datagram may be. *)

From S2P Require Import Prelude Mem Packet BufferPool SecondaryQueue SendQueue ReceiveQueue.

Record datagram := mkDatagram {
  dg_index : Z;
  dg_imm : Z;
  dg_bytes : list Z
}.

Record transfer := mkTransfer {
  tr_smem : mem;
  tr_pool : PacketBufferPool;
  tr_sq : SendQueue;
  tr_rmem : mem;
  tr_rq : ReceiveQueue;
  tr_data : list datagram;
  tr_acks : list Z;
  tr_sent : list Buffer;
  tr_content : list (list Z);
  tr_posted : list Buffer;
  tr_received : gset Z;
  tr_read : list (list Z)
}.
#[export] Instance transfer_fields : Fields transfer := mkFields (fun t =>
  mkTransfer (tr_smem t) (tr_pool t) (tr_sq t) (tr_rmem t) (tr_rq t) (tr_data t)
    (tr_acks t) (tr_sent t) (tr_content t) (tr_posted t) (tr_received t) (tr_read t)).

(** ** Conditions on the applications' buffers *)

(** The bytes of buffer [b]. *)
Definition buffer_bytes (m : mem) (b : Buffer) : list Z :=
  ld_bytes m (buf_addr b) (Z.to_nat (buf_length b)).

Definition apart (a1 n1 a2 n2 : Z) : Prop := a1 + n1 <= a2 \/ a2 + n2 <= a1.

(** Application memory does not overlap the packet arena. *)
Definition outside_pool (p : PacketBufferPool) (b : Buffer) : Prop :=
  apart (buf_addr b) (buf_length b) (bp_arena p) (bp_mtu_size p * bp_max_packets p).

(** The two sides submit matching buffers: fragment by fragment the lengths
    agree, as far as both have submitted. *)
Definition lengths_agree (S T : list Buffer) : Prop :=
  forall i b c, S !! i = Some b -> T !! i = Some c -> buf_length b = buf_length c.

(** The receiver's fragments do not overlap each other. *)
Definition disjoint_posted (T : list Buffer) : Prop :=
  forall i j b c, T !! i = Some b -> T !! j = Some c -> i <> j ->
    apart (buf_addr b) (buf_length b) (buf_addr c) (buf_length c).

(** The sender's fragments the library may still read, and the receiver's
    fragments the application has not read. *)
Definition live_sent (t : transfer) : list Buffer := drop (Z.to_nat (sd_tail (tr_sq t))) (tr_sent t).
Definition live_posted (t : transfer) : list Buffer := drop (length (tr_read t)) (tr_posted t).

(** A write of [n] bytes at [a] that touches none of them. *)
Definition spares (a n : Z) (l : list Buffer) : Prop :=
  forall b, b ∈ l -> apart a n (buf_addr b) (buf_length b).

(** ** The steps *)

(** What the receiving host does with a datagram: the NIC writes the GRH and the
    datagram into a posted packet buffer, and [processReceivedPacket] decodes it
    in a fresh handle and passes data packets to the receive queue. *)
Definition receive_datagram (mr : mem) (rq : ReceiveQueue) (junk : PacketHandle)
    (packet_buf : Z) (grh : list Z) (d : datagram) : outcome (ReceiveQueue * mem) :=
  let m1 := st_bytes mr packet_buf (grh ++ dg_bytes d) in
  let '(_, h0) := PacketHandle_setRawPacket (PacketHandle_ctor junk) packet_buf true in
  let '(rc, h) := PacketHandle_deserialize h0 m1 (dg_imm d)
                    (kGRHSize + Z.of_nat (length (dg_bytes d))) in
  if negb (rc =? 0) then Ok (rq, m1)
  else if ph_cmd h =? PKT_CMD_DATA
  then '(_, rq', m2) ← ReceiveQueue_markCompleted rq m1 h; Ok (rq', m2)
  else Ok (rq, m1).

(** A packet that the pool has handed out. *)
Definition held (p : PacketBufferPool) (m : mem) (b : Z) : Prop :=
  exists out, pool_inv p m out /\ b ∈ out.

(** Steps of the library and the network.  Besides what concerns the transfer, the
    library and the NIC of the sender write in packets it holds, and the receiving
    host writes anywhere but in fragments that its application has yet to read. *)
Inductive library_step : transfer -> transfer -> Prop :=
| step_transmit t i now h s0 s1 imm h' m' :
    sd_tail (tr_sq t) <= i < sd_head (tr_sq t) -> is_u64 now ->
    SendQueue_getMutableEntry (tr_sq t) i = Ok h ->
    PacketHandle_serialize_array (h <| ph_ts := now |>) (tr_smem t)
      = (Some (s0, s1, imm), h', m') ->
    library_step t (t <| tr_smem := m' |>
      <| tr_sq := SendQueue_setEntry (tr_sq t) i h' |>
      <| tr_data := mkDatagram i imm (gather m' [s0; s1]) :: tr_data t |>)
| step_deliver t d junk packet_buf grh rq' m' :
    d ∈ tr_data t -> packet_buf <> 0 -> length grh = Z.to_nat kGRHSize ->
    spares packet_buf (kGRHSize + Z.of_nat (length (dg_bytes d))) (live_posted t) ->
    rq_tail (tr_rq t) + rq_wnd_size (tr_rq t) - 0x1000000 <= dg_index d ->
    receive_datagram (tr_rmem t) (tr_rq t) junk packet_buf grh d = Ok (rq', m') ->
    library_step t (t <| tr_rq := rq' |> <| tr_rmem := m' |>
      <| tr_received :=
           match rx_hit (tr_rq t) (tr_received t) (SHORT_SN (dg_index d)) with
           | Some i => {[i]} ∪ tr_received t
           | None => tr_received t
           end |>)
| step_send_ack t :
    library_step t (t <| tr_acks := rq_tail (tr_rq t) :: tr_acks t |>)
| step_recv_ack t a rc q' p' :
    a ∈ tr_acks t -> sd_head (tr_sq t) < a + 0x1000000 ->
    SendQueue_markCompleted (tr_smem t) (tr_sq t) (tr_pool t) (SHORT_SN a) = Ok (rc, q', p') ->
    library_step t (t <| tr_sq := q' |> <| tr_pool := p' |>)
| step_window t w :
    u16 w < sd_queue_capacity (tr_sq t) ->
    library_step t (t <| tr_sq := SendQueue_setWndSize (tr_sq t) w |>)
| step_packet t b a l :
    held (tr_pool t) (tr_smem t) b -> b <= a ->
    a + Z.of_nat (length l) <= b + bp_mtu_size (tr_pool t) ->
    library_step t (t <| tr_smem := st_bytes (tr_smem t) a l |>)
| step_rwrite t a l :
    spares a (Z.of_nat (length l)) (live_posted t) ->
    library_step t (t <| tr_rmem := st_bytes (tr_rmem t) a l |>).

(** Those, and the steps of the two applications. *)
Inductive transfer_step : transfer -> transfer -> Prop :=
| step_send t l rc sn q' p' :
    let f := sq_fragment_size (sd_secondary_queue (tr_sq t)) in
    let sent := tr_sent t ++ fragments f l in
    Forall (buffer_valid f) l -> Z.of_nat (length sent) < 0x10000000000000000 ->
    Forall (outside_pool (tr_pool t)) (fragments f l) ->
    lengths_agree sent (tr_posted t) ->
    SendQueue_push (tr_smem t) (tr_sq t) (tr_pool t) l = Ok (rc, sn, q', p') ->
    transfer_step t (t <| tr_sq := q' |> <| tr_pool := p' |> <| tr_sent := sent |>
      <| tr_content := tr_content t ++ (buffer_bytes (tr_smem t) <$> fragments f l) |>)
| step_post t l rc sn q' :
    let f := sq_fragment_size (rq_secondary_queue (tr_rq t)) in
    let posted := tr_posted t ++ fragments f l in
    Forall (buffer_valid f) l ->
    Z.of_nat (length posted) + rq_queue_capacity (tr_rq t) < 0x10000000000000000 ->
    disjoint_posted (drop (length (tr_read t)) posted) -> lengths_agree (tr_sent t) posted ->
    ReceiveQueue_push (tr_rq t) l = Ok (rc, sn, q') ->
    transfer_step t (t <| tr_rq := q' |> <| tr_posted := posted |>)
| step_write t a l :
    spares a (Z.of_nat (length l)) (live_sent t) ->
    outside_pool (tr_pool t) (mkBuffer a (Z.of_nat (length l))) ->
    transfer_step t (t <| tr_smem := st_bytes (tr_smem t) a l |>)
| step_read t n :
    (length (tr_read t) + n <= Z.to_nat (rq_tail (tr_rq t)))%nat ->
    transfer_step t (t <| tr_read :=
      tr_read t ++ (buffer_bytes (tr_rmem t) <$> take n (live_posted t)) |>)
| step_library t t' : library_step t t' -> transfer_step t t'.

(** Two hosts with new queues and an empty network; of the sender's pool some packets
    may be in use already. *)
Definition transfer_init (t : transfer) : Prop :=
  (exists mtu cap wnd session junk out,
     56 <= mtu < 0x100000000 /\ 0 < cap < 0x10000 /\ 0 <= wnd < cap /\ is_u8 session /\
     pool_inv (tr_pool t) (tr_smem t) out /\ 0 <= bp_max_packets (tr_pool t) /\
     SendQueue_ctor mtu cap wnd session junk = Ok (tr_sq t)) /\
  (exists mtu cap wnd session,
     56 <= mtu < 0x100000000 /\ 0 < cap < 0x10000 /\ 0 <= wnd < cap /\ (cap | 0x1000000) /\
     ReceiveQueue_ctor mtu cap wnd session = Ok (tr_rq t)) /\
  tr_data t = [] /\ tr_acks t = [] /\ tr_sent t = [] /\ tr_content t = [] /\
  tr_posted t = [] /\ tr_received t = ∅ /\ tr_read t = [].

(** ** The invariant *)

(** A datagram is the wire image of a data packet whose payload is [bytes]. *)
Definition datagram_ok (d : datagram) (bytes : list Z) : Prop :=
  exists h m, PacketHandle_wf h /\ ph_packet_buf h <> 0 /\ ph_with_grh h = false /\
    ph_cmd h = PKT_CMD_DATA /\ ph_sn h = SHORT_SN (dg_index d) /\
    dg_imm d = PacketHandle_imm h /\
    dg_bytes d = gather (snd (PacketHandle_encode h m)) (PacketHandle_slices h) /\
    PacketHandle_payload h (snd (PacketHandle_encode h m)) = bytes /\
    ph_data_len h = Z.of_nat (length bytes) /\ bytes <> [].

(** The history of bytes [content] is what memory holds at the fragments from index
    [tail] on. *)
Definition content_kept (m : mem) (tail : Z) (sent : list Buffer) (content : list (list Z)) : Prop :=
  length content = length sent /\
  forall i b, tail <= Z.of_nat i -> sent !! i = Some b -> content !! i = Some (buffer_bytes m b).

Record sender_inv (t : transfer) (out : list Z) : Prop := {
  si_rep : sd_rep (tr_sq t) (tr_sent t) out;
  si_pool : pool_inv (tr_pool t) (tr_smem t) out;
  si_max : 0 <= bp_max_packets (tr_pool t);
  si_cap : sd_queue_capacity (tr_sq t) < 0x10000;
  si_session : is_u8 (sd_session (tr_sq t));
  si_outside : Forall (outside_pool (tr_pool t)) (tr_sent t);
  si_content : content_kept (tr_smem t) (sd_tail (tr_sq t)) (tr_sent t) (tr_content t)
}.

Record receiver_inv (t : transfer) : Prop := {
  ri_rep : rq_rep (tr_rq t) (tr_posted t) (tr_received t);
  ri_tight : rq_tail_tight (tr_rq t) (tr_received t);
  ri_div : (rq_queue_capacity (tr_rq t) | 0x1000000);
  ri_total : Z.of_nat (length (tr_posted t)) + rq_queue_capacity (tr_rq t)
               < 0x10000000000000000;
  ri_disjoint : disjoint_posted (live_posted t);
  ri_bytes : forall i, i ∈ tr_received t -> Z.of_nat (length (tr_read t)) <= i -> exists b d,
    tr_posted t !! Z.to_nat i = Some b /\ tr_content t !! Z.to_nat i = Some d /\
    buffer_bytes (tr_rmem t) b = d;
  ri_read : tr_read t `prefix_of` tr_content t;
  ri_read_le : Z.of_nat (length (tr_read t)) <= rq_tail (tr_rq t)
}.

Record link_inv (t : transfer) : Prop := {
  li_lengths : lengths_agree (tr_sent t) (tr_posted t);
  li_tails : sd_tail (tr_sq t) <= rq_tail (tr_rq t);
  li_received : forall i, i ∈ tr_received t -> i < sd_head (tr_sq t);
  li_data : forall d, d ∈ tr_data t -> 0 <= dg_index d < sd_head (tr_sq t) /\
    exists bytes, tr_content t !! Z.to_nat (dg_index d) = Some bytes /\ datagram_ok d bytes;
  li_acks : forall a, a ∈ tr_acks t -> 0 <= a <= rq_tail (tr_rq t)
}.

Definition transfer_inv (t : transfer) : Prop :=
  (exists out, sender_inv t out) /\ receiver_inv t /\ link_inv t.

(** ** Receiving a datagram *)
Lemma SHORT_SN_idem x : SHORT_SN (SHORT_SN x) = SHORT_SN x.
Proof. rewrite !SHORT_SN_mod. word_lia. Qed.

Lemma u8_gather m l : u8 <$> gather m l = gather m l.
Proof.
  unfold gather. induction l as [|b l IH]; cbn; [done|]. by rewrite fmap_app, u8_ld_bytes, IH.
Qed.

(** The datagram lands behind the GRH. *)
Lemma ld_bytes_after_grh m a grh l :
  length grh = Z.to_nat kGRHSize -> u8 <$> l = l ->
  ld_bytes (st_bytes m a (grh ++ l)) (a + kGRHSize) (length l) = l.
Proof.
  intros Hg Hl. unfold kGRHSize in *.
  rewrite (ld_bytes_sub (length (grh ++ l))) by (rewrite ?length_app; lia).
  rewrite ld_bytes_st_bytes_eq, fmap_app, Hl, <- Hg, drop_app_length'
    by (by rewrite length_fmap). by rewrite take_ge.
Qed.

Lemma receive_datagram_eq mr rq junk buf grh d bytes :
  datagram_ok d bytes -> buf <> 0 -> length grh = Z.to_nat kGRHSize ->
  let m1 := st_bytes mr buf (grh ++ dg_bytes d) in
  exists h, ph_sn h = SHORT_SN (dg_index d) /\ ph_data_len h = Z.of_nat (length bytes) /\
    ld_bytes m1 (PacketHandle_getPayload h) (length bytes) = bytes /\
    receive_datagram mr rq junk buf grh d =
      ('(_, rq', m2) ← ReceiveQueue_markCompleted rq m1 h; Ok (rq', m2)).
Proof.
  intros (h & m & Hwf & Hb & Hg & Hcmd & Hsn & Himm & Hbytes & Hpay & Hlen & Hne) Hbuf Hgrh.
  set (m1 := st_bytes mr buf (grh ++ dg_bytes d)). cbn zeta.
  set (h0 := snd (PacketHandle_setRawPacket (PacketHandle_ctor junk) buf true)).
  destruct (PacketHandle_deserialize_wire h h0 m m1 (dg_bytes d)) as [Hdes Hrx]; try done.
  { apply ld_bytes_after_grh; [done|]. rewrite Hbytes. apply u8_gather. }
  exists (PacketHandle_received h h0).
  assert (Hnz : (ph_data_len h =? 0) = false) by (destruct bytes; [done|cbn in Hlen; lia]).
  split; [cbn; by rewrite Hsn, SHORT_SN_idem|]. split; [done|]. split.
  - rewrite Hpay in Hrx. unfold PacketHandle_payload in Hrx. cbn [ph_data_buf PacketHandle_received] in Hrx.
    unfold PacketHandle_getPayload.
    cbn [PacketHandle_received ph_packet_buf ph_data_len ph_data_buf].
    rewrite Hnz. cbn [h0 PacketHandle_setRawPacket snd ph_packet_buf Z.eqb].
    rewrite (proj2 (Z.eqb_neq buf 0)) by done. cbn [orb negb].
    rewrite <- Hrx at 2. cbn [ph_data_len PacketHandle_received]. rewrite Hlen, Nat2Z.id. done.
  - unfold receive_datagram. fold m1. unfold PacketHandle_setRawPacket at 1.
    change (mkPacketHandle 0 0 0 0 0 false false 0 true buf 0 0) with h0.
    rewrite Himm, Hdes. cbn [negb Z.eqb ph_cmd PacketHandle_received]. by rewrite Hcmd.
Qed.

(** ** The sending host *)

(** Updating the timestamp and the encoded word of a window entry. *)
Lemma sd_rep_touch q frags out i h h' :
  sd_rep q frags out -> sd_tail q <= i < sd_head q ->
  SendQueue_getMutableEntry q i = Ok h ->
  h' = h <| ph_ts := ph_ts h' |> <| ph_pkt_hdr_imm := ph_pkt_hdr_imm h' |> ->
  sd_rep (SendQueue_setEntry q i h') frags out.
Proof.
  intros Hrep Hi Hent Hh'. pose proof Hrep as [Hcap Hlen Hwnd Hord Hring Hback Hslots Hown].
  unfold SendQueue_getMutableEntry in Hent. rewrite (proj2 (Z.eqb_neq _ 0)) in Hent by lia.
  set (slot := Z.to_nat (i mod sd_queue_capacity q)) in *.
  destruct (sd_handle q !! slot) as [h0|] eqn:Hs; unfold vec_at in Hent; rewrite Hs in Hent; [|done].
  injection Hent as ->. assert (Hlt := lookup_lt_Some _ _ _ Hs).
  destruct (Hslots i Hi) as (h1 & b & Hh1 & Hb & Hok). fold slot in Hh1.
  rewrite Hs in Hh1. injection Hh1 as <-.
  assert (Hbuf : ph_packet_buf h' = ph_packet_buf h) by (by rewrite Hh').
  constructor; cbn; try done.
  - by rewrite length_insert.
  - intros j Hj. destruct (decide (j = i)) as [->|Hne].
    + exists h', b. fold slot. rewrite list_lookup_insert_eq by done.
      split; [done|]. split; [done|]. rewrite Hh'. exact Hok.
    + destruct (Hslots j Hj) as (hj & bj & Hhj & Hbj & Hokj). exists hj, bj.
      rewrite list_lookup_insert_ne by (unfold slot; apply ring_slot_neq; lia). done.
  - destruct Hok as (Hnz & Hg & Hc & _). destruct Hown as [Hin Hdis].
    apply (handles_own_insert _ out _ slot h); try done.
    + rewrite Hbuf. by apply (Hin slot h).
    + rewrite Hh'. done.
    + rewrite Hh'. done.
    + rewrite Hh'. by apply (Hin slot h).
    + by left.
    + by rewrite Hbuf.
Qed.

(** Writing the header of an allocated packet keeps the pool consistent and
    application memory untouched. *)
Lemma PktHdr_store_pool p m out b wnd lo hi :
  pool_inv p m out -> b ∈ out -> pool_inv p (PktHdr_store m b wnd lo hi) out.
Proof.
  intros (fl & Hfl & HP & Hok) Hb. exists fl. split; [|done].
  apply (free_list_agree m); [|done]. intros c Hc. apply agree_sym, agree_PktHdr_store.
  destruct (pool_inv_apart p fl out c b Hok HP Hc Hb) as [H|H];
    destruct Hok as (_ & Hm & _); unfold sizeof_PktHdr in *; lia.
Qed.

Lemma pool_out_range p m out b :
  pool_inv p m out -> b ∈ out -> 0 <= bp_max_packets p ->
  bp_arena p <= b /\ b + sizeof_PktHdr <= bp_arena p + bp_mtu_size p * bp_max_packets p.
Proof.
  intros (fl & _ & HP & Hok) Hb Hmax.
  assert (Hin : b ∈ pool_blocks (bp_arena p) (bp_mtu_size p) (Z.to_nat (bp_max_packets p)))
    by (rewrite <- HP; set_solver).
  destruct (pool_block_range _ _ _ _ Hok Hin) as (_ & _ & Hlo & Hhi).
  destruct Hok as (_ & Hm & _). rewrite Z2Nat.id in Hhi by lia. lia.
Qed.

Lemma buffer_bytes_agree m m' b :
  0 <= buf_length b -> agree_on (buf_addr b) (buf_addr b + buf_length b) m m' ->
  buffer_bytes m b = buffer_bytes m' b.
Proof. intros Hl Hag. apply ld_bytes_agree. by rewrite Z2Nat.id. Qed.

Lemma lookup_elem_drop {A} (l : list A) n i x : l !! i = Some x -> (n <= i)%nat -> x ∈ drop n l.
Proof.
  intros Hi Hn. apply list_elem_of_lookup. exists (i - n)%nat. rewrite lookup_drop.
  by replace (n + (i - n))%nat with i by lia.
Qed.

Lemma prefix_by_lookup {A} (l : list A) : forall k,
  (forall i x, l !! i = Some x -> k !! i = Some x) -> l `prefix_of` k.
Proof.
  induction l as [|x l IH]; intros k Hk; [apply prefix_nil|].
  destruct k as [|y k]; [by specialize (Hk 0%nat x eq_refl)|].
  specialize (Hk 0%nat x eq_refl) as H0. cbn in H0. injection H0 as ->.
  apply prefix_cons, IH. intros i. apply (Hk (S i)).
Qed.

Lemma elem_of_drop_sub {A} (l : list A) n x : x ∈ drop n l -> x ∈ l.
Proof. intros Hx. rewrite <- (take_drop n l). apply elem_of_app. by right. Qed.

Lemma content_kept_mono m tail tail' sent content :
  tail <= tail' -> content_kept m tail sent content -> content_kept m tail' sent content.
Proof. intros Ht [Hl Hk]. split; [done|]. intros i b Hi. apply Hk. lia. Qed.

Lemma content_kept_app m tail sent content l :
  content_kept m tail sent content ->
  content_kept m tail (sent ++ l) (content ++ (buffer_bytes m <$> l)).
Proof.
  intros [Hl Hk]. split; [rewrite !length_app, length_fmap; lia|]. intros i b Hi Hb.
  apply lookup_app_Some in Hb as [Hb|[Hge Hb]]; [by apply lookup_app_l_Some, Hk|].
  rewrite lookup_app_r by lia. by rewrite Hl, list_lookup_fmap, Hb.
Qed.

Lemma content_kept_agree m m' tail sent content :
  0 <= tail ->
  (forall b, b ∈ drop (Z.to_nat tail) sent -> 0 <= buf_length b /\
     agree_on (buf_addr b) (buf_addr b + buf_length b) m m') ->
  content_kept m tail sent content -> content_kept m' tail sent content.
Proof.
  intros Ht H [Hl Hk]. split; [done|]. intros i b Hi Hb. rewrite (Hk i b Hi Hb). f_equal.
  destruct (H b) as [Hn Hag]; [apply (lookup_elem_drop _ _ i); [done|lia]|]. by apply buffer_bytes_agree.
Qed.

Lemma sent_length_nonneg t out b : sender_inv t out -> b ∈ tr_sent t -> 0 <= buf_length b.
Proof.
  intros Hs Hb. pose proof (sqb_frags _ _ _ (sdr_backlog _ _ _ (si_rep _ _ Hs))) as Hf.
  rewrite Forall_forall in Hf. destruct (Hf b Hb) as (_ & Hl & _). lia.
Qed.

Lemma outside_pool_geom p p' b :
  pool_geom p' = pool_geom p -> outside_pool p b -> outside_pool p' b.
Proof. unfold pool_geom, outside_pool. by intros [= -> -> ->]. Qed.

(** The byte history covers the fragments sent. *)
Lemma content_lookup t out i :
  sender_inv t out -> 0 <= i -> sd_tail (tr_sq t) <= i < Z.of_nat (length (tr_sent t)) ->
  exists b, tr_sent t !! Z.to_nat i = Some b /\
    tr_content t !! Z.to_nat i = Some (buffer_bytes (tr_smem t) b).
Proof.
  intros Hs Hp Hi. destruct (lookup_lt_is_Some_2 (tr_sent t) (Z.to_nat i)) as [b Hb]; [lia|].
  exists b. split; [done|]. apply (si_content _ _ Hs); [lia|done].
Qed.

(** ** Steps of the sending host, seen from the receiver *)

(** A step that leaves the receiving host alone and only adds to the history. *)
Lemma receiver_inv_grow t t' :
  receiver_inv t -> tr_rq t' = tr_rq t -> tr_rmem t' = tr_rmem t -> tr_posted t' = tr_posted t ->
  tr_received t' = tr_received t -> tr_read t' = tr_read t ->
  tr_content t `prefix_of` tr_content t' -> receiver_inv t'.
Proof.
  intros [? ? ? ? Hdp Hby Hpre ?] Hq Hm Hp Hr Hrd [l Hl]. unfold live_posted in Hdp.
  constructor; unfold live_posted; rewrite ?Hq, ?Hp, ?Hr, ?Hrd; try done.
  - intros i Hi Hlt. rewrite Hm, Hl. destruct (Hby i Hi Hlt) as (b & d & Hb & Hd & Hbd). exists b, d.
    split_and!; try done. by apply lookup_app_l_Some.
  - rewrite Hl. by apply prefix_app_r.
Qed.

Lemma link_inv_grow t t' :
  link_inv t -> tr_rq t' = tr_rq t -> tr_received t' = tr_received t -> tr_acks t' = tr_acks t ->
  sd_tail (tr_sq t') <= rq_tail (tr_rq t) -> sd_head (tr_sq t) <= sd_head (tr_sq t') ->
  tr_content t `prefix_of` tr_content t' -> lengths_agree (tr_sent t') (tr_posted t') ->
  (forall d, d ∈ tr_data t' -> d ∈ tr_data t \/ (0 <= dg_index d < sd_head (tr_sq t') /\
     exists bytes, tr_content t' !! Z.to_nat (dg_index d) = Some bytes /\ datagram_ok d bytes)) ->
  link_inv t'.
Proof.
  intros [_ Htl Hrc Hda Hac] Hq Hr Ha Ht Hh [l Hl] Hag Hd.
  constructor; rewrite ?Hq, ?Hr, ?Ha; try done.
  - intros i Hi%Hrc. lia.
  - intros d [Hin|Hnew]%Hd; [|done]. destruct (Hda d Hin) as (Hi & bytes & Hb & Hok).
    split; [lia|]. exists bytes. split; [|done]. rewrite Hl. by apply lookup_app_l_Some.
Qed.

Lemma transfer_send_inv t l rc sn q' p' :
  let f := sq_fragment_size (sd_secondary_queue (tr_sq t)) in
  let sent := tr_sent t ++ fragments f l in
  transfer_inv t -> Forall (buffer_valid f) l -> Z.of_nat (length sent) < 0x10000000000000000 ->
  Forall (outside_pool (tr_pool t)) (fragments f l) -> lengths_agree sent (tr_posted t) ->
  SendQueue_push (tr_smem t) (tr_sq t) (tr_pool t) l = Ok (rc, sn, q', p') ->
  transfer_inv (t <| tr_sq := q' |> <| tr_pool := p' |> <| tr_sent := sent |>
      <| tr_content := tr_content t ++ (buffer_bytes (tr_smem t) <$> fragments f l) |>).
Proof.
  intros f sent ([out Hs] & Hr & Hl) Hv Htot Hout Hagree Hrun.
  pose proof Hs as [Hrep Hpool Hmax Hcap Hses Hoo Hcon].
  destruct (SendQueue_push_spec _ _ _ _ _ l Hrep Hpool Hv Htot)
    as (q1 & p1 & out1 & Hrun1 & Hrep1 & Hpool1 & Hgeo & _ & Ht & _ & Hh & Hc & Hse & _).
  rewrite Hrun in Hrun1. injection Hrun1 as -> -> <- <-.
  assert (Hp1 : bp_max_packets p' = bp_max_packets (tr_pool t)) by (by injection Hgeo).
  split_and!.
  - exists out1. constructor; cbn; try done; rewrite ?Hp1, ?Hc, ?Hse; try done.
    + apply Forall_app. split; (eapply Forall_impl; [eassumption|]); intros b;
        by apply outside_pool_geom.
    + rewrite Ht. by apply content_kept_app.
  - apply (receiver_inv_grow t); try done. by apply prefix_app_r.
  - apply (link_inv_grow t); cbn; try done.
    + rewrite Ht. apply Hl.
    + by apply prefix_app_r.
    + by left.
Qed.

Lemma transfer_post_inv t l rc sn q' :
  let f := sq_fragment_size (rq_secondary_queue (tr_rq t)) in
  let posted := tr_posted t ++ fragments f l in
  transfer_inv t -> Forall (buffer_valid f) l ->
  Z.of_nat (length posted) + rq_queue_capacity (tr_rq t) < 0x10000000000000000 ->
  disjoint_posted (drop (length (tr_read t)) posted) -> lengths_agree (tr_sent t) posted ->
  ReceiveQueue_push (tr_rq t) l = Ok (rc, sn, q') ->
  transfer_inv (t <| tr_rq := q' |> <| tr_posted := posted |>).
Proof.
  intros f posted (Hs & Hr & Hl) Hv Htot Hdis Hagree Hrun.
  pose proof Hr as [Hrep Htight Hdiv Htl Hdp Hby Hrd Hrl]. pose proof (rqr_cap _ _ _ Hrep).
  destruct (ReceiveQueue_push_spec _ _ _ l Hrep Htight Hv ltac:(fold f posted; lia))
    as (q1 & Hrun1 & Hrep1 & Ht1 & Ht & _ & _ & Hc & _).
  rewrite Hrun in Hrun1. injection Hrun1 as -> -> <-. split_and!.
  - destruct Hs as [out [? ? ? ? ? ? ?]]. exists out. constructor; done.
  - constructor; cbn; try done; rewrite ?Hc, ?Ht; try done. intros i Hi Hlt.
    destruct (Hby i Hi Hlt) as (b & d & Hb & Hd & Hbd). exists b, d.
    split_and!; try done. by apply lookup_app_l_Some.
  - destruct Hl as [? Htl' Hrc Hda Hac]. constructor; cbn; try done; by rewrite Ht.
Qed.

Lemma write_sender_inv t out a l :
  sender_inv t out -> spares a (Z.of_nat (length l)) (live_sent t) ->
  outside_pool (tr_pool t) (mkBuffer a (Z.of_nat (length l))) ->
  sender_inv (t <| tr_smem := st_bytes (tr_smem t) a l |>) out.
Proof.
  intros Hs Hap Hout. pose proof Hs as [Hrep Hpool Hmax Hcap Hses Hoo Hcon].
  constructor; cbn; try done.
  - destruct Hpool as (fl & Hfl & HP & Hok). exists fl. split; [|done].
    apply (free_list_agree (tr_smem t)); [|done]. intros c Hc.
    apply agree_sym, agree_st_bytes. unfold outside_pool, apart in Hout. cbn in Hout.
    assert (Hin : c ∈ pool_blocks (bp_arena (tr_pool t)) (bp_mtu_size (tr_pool t))
                        (Z.to_nat (bp_max_packets (tr_pool t)))) by (rewrite <- HP; set_solver).
    destruct (pool_block_range _ _ _ _ Hok Hin) as (_ & _ & Hlo & Hhi).
    rewrite Z2Nat.id in Hhi by lia. destruct Hok as (_ & Hm & _).
    unfold sizeof_PktHdr in *. lia.
  - pose proof (sdr_order _ _ _ Hrep). apply (content_kept_agree (tr_smem t)); [lia| |done]. intros b Hb.
    split; [by eapply (sent_length_nonneg t out), elem_of_drop_sub|]. apply agree_sym, agree_st_bytes.
    destruct (Hap b Hb); lia.
Qed.

(** Serializing an entry of the window. *)
Lemma transmit_vector_spec t out i now h sl imm h' m' :
  sender_inv t out -> sd_tail (tr_sq t) <= i < sd_head (tr_sq t) -> is_u64 now ->
  SendQueue_getMutableEntry (tr_sq t) i = Ok h ->
  PacketHandle_serialize_vector (h <| ph_ts := now |>) (tr_smem t) = (Some (sl, imm), h', m') ->
  exists b, tr_sent t !! Z.to_nat i = Some b /\ ph_packet_buf h ∈ out /\
    h' = h <| ph_ts := ph_ts h' |> <| ph_pkt_hdr_imm := ph_pkt_hdr_imm h' |> /\
    m' = snd (PacketHandle_encode (h <| ph_ts := now |>) (tr_smem t)) /\
    datagram_ok (mkDatagram i imm (gather m' sl)) (buffer_bytes (tr_smem t) b).
Proof.
  intros Hs Hi Hnow Hent Hvec. pose proof Hs as [Hrep Hpool Hmax Hcap Hses Hoo Hcon].
  pose proof Hrep as [Hc0 Hlen Hwnd Hord Hring Hback Hslots Hown].
  destruct (Hslots i Hi) as (h0 & b & Hh0 & Hb & Hok).
  assert (h0 = h) as ->.
  { unfold SendQueue_getMutableEntry in Hent. rewrite (proj2 (Z.eqb_neq _ 0)) in Hent by lia.
    rewrite (vec_at_Some _ _ _ Hh0) in Hent. by injection Hent. }
  destruct Hok as (Hnz & Hg & Hcp & Hsess & Hcmd & Hsn & Hda & Hdl & _ & Hw).
  destruct (Forall_lookup_1 _ _ _ _ (sqb_frags _ _ _ Hback) Hb) as (Hba & Hbl & Hbu).
  assert (Hin : ph_packet_buf h ∈ out) by (by apply (proj1 Hown _ h Hh0)).
  set (h1 := h <| ph_ts := now |>) in *.
  rewrite (PacketHandle_serialize_vector_eq h1) in Hvec by done.
  injection Hvec as Hsl Himm Hh' Hm'. exists b.
  split; [done|]. split; [done|]. split; [by rewrite <- Hh'|]. split; [by rewrite <- Hm'|].
  assert (Hwire : gather m' sl = gather m' (PacketHandle_slices h1)) by (f_equal; symmetry; exact Hsl).
  exists h1, (tr_smem t). rewrite <- Hm' in Hwire |- *. rewrite Hwire, <- Himm.
  assert (Hpay : PacketHandle_payload h1 (snd (PacketHandle_encode h1 (tr_smem t)))
                 = buffer_bytes (tr_smem t) b).
  { rewrite PacketHandle_encode_payload.
    - unfold PacketHandle_payload, buffer_bytes. cbn. rewrite Hda, Hdl.
      by rewrite (proj2 (Z.eqb_neq _ 0)).
    - cbn. rewrite Hdl. lia.
    - done.
    - intros _. cbn. rewrite Hda, Hdl.
      pose proof (Forall_lookup_1 _ _ _ _ Hoo Hb) as Hap. unfold outside_pool, apart in Hap.
      pose proof (pool_out_range _ _ _ _ Hpool Hin Hmax). lia. }
  split_and!; try done.
  - unfold PacketHandle_wf. cbn. rewrite Hsess, Hcmd, Hsn, Hdl.
    pose proof (SHORT_SN_range i). unfold PKT_CMD_DATA. split_and!; try done; word_unfold; lia.
  - unfold buffer_bytes. cbn. rewrite length_ld_bytes, Hdl. lia.
  - unfold buffer_bytes. intros Heq%(f_equal length). rewrite length_ld_bytes in Heq.
    cbn in Heq. lia.
Qed.

(** Encoding a header writes in the pool only. *)
Lemma encode_agree t out h now b :
  sender_inv t out -> ph_packet_buf h ∈ out -> outside_pool (tr_pool t) b ->
  agree_on (buf_addr b) (buf_addr b + buf_length b) (tr_smem t)
    (snd (PacketHandle_encode (h <| ph_ts := now |>) (tr_smem t))).
Proof.
  intros Hs Hin Hap. destruct (decide (ph_packet_buf h = 0)) as [Hz|Hz].
  { unfold PacketHandle_encode. cbn. by rewrite Hz. }
  rewrite PacketHandle_encode_eq by done. cbn [snd].
  destruct (ph_compacted _); [done|]. apply agree_sym, agree_PktHdr_store.
  pose proof (pool_out_range _ _ _ _ (si_pool _ _ Hs) Hin (si_max _ _ Hs)).
  unfold outside_pool, apart in Hap. cbn. lia.
Qed.

(** The sending host after it. *)
Lemma transmit_sender_inv t out i now h sl imm h' m' :
  sender_inv t out -> sd_tail (tr_sq t) <= i < sd_head (tr_sq t) -> is_u64 now ->
  SendQueue_getMutableEntry (tr_sq t) i = Ok h ->
  PacketHandle_serialize_vector (h <| ph_ts := now |>) (tr_smem t) = (Some (sl, imm), h', m') ->
  sender_inv (t <| tr_smem := m' |> <| tr_sq := SendQueue_setEntry (tr_sq t) i h' |>) out.
Proof.
  intros Hs Hi Hnow Hent Hser.
  destruct (transmit_vector_spec t out i now h sl imm h' m' Hs Hi Hnow Hent Hser)
    as (b & Hb & Hin & Hh' & Hm' & _).
  pose proof Hs as [Hrep Hpool Hmax Hcap Hses Hoo Hcon]. constructor; cbn; try done.
  - by apply (sd_rep_touch _ _ _ _ h).
  - rewrite Hm'. destruct (decide (ph_packet_buf h = 0)) as [Hz|Hz].
    { unfold PacketHandle_encode. cbn. by rewrite Hz. }
    rewrite PacketHandle_encode_eq by done. cbn [snd ph_compacted field_set].
    destruct (ph_compacted h); [done|]. by apply PktHdr_store_pool.
  - pose proof (sdr_order _ _ _ Hrep). apply (content_kept_agree (tr_smem t)); [lia| |done].
    intros c Hc%elem_of_drop_sub. split; [by apply (sent_length_nonneg t out)|].
    rewrite Forall_forall in Hoo. rewrite Hm'. by apply (encode_agree t out), Hoo.
Qed.

Lemma transfer_transmit_inv t i now h s0 s1 imm h' m' :
  transfer_inv t -> sd_tail (tr_sq t) <= i < sd_head (tr_sq t) -> is_u64 now ->
  SendQueue_getMutableEntry (tr_sq t) i = Ok h ->
  PacketHandle_serialize_array (h <| ph_ts := now |>) (tr_smem t) = (Some (s0, s1, imm), h', m') ->
  transfer_inv (t <| tr_smem := m' |>
    <| tr_sq := SendQueue_setEntry (tr_sq t) i h' |>
    <| tr_data := mkDatagram i imm (gather m' [s0; s1]) :: tr_data t |>).
Proof.
  intros ([out Hs] & Hr & Hl) Hi Hnow Hent Hser.
  destruct (PacketHandle_serialize_array_gather _ _ _ _ _ _ _ Hser) as [Hvec Hgath].
  pose proof (transmit_sender_inv t out i now h _ imm h' m' Hs Hi Hnow Hent Hvec) as Hs'.
  destruct (transmit_vector_spec t out i now h _ imm h' m' Hs Hi Hnow Hent Hvec)
    as (b & Hb & _ & _ & _ & Hdg). rewrite Hgath.
  split_and!; [exists out; destruct Hs'; by constructor|by apply (receiver_inv_grow t)|].
  apply (link_inv_grow t); cbn; try done; [apply Hl|apply Hl|].
  intros d [->|Hd]%elem_of_cons; [right|by left].
  split; [pose proof (sdr_order _ _ _ (si_rep _ _ Hs)); cbn; lia|].
  exists (buffer_bytes (tr_smem t) b). split; [|done].
  cbn [dg_index]. pose proof (sdr_order _ _ _ (si_rep _ _ Hs)). apply (si_content _ _ Hs); [lia|done].
Qed.

(** Everything the receiver received is below the sender's head. *)
Lemma rq_tail_le_head t : transfer_inv t -> rq_tail (tr_rq t) <= sd_head (tr_sq t).
Proof.
  intros ([out Hs] & Hr & Hl). pose proof (rqr_order _ _ _ (ri_rep _ Hr)) as Ho.
  pose proof (sdr_order _ _ _ (si_rep _ _ Hs)) as Hso.
  destruct (decide (rq_tail (tr_rq t) = 0)) as [->|Hne]; [lia|].
  pose proof (rqr_prefix _ _ _ (ri_rep _ Hr) (rq_tail (tr_rq t) - 1) ltac:(lia)) as Hin.
  apply (li_received _ Hl) in Hin. lia.
Qed.

(** Delivering a datagram of the network never aborts and is the abstract
    receipt of its index. *)
Lemma deliver_spec t d junk buf grh :
  transfer_inv t -> d ∈ tr_data t -> buf <> 0 -> length grh = Z.to_nat kGRHSize ->
  rq_tail (tr_rq t) + rq_wnd_size (tr_rq t) - 0x1000000 <= dg_index d ->
  let m1 := st_bytes (tr_rmem t) buf (grh ++ dg_bytes d) in
  match rx_hit (tr_rq t) (tr_received t) (SHORT_SN (dg_index d)) with
  | None => exists rq',
      receive_datagram (tr_rmem t) (tr_rq t) junk buf grh d = Ok (rq', m1) /\
      rq_rep rq' (tr_posted t) (tr_received t) /\ rq_tail_tight rq' (tr_received t) /\
      rq_same (tr_rq t) rq' /\ rq_tail rq' = rq_tail (tr_rq t)
  | Some i => i = dg_index d /\ rq_tail (tr_rq t) <= i /\ exists rq' b bytes src,
      tr_posted t !! Z.to_nat i = Some b /\ tr_content t !! Z.to_nat i = Some bytes /\
      Z.of_nat (length bytes) = buf_length b /\ ld_bytes m1 src (length bytes) = bytes /\
      receive_datagram (tr_rmem t) (tr_rq t) junk buf grh d
        = Ok (rq', memmove m1 (buf_addr b) src (buf_length b)) /\
      rq_rep rq' (tr_posted t) ({[i]} ∪ tr_received t) /\
      rq_tail_tight rq' ({[i]} ∪ tr_received t) /\ rq_same (tr_rq t) rq' /\
      rq_tail (tr_rq t) <= rq_tail rq'
  end.
Proof.
  intros ([out Hs] & Hr & Hl) Hd Hbuf Hgrh Hage m1.
  pose proof Hr as [Hrep Htight Hdiv Htl Hdp Hby _ _].
  destruct (li_data _ Hl d Hd) as (Hidx & bytes & Hbytes & Hok).
  destruct (receive_datagram_eq (tr_rmem t) (tr_rq t) junk buf grh d bytes Hok Hbuf Hgrh)
    as (h & Hsn & Hlen & Hpay & Hrun). fold m1 in Hpay, Hrun. rewrite Hrun.
  pose proof (rqr_order _ _ _ Hrep). pose proof (rqr_wnd _ _ _ Hrep).
  pose proof (rqr_total _ _ _ Hrep). pose proof (li_tails _ Hl).
  pose proof (sdr_ring _ _ _ (si_rep _ _ Hs)). pose proof (si_cap _ _ Hs).
  pose proof (ReceiveQueue_markCompleted_spec (tr_rq t) m1 _ _ h Hrep Htight Hdiv
    ltac:(rewrite Hsn; apply SHORT_SN_range) ltac:(lia)) as Hspec.
  rewrite Hsn in Hspec.
  destruct (rx_hit (tr_rq t) (tr_received t) (SHORT_SN (dg_index d))) as [i|] eqn:Hhit.
  - assert (Hi : i = dg_index d /\ rq_tail (tr_rq t) <= i).
    { rewrite rx_hit_index in Hhit by lia.
      destruct (rq_tail (tr_rq t) <=? dg_index d) eqn:Hle; cbn in Hhit; [|done].
      destruct (_ && _) in Hhit; [injection Hhit as <-; lia|done]. }
    destruct Hi as [-> Hlo]. split; [done|]. split; [done|]. destruct Hspec as (b & Hb & _ & Hgood).
    destruct (content_lookup t out (dg_index d) Hs) as (c & Hc & Hcb); [lia| |].
    { pose proof (sqb_bound _ _ _ (sdr_backlog _ _ _ (si_rep _ _ Hs))). lia. }
    rewrite Hbytes in Hcb. injection Hcb as ->.
    assert (Hlb : Z.of_nat (length (buffer_bytes (tr_smem t) c)) = buf_length b).
    { rewrite <- (li_lengths _ Hl _ _ _ Hc Hb). unfold buffer_bytes. rewrite length_ld_bytes.
      pose proof (sent_length_nonneg t out c Hs (list_elem_of_lookup_2 _ _ _ Hc)). lia. }
    destruct (Hgood ltac:(congruence)) as (rq' & Hrun' & Hrep' & Ht' & Hsame & Hle & _).
    rewrite Hrun'. cbn [mbind outcome_bind]. eexists rq', b, _, _. split_and!; done.
  - destruct Hspec as (rq' & Hrun' & Hrep' & Ht' & Hsame & Hle & _).
    rewrite Hrun'. cbn [mbind outcome_bind]. by exists rq'.
Qed.

(** A posted buffer that overlaps neither of two written ranges keeps its bytes. *)
Lemma posted_unchanged m buf l dst src len b :
  0 <= buf_length b -> 0 <= len ->
  apart buf (Z.of_nat (length l)) (buf_addr b) (buf_length b) ->
  apart dst len (buf_addr b) (buf_length b) ->
  buffer_bytes (memmove (st_bytes m buf l) dst src len) b = buffer_bytes m b.
Proof.
  intros Hl Hn H1 H2. unfold apart in *. apply buffer_bytes_agree; [done|].
  eapply agree_trans; [apply agree_memmove; lia|]. apply agree_st_bytes. lia.
Qed.

Lemma posted_length_nonneg t i b :
  receiver_inv t -> tr_posted t !! i = Some b -> 0 <= buf_length b.
Proof.
  intros Hr Hb. pose proof (sqb_frags _ _ _ (rqr_backlog _ _ _ (ri_rep _ Hr))) as Hf.
  destruct (Forall_lookup_1 _ _ _ _ Hf Hb) as (_ & Hl & _). lia.
Qed.

(** Live fragments that differ in their index do not overlap. *)
Lemma live_apart t i j b c :
  receiver_inv t -> tr_posted t !! i = Some b -> tr_posted t !! j = Some c -> i <> j ->
  (length (tr_read t) <= i)%nat -> (length (tr_read t) <= j)%nat ->
  apart (buf_addr b) (buf_length b) (buf_addr c) (buf_length c).
Proof.
  intros Hr Hb Hc Hne Hi Hj. pose proof (ri_disjoint _ Hr) as Hd. unfold disjoint_posted, live_posted in Hd.
  apply (Hd (i - length (tr_read t))%nat (j - length (tr_read t))%nat); [| |lia]; rewrite lookup_drop.
  - by replace (length (tr_read t) + (i - length (tr_read t)))%nat with i by lia.
  - by replace (length (tr_read t) + (j - length (tr_read t)))%nat with j by lia.
Qed.

Lemma transfer_deliver_inv t d junk buf grh rq' m' :
  transfer_inv t -> d ∈ tr_data t -> buf <> 0 -> length grh = Z.to_nat kGRHSize ->
  spares buf (kGRHSize + Z.of_nat (length (dg_bytes d))) (live_posted t) ->
  rq_tail (tr_rq t) + rq_wnd_size (tr_rq t) - 0x1000000 <= dg_index d ->
  receive_datagram (tr_rmem t) (tr_rq t) junk buf grh d = Ok (rq', m') ->
  transfer_inv (t <| tr_rq := rq' |> <| tr_rmem := m' |>
    <| tr_received := match rx_hit (tr_rq t) (tr_received t) (SHORT_SN (dg_index d)) with
                      | Some i => {[i]} ∪ tr_received t
                      | None => tr_received t end |>).
Proof.
  intros Hinv Hd Hbuf Hgrh Hap Hage Hrun.
  pose proof (deliver_spec t d junk buf grh Hinv Hd Hbuf Hgrh Hage) as Hspec.
  destruct Hinv as ([out Hs] & Hr & Hl). pose proof Hr as [Hrep Htight Hdiv Htl Hdp Hby Hrd Hrl].
  pose proof Hl as [Hag Htls Hrc Hda Hac].
  set (l := grh ++ dg_bytes d) in *.
  assert (Hapl : forall i b, tr_posted t !! i = Some b -> (length (tr_read t) <= i)%nat ->
            apart buf (Z.of_nat (length l)) (buf_addr b) (buf_length b)).
  { intros i b Hb Hi. unfold l. rewrite length_app, Hgrh. unfold kGRHSize in *.
    replace (Z.of_nat _) with (40 + Z.of_nat (length (dg_bytes d))) by lia.
    by apply Hap, (lookup_elem_drop _ _ i). }
  destruct (rx_hit _ _ _) as [i|] eqn:Hhit.
  - destruct Hspec as (-> & Hlo & rq1 & b & bytes & src & Hb & Hbytes & Hlen & Hpay & Hrun1 & Hrep1 &
      Ht1 & (_ & Hc & _) & Hle).
    rewrite Hrun in Hrun1. injection Hrun1 as -> ->.
    split_and!; [exists out; destruct Hs; by constructor| |].
    + constructor; cbn; try done; rewrite ?Hc; try done; [|lia]. intros j Hj Hlt.
      destruct (decide (j = dg_index d)) as [->|Hne].
      * exists b, bytes. split_and!; try done. unfold buffer_bytes.
        rewrite ld_bytes_memmove, <- Hlen, Nat2Z.id. exact Hpay.
      * destruct (Hby j ltac:(set_solver) Hlt) as (c & e & Hcj & Hej & Hce). exists c, e.
        split_and!; try done. rewrite <- Hce. apply posted_unchanged.
        -- by apply (posted_length_nonneg t (Z.to_nat j)).
        -- lia.
        -- apply (Hapl (Z.to_nat j)); [done|lia].
        -- destruct (Hda d Hd) as [Hi _].
           apply (live_apart t (Z.to_nat (dg_index d)) (Z.to_nat j)); try done; lia.
    + constructor; cbn; try done; [lia| |].
      * intros j Hj. destruct (decide (j = dg_index d)) as [->|Hne];
          [by apply Hda|apply Hrc; set_solver].
      * intros a Ha%Hac. lia.
  - destruct Hspec as (rq1 & Hrun1 & Hrep1 & Ht1 & (_ & Hc & _) & Hle).
    rewrite Hrun in Hrun1. injection Hrun1 as -> ->.
    split_and!; [exists out; destruct Hs; by constructor| |].
    + constructor; cbn; try done; rewrite ?Hc, ?Hle; try done. intros j Hj Hlt.
      destruct (Hby j Hj Hlt) as (c & e & Hcj & Hej & Hce). exists c, e.
      split_and!; try done. rewrite <- Hce.
      apply buffer_bytes_agree; [by apply (posted_length_nonneg t (Z.to_nat j))|].
      apply agree_st_bytes. pose proof (Hapl _ _ Hcj ltac:(lia)) as Hap'. unfold apart in Hap'. lia.
    + constructor; cbn; try done; by rewrite Hle.
Qed.

Lemma cumulative_ack_ge tail head sn :
  0 <= tail <= head -> head < 0x10000000000000000 -> head - tail < 0x1000000 ->
  0 <= sn < 0x1000000 -> tail <= cumulative_ack tail head sn.
Proof.
  intros Ht Hh Hw Hsn. rewrite cumulative_ack_spec by lia. destruct (_ <=? _); [|lia].
  unfold ack_index. word_lia.
Qed.

(** An acknowledgement that is not older than a sequence space moves a tail no
    further than the receiver's. *)
Lemma cumulative_ack_le tail head a rt :
  0 <= tail <= head -> head - tail < 0x1000000 -> head < 0x10000000000000000 ->
  0 <= a <= rt -> tail <= rt -> rt <= head -> head < a + 0x1000000 ->
  cumulative_ack tail head (SHORT_SN a) <= rt.
Proof.
  intros Ht Hw Hh Ha Hrt Hrh Hage.
  rewrite cumulative_ack_spec by (apply SHORT_SN_range || lia).
  destruct (_ <=? _) eqn:Hle; [|done].
  unfold ack_index in *. rewrite SHORT_SN_mod in *. word_lia.
Qed.

Lemma transfer_recv_ack_inv t a rc q' p' :
  transfer_inv t -> a ∈ tr_acks t -> sd_head (tr_sq t) < a + 0x1000000 ->
  SendQueue_markCompleted (tr_smem t) (tr_sq t) (tr_pool t) (SHORT_SN a) = Ok (rc, q', p') ->
  transfer_inv (t <| tr_sq := q' |> <| tr_pool := p' |>).
Proof.
  intros Hinv Ha Hage Hrun. pose proof (rq_tail_le_head t Hinv) as Hrt.
  destruct Hinv as ([out Hs] & Hr & Hl). pose proof Hs as [Hrep Hpool Hmax Hcap Hses Hoo Hcon].
  pose proof Hl as [Hag Htls Hrc Hda Hac]. pose proof (Hac a Ha) as Har.
  pose proof (sdr_ring _ _ _ Hrep) as Hring. pose proof (sdr_order _ _ _ Hrep) as Hord.
  destruct (SendQueue_markCompleted_spec _ _ _ _ _ (SHORT_SN a) Hrep Hpool ltac:(lia)
    (SHORT_SN_range a))
    as (q1 & p1 & out1 & Hrun1 & Hrep1 & Hpool1 & Hgeo & _ & Ht & _ & Hh & Hc & Hse & _).
  rewrite Hrun in Hrun1. injection Hrun1 as -> <- <-.
  assert (Htail : sd_tail q' <= rq_tail (tr_rq t)).
  { rewrite Ht. pose proof (sqb_bound _ _ _ (sdr_backlog _ _ _ Hrep)).
    pose proof (sqb_total _ _ _ (sdr_backlog _ _ _ Hrep)). apply cumulative_ack_le; lia. }
  split_and!; [|by apply (receiver_inv_grow t)|apply (link_inv_grow t); cbn; try done; by left].
  exists out1. assert (Hp1 : bp_max_packets p' = bp_max_packets (tr_pool t)) by (by injection Hgeo).
  constructor; cbn; rewrite ?Hp1, ?Hc, ?Hse; try done.
  - eapply Forall_impl; [eassumption|]. intros b. by apply outside_pool_geom.
  - eapply content_kept_mono; [|done]. rewrite Ht.
    pose proof (sqb_bound _ _ _ (sdr_backlog _ _ _ Hrep)).
    pose proof (sqb_total _ _ _ (sdr_backlog _ _ _ Hrep)).
    apply cumulative_ack_ge; [lia..|apply SHORT_SN_range].
Qed.

(** The application reads [n] fragments that have arrived. *)
Lemma transfer_read_inv t n :
  transfer_inv t -> (length (tr_read t) + n <= Z.to_nat (rq_tail (tr_rq t)))%nat ->
  transfer_inv (t <| tr_read := tr_read t ++ (buffer_bytes (tr_rmem t) <$> take n (live_posted t)) |>).
Proof.
  intros (Hs & Hr & Hl) Hn. pose proof Hr as [Hrep Htight Hdiv Htl Hdp Hby Hrd Hrl].
  pose proof (rqr_order _ _ _ Hrep) as Ho. pose proof (sqb_bound _ _ _ (rqr_backlog _ _ _ Hrep)) as Hb.
  assert (Hlen : length (take n (live_posted t)) = n).
  { unfold live_posted. rewrite length_take, length_drop. lia. }
  split_and!; [destruct Hs as [out [? ? ? ? ? ? ?]]; exists out; by constructor| |destruct Hl; by constructor].
  constructor; cbn; try done.
  - unfold live_posted in *. cbn. intros i j b c Hi Hj. rewrite lookup_drop in Hi, Hj.
    rewrite length_app, length_fmap, Hlen in Hi, Hj. intros Hne.
    apply (live_apart t _ _ _ _ Hr Hi Hj); lia.
  - intros i Hi Hlt. rewrite length_app in Hlt. apply Hby; [done|lia].
  - apply prefix_by_lookup. intros i x Hx. apply lookup_app_Some in Hx as [Hx|[Hge Hx]].
    { by eapply prefix_lookup_Some. }
    rewrite list_lookup_fmap in Hx.
    destruct (take n (live_posted t) !! (i - length (tr_read t))%nat) as [b|] eqn:Hpb; [|done].
    cbn in Hx. injection Hx as <-. pose proof (lookup_lt_Some _ _ _ Hpb) as Hlt. rewrite Hlen in Hlt.
    rewrite lookup_take_lt in Hpb by lia. unfold live_posted in Hpb. rewrite lookup_drop in Hpb.
    replace (length (tr_read t) + (i - length (tr_read t)))%nat with i in Hpb by lia.
    destruct (Hby (Z.of_nat i)) as (b' & d & Hb' & Hd & Hbd); [apply (rqr_prefix _ _ _ Hrep); lia|lia|].
    rewrite Nat2Z.id in Hb', Hd. congruence.
  - rewrite length_app, length_fmap, Hlen. lia.
Qed.

Lemma transfer_rwrite_inv t a l :
  transfer_inv t -> spares a (Z.of_nat (length l)) (live_posted t) ->
  transfer_inv (t <| tr_rmem := st_bytes (tr_rmem t) a l |>).
Proof.
  intros (Hs & Hr & Hl) Hap. pose proof Hr as [Hrep Htight Hdiv Htl Hdp Hby Hrd Hrl].
  split_and!; [destruct Hs as [out [? ? ? ? ? ? ?]]; exists out; by constructor| |destruct Hl; by constructor].
  constructor; cbn; try done. intros i Hi Hlt. destruct (Hby i Hi Hlt) as (b & d & Hb & Hd & Hbd).
  exists b, d. split_and!; try done. rewrite <- Hbd. apply buffer_bytes_agree.
  - by apply (posted_length_nonneg t (Z.to_nat i)).
  - apply agree_st_bytes. destruct (Hap b); [apply (lookup_elem_drop _ _ (Z.to_nat i)); [done|lia]| |]; lia.
Qed.

Lemma pool_inv_unique p m out out' : pool_inv p m out -> pool_inv p m out' -> out ≡ₚ out'.
Proof.
  intros (fl & Hfl & HP & _) (fl' & Hfl' & HP' & _). rewrite (free_list_det _ _ _ _ Hfl Hfl') in HP.
  apply (Permutation_app_inv_l fl'). by rewrite HP, HP'.
Qed.

(** A write in a packet the sender holds. *)
Lemma packet_sender_inv t out b a l :
  sender_inv t out -> held (tr_pool t) (tr_smem t) b -> b <= a ->
  a + Z.of_nat (length l) <= b + bp_mtu_size (tr_pool t) ->
  sender_inv (t <| tr_smem := st_bytes (tr_smem t) a l |>) out /\
  forall c, outside_pool (tr_pool t) c ->
    agree_on (buf_addr c) (buf_addr c + buf_length c) (tr_smem t) (st_bytes (tr_smem t) a l).
Proof.
  intros Hs (out' & Hp' & Hb) Hlo Hhi. pose proof Hs as [Hrep Hpool Hmax Hcap Hses Hoo Hcon].
  rewrite (pool_inv_unique _ _ _ _ Hp' Hpool) in Hb.
  assert (Hag : forall c, outside_pool (tr_pool t) c ->
    agree_on (buf_addr c) (buf_addr c + buf_length c) (tr_smem t) (st_bytes (tr_smem t) a l)).
  { intros c Hc. apply agree_sym, agree_st_bytes. destruct Hpool as (fl & _ & HP & Hok).
    assert (Hin : b ∈ pool_blocks (bp_arena (tr_pool t)) (bp_mtu_size (tr_pool t))
                        (Z.to_nat (bp_max_packets (tr_pool t)))) by (rewrite <- HP; set_solver).
    destruct (pool_block_range _ _ _ _ Hok Hin) as (_ & _ & Hl1 & Hl2).
    rewrite Z2Nat.id in Hl2 by lia. unfold outside_pool, apart in Hc. lia. }
  split; [|done]. constructor; cbn; try done; [by apply (pool_write_inv _ _ _ b)|].
  pose proof (sdr_order _ _ _ Hrep). apply (content_kept_agree (tr_smem t)); [lia| |done].
  intros c Hc%elem_of_drop_sub. split; [by apply (sent_length_nonneg t out)|].
  rewrite Forall_forall in Hoo. by apply Hag, Hoo.
Qed.

Lemma library_step_inv t t' : library_step t t' -> transfer_inv t -> transfer_inv t'.
Proof.
  intros Hstep Hinv. destruct Hstep.
  - by eapply transfer_transmit_inv.
  - by eapply transfer_deliver_inv.
  - destruct Hinv as ([out Hs] & Hr & Hl). split_and!.
    + exists out. destruct Hs. by constructor.
    + destruct Hr. by constructor.
    + pose proof (rqr_order _ _ _ (ri_rep _ Hr)). destruct Hl as [? ? ? ? Hac].
      constructor; cbn; try done. intros a [->|Ha]%elem_of_cons; [lia|by apply Hac].
  - by eapply transfer_recv_ack_inv.
  - destruct Hinv as ([out Hs] & Hr & Hl). split_and!.
    + exists out. destruct Hs as [Hrep Hpool Hmax Hcap Hses Hoo Hcon].
      constructor; try done. cbn. apply SendQueue_setWndSize_rep; [done|]. lia.
    + destruct Hr. by constructor.
    + destruct Hl. by constructor.
  - destruct Hinv as ([out Hs] & Hr & Hl).
    split_and!; [exists out; by eapply packet_sender_inv|destruct Hr|destruct Hl]; by constructor.
  - by apply transfer_rwrite_inv.
Qed.

Lemma transfer_step_inv t t' : transfer_step t t' -> transfer_inv t -> transfer_inv t'.
Proof.
  intros Hstep Hinv. destruct Hstep.
  - by eapply transfer_send_inv.
  - by eapply transfer_post_inv.
  - destruct Hinv as ([out Hs] & Hr & Hl).
    split_and!; [exists out; by apply write_sender_inv| |]; [destruct Hr|destruct Hl]; by constructor.
  - by apply transfer_read_inv.
  - by eapply library_step_inv.
Qed.

(** What a step of the library leaves alone. *)
Record library_frame (t t' : transfer) : Prop := {
  lf_sent : tr_sent t' = tr_sent t;
  lf_content : tr_content t' = tr_content t;
  lf_posted : tr_posted t' = tr_posted t;
  lf_read : tr_read t' = tr_read t;
  lf_sfrag : sq_fragment_size (sd_secondary_queue (tr_sq t')) = sq_fragment_size (sd_secondary_queue (tr_sq t));
  lf_rfrag : sq_fragment_size (rq_secondary_queue (tr_rq t')) = sq_fragment_size (rq_secondary_queue (tr_rq t));
  lf_rcap : rq_queue_capacity (tr_rq t') = rq_queue_capacity (tr_rq t);
  lf_geom : pool_geom (tr_pool t') = pool_geom (tr_pool t);
  lf_stail : sd_tail (tr_sq t) <= sd_tail (tr_sq t');
  lf_rtail : rq_tail (tr_rq t) <= rq_tail (tr_rq t');
  lf_bytes : forall b, 0 <= buf_length b -> outside_pool (tr_pool t) b ->
    buffer_bytes (tr_smem t') b = buffer_bytes (tr_smem t) b
}.

Lemma library_step_frame t t' : library_step t t' -> transfer_inv t -> library_frame t t'.
Proof.
  intros Hstep Hinv. pose proof Hinv as ([out Hs] & Hr & Hl). destruct Hstep as
    [t i now h s0 s1 imm h' m' Hi Hnow Hent Hser|t d junk buf grh rq' m' Hd Hbuf Hgrh _ Hage Hrun
    |t|t a rc q' p' Ha Hage Hrun|t w Hw|t b a l Hb Hlo Hhi|t a l Hsp].
  - destruct (PacketHandle_serialize_array_gather _ _ _ _ _ _ _ Hser) as [Hvec _].
    destruct (transmit_vector_spec t out i now h _ imm h' m' Hs Hi Hnow Hent Hvec)
      as (b & _ & Hin & _ & -> & _).
    constructor; try done. intros c Hc Hap. symmetry. apply buffer_bytes_agree; [done|].
    by apply (encode_agree t out).
  - pose proof (deliver_spec t d junk buf grh Hinv Hd Hbuf Hgrh Hage) as Hspec.
    destruct (rx_hit _ _ _) as [i|].
    + destruct Hspec as (_ & _ & rq1 & b & bytes & src & _ & _ & _ & _ & Hrun1 & _ & _ & (_ & Hc & _ & _ & Hz) & Hle).
      rewrite Hrun in Hrun1. injection Hrun1 as -> ->. by constructor.
    + destruct Hspec as (rq1 & Hrun1 & _ & _ & (_ & Hc & _ & _ & Hz) & Hle).
      rewrite Hrun in Hrun1. injection Hrun1 as -> ->. constructor; try done. cbn. lia.
  - by constructor.
  - pose proof Hs as [Hrep Hpool _ Hcap _ _ _]. pose proof (sdr_ring _ _ _ Hrep).
    pose proof (sdr_order _ _ _ Hrep). pose proof (sqb_bound _ _ _ (sdr_backlog _ _ _ Hrep)).
    pose proof (sqb_total _ _ _ (sdr_backlog _ _ _ Hrep)).
    destruct (SendQueue_markCompleted_spec _ _ _ _ _ (SHORT_SN a) Hrep Hpool ltac:(lia)
      (SHORT_SN_range a)) as (q1 & p1 & out1 & Hrun1 & _ & _ & Hgeo & _ & Ht & _ & _ & _ & _ & Hz).
    rewrite Hrun in Hrun1. injection Hrun1 as -> <- <-. constructor; try done. cbn. rewrite Ht.
    apply cumulative_ack_ge; [lia..|apply SHORT_SN_range].
  - by constructor.
  - constructor; try done. cbn. intros c Hc Hap. symmetry. apply buffer_bytes_agree; [done|].
    by apply (packet_sender_inv t out b).
  - by constructor.
Qed.

Lemma transfer_init_inv t : transfer_init t -> transfer_inv t.
Proof.
  intros ((mtu & cap & wnd & session & junk & out & Hm & Hc & Hw & Hse & Hinv & Hmax & Hsq) & (mtu' & cap' & wnd' & session' & Hm' & Hc' & Hw' & Hdiv & Hrq) &
    Hd & Ha & Hst & Hct & Hp & HR & Hrd).
  destruct (SendQueue_ctor_rep mtu cap wnd session junk Hm Hc Hw)
    as (q0 & Hq0 & Hrep & Hh & Ht & _ & Hcap & Hses & _).
  rewrite Hsq in Hq0. injection Hq0 as <-.
  destruct (ReceiveQueue_ctor_rep mtu' cap' wnd' session' Hm' Hc' Hw')
    as (r0 & Hr0 & Hrrep & Htight & Hrh & Hrt & _ & Hrcap & _).
  rewrite Hrq in Hr0. injection Hr0 as <-.
  split_and!.
  - exists out. constructor; rewrite ?Hst, ?Hct, ?Hcap, ?Hses; try done; [|lia].
    apply (sd_rep_out _ _ []); [set_solver|done].
  - constructor; unfold live_posted; rewrite ?Hp, ?HR, ?Hrcap, ?Hrd; try done; cbn; try lia; try set_solver.
    apply prefix_nil.
  - constructor; rewrite ?Hst, ?Hct, ?Hp, ?HR, ?Hd, ?Ha, ?Ht, ?Hrt, ?Hh; try done; set_solver.
Qed.

Lemma transfer_reachable_inv t0 t : transfer_init t0 -> rtc transfer_step t0 t -> transfer_inv t.
Proof.
  intros Hinit Hrtc. apply transfer_init_inv in Hinit.
  induction Hrtc; eauto using transfer_step_inv.
Qed.

(** What the invariant gives. *)
Lemma transfer_inv_delivers t :
  transfer_inv t ->
  let r := length (tr_read t) in
  let k := Z.to_nat (rq_tail (tr_rq t)) in
  tr_read t = take r (tr_content t) /\
  (buffer_bytes (tr_rmem t) <$> drop r (take k (tr_posted t))) = drop r (take k (tr_content t)) /\
  (Z.of_nat r <= rq_tail (tr_rq t) /\ sd_tail (tr_sq t) <= rq_tail (tr_rq t) <= sd_head (tr_sq t)) /\
  content_kept (tr_smem t) (sd_tail (tr_sq t)) (tr_sent t) (tr_content t).
Proof.
  intros Hinv r k. pose proof (rq_tail_le_head t Hinv) as Hrt.
  destruct Hinv as ([out Hs] & Hr & Hl).
  pose proof (rqr_order _ _ _ (ri_rep _ Hr)) as Ho.
  pose proof (sqb_bound _ _ _ (sdr_backlog _ _ _ (si_rep _ _ Hs))) as Hsb.
  pose proof (sqb_bound _ _ _ (rqr_backlog _ _ _ (ri_rep _ Hr))) as Hrb.
  pose proof (proj1 (si_content _ _ Hs)) as Hlen. pose proof (ri_read_le _ Hr) as Hle.
  split_and!; [|  |done|pose proof (li_tails _ Hl); lia|done|apply Hs].
  - destruct (ri_read _ Hr) as [l Hl']. unfold r. rewrite Hl', take_app_length. done.
  - apply list_eq_same_length with (k - r)%nat.
    + rewrite length_drop, length_take. lia.
    + rewrite length_fmap, length_drop, length_take. lia.
    + intros i x y Hi. rewrite list_lookup_fmap, !lookup_drop, !lookup_take_lt by lia.
      destruct (ri_bytes _ Hr (Z.of_nat (r + i))) as (b & d & Hb & Hd & Hbd).
      { apply (rqr_prefix _ _ _ (ri_rep _ Hr)). lia. }
      { unfold r. lia. }
      rewrite Nat2Z.id in Hb, Hd. rewrite Hb, Hd. cbn. congruence.
Qed.

Lemma deliver_never_aborts t d junk packet_buf grh :
  transfer_inv t -> d ∈ tr_data t -> packet_buf <> 0 -> length grh = Z.to_nat kGRHSize ->
  rq_tail (tr_rq t) + rq_wnd_size (tr_rq t) - 0x1000000 <= dg_index d ->
  exists rq' m', receive_datagram (tr_rmem t) (tr_rq t) junk packet_buf grh d = Ok (rq', m').
Proof.
  intros Hinv Hd Hbuf Hgrh Hage.
  pose proof (deliver_spec t d junk packet_buf grh Hinv Hd Hbuf Hgrh Hage) as Hspec.
  destruct (rx_hit _ _ _) as [i|].
  - destruct Hspec as (_ & _ & rq' & b & bytes & src & _ & _ & _ & _ & Hrun & _). eauto.
  - destruct Hspec as (rq' & Hrun & _). eauto.
Qed.

(** [C3] End-to-end delivery.  From two hosts with new queues, in any state
    reachable by pushes, posts, transmissions and retransmissions, deliveries of
    lost, duplicated or reordered datagrams, acknowledgements and window changes,
    by writes of the sending application anywhere but in fragments not yet
    acknowledged, and by reads of arrived fragments and writes anywhere else of
    the receiving application, where no datagram or acknowledgement older than a
    sequence space is delivered: what the receiving application has read is, in
    order, exactly what the sender's fragments held when they were pushed; the
    fragments that have arrived and are not read hold those bytes too; the
    sender's tail never passes the receiver's, so that every fragment the sender
    counts as acknowledged has been delivered; and the library has not modified
    the sender's outstanding fragments. *)
Theorem transfer_delivers t0 t :
  transfer_init t0 -> rtc transfer_step t0 t ->
  let r := length (tr_read t) in
  let k := Z.to_nat (rq_tail (tr_rq t)) in
  tr_read t = take r (tr_content t) /\
  (buffer_bytes (tr_rmem t) <$> drop r (take k (tr_posted t))) = drop r (take k (tr_content t)) /\
  (Z.of_nat r <= rq_tail (tr_rq t) /\ sd_tail (tr_sq t) <= rq_tail (tr_rq t) <= sd_head (tr_sq t)) /\
  content_kept (tr_smem t) (sd_tail (tr_sq t)) (tr_sent t) (tr_content t).
Proof. intros Hinit Hrtc. by apply transfer_inv_delivers, (transfer_reachable_inv t0). Qed.

(** [C6] Delivery never aborts.  In every reachable state the receiving host
    processes any datagram on the network, wherever the NIC put it, without
    trapping: in particular the length check of [markCompleted], which aborts
    the process, always succeeds when the two applications submit buffers of
    matching lengths. *)
Theorem transfer_never_aborts t0 t d junk packet_buf grh :
  transfer_init t0 -> rtc transfer_step t0 t ->
  d ∈ tr_data t -> packet_buf <> 0 -> length grh = Z.to_nat kGRHSize ->
  rq_tail (tr_rq t) + rq_wnd_size (tr_rq t) - 0x1000000 <= dg_index d ->
  exists rq' m', receive_datagram (tr_rmem t) (tr_rq t) junk packet_buf grh d = Ok (rq', m').
Proof.
  intros Hinit Hrtc. by apply deliver_never_aborts, (transfer_reachable_inv t0).
Qed.

(** ** A concrete run: one 16-byte fragment sent, delivered and acknowledged *)
Definition demo_get {A : Type} (d : A) (o : outcome A) : A :=
  match o with Ok a => a | Trap _ => d end.
Definition demo_pool_mem : Z * PacketBufferPool * mem :=
  demo_get (0, one_block_pool, ∅)
    (PacketBufferPool_construct (fun _ _ => 4096) 0 (PacketBufferPool_ctor 64 2)
       (st_bytes ∅ 1000 [72; 101; 108; 108; 111])).
Definition demo_t0 : transfer :=
  mkTransfer (snd demo_pool_mem) (snd (fst demo_pool_mem))
    (demo_get demo_queue (SendQueue_ctor 64 4 2 3 test_handle)) ∅
    (demo_get demo_rx (ReceiveQueue_ctor 64 4 2 3)) [] [] [] [] [] ∅ [].

Lemma demo_t0_init : transfer_init demo_t0.
Proof.
  split_and!; try done.
  - destruct (construct_inv (fun _ _ => 4096) 0 64 2 (st_bytes ∅ 1000 [72; 101; 108; 108; 111]))
      as (p & m & Hc & _ & _ & _ & Hinv); [unfold arena_ok, sizeof_PktHdr; lia|].
    exists 64, 4, 2, 3, test_handle, []. split_and!; try done.
    unfold demo_t0, demo_pool_mem. rewrite Hc. exact Hinv.
  - exists 64, 4, 2, 3. split_and!; try lia; [by exists 0x400000|vm_compute; reflexivity].
Qed.

Lemma lengths_agree_nil_r S : lengths_agree S [].
Proof. intros i b c _ [=]. Qed.

(** The sender pushes "Hello" and the receiver posts a buffer for it. *)
Definition demo_push : Z * Z * SendQueue * PacketBufferPool := Eval vm_compute in
  demo_get (0, 0, demo_queue, one_block_pool)
    (SendQueue_push (tr_smem demo_t0) (tr_sq demo_t0) (tr_pool demo_t0) [mkBuffer 1000 5]).
Definition demo_post : Z * Z * ReceiveQueue := Eval vm_compute in
  demo_get (0, 0, demo_rx) (ReceiveQueue_push (tr_rq demo_t0) [mkBuffer 2000 5]).
Definition demo_t2 : transfer := Eval vm_compute in
  demo_t0 <| tr_sq := snd (fst demo_push) |> <| tr_pool := snd demo_push |>
    <| tr_sent := [mkBuffer 1000 5] |> <| tr_content := [[72; 101; 108; 108; 111]] |>
    <| tr_rq := snd demo_post |> <| tr_posted := [mkBuffer 2000 5] |>.

(** It serializes the packet; the receiver gets it in the buffer at 8000. *)
Definition demo_serialized := Eval vm_compute in
  PacketHandle_serialize_array
    ((demo_get test_handle (SendQueue_getMutableEntry (tr_sq demo_t2) 0)) <| ph_ts := 7 |>)
    (tr_smem demo_t2).
Definition demo_datagram : datagram := Eval vm_compute in
  match demo_serialized with
  | (Some (s0, s1, imm), _, m') => mkDatagram 0 imm (gather m' [s0; s1])
  | _ => mkDatagram 0 0 []
  end.
Definition demo_t3 : transfer := Eval vm_compute in
  demo_t2 <| tr_smem := snd demo_serialized |>
    <| tr_sq := SendQueue_setEntry (tr_sq demo_t2) 0 (snd (fst demo_serialized)) |>
    <| tr_data := [demo_datagram] |>.
Definition demo_delivered : ReceiveQueue * mem := Eval vm_compute in
  demo_get (demo_rx, ∅)
    (receive_datagram (tr_rmem demo_t3) (tr_rq demo_t3) test_handle 8000 (replicate 40 0)
       demo_datagram).
Definition demo_t5 : transfer := Eval vm_compute in
  demo_t3 <| tr_rq := fst demo_delivered |> <| tr_rmem := snd demo_delivered |>
    <| tr_received := {[0]} |> <| tr_acks := [1] |>.
Definition demo_acked : Z * SendQueue * PacketBufferPool := Eval vm_compute in
  demo_get (0, demo_queue, one_block_pool)
    (SendQueue_markCompleted (tr_smem demo_t5) (tr_sq demo_t5) (tr_pool demo_t5) 1).
Definition demo_t6 : transfer := Eval vm_compute in
  demo_t5 <| tr_sq := snd (fst demo_acked) |> <| tr_pool := snd demo_acked |>.

Lemma demo_run_t2 : rtc transfer_step demo_t0 demo_t2.
Proof.
  eapply rtc_l.
  { eapply (step_send demo_t0 [mkBuffer 1000 5] _ _ (snd (fst demo_push)) (snd demo_push)).
    - repeat constructor; vm_compute; intuition congruence.
    - vm_compute. reflexivity.
    - repeat constructor; vm_compute; congruence.
    - apply lengths_agree_nil_r.
    - vm_compute. reflexivity. }
  eapply rtc_step_eq.
  { eapply (step_post _ [mkBuffer 2000 5] _ _ (snd demo_post)).
    - repeat constructor; vm_compute; intuition congruence.
    - vm_compute. reflexivity.
    - vm_compute. intros [|i] [|j] b c; intros [=] [=]; done.
    - intros [|i] b c; cbn; intros Hb Hc; [|done]. vm_compute in Hb.
      injection Hb as <-. injection Hc as <-. done.
    - vm_compute. reflexivity. }
  vm_compute. reflexivity.
Qed.

Lemma demo_run_t3 : transfer_step demo_t2 demo_t3.
Proof.
  apply step_library. refine (eq_ind _ _ (step_transmit demo_t2 0 7 _ _ _ _ _ _ _ _ _ _) demo_t3 _).
  - vm_compute. intuition congruence.
  - vm_compute. intuition congruence.
  - vm_compute. reflexivity.
  - vm_compute. reflexivity.
  - vm_compute. reflexivity.
Qed.

Lemma demo_run_t6 : rtc transfer_step demo_t3 demo_t6.
Proof.
  eapply rtc_l.
  { apply step_library. eapply (step_deliver demo_t3 demo_datagram test_handle 8000 (replicate 40 0)
             (fst demo_delivered) (snd demo_delivered)).
    - apply elem_of_cons. left. reflexivity.
    - done.
    - done.
    - intros b Hb. assert (b = mkBuffer 2000 5) as -> by (vm_compute in Hb; set_solver).
      right. done.
    - vm_compute. congruence.
    - vm_compute. reflexivity. }
  eapply rtc_l; [apply step_library, step_send_ack|].
  eapply rtc_step_eq.
  { apply step_library. eapply (step_recv_ack _ 1 0 (snd (fst demo_acked)) (snd demo_acked)).
    - apply elem_of_cons. left. vm_compute. reflexivity.
    - vm_compute. reflexivity.
    - vm_compute. reflexivity. }
  vm_compute. reflexivity.
Qed.

Lemma demo_run : rtc transfer_step demo_t0 demo_t6.
Proof.
  etrans; [apply demo_run_t2|]. eapply rtc_l; [apply demo_run_t3|]. apply demo_run_t6.
Qed.

(** The receiver reads the fragment and clears its buffer, the sender overwrites the
    acknowledged one. *)
Definition demo_t7 : transfer :=
  demo_t6 <| tr_read := [[72; 101; 108; 108; 111]] |>
    <| tr_rmem := st_bytes (tr_rmem demo_t6) 2000 [0; 0; 0; 0; 0] |>
    <| tr_smem := st_bytes (tr_smem demo_t6) 1000 [1; 2; 3; 4; 5] |>.
Lemma demo_reuse : rtc transfer_step demo_t6 demo_t7.
Proof.
  eapply rtc_l; [apply (step_read demo_t6 1); vm_compute; lia|].
  eapply rtc_l; [apply step_library, (step_rwrite _ 2000 [0; 0; 0; 0; 0])|].
  { intros b Hb. vm_compute in Hb. by apply elem_of_nil in Hb. }
  eapply rtc_step_eq; [apply (step_write _ 1000 [1; 2; 3; 4; 5])|].
  - intros b Hb. vm_compute in Hb. by apply elem_of_nil in Hb.
  - vm_compute. left. congruence.
  - reflexivity.
Qed.

Lemma transfer_delivers_witness :
  rq_tail (tr_rq demo_t7) = 1 /\ sd_tail (tr_sq demo_t7) = 1 /\
  tr_read demo_t7 = take 1 (tr_content demo_t7) /\
  buffer_bytes (tr_rmem demo_t6) (mkBuffer 2000 5) = [72; 101; 108; 108; 111].
Proof.
  destruct (transfer_delivers demo_t0 demo_t7 demo_t0_init) as (Hread & _).
  { etrans; [apply demo_run|apply demo_reuse]. }
  destruct (transfer_delivers demo_t0 demo_t6 demo_t0_init demo_run) as (_ & Hby & _).
  split_and!; [reflexivity..|exact Hread|].
  change ([buffer_bytes (tr_rmem demo_t6) (mkBuffer 2000 5)] = [[72; 101; 108; 108; 111]]) in Hby.
  exact (f_equal (fun l => List.nth 0 l []) Hby).
Defined.

Lemma transfer_never_aborts_witness : exists rq' m',
  receive_datagram (tr_rmem demo_t6) (tr_rq demo_t6) test_handle 8000 (replicate 40 0)
    demo_datagram = Ok (rq', m').
Proof.
  apply (transfer_never_aborts demo_t0 demo_t6 demo_datagram test_handle 8000 (replicate 40 0)
           demo_t0_init demo_run).
  - apply elem_of_cons. left. reflexivity.
  - done.
  - done.
  - vm_compute. congruence.
Defined.
