(* ===== verification/McastTransfer.v ===== *)
(** * A transfer from one host to a multicast group

    Composes the multicast send queue with one receive queue per replica, over a
    network that may lose, duplicate and reorder separately for every replica.
    The steps are the calls [ContextMcast] makes
    (src/protocols/rdma_unreliable/context_mcast.cpp): [send] and [receive] push
    buffers, [sendDataPackets] serializes an entry between the slowest replica's
    tail and the head, [processReceivedPacket] ignores a datagram when nothing is
    posted and otherwise hands it to [ReceiveQueue::markCompleted],
    [sendAckPackets] sends a replica's tail, and an acknowledgement of a replica
    goes to [McastSendQueue::markCompleted] under the replica's index.

    Replica [i] and the sender, with the tail the sender keeps for [i], are a
    [transfer]: the invariant of Transfer.v holds of every such pair. *)

From S2P Require Import Prelude Mem Packet BufferPool SecondaryQueue SendQueue McastSendQueue.
From S2P Require Import ReceiveQueue Transfer.

Record replica := mkReplica {
  rp_mem : mem;
  rp_rq : ReceiveQueue;
  rp_acks : list Z;
  rp_posted : list Buffer;
  rp_received : gset Z;
  rp_read : list (list Z)
}.
#[export] Instance replica_fields : Fields replica := mkFields (fun r =>
  mkReplica (rp_mem r) (rp_rq r) (rp_acks r) (rp_posted r) (rp_received r) (rp_read r)).

Record mcast_transfer := mkMcastTransfer {
  mt_smem : mem;
  mt_pool : PacketBufferPool;
  mt_sq : McastSendQueue;
  mt_data : list datagram;
  mt_sent : list Buffer;
  mt_content : list (list Z);
  mt_replicas : list replica
}.
#[export] Instance mcast_transfer_fields : Fields mcast_transfer := mkFields (fun t =>
  mkMcastTransfer (mt_smem t) (mt_pool t) (mt_sq t) (mt_data t) (mt_sent t) (mt_content t)
    (mt_replicas t)).

Definition mt_set_replica (t : mcast_transfer) (i : nat) (r : replica) : mcast_transfer :=
  t <| mt_replicas := <[i := r]> (mt_replicas t) |>.

(** [case PKT_CMD_DATA] of [ContextMcast::processReceivedPacket]: nothing is done
    when the receive queue is empty. *)
Definition receive_mcast_datagram (mr : mem) (rq : ReceiveQueue) (junk : PacketHandle)
    (packet_buf : Z) (grh : list Z) (d : datagram) : outcome (ReceiveQueue * mem) :=
  let '(head, tail) := ReceiveQueue_getIndexRange rq in
  if head =? tail then Ok (rq, st_bytes mr packet_buf (grh ++ dg_bytes d))
  else receive_datagram mr rq junk packet_buf grh d.

(** The sender's fragments some replica has not acknowledged, and the fragments of
    a replica its application has not read. *)
Definition mt_live_sent (t : mcast_transfer) : list Buffer :=
  drop (Z.to_nat (McastSendQueue_getMinTailIndex (mt_sq t))) (mt_sent t).
Definition rp_live_posted (r : replica) : list Buffer := drop (length (rp_read r)) (rp_posted r).

Inductive mcast_transfer_step : mcast_transfer -> mcast_transfer -> Prop :=
| mstep_send t l rc sn q' p' :
    let f := sq_fragment_size (ms_secondary_queue (mt_sq t)) in
    let sent := mt_sent t ++ fragments f l in
    Forall (buffer_valid f) l -> Z.of_nat (length sent) < 0x10000000000000000 ->
    Forall (outside_pool (mt_pool t)) (fragments f l) ->
    Forall (fun r => lengths_agree sent (rp_posted r)) (mt_replicas t) ->
    McastSendQueue_push (mt_smem t) (mt_sq t) (mt_pool t) l = Ok (rc, sn, q', p') ->
    mcast_transfer_step t (t <| mt_sq := q' |> <| mt_pool := p' |> <| mt_sent := sent |>
      <| mt_content := mt_content t ++ (buffer_bytes (mt_smem t) <$> fragments f l) |>)
| mstep_post t i r l rc sn q' :
    let f := sq_fragment_size (rq_secondary_queue (rp_rq r)) in
    let posted := rp_posted r ++ fragments f l in
    mt_replicas t !! i = Some r ->
    Forall (buffer_valid f) l ->
    Z.of_nat (length posted) + rq_queue_capacity (rp_rq r) < 0x10000000000000000 ->
    disjoint_posted (drop (length (rp_read r)) posted) -> lengths_agree (mt_sent t) posted ->
    ReceiveQueue_push (rp_rq r) l = Ok (rc, sn, q') ->
    mcast_transfer_step t (mt_set_replica t i (r <| rp_rq := q' |> <| rp_posted := posted |>))
| mstep_write t a l :
    spares a (Z.of_nat (length l)) (mt_live_sent t) ->
    outside_pool (mt_pool t) (mkBuffer a (Z.of_nat (length l))) ->
    mcast_transfer_step t (t <| mt_smem := st_bytes (mt_smem t) a l |>)
| mstep_read t i r n :
    mt_replicas t !! i = Some r ->
    (length (rp_read r) + n <= Z.to_nat (rq_tail (rp_rq r)))%nat ->
    mcast_transfer_step t (mt_set_replica t i (r <| rp_read :=
      rp_read r ++ (buffer_bytes (rp_mem r) <$> take n (rp_live_posted r)) |>))
| mstep_rwrite t i r a l :
    mt_replicas t !! i = Some r -> spares a (Z.of_nat (length l)) (rp_live_posted r) ->
    mcast_transfer_step t (mt_set_replica t i (r <| rp_mem := st_bytes (rp_mem r) a l |>))
| mstep_transmit t i now h sl imm h' m' :
    McastSendQueue_getMinTailIndex (mt_sq t) <= i < ms_head (mt_sq t) -> is_u64 now ->
    McastSendQueue_getMutableEntry (mt_sq t) i = Ok h ->
    PacketHandle_serialize_vector (h <| ph_ts := now |>) (mt_smem t) = (Some (sl, imm), h', m') ->
    mcast_transfer_step t (t <| mt_smem := m' |>
      <| mt_sq := McastSendQueue_setEntry (mt_sq t) i h' |>
      <| mt_data := mkDatagram i imm (gather m' sl) :: mt_data t |>)
| mstep_deliver t i r d junk packet_buf grh rq' m' :
    mt_replicas t !! i = Some r ->
    d ∈ mt_data t -> packet_buf <> 0 -> length grh = Z.to_nat kGRHSize ->
    spares packet_buf (kGRHSize + Z.of_nat (length (dg_bytes d))) (rp_live_posted r) ->
    rq_tail (rp_rq r) + rq_wnd_size (rp_rq r) - 0x1000000 <= dg_index d ->
    receive_mcast_datagram (rp_mem r) (rp_rq r) junk packet_buf grh d = Ok (rq', m') ->
    mcast_transfer_step t (mt_set_replica t i (r <| rp_rq := rq' |> <| rp_mem := m' |>
      <| rp_received :=
           if rq_head (rp_rq r) =? rq_tail (rp_rq r) then rp_received r
           else match rx_hit (rp_rq r) (rp_received r) (SHORT_SN (dg_index d)) with
                | Some k => {[k]} ∪ rp_received r
                | None => rp_received r
                end |>))
| mstep_send_ack t i r :
    mt_replicas t !! i = Some r ->
    mcast_transfer_step t (mt_set_replica t i (r <| rp_acks := rq_tail (rp_rq r) :: rp_acks r |>))
| mstep_recv_ack t i r a rc q' p' :
    mt_replicas t !! i = Some r -> a ∈ rp_acks r -> ms_head (mt_sq t) < a + 0x1000000 ->
    McastSendQueue_markCompleted (mt_smem t) (mt_sq t) (mt_pool t) (Z.of_nat i) (SHORT_SN a)
      = Ok (rc, q', p') ->
    mcast_transfer_step t (t <| mt_sq := q' |> <| mt_pool := p' |>)
| mstep_window t w :
    u16 w < ms_queue_capacity (mt_sq t) ->
    mcast_transfer_step t (t <| mt_sq := McastSendQueue_setWndSize (mt_sq t) w |>).

(** A freshly constructed sender for [n] replicas, as many fresh receivers and an
    empty network. *)
Definition replica_init (r : replica) : Prop :=
  (exists mtu cap wnd session,
     56 <= mtu < 0x100000000 /\ 0 < cap < 0x10000 /\ 0 <= wnd < cap /\ (cap | 0x1000000) /\
     ReceiveQueue_ctor mtu cap wnd session = Ok (rp_rq r)) /\
  rp_acks r = [] /\ rp_posted r = [] /\ rp_received r = ∅ /\ rp_read r = [].
Definition mcast_transfer_init (t : mcast_transfer) : Prop :=
  (exists mtu cap wnd session junk node (numa : Z -> Z -> Z) max m0,
     56 <= mtu < 0x100000000 /\ 0 < cap < 0x10000 /\ 0 <= wnd < cap /\
     arena_ok (numa (u64 (mtu * max)) node) mtu (Z.to_nat max) /\
     0 <= max /\ mtu * max < 0x10000000000000000 /\ is_u8 session /\
     PacketBufferPool_construct numa node (PacketBufferPool_ctor mtu max) m0
       = Ok (0, mt_pool t, mt_smem t) /\
     McastSendQueue_ctor mtu cap wnd session (Z.of_nat (length (mt_replicas t))) junk
       = Ok (mt_sq t)) /\
  0 < Z.of_nat (length (mt_replicas t)) < 0x80000000 /\ Forall replica_init (mt_replicas t) /\
  mt_data t = [] /\ mt_sent t = [] /\ mt_content t = [].

(** ** The invariant *)

(** The sender with tail [tl], and replica [r]. *)
Definition mt_view (t : mcast_transfer) (tl : Z) (r : replica) : transfer :=
  mkTransfer (mt_smem t) (mt_pool t) ((ms_as_send (mt_sq t)) <| sd_tail := tl |>) (rp_mem r)
    (rp_rq r) (mt_data t) (rp_acks r) (mt_sent t) (mt_content t) (rp_posted r) (rp_received r)
    (rp_read r).

Record mt_sender (t : mcast_transfer) (out : list Z) : Prop := {
  mi_rep : ms_rep (mt_sq t) (mt_sent t) out;
  mi_pool : pool_inv (mt_pool t) (mt_smem t) out;
  mi_max : 0 <= bp_max_packets (mt_pool t);
  mi_cap : ms_queue_capacity (mt_sq t) < 0x10000;
  mi_session : is_u8 (ms_session (mt_sq t));
  mi_outside : Forall (outside_pool (mt_pool t)) (mt_sent t);
  mi_content : content_kept (mt_smem t) (McastSendQueue_getMinTailIndex (mt_sq t)) (mt_sent t)
                 (mt_content t)
}.

Definition mt_pair (t : mcast_transfer) (tl : Z) (r : replica) : Prop :=
  receiver_inv (mt_view t tl r) /\ link_inv (mt_view t tl r).

Definition mt_inv (t : mcast_transfer) : Prop :=
  (exists out, mt_sender t out) /\ Forall2 (mt_pair t) (ms_tail_list (mt_sq t)) (mt_replicas t).

Lemma mt_sender_min t out r :
  mt_sender t out -> sender_inv (mt_view t (McastSendQueue_getMinTailIndex (mt_sq t)) r) out.
Proof. intros [Hrep ? ? ? ? ? ?]. constructor; cbn; try done. exact (msr_send _ _ _ Hrep). Qed.

Lemma mt_sender_view t out tl r :
  mt_sender t out -> tl ∈ ms_tail_list (mt_sq t) -> sender_inv (mt_view t tl r) out.
Proof.
  intros [[Hs _ _ Htl] ? ? ? ? ? Hcon] Hin.
  assert (Hmin : McastSendQueue_getMinTailIndex (mt_sq t) <= tl) by (by apply min_tail_spec).
  constructor; cbn; try done; [|by eapply content_kept_mono].
  apply (sd_rep_tail _ _ _ tl) in Hs; [exact Hs|]. cbn. split; [done|by apply Htl].
Qed.

Lemma mt_view_inv t i tl r :
  mt_inv t -> ms_tail_list (mt_sq t) !! i = Some tl -> mt_replicas t !! i = Some r ->
  transfer_inv (mt_view t tl r).
Proof.
  intros [[out Hs] Hall] Htl Hr. split.
  - exists out. apply (mt_sender_view _ _ _ _ Hs). by eapply list_elem_of_lookup_2.
  - by apply (Forall2_lookup_lr _ _ _ _ _ _ Hall Htl Hr).
Qed.

Lemma mt_replica_tail t i r :
  mt_inv t -> mt_replicas t !! i = Some r -> exists tl, ms_tail_list (mt_sq t) !! i = Some tl.
Proof.
  intros [_ Hall] Hr. apply lookup_lt_is_Some_2. rewrite (Forall2_length _ _ _ Hall).
  by eapply lookup_lt_Some.
Qed.

(** A step of one replica: it is enough that its pair stays consistent. *)
Lemma mt_replica_step t i tl r r' :
  mt_inv t -> ms_tail_list (mt_sq t) !! i = Some tl -> mt_replicas t !! i = Some r ->
  transfer_inv (mt_view t tl r') -> mt_inv (mt_set_replica t i r').
Proof.
  intros [[out Hs] Hall] Htl Hr (_ & Hr' & Hl'). split; [exists out; destruct Hs; by constructor|].
  cbn. rewrite <- (list_insert_id _ _ _ Htl).
  apply Forall2_insert; [exact Hall|by split].
Qed.

(** A step of the sender: what every replica needs of it. *)
Lemma mt_pairs_grow t t' :
  mt_inv t -> mt_replicas t' = mt_replicas t ->
  length (ms_tail_list (mt_sq t')) = length (ms_tail_list (mt_sq t)) ->
  (forall i tl r, ms_tail_list (mt_sq t') !! i = Some tl -> mt_replicas t !! i = Some r ->
     tl <= rq_tail (rp_rq r)) ->
  ms_head (mt_sq t) <= ms_head (mt_sq t') -> mt_content t `prefix_of` mt_content t' ->
  Forall (fun r => lengths_agree (mt_sent t') (rp_posted r)) (mt_replicas t) ->
  (forall d, d ∈ mt_data t' -> d ∈ mt_data t \/ (0 <= dg_index d < ms_head (mt_sq t') /\
     exists bytes, mt_content t' !! Z.to_nat (dg_index d) = Some bytes /\ datagram_ok d bytes)) ->
  Forall2 (mt_pair t') (ms_tail_list (mt_sq t')) (mt_replicas t').
Proof.
  intros [_ Hall] Hrep Hlen Htl Hh Hpre Hag Hd. rewrite Hrep.
  apply Forall2_same_length_lookup. split; [by rewrite Hlen, (Forall2_length _ _ _ Hall)|].
  intros i tl' r Htl' Hr.
  destruct (lookup_lt_is_Some_2 (ms_tail_list (mt_sq t)) i) as [tl Htli].
  { rewrite <- Hlen. by eapply lookup_lt_Some. }
  destruct (Forall2_lookup_lr _ _ _ _ _ _ Hall Htli Hr) as [Hri Hli]. split.
  - by apply (receiver_inv_grow (mt_view t tl r)).
  - apply (link_inv_grow (mt_view t tl r)); cbn; try done; [by eapply Htl|].
    by apply (Forall_lookup_1 _ _ _ _ Hag Hr).
Qed.

(** The tails of a state whose sender kept them. *)
Lemma mt_tails_kept t i tl r :
  mt_inv t -> ms_tail_list (mt_sq t) !! i = Some tl -> mt_replicas t !! i = Some r ->
  tl <= rq_tail (rp_rq r).
Proof.
  intros [_ Hall] Htl Hr. destruct (Forall2_lookup_lr _ _ _ _ _ _ Hall Htl Hr) as [_ Hl].
  exact (li_tails _ Hl).
Qed.

Lemma mt_lengths_kept t :
  mt_inv t -> Forall (fun r => lengths_agree (mt_sent t) (rp_posted r)) (mt_replicas t).
Proof.
  intros [_ Hall]. apply Forall_lookup. intros i r Hr.
  destruct (Forall2_lookup_r _ _ _ _ _ Hall Hr) as (tl & _ & _ & Hl). exact (li_lengths _ Hl).
Qed.

(** One replica's tail moves forward. *)
Lemma min_tail_advance q q' i tl tl' :
  ms_tail_list q !! i = Some tl -> ms_tail_list q' = <[i := tl']> (ms_tail_list q) -> tl <= tl' ->
  McastSendQueue_getMinTailIndex q <= UINT64_MAX ->
  McastSendQueue_getMinTailIndex q <= McastSendQueue_getMinTailIndex q'.
Proof.
  intros Htl Hq Hle Hm. apply (min_tail_spec q'); [done|]. rewrite Hq. intros t Ht.
  apply list_elem_of_lookup in Ht as [j Hj].
  apply list_lookup_insert_Some in Hj as [(_ & <- & _)|[_ Hj]].
  - pose proof (proj1 (min_tail_spec q) tl (list_elem_of_lookup_2 _ _ _ Htl)). lia.
  - apply (min_tail_spec q). by eapply list_elem_of_lookup_2.
Qed.

(** The sender of a state whose pool and queue changed consistently. *)
Lemma mt_sender_change t q' p' sent content out out' :
  mt_sender t out -> ms_rep q' sent out' -> pool_inv p' (mt_smem t) out' ->
  pool_geom p' = pool_geom (mt_pool t) -> ms_queue_capacity q' = ms_queue_capacity (mt_sq t) ->
  ms_session q' = ms_session (mt_sq t) -> Forall (outside_pool (mt_pool t)) sent ->
  content_kept (mt_smem t) (McastSendQueue_getMinTailIndex q') sent content ->
  mt_sender (t <| mt_sq := q' |> <| mt_pool := p' |> <| mt_sent := sent |>
               <| mt_content := content |>) out'.
Proof.
  intros [_ _ Hmax Hcap Hses _ _] Hrep Hpool Hgeo Hc Hse Hout Hcon.
  assert (Hp1 : bp_max_packets p' = bp_max_packets (mt_pool t)) by (by injection Hgeo).
  constructor; cbn; rewrite ?Hp1, ?Hc, ?Hse; try done.
  eapply Forall_impl; [eassumption|]. intros b. by apply outside_pool_geom.
Qed.

Lemma mt_send_inv t l rc sn q' p' :
  let f := sq_fragment_size (ms_secondary_queue (mt_sq t)) in
  let sent := mt_sent t ++ fragments f l in
  mt_inv t -> Forall (buffer_valid f) l -> Z.of_nat (length sent) < 0x10000000000000000 ->
  Forall (outside_pool (mt_pool t)) (fragments f l) ->
  Forall (fun r => lengths_agree sent (rp_posted r)) (mt_replicas t) ->
  McastSendQueue_push (mt_smem t) (mt_sq t) (mt_pool t) l = Ok (rc, sn, q', p') ->
  mt_inv (t <| mt_sq := q' |> <| mt_pool := p' |> <| mt_sent := sent |>
      <| mt_content := mt_content t ++ (buffer_bytes (mt_smem t) <$> fragments f l) |>).
Proof.
  intros f sent Hinv Hv Htot Hout Hag Hrun. pose proof Hinv as [[out Hs] _].
  destruct (McastSendQueue_push_spec _ _ _ _ _ l (mi_rep _ _ Hs) (mi_pool _ _ Hs) Hv Htot)
    as (q1 & p1 & out1 & Hrun1 & Hrep1 & Hpool1 & Ht & Hc & _ & Hgeo & Hh & Hse).
  rewrite Hrun in Hrun1. injection Hrun1 as -> -> <- <-. split.
  - exists out1. apply (mt_sender_change t q' p' sent _ out out1); try done.
    + apply Forall_app. split; [apply Hs|done].
    + unfold McastSendQueue_getMinTailIndex. rewrite Ht. apply content_kept_app, (mi_content _ _ Hs).
  - apply (mt_pairs_grow t); cbn; rewrite ?Ht; try done.
    + intros i tl r Htl Hr. by apply (mt_tails_kept t i).
    + by apply prefix_app_r.
    + by left.
Qed.

Lemma mt_transmit_inv t i now h sl imm h' m' :
  mt_inv t -> McastSendQueue_getMinTailIndex (mt_sq t) <= i < ms_head (mt_sq t) -> is_u64 now ->
  McastSendQueue_getMutableEntry (mt_sq t) i = Ok h ->
  PacketHandle_serialize_vector (h <| ph_ts := now |>) (mt_smem t) = (Some (sl, imm), h', m') ->
  mt_inv (t <| mt_smem := m' |> <| mt_sq := McastSendQueue_setEntry (mt_sq t) i h' |>
            <| mt_data := mkDatagram i imm (gather m' sl) :: mt_data t |>).
Proof.
  intros Hinv Hi Hnow Hent Hser. pose proof Hinv as [[out Hs] Hall].
  destruct (mi_rep _ _ Hs) as [Hsd Hne Hct Htl].
  destruct (mt_replicas t) as [|r rs] eqn:Hrs.
  { apply Forall2_nil_inv_r in Hall. done. }
  pose proof (mt_sender_min t out r Hs) as Hv.
  pose proof (transmit_sender_inv _ out i now h sl imm h' m' Hv Hi Hnow Hent Hser)
    as [Hrep' Hpool' Hmax' Hcap' Hses' Hout' Hcon'].
  destruct (transmit_vector_spec _ out i now h sl imm h' m' Hv Hi Hnow Hent Hser)
    as (b & Hb & _ & _ & _ & Hdg).
  split; [exists out; constructor; done|].
  apply (mt_pairs_grow t); cbn; try done.
  - intros j tl r' Htl' Hr'. by apply (mt_tails_kept t j).
  - by apply mt_lengths_kept.
  - intros d [->|Hd]%elem_of_cons; [right|by left]. cbn in *.
    split; [pose proof (ms_rep_head _ _ _ (mi_rep _ _ Hs)); lia|].
    eexists. split; [|exact Hdg]. pose proof (ms_rep_head _ _ _ (mi_rep _ _ Hs)).
    apply (mi_content _ _ Hs); [lia|done].
Qed.

Lemma mt_write_inv t a l :
  mt_inv t -> spares a (Z.of_nat (length l)) (mt_live_sent t) ->
  outside_pool (mt_pool t) (mkBuffer a (Z.of_nat (length l))) ->
  mt_inv (t <| mt_smem := st_bytes (mt_smem t) a l |>).
Proof.
  intros Hinv Hap Hout. pose proof Hinv as [[out Hs] Hall].
  destruct (mi_rep _ _ Hs) as [Hsd Hne Hct Htl].
  destruct (mt_replicas t) as [|r rs] eqn:Hrs.
  { apply Forall2_nil_inv_r in Hall. done. }
  destruct (write_sender_inv _ out a l (mt_sender_min t out r Hs) Hap Hout)
    as [Hrep' Hpool' _ _ _ _ Hcon'].
  split; [exists out; destruct Hs; by constructor|].
  apply (mt_pairs_grow t); cbn; try done.
  - intros j tl r' Htl' Hr'. by apply (mt_tails_kept t j).
  - by apply mt_lengths_kept.
  - by left.
Qed.

Lemma mt_recv_ack_inv t i r a rc q' p' :
  mt_inv t -> mt_replicas t !! i = Some r -> a ∈ rp_acks r -> ms_head (mt_sq t) < a + 0x1000000 ->
  McastSendQueue_markCompleted (mt_smem t) (mt_sq t) (mt_pool t) (Z.of_nat i) (SHORT_SN a)
    = Ok (rc, q', p') ->
  mt_inv (t <| mt_sq := q' |> <| mt_pool := p' |>).
Proof.
  intros Hinv Hr Ha Hage Hrun. destruct (mt_replica_tail t i r Hinv Hr) as [tl Htl].
  pose proof (mt_view_inv t i tl r Hinv Htl Hr) as Hview.
  pose proof (rq_tail_le_head _ Hview) as Hrt. destruct Hview as (_ & _ & Hli). cbn in Hrt.
  pose proof (li_acks _ Hli a Ha) as Har. pose proof (li_tails _ Hli) as Htr. cbn in Har, Htr.
  pose proof Hinv as [[out Hs] _]. pose proof (mi_rep _ _ Hs) as Hrep.
  pose proof (ms_rep_head _ _ _ Hrep) as (Hmin & Hhd & Hring). pose proof (mi_cap _ _ Hs) as Hcap.
  pose proof (proj1 (min_tail_spec (mt_sq t)) tl (list_elem_of_lookup_2 _ _ _ Htl)) as Hmt.
  pose proof (msr_tails _ _ _ Hrep tl (list_elem_of_lookup_2 _ _ _ Htl)) as Hth.
  destruct (McastSendQueue_markCompleted_spec _ _ _ _ _ (Z.of_nat i) tl (SHORT_SN a) Hrep
    (mi_pool _ _ Hs) ltac:(lia) (SHORT_SN_range a) ltac:(lia) ltac:(by rewrite Nat2Z.id))
    as (q1 & p1 & out1 & Hrun1 & Hrep1 & Hpool1 & Ht & _ & Hh & Hc & _ & Hgeo & Hse).
  rewrite Hrun in Hrun1. injection Hrun1 as -> <- <-. rewrite Nat2Z.id in Ht. split.
  - exists out1.
    refine (mt_sender_change t q' p' (mt_sent t) (mt_content t) out out1 Hs Hrep1 Hpool1 Hgeo Hc Hse
             (mi_outside _ _ Hs) _).
    eapply content_kept_mono; [|apply (mi_content _ _ Hs)].
    apply (min_tail_advance _ _ i tl _ Htl Ht); [|unfold UINT64_MAX; lia].
    apply cumulative_ack_ge; [lia..|apply SHORT_SN_range].
  - apply (mt_pairs_grow t); cbn; rewrite ?Ht, ?length_insert; try done.
    + intros j tl' r' Htl' Hr'.
      apply list_lookup_insert_Some in Htl' as [(<- & <- & _)|[_ Htl']];
        [|by apply (mt_tails_kept t j)].
      rewrite Hr in Hr'. injection Hr' as <-. apply cumulative_ack_le; lia.
    + by apply mt_lengths_kept.
    + by left.
Qed.

Lemma mt_window_inv t w :
  mt_inv t -> u16 w < ms_queue_capacity (mt_sq t) ->
  mt_inv (t <| mt_sq := McastSendQueue_setWndSize (mt_sq t) w |>).
Proof.
  intros Hinv Hw. pose proof Hinv as [[out Hs] Hall]. split.
  - exists out. destruct Hs as [Hrep ? ? ? ? ? ?]. constructor; cbn; try done.
    apply McastSendQueue_setWndSize_rep; [done|]. lia.
  - eapply Forall2_impl; [exact Hall|]. intros tl r [Hr Hl].
    split; [destruct Hr|destruct Hl]; by constructor.
Qed.

(** ** Steps of a replica *)

Lemma mt_deliver_inv t i r d junk buf grh rq' m' :
  mt_inv t -> mt_replicas t !! i = Some r ->
  d ∈ mt_data t -> buf <> 0 -> length grh = Z.to_nat kGRHSize ->
  spares buf (kGRHSize + Z.of_nat (length (dg_bytes d))) (rp_live_posted r) ->
  rq_tail (rp_rq r) + rq_wnd_size (rp_rq r) - 0x1000000 <= dg_index d ->
  receive_mcast_datagram (rp_mem r) (rp_rq r) junk buf grh d = Ok (rq', m') ->
  mt_inv (mt_set_replica t i (r <| rp_rq := rq' |> <| rp_mem := m' |>
    <| rp_received :=
         if rq_head (rp_rq r) =? rq_tail (rp_rq r) then rp_received r
         else match rx_hit (rp_rq r) (rp_received r) (SHORT_SN (dg_index d)) with
              | Some k => {[k]} ∪ rp_received r
              | None => rp_received r
              end |>)).
Proof.
  intros Hinv Hr Hd Hbuf Hgrh Hap Hage Hrun.
  destruct (mt_replica_tail t i r Hinv Hr) as [tl Htl].
  pose proof (mt_view_inv t i tl r Hinv Htl Hr) as Hview.
  apply (mt_replica_step t i tl r); try done.
  unfold receive_mcast_datagram in Hrun. cbn [ReceiveQueue_getIndexRange] in Hrun.
  destruct (rq_head (rp_rq r) =? rq_tail (rp_rq r)).
  - injection Hrun as <- <-.
    apply (transfer_rwrite_inv (mt_view t tl r)); [done|]. intros b Hb.
    rewrite length_app, Hgrh. specialize (Hap b Hb). unfold kGRHSize in *.
    replace (Z.of_nat _) with (40 + Z.of_nat (length (dg_bytes d))) by lia. done.
  - exact (transfer_deliver_inv _ d junk buf grh rq' m' Hview Hd Hbuf Hgrh Hap Hage Hrun).
Qed.

Lemma mt_step_inv t t' : mcast_transfer_step t t' -> mt_inv t -> mt_inv t'.
Proof.
  intros Hstep Hinv. destruct Hstep.
  - by eapply mt_send_inv.
  - destruct (mt_replica_tail t i r Hinv H) as [tl Htl].
    pose proof (mt_view_inv t i tl r Hinv Htl H) as Hview.
    apply (mt_replica_step t i tl r); try done.
    by eapply (transfer_post_inv (mt_view t tl r)).
  - by apply mt_write_inv.
  - destruct (mt_replica_tail t i r Hinv H) as [tl Htl].
    apply (mt_replica_step t i tl r); try done.
    by apply (transfer_read_inv (mt_view t tl r)), H0; apply (mt_view_inv t i).
  - destruct (mt_replica_tail t i r Hinv H) as [tl Htl].
    apply (mt_replica_step t i tl r); try done.
    by apply (transfer_rwrite_inv (mt_view t tl r)), H0; apply (mt_view_inv t i).
  - by eapply mt_transmit_inv.
  - by eapply mt_deliver_inv.
  - destruct (mt_replica_tail t i r Hinv H) as [tl Htl].
    pose proof (mt_view_inv t i tl r Hinv Htl H) as Hview.
    apply (mt_replica_step t i tl r); try done.
    by apply (library_step_inv (mt_view t tl r)); [apply (step_send_ack (mt_view t tl r))|].
  - by eapply mt_recv_ack_inv.
  - by apply mt_window_inv.
Qed.

Lemma mt_init_inv t : mcast_transfer_init t -> mt_inv t.
Proof.
  intros ((mtu & cap & wnd & session & junk & node & numa & max & m0 & Hm & Hc & Hw & Hok & Hmx &
    Hov & Hse & Hpool & Hsq) & Hn & Hrs & Hd & Hst & Hct).
  destruct (McastSendQueue_ctor_rep mtu cap wnd session _ junk Hm Hc Hw Hn)
    as (q0 & Hq0 & Hrep & Hcap & _ & Htl & Hh & Hses).
  rewrite Hsq in Hq0. injection Hq0 as <-.
  destruct (construct_inv numa node mtu max m0 Hok) as (p0 & m1 & Hcon & _ & Hmax & _ & Hinv).
  rewrite Hpool in Hcon. injection Hcon as <- <-. split.
  - exists []. constructor; rewrite ?Hst, ?Hct, ?Hmax, ?Hcap, ?Hses; done || lia.
  - rewrite Htl, Nat2Z.id. apply Forall2_same_length_lookup. split; [apply length_replicate|].
    intros i tl r [-> _]%lookup_replicate Hr.
    destruct (Forall_lookup_1 _ _ _ _ Hrs Hr) as ((mtu' & cap' & wnd' & session' & Hm' & Hc' & Hw' &
      Hdiv & Hrq) & Ha & Hp & HR & Hrd).
    destruct (ReceiveQueue_ctor_rep mtu' cap' wnd' session' Hm' Hc' Hw')
      as (r0 & Hr0 & Hrrep & Htight & Hrh & Hrt & _ & Hrcap & _).
    rewrite Hrq in Hr0. injection Hr0 as <-. split.
    + constructor; unfold live_posted; cbn; rewrite ?Hp, ?HR, ?Hrcap, ?Hrd; try done; cbn; try lia;
        try set_solver. apply prefix_nil.
    + constructor; cbn; rewrite ?Hst, ?Hct, ?Hp, ?HR, ?Hd, ?Ha, ?Hrt, ?Hh; try done; set_solver.
Qed.

Lemma mt_reachable_inv t0 t :
  mcast_transfer_init t0 -> rtc mcast_transfer_step t0 t -> mt_inv t.
Proof.
  intros Hinit Hrtc. apply mt_init_inv in Hinit. induction Hrtc; eauto using mt_step_inv.
Qed.

(** [C4] Delivery to a group.  From a freshly constructed sender and as many
    receivers, whatever each replica's network loses, duplicates and reorders,
    with applications that reuse acknowledged and read memory: what the
    application of each replica has read is, in order, exactly what the sender's
    fragments held when they were pushed, and the fragments that have arrived and
    are not read hold those bytes too; the tail the sender keeps for a replica
    never passes that replica's own, hence the window's lower edge, which decides
    whether a task is complete, never passes the tail of any replica; and the
    sender's outstanding fragments are not modified. *)
Theorem mcast_transfer_delivers t0 t i r :
  mcast_transfer_init t0 -> rtc mcast_transfer_step t0 t -> mt_replicas t !! i = Some r ->
  let n := length (rp_read r) in
  let k := Z.to_nat (rq_tail (rp_rq r)) in
  rp_read r = take n (mt_content t) /\
  (buffer_bytes (rp_mem r) <$> drop n (take k (rp_posted r))) = drop n (take k (mt_content t)) /\
  (exists tl, ms_tail_list (mt_sq t) !! i = Some tl /\
     McastSendQueue_getMinTailIndex (mt_sq t) <= tl <= rq_tail (rp_rq r)) /\
  Z.of_nat n <= rq_tail (rp_rq r) <= ms_head (mt_sq t) /\
  content_kept (mt_smem t) (McastSendQueue_getMinTailIndex (mt_sq t)) (mt_sent t) (mt_content t).
Proof.
  intros Hinit Hrtc Hr. pose proof (mt_reachable_inv t0 t Hinit Hrtc) as Hinv.
  destruct (mt_replica_tail t i r Hinv Hr) as [tl Htl].
  pose proof (mt_view_inv t i tl r Hinv Htl Hr) as Hview.
  destruct (transfer_inv_delivers _ Hview) as (Hrd & Hby & (Hle & Hrt) & _). cbn in *.
  destruct Hinv as [[out Hs] _]. split_and!; try done; try lia; [|apply (mi_content _ _ Hs)].
  exists tl. split; [done|]. split; [|lia]. apply min_tail_spec. by eapply list_elem_of_lookup_2.
Qed.

(** A replica never aborts on a datagram of the group, wherever its NIC put
    it, when the applications submit buffers of matching lengths. *)
Theorem mcast_transfer_never_aborts t0 t i r d junk packet_buf grh :
  mcast_transfer_init t0 -> rtc mcast_transfer_step t0 t -> mt_replicas t !! i = Some r ->
  d ∈ mt_data t -> packet_buf <> 0 -> length grh = Z.to_nat kGRHSize ->
  rq_tail (rp_rq r) + rq_wnd_size (rp_rq r) - 0x1000000 <= dg_index d ->
  exists rq' m', receive_mcast_datagram (rp_mem r) (rp_rq r) junk packet_buf grh d = Ok (rq', m').
Proof.
  intros Hinit Hrtc Hr Hd Hbuf Hgrh Hage. pose proof (mt_reachable_inv t0 t Hinit Hrtc) as Hinv.
  destruct (mt_replica_tail t i r Hinv Hr) as [tl Htl].
  pose proof (mt_view_inv t i tl r Hinv Htl Hr) as Hview.
  unfold receive_mcast_datagram. cbn [ReceiveQueue_getIndexRange].
  destruct (rq_head _ =? _); [eauto|].
  exact (deliver_never_aborts _ d junk packet_buf grh Hview Hd Hbuf Hgrh Hage).
Qed.

(** ** A concrete run: two replicas, of which the first gets the fragment twice
    and the second late *)
Definition demo_replica : replica :=
  mkReplica ∅ (demo_get demo_rx (ReceiveQueue_ctor 64 4 2 3)) [] [] ∅ [].
Definition demo_m0 : mcast_transfer :=
  mkMcastTransfer (snd demo_pool_mem) (snd (fst demo_pool_mem))
    (demo_get demo_mcast.1 (McastSendQueue_ctor 64 4 2 3 2 test_handle)) [] [] []
    [demo_replica; demo_replica].

Lemma demo_m0_init : mcast_transfer_init demo_m0.
Proof.
  split_and!; try done.
  - exists 64, 4, 2, 3, test_handle, 0, (fun _ _ => 4096), 2, (st_bytes ∅ 1000 [72; 101; 108; 108; 111]).
    split_and!; try lia; try done; try (vm_compute; reflexivity).
  - assert (Hr : replica_init demo_replica).
    { split_and!; try done. exists 64, 4, 2, 3.
      split_and!; try lia; [by exists 0x400000|vm_compute; reflexivity]. }
    exact (Forall_cons_2 _ _ _ Hr (Forall_cons_2 _ _ _ Hr (Forall_nil_2 _))).
Qed.

(** The sender pushes, both replicas post, the packet is serialized. *)
Definition demo_mpush : Z * Z * McastSendQueue * PacketBufferPool := Eval vm_compute in
  demo_get (0, 0, demo_mcast.1, one_block_pool)
    (McastSendQueue_push (mt_smem demo_m0) (mt_sq demo_m0) (mt_pool demo_m0) [mkBuffer 1000 5]).
Definition demo_posted : replica := Eval vm_compute in
  demo_replica <| rp_rq := snd demo_post |> <| rp_posted := [mkBuffer 2000 5] |>.
Definition demo_m1 : mcast_transfer := Eval vm_compute in
  demo_m0 <| mt_sq := snd (fst demo_mpush) |> <| mt_pool := snd demo_mpush |>
    <| mt_sent := [mkBuffer 1000 5] |> <| mt_content := [[72; 101; 108; 108; 111]] |>
    <| mt_replicas := [demo_posted; demo_posted] |>.
Definition demo_mserialized := Eval vm_compute in
  PacketHandle_serialize_vector
    ((demo_get test_handle (McastSendQueue_getMutableEntry (mt_sq demo_m1) 0)) <| ph_ts := 7 |>)
    (mt_smem demo_m1).
Definition demo_mdatagram : datagram := Eval vm_compute in
  match demo_mserialized with
  | (Some (sl, imm), _, m') => mkDatagram 0 imm (gather m' sl)
  | _ => mkDatagram 0 0 []
  end.
Definition demo_m2 : mcast_transfer := Eval vm_compute in
  demo_m1 <| mt_smem := snd demo_mserialized |>
    <| mt_sq := McastSendQueue_setEntry (mt_sq demo_m1) 0 (snd (fst demo_mserialized)) |>
    <| mt_data := [demo_mdatagram] |>.

(** What a replica is after the datagram arrived once more. *)
Definition demo_arrive (r : replica) : replica :=
  let '(rq, m) := demo_get (demo_rx, ∅)
    (receive_mcast_datagram (rp_mem r) (rp_rq r) test_handle 8000 (replicate 40 0) demo_mdatagram) in
  r <| rp_rq := rq |> <| rp_mem := m |> <| rp_received := {[0]} |>.
Definition demo_got : replica := Eval vm_compute in demo_arrive demo_posted.
Definition demo_acking : replica := Eval vm_compute in (demo_arrive demo_got) <| rp_acks := [1] |>.
Definition demo_macked : Z * McastSendQueue * PacketBufferPool := Eval vm_compute in
  demo_get (0, demo_mcast.1, one_block_pool)
    (McastSendQueue_markCompleted (mt_smem demo_m2) (mt_sq demo_m2) (mt_pool demo_m2) 0 1).
Definition demo_m3 : mcast_transfer := Eval vm_compute in
  demo_m2 <| mt_replicas := [demo_acking; demo_got] |>
    <| mt_sq := snd (fst demo_macked) |> <| mt_pool := snd demo_macked |>.

Lemma demo_mrun_m1 : rtc mcast_transfer_step demo_m0 demo_m1.
Proof.
  eapply rtc_l.
  { eapply (mstep_send demo_m0 [mkBuffer 1000 5] _ _ (snd (fst demo_mpush)) (snd demo_mpush)).
    - repeat constructor; vm_compute; intuition congruence.
    - vm_compute. reflexivity.
    - repeat constructor; vm_compute; congruence.
    - repeat constructor; apply lengths_agree_nil_r.
    - vm_compute. reflexivity. }
  assert (Hpost : forall t i, mt_replicas t !! i = Some demo_replica ->
            mt_sent t = [mkBuffer 1000 5] -> mcast_transfer_step t (mt_set_replica t i demo_posted)).
  { intros t i Hi Hsent.
    refine (eq_ind _ _ (mstep_post t i demo_replica [mkBuffer 2000 5] 0 1 (snd demo_post)
      Hi _ _ _ _ _) _ _).
    - repeat constructor; vm_compute; intuition congruence.
    - vm_compute. reflexivity.
    - vm_compute. intros [|a] [|b] x y; intros [=] [=]; done.
    - rewrite Hsent. intros [|a] x y; cbn; intros Hb Hc; [|done]. vm_compute in Hc.
      injection Hb as <-. injection Hc as <-. done.
    - vm_compute. reflexivity.
    - reflexivity. }
  eapply rtc_l; [apply (Hpost _ 0%nat); vm_compute; reflexivity|].
  eapply rtc_step_eq; [apply (Hpost _ 1%nat); vm_compute; reflexivity|].
  vm_compute. reflexivity.
Qed.

Lemma demo_mrun_m2 : mcast_transfer_step demo_m1 demo_m2.
Proof.
  refine (eq_ind _ _ (mstep_transmit demo_m1 0 7 _ _ _ _ _ _ _ _ _) demo_m2 _).
  - vm_compute. intuition congruence.
  - vm_compute. intuition congruence.
  - vm_compute. reflexivity.
  - vm_compute. reflexivity.
  - vm_compute. reflexivity.
Qed.

(** One arrival at replica [i]. *)
Lemma demo_mdeliver t i r r' :
  mt_replicas t !! i = Some r -> demo_mdatagram ∈ mt_data t -> rp_posted r = [mkBuffer 2000 5] ->
  rq_tail (rp_rq r) + rq_wnd_size (rp_rq r) <= 0x1000000 ->
  (exists rq m, receive_mcast_datagram (rp_mem r) (rp_rq r) test_handle 8000 (replicate 40 0)
     demo_mdatagram = Ok (rq, m) /\
     r' = r <| rp_rq := rq |> <| rp_mem := m |> <| rp_received :=
           if rq_head (rp_rq r) =? rq_tail (rp_rq r) then rp_received r
           else match rx_hit (rp_rq r) (rp_received r) 0 with
                | Some k => {[k]} ∪ rp_received r
                | None => rp_received r
                end |>) ->
  mcast_transfer_step t (mt_set_replica t i r').
Proof.
  intros Hr Hd Hp Hw (rq & m & Hrun & ->).
  refine (mstep_deliver t i r demo_mdatagram test_handle 8000 (replicate 40 0) rq m Hr Hd _ _ _ _ Hrun);
    [done|done| |cbn; lia].
  intros b Hb%elem_of_drop_sub. rewrite Hp in Hb. assert (b = mkBuffer 2000 5) as -> by set_solver. right. done.
Qed.

(** The first replica has sent its acknowledgement. *)
Definition demo_ma : mcast_transfer := Eval vm_compute in
  demo_m2 <| mt_replicas := [demo_acking; demo_posted] |>.

Lemma demo_mrun_ma : rtc mcast_transfer_step demo_m0 demo_ma.
Proof.
  etrans; [apply demo_mrun_m1|]. eapply rtc_l; [apply demo_mrun_m2|]. eapply rtc_l.
  { apply (demo_mdeliver _ 0 demo_posted demo_got);
      [reflexivity|by apply elem_of_cons; left|reflexivity|done|].
    eexists _, _. split; vm_compute; reflexivity. }
  eapply rtc_l.
  { apply (demo_mdeliver _ 0 demo_got (demo_acking <| rp_acks := [] |>));
      [reflexivity|by apply elem_of_cons; left|reflexivity|done|].
    eexists _, _. split; vm_compute; reflexivity. }
  eapply rtc_step_eq; [by apply (mstep_send_ack _ 0 (demo_acking <| rp_acks := [] |>))|].
  vm_compute. reflexivity.
Qed.

Lemma demo_mrun_m3 : rtc mcast_transfer_step demo_ma demo_m3.
Proof.
  eapply rtc_l.
  { eapply (mstep_recv_ack _ 0 demo_acking 1 0 (snd (fst demo_macked)) (snd demo_macked)).
    - vm_compute. reflexivity.
    - apply elem_of_cons. by left.
    - vm_compute. reflexivity.
    - vm_compute. reflexivity. }
  eapply rtc_step_eq.
  { apply (demo_mdeliver _ 1 demo_posted demo_got);
      [reflexivity|by apply elem_of_cons; left|reflexivity|done|].
    eexists _, _. split; vm_compute; reflexivity. }
  vm_compute. reflexivity.
Qed.

Lemma demo_mrun : rtc mcast_transfer_step demo_m0 demo_m3.
Proof. etrans; [apply demo_mrun_ma|apply demo_mrun_m3]. Qed.

Lemma mcast_transfer_delivers_witness :
  ms_tail_list (mt_sq demo_m3) = [1; 0] /\ rq_tail (rp_rq demo_got) = 1 /\
  buffer_bytes (rp_mem demo_got) (mkBuffer 2000 5) = [72; 101; 108; 108; 111].
Proof.
  destruct (mcast_transfer_delivers demo_m0 demo_m3 1 demo_got demo_m0_init demo_mrun
    ltac:(vm_compute; reflexivity)) as (_ & Hby & _).
  split; [reflexivity|]. split; [reflexivity|].
  change ([buffer_bytes (rp_mem demo_got) (mkBuffer 2000 5)] = [[72; 101; 108; 108; 111]]) in Hby.
  exact (f_equal (fun l => List.nth 0 l []) Hby).
Defined.

Lemma mcast_transfer_never_aborts_witness : exists rq' m',
  receive_mcast_datagram (rp_mem demo_got) (rp_rq demo_got) test_handle 8000 (replicate 40 0)
    demo_mdatagram = Ok (rq', m').
Proof.
  apply (mcast_transfer_never_aborts demo_m0 demo_m3 1 demo_got demo_mdatagram test_handle 8000
           (replicate 40 0) demo_m0_init demo_mrun).
  - vm_compute. reflexivity.
  - by apply elem_of_cons; left.
  - done.
  - done.
  - vm_compute. congruence.
Defined.
