(* ===== verification/ContextParts.v ===== *)
(** * What the operations of a context touch

    Lemmas about the parts of the state of [Context]
    (src/protocols/rdma_unreliable/context.cpp) that its internal operations leave
    alone, and about the work requests that reach the NIC: each carries the gather
    list and the immediate data of a request of the list that was posted.  Hosts.v
    uses them to relate the methods of the context to the steps of a transfer. *)

From S2P Require Import Prelude MemoryRegions Text Mem Packet BufferPool SecondaryQueue.
From S2P Require Import SendQueue McastSendQueue ReceiveQueue PacketManager Tasks Congestion.
From S2P Require Import RequestCache Posting UdEndpoint Controller Context.

(** The names of the peers and the size of a packet, which never change here. *)
Definition names_of (c : Context) : gmap string Z * Z :=
  (ct_peer_name_map (cx_controller c), cx_mtu_size c).
#[global] Arguments names_of : simpl never.

(** Memory, queues and pool, and those. *)
Definition parts_of (c : Context) : mem * PacketManager * (gmap string Z * Z) :=
  (cx_mem c, cx_packet_manager c, names_of c).

(** Nothing of it changes, nor do the sessions, the timer and the tasks. *)
Definition same_parts (c c' : Context) : Prop :=
  parts_of c' = parts_of c /\ sessions_of c' = sessions_of c.

#[export] Instance same_parts_refl : Reflexive same_parts.
Proof. done. Qed.
#[export] Instance same_parts_trans : Transitive same_parts.
Proof. intros c1 c2 c3 [H1 H2] [H3 H4]. split; congruence. Qed.

Lemma same_parts_inv c c' :
  same_parts c c' ->
  cx_mem c' = cx_mem c /\ cx_packet_manager c' = cx_packet_manager c /\
  names_of c' = names_of c /\
  cx_active_session_map c' = cx_active_session_map c /\ cx_task_map c' = cx_task_map c.
Proof. unfold same_parts, parts_of, sessions_of, names_of. intros [[= ? ? ? ?] [= ? ? ?]].
  split_and!; congruence. Qed.

(** A work request made from request [r]. *)
Definition wr_of (r : Request) (w : ibv_wr) : Prop :=
  wr_sg_list w = Request_sges r /\ wr_imm_data w = req_imm_data r /\
  wr_with_imm w = negb (req_imm_data r =? 0).

(** Requests of the list [l], as the heap has them. *)
Definition from_requests (hp : heap) (l : list Z) (w : ibv_wr) : Prop :=
  exists p r, p ∈ l /\ hp !! p = Some r /\ wr_of r w.

(** A work request made from the request at [p]. *)
Definition from_request (hp : heap) (p : Z) (w : ibv_wr) : Prop :=
  exists r, hp !! p = Some r /\ wr_of r w.

Lemma deref_all_Forall2 hp ptrs : forall rs,
  deref_all hp ptrs = Ok rs -> Forall2 (fun p e => e.1 = p /\ hp !! p = Some e.2) ptrs rs.
Proof.
  induction ptrs as [|q ptrs IH]; cbn; intros rs H; [injection H as <-; constructor|].
  fold (deref_all hp ptrs) in H. destruct (deref_all hp ptrs) as [l|]; cbn in H; [|done].
  destruct (hp !! q) as [rq|] eqn:Hq; [|done]. injection H as <-. constructor; [done|by apply IH].
Qed.

(** The work requests that reach the NIC are those of the first requests, in order. *)
Lemma post_batch_in_order post make ref max depth hp l rc d' hp' posted err :
  (forall p r, wr_of r (make p r)) ->
  post_batch post make ref max depth hp l = Ok (rc, d', hp', posted, err) ->
  exists k, Forall2 (from_request hp) (take k l) posted.
Proof.
  intros Hmake H. unfold post_batch in H.
  destruct (_ =? 0); [injection H as <- <- <- <- <-; by exists 0%nat|].
  destruct (_ <? 0); [done|]. set (n := Z.to_nat _) in H.
  destruct (deref_all hp (take n l)) as [rs|] eqn:Hrs; [|done]. cbn [mbind outcome_bind] in H.
  assert (Hall : Forall2 (from_request hp) (take n l) ((fun '(p, r) => make p r) <$> rs)).
  { apply Forall2_fmap_r. eapply Forall2_impl; [by apply deref_all_Forall2|].
    intros p [p' r] [<- Hr]. by exists r. }
  destruct (post _) as [rc0 bad]. destruct (rc0 =? 0); injection H as <- <- <- <- <-; [by exists n|].
  exists (Nat.min bad n). rewrite <- take_take. by apply Forall2_take.
Qed.

Lemma in_order_from hp l k ws : Forall2 (from_request hp) (take k l) ws -> Forall (from_requests hp l) ws.
Proof.
  intros H. apply Forall_forall. intros w Hw. apply list_elem_of_lookup in Hw as [i Hi].
  destruct (Forall2_lookup_r _ _ _ _ _ H Hi) as (p & Hp & r & Hr & Hwr). exists p, r.
  split_and!; try done. apply list_elem_of_lookup. exists i. by apply lookup_take_Some in Hp as [? _].
Qed.

Section frame.
Variable ibv_post_send : Z -> list ibv_wr -> Z * nat.
Variable ibv_post_recv : Z -> list ibv_wr -> Z * nat.
Variable operator_new : heap -> Z.

Lemma new_request_parts c r ptr c' :
  Context_new_request operator_new c r = Ok (ptr, c') ->
  same_parts c c' /\ cx_posted_send c' = cx_posted_send c /\ cx_heap c' !! ptr = Some r /\
  (forall p, p <> ptr -> cx_heap c' !! p = cx_heap c !! p).
Proof.
  unfold Context_new_request, RequestCache_allocate. intros H. outcome_run; simplify_eq;
    (split; [done|]; split; [done|]; cbn; split; [apply lookup_insert_eq|]; intros p Hp;
     by rewrite !lookup_insert_ne by done).
Qed.

Lemma endpoint_parts c sid e c' :
  Context_endpoint c sid = (e, c') ->
  same_parts c c' /\ cx_posted_send c' = cx_posted_send c /\ cx_heap c' = cx_heap c.
Proof.
  unfold Context_endpoint, Controller_getOrCreateEndpoint.
  destruct (ct_peer_name_rev_map _ !! _) as [path|]; [|by intros [= <- <-]; destruct c].
  destruct (RdmaUDEndPointStore_getOrCreateEndpoint _ _) as [ok s]. by intros [= <- <-].
Qed.

Lemma ensure_endpoint_parts c sid e0 e c' :
  Context_ensure_endpoint c sid e0 = (e, c') ->
  same_parts c c' /\ cx_posted_send c' = cx_posted_send c /\ cx_heap c' = cx_heap c.
Proof. destruct e0; [by intros [= <- <-]|apply endpoint_parts]. Qed.

Lemma post_send_parts c path l ret c' :
  Context_post_send ibv_post_send c path l = Ok (ret, c') ->
  same_parts c c' /\ exists ws, cx_posted_send c' = cx_posted_send c ++ ws /\
    Forall (from_requests (cx_heap c) l) ws.
Proof.
  unfold Context_post_send, RdmaUDEndPoint_postSendRequest, RdmaUDEndPointStore_postSendRequest, post_requests.
  intros H. outcome_run; simplify_eq; (split; [done|]).
  - exists []. split; [done|constructor].
  - eexists. split; [done|]. edestruct post_batch_in_order as [k Hk]; [|eassumption|by eapply in_order_from]. done.
Qed.

Lemma submit_parts c raw ret c' :
  Context_submitNormalRecvWR ibv_post_recv operator_new c raw = Ok (ret, c') ->
  same_parts c c' /\ cx_posted_send c' = cx_posted_send c.
Proof.
  unfold Context_submitNormalRecvWR. intros H. outcome_run. simplify_eq.
  match goal with E : Context_new_request _ _ _ = _ |- _ =>
    apply new_request_parts in E as (Hp & Hs & _) end.
  split; [|done]. exact Hp.
Qed.
End frame.
