(* ===== verification/HostSend.v ===== *)
(** * Sending data from a context is a sequence of transfer steps

    [Context::sendDataPackets] (src/protocols/rdma_unreliable/context.cpp), for the
    session of one peer, against the step relation of Transfer.v: whatever the verbs
    return, whether an endpoint exists and wherever the loop ends, the packets it
    serializes are transmissions of window entries, the windows it sets on a
    retransmission are window steps, and every work request that reaches the NIC
    carries the bytes and the immediate data of one of those transmissions. *)

From S2P Require Import Prelude MemoryRegions Text Mem Packet BufferPool SecondaryQueue.
From S2P Require Import SendQueue McastSendQueue ReceiveQueue PacketManager Tasks Congestion.
From S2P Require Import RequestCache Posting UdEndpoint Controller Context Transfer ContextParts.

Definition sge_buffer (s : sge) : Buffer := mkBuffer (sge_addr s) (sge_length s).
(** What the NIC reads for a work request, and the immediate data it sends (none is
    received as 0). *)
Definition wr_bytes (m : mem) (w : ibv_wr) : list Z := gather m (sge_buffer <$> wr_sg_list w).
Definition wr_imm (w : ibv_wr) : Z := if wr_with_imm w then wr_imm_data w else 0.

Lemma wr_of_imm r w : wr_of r w -> wr_imm w = req_imm_data r.
Proof.
  intros (_ & Hi & Hw). unfold wr_imm. rewrite Hw, Hi.
  destruct (Z.eqb_spec (req_imm_data r) 0); cbn; lia.
Qed.

(** The sending side of [c] for session [sid] is that of [t]. *)
Definition send_view (c : Context) (sid : Z) (t : transfer) : Prop :=
  tr_smem t = cx_mem c /\ tr_pool t = cx_pool c /\
  pm_send_queue (cx_packet_manager c) !! sid = Some (tr_sq t).

(** ** Entries of the window *)
Lemma window_entry t out i :
  sender_inv t out -> sd_tail (tr_sq t) <= i < sd_head (tr_sq t) ->
  exists h b, SendQueue_getMutableEntry (tr_sq t) i = Ok h /\
    sd_handle (tr_sq t) !! Z.to_nat (i mod sd_queue_capacity (tr_sq t)) = Some h /\
    tr_sent t !! Z.to_nat i = Some b /\ slot_ok (sd_session (tr_sq t)) i b h /\
    ph_packet_buf h ∈ out /\ buf_addr b <> 0 /\ 0 < buf_length b < 0x100000000 /\
    outside_pool (tr_pool t) b.
Proof.
  intros Hs Hi. pose proof (si_rep _ _ Hs) as Hrep. pose proof (sdr_cap _ _ _ Hrep).
  destruct (sdr_slots _ _ _ Hrep i Hi) as (h & b & Hh & Hb & Hok). exists h, b.
  pose proof (sqb_fsize _ _ _ (sdr_backlog _ _ _ Hrep)) as Hfs.
  destruct (Forall_lookup_1 _ _ _ _ (sqb_frags _ _ _ (sdr_backlog _ _ _ Hrep)) Hb) as (Hba & Hbl & Hbu).
  split_and!; try done; try lia.
  - unfold SendQueue_getMutableEntry. rewrite (proj2 (Z.eqb_neq _ 0)) by lia. by apply vec_at_Some.
  - apply (proj1 (sdr_own _ _ _ Hrep) _ h Hh). apply Hok.
  - by apply (Forall_lookup_1 _ _ _ _ (si_outside _ _ Hs) Hb).
Qed.

Lemma gather_agree m m' l :
  Forall (fun b => 0 <= buf_length b /\ agree_on (buf_addr b) (buf_addr b + buf_length b) m m') l ->
  gather m l = gather m' l.
Proof.
  unfold gather. induction 1 as [|b l [Hl Hb] _ IH]; cbn; [done|]. rewrite IH. f_equal.
  apply ld_bytes_agree. by rewrite Z2Nat.id.
Qed.

(** Transmitting entry [i] touches neither the slot nor the bytes of entry [j]. *)
Lemma transmit_other t out i j now h hj h' :
  sender_inv t out ->
  sd_tail (tr_sq t) <= i < sd_head (tr_sq t) -> sd_tail (tr_sq t) <= j < sd_head (tr_sq t) -> i <> j ->
  SendQueue_getMutableEntry (tr_sq t) i = Ok h -> SendQueue_getMutableEntry (tr_sq t) j = Ok hj ->
  SendQueue_getMutableEntry (SendQueue_setEntry (tr_sq t) i h') j = Ok hj /\
  gather (snd (PacketHandle_encode (h <| ph_ts := now |>) (tr_smem t))) (PacketHandle_slices hj)
    = gather (tr_smem t) (PacketHandle_slices hj).
Proof.
  intros Hs Hi Hj Hne Hhi Hhj. pose proof (si_rep _ _ Hs) as Hrep.
  pose proof (sdr_cap _ _ _ Hrep) as Hcap. pose proof (sdr_ring _ _ _ Hrep) as Hring.
  destruct (window_entry t out i Hs Hi) as (h0 & b & Hh0 & Hsi & Hb & Hoki & Hini & _).
  destruct (window_entry t out j Hs Hj) as (h1 & bj & Hh1 & Hsj & Hbj & Hokj & Hinj & Hpos & Hlen & Hout).
  rewrite Hhi in Hh0. injection Hh0 as <-. rewrite Hhj in Hh1. injection Hh1 as <-.
  assert (Hslot : Z.to_nat (i mod sd_queue_capacity (tr_sq t)) <> Z.to_nat (j mod sd_queue_capacity (tr_sq t)))
    by (apply ring_slot_neq; lia).
  split.
  { unfold SendQueue_getMutableEntry in *. cbn. rewrite (proj2 (Z.eqb_neq _ 0)) in * by lia.
    apply vec_at_Some. by rewrite list_lookup_insert_ne. }
  assert (Hbufs : ph_packet_buf h <> ph_packet_buf hj).
  { apply (proj2 (sdr_own _ _ _ Hrep) _ _ _ _ Hsi Hsj Hslot). apply Hoki. }
  destruct Hoki as (Hnz & _ & Hcp & _). destruct Hokj as (_ & _ & _ & _ & _ & _ & Hda & Hdl & _).
  rewrite PacketHandle_encode_eq by done. cbn [snd].
  change (ph_compacted (h <| ph_ts := now |>)) with (ph_compacted h). rewrite Hcp.
  destruct (si_pool _ _ Hs) as (fl & _ & HP & Hok).
  assert (Hini' : ph_packet_buf h ∈ pool_blocks (bp_arena (tr_pool t)) (bp_mtu_size (tr_pool t))
                    (Z.to_nat (bp_max_packets (tr_pool t)))) by (rewrite <- HP; set_solver).
  assert (Hinj' : ph_packet_buf hj ∈ pool_blocks (bp_arena (tr_pool t)) (bp_mtu_size (tr_pool t))
                    (Z.to_nat (bp_max_packets (tr_pool t)))) by (rewrite <- HP; set_solver).
  pose proof (pool_blocks_apart _ _ _ _ _ Hok Hini' Hinj' Hbufs) as Hap.
  pose proof (pool_out_range _ _ _ _ (si_pool _ _ Hs) Hini (si_max _ _ Hs)) as Hrg.
  destruct Hok as (_ & Hmtu & _). unfold outside_pool, apart, sizeof_PktHdr in *.
  apply gather_agree. unfold PacketHandle_slices. rewrite Hda, Hdl, (proj2 (Z.eqb_neq _ 0)) by lia.
  repeat constructor; cbn [buf_addr buf_length]; try (unfold sizeof_PktHdr; lia);
    apply agree_PktHdr_store; cbn; unfold sizeof_PktHdr; lia.
Qed.

(** Serializing an entry always succeeds. *)
Lemma serialize_entry t out i now h :
  sender_inv t out -> sd_tail (tr_sq t) <= i < sd_head (tr_sq t) ->
  SendQueue_getMutableEntry (tr_sq t) i = Ok h ->
  exists s0 s1 imm h', PacketHandle_serialize_array (h <| ph_ts := now |>) (tr_smem t)
      = (Some (s0, s1, imm), h', snd (PacketHandle_encode (h <| ph_ts := now |>) (tr_smem t))) /\
    PacketHandle_slices h' = [s0; s1] /\ buf_addr s0 <> 0 /\ buf_addr s1 <> 0 /\
    u32 (buf_length s0) = buf_length s0 /\ u32 (buf_length s1) = buf_length s1.
Proof.
  intros Hs Hi Hent. destruct (window_entry t out i Hs Hi) as (h0 & b & Hh0 & _ & _ & Hok & _ & Hpos & Hlen & _).
  rewrite Hent in Hh0. injection Hh0 as <-. destruct Hok as (Hnz & Hg & _ & _ & _ & _ & Hda & Hdl & _).
  unfold PacketHandle_serialize_array.
  change (ph_packet_buf (h <| ph_ts := now |>)) with (ph_packet_buf h).
  change (ph_with_grh (h <| ph_ts := now |>)) with (ph_with_grh h). rewrite Hg.
  rewrite (proj2 (Z.eqb_neq _ 0)), PacketHandle_encode_eq by done. cbn.
  rewrite Hda, (proj2 (Z.eqb_neq _ 0)), Hdl by lia. eexists _, _, _, _. split; [reflexivity|].
  unfold PacketHandle_slices. cbn. rewrite (proj2 (Z.eqb_neq _ 0)) by lia.
  split; [done|]. cbn. unfold sizeof_PktHdr. split_and!; try lia; try word_lia.
Qed.

(** ** The loop over the window *)

(** The gather list [l] with immediate data [imm] is the one of entry [j], whose
    transmission is among [ds]. *)
Definition carried_by (t : transfer) (j : Z) (ds : list datagram) (l : list sge) (imm : Z) : Prop :=
  exists h d, SendQueue_getMutableEntry (tr_sq t) j = Ok h /\
    sge_buffer <$> l = PacketHandle_slices h /\ d ∈ ds /\ dg_index d = j /\ dg_imm d = imm /\
    dg_bytes d = gather (tr_smem t) (PacketHandle_slices h).

(** ... of some entry below [curr]. *)
Definition carried (t : transfer) (curr : Z) (ds : list datagram) (l : list sge) (imm : Z) : Prop :=
  exists j, sd_tail (tr_sq t) <= j < curr /\ carried_by t j ds l imm.

(** Transmitting entry [curr] as datagram [d]: what was carried still is, and so is
    the gather list of [d]. *)
Lemma carried_transmit t out curr now h h' d ds t' :
  sender_inv t out -> sd_tail (tr_sq t) <= curr < sd_head (tr_sq t) ->
  SendQueue_getMutableEntry (tr_sq t) curr = Ok h ->
  tr_smem t' = snd (PacketHandle_encode (h <| ph_ts := now |>) (tr_smem t)) ->
  sd_tail (tr_sq t') = sd_tail (tr_sq t) ->
  (forall j, SendQueue_getMutableEntry (tr_sq t') j
     = SendQueue_getMutableEntry (SendQueue_setEntry (tr_sq t) curr h') j) ->
  dg_index d = curr -> dg_bytes d = gather (tr_smem t') (PacketHandle_slices h') ->
  (forall j l im, sd_tail (tr_sq t) <= j < curr -> carried_by t j ds l im -> carried_by t' j (d :: ds) l im) /\
  (forall l, sge_buffer <$> l = PacketHandle_slices h' -> carried_by t' curr (d :: ds) l (dg_imm d)).
Proof.
  intros Hs Hi Hent Hmem Htl Hget Hidx Hby. split.
  - intros j l im Hj (hj & e & Hhj & Hl & He & Hidxe & Him & Hbye). exists hj, e.
    destruct (transmit_other t out curr j now h hj h' Hs Hi ltac:(lia) ltac:(lia) Hent Hhj) as [Hg Hga].
    rewrite Hget, Hmem. split_and!; try done; [apply elem_of_cons; by right|].
    rewrite Hbye. symmetry. exact Hga.
  - intros l Hl. exists h', d. rewrite Hget. split_and!; try done; [|apply elem_of_cons; by left].
    destruct (window_entry t out curr Hs Hi) as (h0 & b & _ & Hslot & _).
    pose proof (sdr_cap _ _ _ (si_rep _ _ Hs)).
    unfold SendQueue_getMutableEntry. cbn. rewrite (proj2 (Z.eqb_neq _ 0)) by lia.
    apply vec_at_Some, list_lookup_insert_eq. by eapply lookup_lt_Some.
Qed.

(** Everything of a transfer but the sender's memory, its queue and the datagrams. *)
Definition only_sends (t t' : transfer) : Prop :=
  t' = t <| tr_smem := tr_smem t' |> <| tr_sq := tr_sq t' |> <| tr_data := tr_data t' |> /\
  sd_head (tr_sq t') = sd_head (tr_sq t) /\ sd_tail (tr_sq t') = sd_tail (tr_sq t) /\
  sd_queue_capacity (tr_sq t') = sd_queue_capacity (tr_sq t).

Lemma only_sends_set t0 t m q ds :
  t = t0 <| tr_smem := tr_smem t |> <| tr_sq := tr_sq t |> <| tr_data := tr_data t |> ->
  t <| tr_smem := m |> <| tr_sq := q |> <| tr_data := ds |>
    = t0 <| tr_smem := m |> <| tr_sq := q |> <| tr_data := ds |>.
Proof. intros H. by rewrite H. Qed.

Lemma rtc_library_inv t t' : rtc library_step t t' -> transfer_inv t -> transfer_inv t'.
Proof. induction 1; eauto using library_step_inv. Qed.

Section loop.
Variable ibv_post_send : Z -> list ibv_wr -> Z * nat.
Variable operator_new : heap -> Z.
Variables sid now W : Z.
Variable t0 : transfer.
Variable c0 : Context.
Hypothesis t0_inv : transfer_inv t0.
Hypothesis now_u64 : is_u64 now.
Hypothesis window_room : 4 <= W < sd_queue_capacity (tr_sq t0).

(** After the entries below [curr]: the context is that of [t], which is reached by
    library steps that transmitted [ds]; what was posted and what is still to be
    posted is carried by [ds]. *)
Record sending (curr : Z) (st : send_loop) (t : transfer) (ds : list datagram) (ws : list ibv_wr)
  : Prop := {
  sg_inv : transfer_inv t;
  sg_steps : rtc library_step t0 t;
  sg_view : send_view (sl_context st) sid t;
  sg_only : only_sends t0 t;
  sg_data : tr_data t = ds ++ tr_data t0;
  sg_manager : exists sq, cx_packet_manager (sl_context st)
    = (cx_packet_manager c0) <| pm_send_queue := sq |>;
  sg_names : names_of (sl_context st) = names_of c0;
  sg_posted : cx_posted_send (sl_context st) = cx_posted_send c0 ++ ws;
  sg_ws : Forall (fun w => carried t curr ds (wr_sg_list w) (wr_imm w)) ws;
  sg_requests : Forall (fun p => exists r, cx_heap (sl_context st) !! p = Some r /\
    carried t curr ds (Request_sges r) (req_imm_data r)) (sl_request_list st);
  sg_window : 0 <= cw_cwnd (si_wnd (sl_session st)) <= W
}.

Lemma carried_le t curr curr' ds l imm :
  curr <= curr' -> carried t curr ds l imm -> carried t curr' ds l imm.
Proof. intros Hc (j & Hj & H). exists j. split; [lia|done]. Qed.

Lemma sending_le curr curr' st t ds ws :
  curr <= curr' -> sending curr st t ds ws -> sending curr' st t ds ws.
Proof.
  intros Hc [? ? ? ? ? ? ? ? Hws Hrq ?]. constructor; try done.
  - eapply Forall_impl; [exact Hws|]. intros w. by apply carried_le.
  - eapply Forall_impl; [exact Hrq|]. intros p (r & Hr & H). exists r. split; [done|]. by eapply carried_le.
Qed.

(** Posting the collected requests. *)
Lemma flush_sim curr st t ds ws st' :
  sending curr st t ds ws -> Context_flush ibv_post_send st = Ok st' ->
  exists ws', sending curr st' t ds ws'.
Proof.
  intros Hs H. unfold Context_flush in H.
  destruct (sl_request_list st) as [|p l] eqn:Hl; [injection H as <-; by exists ws|].
  rewrite <- Hl in H. destruct Hs as [? ? Hv ? ? Hm Hn Hp Hws Hrq Hw].
  assert (Hcar : forall w, from_requests (cx_heap (sl_context st)) (sl_request_list st) w ->
            carried t curr ds (wr_sg_list w) (wr_imm w)).
  { intros w (q & r & Hq & Hr & Hwr). rewrite Forall_forall in Hrq.
    destruct (Hrq q Hq) as (r' & Hr' & Hc). rewrite Hr in Hr'. injection Hr' as <-.
    rewrite (wr_of_imm r w Hwr). destruct Hwr as (-> & _). done. }
  outcome_run; subst st';
    match goal with E : Context_post_send _ _ _ _ = Ok (_, ?c) |- _ =>
      apply post_send_parts in E as [Hsame (new & Hnew & Hfrom)];
      apply same_parts_inv in Hsame as (Hmem & Hpm & Hnm & _) end;
    (exists (ws ++ new); constructor; cbn; try done;
      [destruct Hv as (Hv1 & Hv2 & Hv3); unfold send_view, cx_pool; cbn; by rewrite Hmem, Hpm
      |by rewrite Hpm|rewrite <- Hn; exact Hnm|by rewrite Hnew, Hp, app_assoc
      |apply Forall_app; split; [done|]; eapply Forall_impl; [exact Hfrom|done]]).
Qed.

(** The body of the loop. *)
Lemma transmit_sim curr st t ds ws h s0 s1 imm h' w :
  sending curr st t ds ws -> sd_tail (tr_sq t0) <= curr < sd_head (tr_sq t0) ->
  0 <= w <= W ->
  SendQueue_getMutableEntry (tr_sq t) curr = Ok h ->
  let m' := snd (PacketHandle_encode (h <| ph_ts := now |>) (tr_smem t)) in
  PacketHandle_serialize_array (h <| ph_ts := now |>) (tr_smem t) = (Some (s0, s1, imm), h', m') ->
  PacketHandle_slices h' = [s0; s1] ->
  let d := mkDatagram curr imm (gather m' [s0; s1]) in
  forall sq, sq = tr_sq t \/ sq = SendQueue_setWndSize (tr_sq t) w ->
  let t' := t <| tr_smem := m' |> <| tr_sq := SendQueue_setEntry sq curr h' |>
              <| tr_data := d :: tr_data t |> in
  rtc library_step t t' /\ transfer_inv t' /\ only_sends t0 t' /\
  (forall l im, carried t curr ds l im -> carried t' (curr + 1) (d :: ds) l im) /\
  (forall l, sge_buffer <$> l = [s0; s1] -> carried t' (curr + 1) (d :: ds) l imm).
Proof.
  intros Hs Hi Hw Hent m' Hser Hsl d sq Hsq t'.
  pose proof (sg_only _ _ _ _ _ Hs) as (Honly & Hhd & Htl & Hcap).
  pose proof (sg_inv _ _ _ _ _ Hs) as Hinv. pose proof Hinv as ([out Hsi] & _).
  assert (Hrange : sd_tail (tr_sq t) <= curr < sd_head (tr_sq t)) by lia.
  set (t1 := t <| tr_sq := sq |>).
  assert (H1 : rtc library_step t t1).
  { unfold t1. destruct Hsq as [->| ->]; [by destruct t|]. apply rtc_once, step_window.
    unfold only_sends in *. word_lia. }
  assert (Hsqf : sd_head sq = sd_head (tr_sq t) /\ sd_tail sq = sd_tail (tr_sq t) /\
            sd_queue_capacity sq = sd_queue_capacity (tr_sq t) /\ sd_handle sq = sd_handle (tr_sq t))
    by (destruct Hsq as [->| ->]; done).
  destruct Hsqf as (Hs1 & Hs2 & Hs3 & Hs4).
  assert (Hget : forall j, SendQueue_getMutableEntry sq j = SendQueue_getMutableEntry (tr_sq t) j)
    by (intros j; unfold SendQueue_getMutableEntry; by rewrite Hs3, Hs4).
  assert (H2 : library_step t1 t').
  { refine (step_transmit t1 curr now h s0 s1 imm h' m' _ _ _ _); cbn; try done; [lia|by rewrite Hget]. }
  assert (Hset : forall j, SendQueue_getMutableEntry (SendQueue_setEntry sq curr h') j
            = SendQueue_getMutableEntry (SendQueue_setEntry (tr_sq t) curr h') j).
  { intros j. unfold SendQueue_getMutableEntry. cbn. by rewrite Hs3, Hs4. }
  split; [by eapply rtc_r|]. split.
  { eapply library_step_inv; [exact H2|]. eapply rtc_library_inv; [exact H1|done]. }
  split. { split; [by apply only_sends_set|cbn; lia]. }
  pose proof (carried_transmit t out curr now h h' d ds t' Hsi Hrange Hent eq_refl Hs2 Hset eq_refl) as Hcar.
  rewrite Hsl in Hcar. destruct (Hcar eq_refl) as [Hold Hnew]. unfold carried. cbn. rewrite Hs2. split.
  - intros l im (j & Hj & Hc). exists j. split; [lia|by apply Hold].
  - intros l Hl. exists curr. split; [lia|by apply Hnew].
Qed.

Lemma request_sges_slices s0 s1 k0 k1 imm ctx :
  buf_addr s0 <> 0 -> buf_addr s1 <> 0 ->
  u32 (buf_length s0) = buf_length s0 -> u32 (buf_length s1) = buf_length s1 ->
  sge_buffer <$> Request_sges (mkRequest (buf_addr s0) (buf_addr s1) (buf_length s0) (buf_length s1)
    k0 k1 imm None UNKNOWN ctx) = [s0; s1].
Proof.
  intros H0 H1 L0 L1. unfold Request_sges. cbn.
  rewrite !(proj2 (Z.eqb_neq _ 0)) by done. cbn. rewrite L0, L1. by destruct s0, s1.
Qed.

Lemma resend_window mtu w : 0 <= cw_cwnd w <= W -> 0 <= cw_cwnd (wndOnResend mtu w) <= W.
Proof using window_room.
  clear -window_room. intros Hw. unfold wndOnResend, kMinSSThreshValue, kResendValue. cbn.
  assert (0 <= cw_cwnd w / 2 <= W - 2).
  { split; [apply Z.div_pos; lia|]. pose proof (Z.div_le_mono (cw_cwnd w) W 2 ltac:(lia) ltac:(lia)).
    pose proof (Z.mul_div_le W 2 ltac:(lia)). lia. }
  pose proof (u32_range (Z.max 2 (cw_cwnd w / 2) + 2)).
  unfold is_u32 in *. word_lia.
Qed.

(** One more request, at [ptr]: entry [curr] was transmitted as [d]. *)
Lemma sending_add curr st t ds ws d r ptr c3 sess ep t' :
  sending curr st t ds ws -> rtc library_step t t' -> transfer_inv t' -> only_sends t0 t' ->
  tr_data t' = d :: tr_data t -> send_view c3 sid t' ->
  (exists sq, cx_packet_manager c3 = (cx_packet_manager (sl_context st)) <| pm_send_queue := sq |>) ->
  names_of c3 = names_of (sl_context st) -> cx_posted_send c3 = cx_posted_send (sl_context st) ->
  0 <= cw_cwnd (si_wnd sess) <= W -> cx_heap c3 !! ptr = Some r ->
  (forall p, p <> ptr -> cx_heap c3 !! p = cx_heap (sl_context st) !! p) ->
  (forall l im, carried t curr ds l im -> carried t' (curr + 1) (d :: ds) l im) ->
  carried t' (curr + 1) (d :: ds) (Request_sges r) (req_imm_data r) ->
  sending (curr + 1) (mkSendLoop c3 sess (sl_request_list st ++ [ptr]) ep) t' (d :: ds) ws.
Proof.
  intros [? Hst ? ? Hda [sq0 Hm] Hn Hp Hws Hrq ?] Hsteps Hinv' Hon' Hda' Hv' [sq Hpm] Hnm Hpost Hw Hptr Hheap
    Hold Hnew.
  constructor; cbn [sl_context sl_session sl_request_list]; try done.
  - by etrans.
  - by rewrite Hda', Hda.
  - rewrite Hpm, Hm. by eexists.
  - by rewrite Hnm.
  - by rewrite Hpost.
  - eapply Forall_impl; [exact Hws|]. intros w Hc. by apply Hold.
  - apply Forall_app. split; [|apply Forall_singleton; by exists r].
    eapply Forall_impl; [exact Hrq|]. intros p (r1 & Hr1 & Hc).
    destruct (decide (p = ptr)) as [->|Hne]; [by exists r|].
    exists r1. rewrite Hheap by done. split; [exact Hr1|]. by apply Hold.
Qed.

Lemma send_packet_sim curr st t ds ws e st' :
  sending curr st t ds ws -> sd_tail (tr_sq t0) <= curr < sd_head (tr_sq t0) ->
  Context_send_packet ibv_post_send operator_new now sid sid curr st = Ok (e, st') ->
  exists t' ds' ws', sending (curr + 1) st' t' ds' ws'.
Proof.
  intros Hs Hi H. pose proof Hs as [Hinv Hst Hv Hon Hda Hm Hn Hp Hws Hrq Hw].
  pose proof Hinv as ([out Hsi] & _). pose proof Hv as (Hv1 & Hv2 & Hv3).
  pose proof Hon as (_ & Hhd & Htl & _).
  unfold Context_send_packet in H. unfold cx_send_queue in H. rewrite Hv3 in H.
  cbn [deref mbind outcome_bind] in H.
  destruct (SendQueue_getMutableEntry (tr_sq t) curr) as [h|] eqn:Hent; [|done].
  cbn [mbind outcome_bind] in H. destruct (_ <? _).
  { injection H as <- <-. exists t, ds, ws. by apply (sending_le curr); [lia|]. }
  destruct (serialize_entry t out curr now h Hsi ltac:(lia) Hent)
    as (s0 & s1 & imm & h' & Hser & Hsl & Ha0 & Ha1 & Hl0 & Hl1).
  rewrite <- Hv1, Hser in H. set (m' := snd (PacketHandle_encode _ _)) in *.
  set (sess := if negb (ph_ts h =? 0) then _ else sl_session st) in H.
  set (sq := if negb (ph_ts h =? 0) then SendQueue_setWndSize _ _ else tr_sq t) in H.
  assert (Hsess : 0 <= cw_cwnd (si_wnd sess) <= W).
  { unfold sess. destruct (negb _); [exact (resend_window (cx_mtu_size (sl_context st)) _ Hw)|done]. }
  assert (Hsq : sq = tr_sq t \/ sq = SendQueue_setWndSize (tr_sq t) (cw_cwnd (si_wnd sess)))
    by (unfold sq; destruct (negb _); eauto).
  destruct (transmit_sim curr st t ds ws h s0 s1 imm h' _ Hs Hi Hsess Hent Hser Hsl sq Hsq)
    as (Hsteps & Hinv' & Hon' & Hold & Hnew). fold m' in Hsteps, Hinv', Hon', Hold, Hnew.
  set (d := mkDatagram curr imm _) in *. set (t' := _ <| tr_data := _ |>) in *.
  set (c1 := _ <| cx_mem := m' |>) in H.
  destruct (Context_new_request operator_new c1 _) as [[ptr c2]|] eqn:Hreq; [|done].
  cbn [mbind outcome_bind] in H. destruct (Context_ensure_endpoint c2 sid _) as [ep c3] eqn:Hep.
  apply new_request_parts in Hreq as (Hsame2 & Hpost2 & Hptr & Hheap).
  apply ensure_endpoint_parts in Hep as (Hsame3 & Hpost3 & Hheap3).
  pose proof (same_parts_inv _ _ (transitivity Hsame2 Hsame3)) as (Hmem & Hpm & Hnm & _ & _).
  assert (Hgoal : forall ep', sending (curr + 1)
            (mkSendLoop c3 (sess <| si_last_send_ts := now |>) (sl_request_list st ++ [ptr]) ep') t' (d :: ds) ws).
  { intros ep'. eapply (sending_add curr st t ds ws d _ ptr c3); try done.
    - split_and!; rewrite ?Hmem; unfold cx_pool; rewrite ?Hpm; try done. cbn. by rewrite lookup_insert_eq.
    - rewrite Hpm. by eexists.
    - by rewrite Hpost3, Hpost2.
    - rewrite Hheap3. exact Hptr.
    - intros p Hne. by rewrite Hheap3, Hheap.
    - apply Hnew. by apply request_sges_slices. }
  destruct ep as [path|].
  - destruct (Nat.eqb _ _).
    + destruct (Context_flush _ _) as [st2|] eqn:Hfl; [|done]. injection H as <- <-.
      destruct (flush_sim _ _ _ _ _ _ (Hgoal (Some path)) Hfl) as [ws' Hs']. by eexists _, _, _.
    + injection H as <- <-. eexists _, _, _. apply Hgoal.
  - injection H as <- <-. exists t', (d :: ds), ws.
    destruct (Hgoal None) as [? ? ? ? ? ? ? ? ? Hr ?]. constructor; try done. cbn in *.
    apply Forall_app in Hr as [Hr _]. exact Hr.
Qed.

Lemma packet_loop_sim n : forall curr st t ds ws r st',
  sending curr st t ds ws -> sd_tail (tr_sq t0) <= curr -> curr + Z.of_nat n <= sd_head (tr_sq t0) ->
  Context_packet_loop ibv_post_send operator_new n now sid sid curr st = Ok (r, st') ->
  exists curr' t' ds' ws', sending curr' st' t' ds' ws'.
Proof.
  pose proof t0_inv as ([out Hsi] & _). pose proof (sdr_order _ _ _ (si_rep _ _ Hsi)) as Ho.
  pose proof (sqb_bound _ _ _ (sdr_backlog _ _ _ (si_rep _ _ Hsi))) as Hb.
  pose proof (sqb_total _ _ _ (sdr_backlog _ _ _ (si_rep _ _ Hsi))) as Htot.
  induction n as [|n IH]; intros curr st t ds ws r st' Hs Hlo Hhi Hrun; cbn [Context_packet_loop] in Hrun.
  { injection Hrun as <- <-. by eexists _, _, _, _. }
  destruct (Context_send_packet _ _ _ _ _ _ _) as [[e st1]|] eqn:Hp; [|done].
  cbn [mbind outcome_bind] in Hrun.
  destruct (send_packet_sim _ _ _ _ _ _ _ Hs ltac:(lia) Hp) as (t1 & ds1 & ws1 & Hs1).
  destruct e; [|injection Hrun as <- <-; by eexists _, _, _, _..].
  rewrite u64_small in Hrun by (word_unfold; lia). eapply (IH _ _ _ _ _ _ _ Hs1); [lia|lia|exact Hrun].
Qed.

(** What one session's turn of [sendDataPackets] does. *)
Record sent_by (c' : Context) (t' : transfer) (ds : list datagram) (ws : list ibv_wr) : Prop := {
  sb_inv : transfer_inv t';
  sb_steps : rtc library_step t0 t';
  sb_view : send_view c' sid t';
  sb_only : only_sends t0 t';
  sb_data : tr_data t' = ds ++ tr_data t0;
  sb_manager : exists sq, cx_packet_manager c' = (cx_packet_manager c0) <| pm_send_queue := sq |>;
  sb_names : names_of c' = names_of c0;
  sb_sessions : sessions_of c' = sessions_of c0;
  sb_posted : cx_posted_send c' = cx_posted_send c0 ++ ws;
  sb_carried : Forall (fun w => exists d, d ∈ ds /\ sd_tail (tr_sq t0) <= dg_index d /\
    wr_imm w = dg_imm d /\ wr_bytes (cx_mem c') w = dg_bytes d) ws
}.

Lemma sending_sent curr st t ds ws :
  sending curr st t ds ws -> sessions_of (sl_context st) = sessions_of c0 ->
  sent_by (sl_context st) t ds ws.
Proof.
  intros [? ? Hv Hon ? ? ? ? Hws ? ?] Hse. constructor; try done.
  eapply Forall_impl; [exact Hws|]. intros w (j & Hj & h & d & _ & Hsl & Hd & Hidx & Him & Hby).
  exists d. destruct Hon as (_ & _ & Htl & _). split_and!; try done; [lia|].
  unfold wr_bytes. rewrite Hsl, Hby. by destruct Hv as (-> & _).
Qed.

Lemma send_session_sim info r c' :
  send_view c0 sid t0 -> cx_active_session_map c0 !! sid = Some info ->
  si_send_queue info = Some sid -> 0 <= cw_cwnd (si_wnd info) <= W ->
  Context_send_session ibv_post_send operator_new c0 now sid = Ok (r, c') ->
  exists t' ds ws, sent_by c' t' ds ws.
Proof.
  intros Hv Hinfo Hqid Hw H. pose proof (send_session_sessions _ _ _ _ _ _ _ H) as Hse.
  assert (Hs0 : sending (sd_tail (tr_sq t0)) (mkSendLoop c0 info [] None) t0 [] []).
  { constructor; try done; cbn.
    - split; [by destruct t0|done].
    - exists (pm_send_queue (cx_packet_manager c0)). by destruct (cx_packet_manager c0).
    - by rewrite app_nil_r. }
  unfold Context_send_session in H. rewrite Hinfo in H. cbn [deref mbind outcome_bind] in H.
  destruct (_ <? _); [injection H as <- <-; exists t0, [], []; exact (sending_sent _ _ _ _ _ Hs0 Hse)|].
  rewrite Hqid in H. cbn [deref mbind outcome_bind] in H. unfold cx_send_queue in H.
  rewrite (proj2 (proj2 Hv)) in H. cbn [deref mbind outcome_bind SendQueue_getIndexRange] in H.
  destruct (Context_packet_loop _ _ _ _ _ _ _ _) as [[ret st]|] eqn:Hloop; [|done].
  cbn [mbind outcome_bind] in H.
  pose proof t0_inv as ([out Hsi] & _). pose proof (sdr_order _ _ _ (si_rep _ _ Hsi)) as Ho.
  set (n := Z.to_nat _) in Hloop. assert (Hn : sd_tail (tr_sq t0) + Z.of_nat n <= sd_head (tr_sq t0)) by lia.
  destruct (packet_loop_sim n _ _ _ _ _ _ _ Hs0 ltac:(lia) Hn Hloop) as (curr & t' & ds & ws & Hs).
  destruct ret as [rc|]; [injection H as <- <-; eexists _, _, _; by eapply sending_sent|].
  destruct (Context_flush _ _) as [st2|] eqn:Hfl; [|done]. injection H as <- <-.
  destruct (flush_sim _ _ _ _ _ _ Hs Hfl) as [ws' Hs']. eexists _, _, _. by eapply sending_sent.
Qed.
End loop.
