(* ===== verification/HostReceive.v ===== *)
(** * Receiving data in a context is a transfer step

    [Context::processReceivedPacket] for data packets and [Context::sendAckPackets]
    (src/protocols/rdma_unreliable/context.cpp), for the session of one peer, against
    the step relation of Transfer.v: a packet that the NIC put into a posted buffer
    is the delivery of a datagram, and an acknowledgement that reaches the NIC is the
    wire image of the receive queue's tail, with a window that is at most one more
    than that of the queue (or the minimum of 8). *)

From S2P Require Import Prelude MemoryRegions Text Mem Packet BufferPool SecondaryQueue.
From S2P Require Import SendQueue McastSendQueue ReceiveQueue PacketManager Tasks Congestion.
From S2P Require Import RequestCache Posting UdEndpoint Controller Context Transfer ContextParts.
From S2P Require Import HostSend.

(** ** The advertised window *)

(** No more than [wnd_size_ + 1] requests are posted. *)
Definition rq_near (q : ReceiveQueue) : Prop := u64 (rq_head q - rq_tail q) <= rq_wnd_size q + 1.

Lemma fill_near fuel : forall q rc q',
  ReceiveQueue_fill_loop fuel q = Ok (rc, q') -> rq_near q ->
  rq_near q' /\ rq_wnd_size q' = rq_wnd_size q /\ rq_last_packet_ts q' = rq_last_packet_ts q.
Proof.
  induction fuel as [|fuel IH]; intros q rc q' H Hn; cbn [ReceiveQueue_fill_loop] in H; [done|].
  destruct (_ && _) eqn:Hc; [|by injection H as <- <-].
  apply andb_prop in Hc as [_ Hroom]. destruct (SecondaryQueue_popFragment _) as [slice sq].
  destruct (ReceiveQueue_request _ _); [|done]. cbn [mbind outcome_bind] in H.
  apply IH in H; [done|]. unfold rq_near. cbn. word_lia.
Qed.

Lemma push_near q l rc sn q' :
  ReceiveQueue_push q l = Ok (rc, sn, q') -> rq_near q ->
  rq_near q' /\ rq_wnd_size q' = rq_wnd_size q /\ rq_last_packet_ts q' = rq_last_packet_ts q.
Proof.
  unfold ReceiveQueue_push. intros H Hn. destruct (SecondaryQueue_push _ _) as [[id sq]|]; [|done].
  cbn [mbind outcome_bind] in H. destruct (ReceiveQueue_fillPrimaryQueue _) as [[rc1 q1]|] eqn:Hf; [|done].
  injection H as <- <- <-. by apply fill_near in Hf.
Qed.

Lemma advance_near fuel : forall q q',
  ReceiveQueue_advance fuel q = Ok q' -> 0 <= rq_tail q <= rq_head q -> rq_head q < 0x10000000000000000 ->
  rq_head q' = rq_head q /\ rq_tail q <= rq_tail q' <= rq_head q /\
  rq_wnd_size q' = rq_wnd_size q /\ rq_last_packet_ts q' = rq_last_packet_ts q.
Proof.
  induction fuel as [|fuel IH]; intros q q' H Ho Hb; cbn [ReceiveQueue_advance] in H; [done|].
  destruct (Z.eqb_spec (rq_tail q) (rq_head q)) as [Heq|Hne]; [injection H as <-; split_and!; done || lia|].
  destruct (ReceiveQueue_request _ _) as [r|]; [|done]. cbn [mbind outcome_bind] in H.
  destruct (rr_inflight r); [injection H as <-; split_and!; done || lia|].
  assert (Hu : u64 (rq_tail q + 1) = rq_tail q + 1) by (apply u64_small; word_unfold; lia).
  apply IH in H; cbn in *; rewrite ?Hu in *; [|lia..]. destruct H as (-> & ? & -> & ->). split_and!; lia || done.
Qed.

Lemma mark_near q m h rc q' m' :
  ReceiveQueue_markCompleted q m h = Ok (rc, q', m') -> rq_near q ->
  0 <= rq_tail q <= rq_head q -> rq_head q < 0x10000000000000000 ->
  rq_near q' /\ rq_wnd_size q' = rq_wnd_size q /\
  (rq_last_packet_ts q' = rq_last_packet_ts q \/
   rq_last_packet_ts q' = Z.max (rq_last_packet_ts q) (ph_ts h)).
Proof.
  intros H Hn Ho Hb. unfold ReceiveQueue_markCompleted in H.
  destruct (ReceiveQueue_out_of_window _ _); [injection H as <- <- <-; by eauto|].
  destruct (ReceiveQueue_deliver q m h) as [[q1 m1]|] eqn:Hd; [|done]. cbn [mbind outcome_bind] in H.
  assert (Hq1 : rq_head q1 = rq_head q /\ rq_tail q1 = rq_tail q /\ rq_wnd_size q1 = rq_wnd_size q /\
            (rq_last_packet_ts q1 = rq_last_packet_ts q \/
             rq_last_packet_ts q1 = Z.max (rq_last_packet_ts q) (ph_ts h))).
  { unfold ReceiveQueue_deliver in Hd. destruct (ReceiveQueue_request _ _) as [r|]; [|done].
    cbn [mbind outcome_bind] in Hd. destruct (rr_inflight r); [|injection Hd as <- <-; eauto].
    destruct (negb _); [done|]. injection Hd as <- <-. cbn. eauto. }
  destruct Hq1 as (Hh1 & Ht1 & Hw1 & Hts1).
  destruct (ReceiveQueue_advance _ q1) as [q2|] eqn:Ha; [|done]. cbn [mbind outcome_bind] in H.
  apply advance_near in Ha as (Hh2 & Ht2 & Hw2 & Hts2); [|lia..].
  destruct (ReceiveQueue_fillPrimaryQueue q2) as [[rc3 q3]|] eqn:Hf; [|done]. injection H as <- <- <-.
  apply fill_near in Hf as (Hn3 & Hw3 & Hts3); [|unfold rq_near in *; rewrite Hh2, Hw2, Hh1, Hw1; word_lia].
  split; [done|]. rewrite Hw3, Hts3, Hts2, Hw2, Hw1. by split.
Qed.

(** ** Decoding what the NIC wrote *)

(** The handle [processReceivedPacket] decodes a packet in. *)
Definition rx_handle (buf : Z) : PacketHandle := mkPacketHandle 0 0 0 0 0 false false 0 true buf 0 0.

Lemma image_decoded h m0 bytes m buf grh :
  PacketHandle_wf h -> ph_packet_buf h <> 0 -> ph_with_grh h = false ->
  bytes = gather (snd (PacketHandle_encode h m0)) (PacketHandle_slices h) ->
  buf <> 0 -> length grh = Z.to_nat kGRHSize ->
  PacketHandle_deserialize (rx_handle buf) (st_bytes m buf (grh ++ bytes)) (PacketHandle_imm h)
    (kGRHSize + Z.of_nat (length bytes)) = (0, PacketHandle_received h (rx_handle buf)).
Proof.
  intros Hwf Hb Hg Hby Hbuf Hgrh.
  destruct (PacketHandle_deserialize_wire h (rx_handle buf) m0 (st_bytes m buf (grh ++ bytes)) bytes) as [Hd _];
    try done. apply ld_bytes_after_grh; [done|]. rewrite Hby. apply u8_gather.
Qed.

Section arrival.
Variable ibv_post_recv : Z -> list ibv_wr -> Z * nat.
Variable operator_new : heap -> Z.
Variable junk : PacketHandle.

(** One polled completion is processed on a state that differs in the depth
    counters only. *)
Lemma poll_one c now wc c' :
  Context_poll_loop ibv_post_recv operator_new junk c now [wc] = Ok c' ->
  exists s ret c1,
    Context_processReceivedPacket ibv_post_recv operator_new junk (cx_set_store c s) now wc = Ok (ret, c1) /\
    same_parts c1 c' /\ cx_posted_send c' = cx_posted_send c1.
Proof.
  cbn [Context_poll_loop]. intros H. outcome_run; simplify_eq.
  eexists _, _, _. split; [eassumption|]. done.
Qed.

(** How a received packet is dispatched. *)
Lemma process_received c now wc request h ret c1 :
  wc_opcode wc = IBV_WC_RECV -> cx_heap c !! wc_wr_id wc = Some request ->
  PacketHandle_deserialize (rx_handle (req_addr0 request)) (cx_mem c)
    (if wc_with_imm wc then wc_imm_data wc else 0) (wc_byte_len wc) = (0, h) ->
  Context_processReceivedPacket ibv_post_recv operator_new junk c now wc = Ok (ret, c1) ->
  exists c2, same_parts c2 c1 /\ cx_posted_send c1 = cx_posted_send c2 /\
    (c2 = c \/ exists session, is_Some (cx_active_session_map c !! session) /\
       if ph_cmd h =? PKT_CMD_DATA then Context_on_data c session h = Ok c2
       else if ph_cmd h =? PKT_CMD_ACK then Context_on_ack c now session h = Ok c2
       else c2 = c).
Proof.
  intros Hop Hreq Hdes H. unfold Context_processReceivedPacket in H. rewrite Hreq, Hop in H.
  cbn [deref mbind outcome_bind PacketHandle_setRawPacket negb Z.eqb] in H.
  change (mkPacketHandle 0 0 0 0 0 false false 0 true (req_addr0 request) 0 0)
    with (rx_handle (req_addr0 request)) in H.
  rewrite Hdes in H. cbn [negb Z.eqb] in H.
  destruct (Controller_findSession_addr _ _ _ _) as [session|]; [|done]. cbn [mbind outcome_bind] in H.
  destruct (if session <? 0 then Ok c else _) as [c2|] eqn:He in H; [|done].
  cbn [mbind outcome_bind] in H. apply submit_parts in H as [Hsame Hpost]. exists c2. split_and!; try done.
  destruct (session <? 0); [injection He as <-; by left|].
  destruct (cx_active_session_map c !! session) as [i|] eqn:Hi; [|done]. right. exists session.
  split; [by eexists|]. destruct (_ =? PKT_CMD_DATA); [done|]. destruct (_ =? PKT_CMD_ACK); [done|]. by injection He.
Qed.

(** Completions of sends change nothing but the mark that an acknowledgement is in
    flight. *)
Definition ack_idle (h : PacketHandle) : PacketHandle := h <| ph_inflight := false |>.

Lemma poll_sends wcs : forall c now c' sid info,
  Forall (fun wc => wc_opcode wc <> IBV_WC_RECV) wcs -> cx_active_session_map c = {[sid := info]} ->
  Context_poll_loop ibv_post_recv operator_new junk c now wcs = Ok c' ->
  parts_of c' = parts_of c /\ cx_posted_send c' = cx_posted_send c /\ cx_task_map c' = cx_task_map c /\
  (cx_active_session_map c' = {[sid := info]} \/
   cx_active_session_map c' = {[sid := info <| si_ack_handle := ack_idle (si_ack_handle info) |>]}).
Proof.
  induction wcs as [|wc wcs IH]; intros c now c' sid info Hall Hact H; cbn [Context_poll_loop] in H.
  { injection H as <-. by eauto. }
  apply Forall_cons in Hall as [Hop Hall]. outcome_run; simplify_eq.
  match goal with E : Context_processReceivedPacket _ _ _ _ _ _ = Ok (_, ?c1) |- _ =>
    assert (Hstep : parts_of c1 = parts_of c /\ cx_posted_send c1 = cx_posted_send c /\
      cx_task_map c1 = cx_task_map c /\ (cx_active_session_map c1 = {[sid := info]} \/
      cx_active_session_map c1 = {[sid := info <| si_ack_handle := ack_idle (si_ack_handle info) |>]}))
  end.
  { match goal with E : Context_processReceivedPacket _ _ _ _ _ _ = _ |- _ =>
      unfold Context_processReceivedPacket in E; clear H end.
    outcome_run; simplify_eq; try (by split_and!; auto).
    split_and!; try done. right. cbn. cbn in *. rewrite Hact in *.
    match goal with E : deref ({[sid := info]} !! ?k) = Ok _ |- _ =>
      destruct (decide (sid = k)) as [->|Hne]; [rewrite lookup_singleton_eq in E|by rewrite lookup_singleton_ne in E] end.
    cbn in *. simplify_eq. by rewrite insert_singleton_eq. }
  destruct Hstep as (Hp1 & Hs1 & Ht1 & Ha1).
  destruct Ha1 as [Ha1|Ha1]; eapply IH in H; try exact Ha1; try done;
    destruct H as (Hp2 & Hs2 & Ht2 & Ha2); cbn in Hp2, Hs2, Ht2; rewrite ?Hp2, ?Hs2, ?Ht2;
    (split_and!; [exact Hp1|exact Hs1|exact Ht1|]); [exact Ha2|].
  right. destruct Ha2 as [->| ->]; done.
Qed.
End arrival.

(** ** The receiving host *)

(** A packet of the pool. *)
Definition in_pool (p : PacketBufferPool) (b : Z) : Prop :=
  b <> 0 /\ bp_arena p <= b /\ b + bp_mtu_size p <= bp_arena p + bp_mtu_size p * bp_max_packets p.

Lemma in_pool_spares p b n l :
  in_pool p b -> 0 <= n <= bp_mtu_size p -> Forall (outside_pool p) l -> spares b n l.
Proof.
  intros (_ & H1 & H2) Hn Hl c Hc. rewrite Forall_forall in Hl. specialize (Hl c Hc).
  unfold outside_pool, apart in *. lia.
Qed.

(** The handle of a session's acknowledgements. *)
Definition ack_ready (p : PacketBufferPool) (h : PacketHandle) : Prop :=
  in_pool p (ph_packet_buf h) /\ sizeof_PktHdr <= bp_mtu_size p /\ ph_with_grh h = false /\
  ph_compacted h = false /\ ph_data_len h = 0 /\ ph_data_buf h = 0.

(** Host [c] has the receiving side of [t]: one session, whose send queue is empty. *)
Record recv_host (sid W : Z) (bufs : list Z) (c : Context) (t : transfer) : Prop := {
  rv_mem : tr_rmem t = cx_mem c;
  rv_queue : pm_receive_queue (cx_packet_manager c) !! sid = Some (tr_rq t);
  rv_session : exists info, cx_active_session_map c = {[sid := info]} /\
    si_receive_queue info = Some sid /\ si_send_queue info = Some sid /\
    ack_ready (cx_pool c) (si_ack_handle info);
  rv_idle : exists q, pm_send_queue (cx_packet_manager c) !! sid = Some q /\ sd_head q = sd_tail q;
  rv_bufs : Forall (in_pool (cx_pool c)) bufs;
  rv_posted : Forall (outside_pool (cx_pool c)) (tr_posted t);
  rv_window : rq_wnd_size (tr_rq t) + 1 <= W /\ 8 <= W;
  rv_near : rq_near (tr_rq t);
  rv_ts : is_u64 (rq_last_packet_ts (tr_rq t))
}.

(** Only the receiving side changed. *)
Definition only_receives (t t' : transfer) : Prop :=
  t' = t <| tr_rmem := tr_rmem t' |> <| tr_rq := tr_rq t' |> <| tr_received := tr_received t' |>
         <| tr_acks := tr_acks t' |> /\
  tr_acks t ⊆ tr_acks t'.

(** A change of the parts that concern neither side. *)
Lemma recv_host_parts sid W bufs c c' t :
  recv_host sid W bufs c t -> parts_of c' = parts_of c ->
  cx_active_session_map c' = cx_active_session_map c -> recv_host sid W bufs c' t.
Proof.
  intros [? ? ? ? ? ? ? ? ?] Hp Ha. unfold parts_of in Hp. injection Hp as Hm Hpm _.
  constructor; unfold cx_pool in *; rewrite ?Hm, ?Hpm, ?Ha; done.
Qed.

Lemma recv_host_same sid W bufs c c' t :
  recv_host sid W bufs c t -> same_parts c c' -> recv_host sid W bufs c' t.
Proof.
  intros Hs Hp. pose proof (same_parts_inv _ _ Hp) as (_ & _ & _ & Ha & _). destruct Hp as [Hp _].
  by apply (recv_host_parts _ _ _ c).
Qed.

Lemma rwrite_sim sid W bufs c t b l :
  recv_host sid W bufs c t -> in_pool (cx_pool c) b -> Z.of_nat (length l) <= bp_mtu_size (cx_pool c) ->
  let t' := t <| tr_rmem := st_bytes (tr_rmem t) b l |> in
  library_step t t' /\ only_receives t t' /\
  recv_host sid W bufs (c <| cx_mem := st_bytes (cx_mem c) b l |>) t'.
Proof.
  intros Hr Hb Hl t'. split.
  { apply step_rwrite. apply (in_pool_spares (cx_pool c)); [done|lia|]. unfold live_posted.
    by apply Forall_drop, Hr. }
  split; [by destruct t|]. destruct Hr as [Hm ? ? ? ? ? ? ? ?]. constructor; try done. cbn. by rewrite Hm.
Qed.

Lemma received_ts h buf : is_u64 (ph_ts (PacketHandle_received h (rx_handle buf))).
Proof. cbn. destruct (ph_compacted h); [done|]. unfold is_u64. word_lia. Qed.

Section receive.
Variable ibv_post_recv : Z -> list ibv_wr -> Z * nat.
Variable operator_new : heap -> Z.
Variable junk : PacketHandle.
Variables sid W : Z.
Variable bufs : list Z.

(** The handler of a data packet that is in memory. *)
Lemma on_data_sim c t d hr buf grh session c' :
  transfer_inv t -> recv_host sid W bufs c t -> d ∈ tr_data t ->
  rq_tail (tr_rq t) + rq_wnd_size (tr_rq t) - 0x1000000 <= dg_index d ->
  in_pool (cx_pool c) buf -> length grh = Z.to_nat kGRHSize ->
  let len := kGRHSize + Z.of_nat (length (dg_bytes d)) in
  len <= bp_mtu_size (cx_pool c) ->
  let m := st_bytes (cx_mem c) buf (grh ++ dg_bytes d) in
  PacketHandle_deserialize (rx_handle buf) m (dg_imm d) len = (0, hr) ->
  ph_cmd hr =? PKT_CMD_DATA = true -> is_u64 (ph_ts hr) -> is_Some (cx_active_session_map c !! session) ->
  Context_on_data (c <| cx_mem := m |>) session hr = Ok c' ->
  exists t', library_step t t' /\ only_receives t t' /\ recv_host sid W bufs c' t' /\
    names_of c' = names_of c /\ cx_task_map c' = cx_task_map c /\ cx_posted_send c' = cx_posted_send c.
Proof.
  intros Hinv Hr Hd Hage Hbuf Hgrh len Hfit m Hdes Hhc Htsr Hact Hdata. pose proof Hinv as (_ & Hri & _).
  unfold Context_on_data in Hdata. destruct (rv_session _ _ _ _ _ Hr) as (info & Hmap & Hrq & Hsq & Hack).
  change (cx_active_session_map (c <| cx_mem := m |>)) with (cx_active_session_map c) in Hdata.
  rewrite Hmap in Hact, Hdata.
  destruct (decide (sid = session)) as [<-|Hne]; [|rewrite lookup_singleton_ne in Hact by done; by destruct Hact].
  rewrite lookup_singleton_eq in Hdata. cbn [deref mbind outcome_bind] in Hdata. rewrite Hrq in Hdata.
  cbn [deref mbind outcome_bind] in Hdata. unfold cx_receive_queue in Hdata.
  change (cx_packet_manager (c <| cx_mem := m |>)) with (cx_packet_manager c) in Hdata.
  rewrite (rv_queue _ _ _ _ _ Hr) in Hdata. cbn [deref mbind outcome_bind] in Hdata.
  change (cx_mem (c <| cx_mem := m |>)) with m in Hdata.
  destruct (ReceiveQueue_markCompleted _ m hr) as [[[rc q'] m']|] eqn:Hmark; [|done].
  cbn [mbind outcome_bind] in Hdata. injection Hdata as <-.
  assert (Hrecv : receive_datagram (tr_rmem t) (tr_rq t) junk buf grh d = Ok (q', m')).
  { unfold receive_datagram. cbn [PacketHandle_setRawPacket]. fold (rx_handle buf) len.
    rewrite (rv_mem _ _ _ _ _ Hr). fold m. rewrite Hdes. cbn [negb Z.eqb]. by rewrite Hhc, Hmark. }
  pose proof (rqr_order _ _ _ (ri_rep _ Hri)) as Ho. pose proof (rqr_total _ _ _ (ri_rep _ Hri)) as Htot.
  apply mark_near in Hmark as (Hnear & Hwnd & Hts); [|apply Hr|done|lia].
  assert (Hsp : spares buf len (live_posted t))
    by (apply (in_pool_spares (cx_pool c)); [done|unfold len, kGRHSize in *; lia|apply Forall_drop, Hr]).
  pose proof (step_deliver t d junk buf grh q' m' Hd (proj1 Hbuf) Hgrh Hsp Hage Hrecv) as Hst.
  eexists. split; [exact Hst|]. split; [by destruct t|]. split; [|done].
  destruct Hr as [? ? _ ? ? ? Hw _ Hu]. constructor; cbn; try done.
  - by rewrite lookup_insert_eq.
  - eexists. split; [by rewrite Hmap, insert_singleton_eq|]. done.
  - by rewrite Hwnd.
  - unfold is_u64 in *. destruct Hts as [->| ->]; lia.
Qed.

(** A datagram arrives. *)
Lemma deliver_sim c t d request grh wc now c' :
  transfer_inv t -> recv_host sid W bufs c t -> d ∈ tr_data t ->
  rq_tail (tr_rq t) + rq_wnd_size (tr_rq t) - 0x1000000 <= dg_index d ->
  cx_heap c !! wc_wr_id wc = Some request -> req_addr0 request ∈ bufs ->
  length grh = Z.to_nat kGRHSize ->
  kGRHSize + Z.of_nat (length (dg_bytes d)) <= bp_mtu_size (cx_pool c) ->
  wc_opcode wc = IBV_WC_RECV -> (if wc_with_imm wc then wc_imm_data wc else 0) = dg_imm d ->
  wc_byte_len wc = kGRHSize + Z.of_nat (length (dg_bytes d)) ->
  Context_poll_loop ibv_post_recv operator_new junk
    (c <| cx_mem := st_bytes (cx_mem c) (req_addr0 request) (grh ++ dg_bytes d) |>) now [wc] = Ok c' ->
  exists t', rtc library_step t t' /\ only_receives t t' /\ recv_host sid W bufs c' t' /\
    names_of c' = names_of c /\ cx_task_map c' = cx_task_map c /\ cx_posted_send c' = cx_posted_send c.
Proof.
  intros Hinv Hr Hd Hage Hreq Hin Hgrh Hfit Hop Himm Hlen Hrun.
  pose proof Hinv as (_ & Hri & Hli). destruct (li_data _ Hli d Hd) as (_ & bytes & _ & Hok).
  destruct Hok as (h & m0 & Hwf & Hb & Hg & Hcmd & Hsn & Hdi & Hby & _).
  set (buf := req_addr0 request) in *. pose proof (rv_bufs _ _ _ _ _ Hr) as Hbufs.
  rewrite Forall_forall in Hbufs. pose proof (Hbufs buf Hin) as Hbuf.
  set (c1 := c <| cx_mem := _ |>) in Hrun. set (l := grh ++ dg_bytes d) in *.
  assert (Hl : Z.of_nat (length l) = kGRHSize + Z.of_nat (length (dg_bytes d))).
  { unfold l. rewrite length_app, Hgrh. unfold kGRHSize. lia. }
  pose proof (image_decoded h m0 (dg_bytes d) (cx_mem c) buf grh Hwf Hb Hg Hby (proj1 Hbuf) Hgrh) as Hdes.
  fold l in Hdes. set (hr := PacketHandle_received h (rx_handle buf)) in *.
  apply poll_one in Hrun as (s & ret & c2 & Hproc & Hsame & Hpost).
  apply (process_received _ _ _ _ _ _ request hr) in Hproc as (c3 & Hsame3 & Hpost3 & Hcase);
    [|done|done|cbn; by rewrite Himm, Hlen, Hdi].
  pose proof (same_parts_inv _ _ (transitivity Hsame3 Hsame)) as (_ & _ & Hn & _ & Htk).
  destruct Hcase as [->|(session & Hact & Hdata)].
  { destruct (rwrite_sim sid W bufs c t buf l Hr Hbuf ltac:(lia)) as (Hst & Honly & Hr').
    eexists. split; [by apply rtc_once|]. split; [done|].
    split; [|split_and!; [by rewrite Hn|by rewrite Htk|by rewrite Hpost, Hpost3]].
    eapply recv_host_same; [|exact (transitivity Hsame3 Hsame)]. by apply (recv_host_same _ _ _ _ _ _ Hr'). }
  assert (Hhc : ph_cmd hr =? PKT_CMD_DATA = true) by (cbn; by rewrite Hcmd).
  rewrite Hhc in Hdata. rewrite <- Hdi in Hdes.
  destruct (on_data_sim (cx_set_store c s) t d hr buf grh session c3) as (t' & Hst & Honly & Hr' & Hn3 & Htk3 & Hp3);
    try done; [by apply (recv_host_same _ _ _ c)|apply received_ts|].
  exists t'. split; [by apply rtc_once|]. split; [done|].
  split; [eapply recv_host_same; [exact Hr'|exact (transitivity Hsame3 Hsame)]|].
  split_and!; [by rewrite Hn, Hn3|by rewrite Htk, Htk3|by rewrite Hpost, Hpost3, Hp3].
Qed.

End receive.

(** ** Acknowledgements *)
Section acks.
Variable ibv_post_send : Z -> list ibv_wr -> Z * nat.
Variable operator_new : heap -> Z.
Variables sid W : Z.
Variable bufs : list Z.

(** [bytes] and [imm] are an acknowledgement up to index [a] with a window of at most
    [W]. *)
Definition ack_image (a imm : Z) (bytes : list Z) : Prop :=
  exists h m, PacketHandle_wf h /\ ph_packet_buf h <> 0 /\ ph_with_grh h = false /\
    ph_cmd h = PKT_CMD_ACK /\ ph_sn h = SHORT_SN a /\ ph_compacted h = false /\
    ph_wnd h <= W /\ imm = PacketHandle_imm h /\
    bytes = gather (snd (PacketHandle_encode h m)) (PacketHandle_slices h).

(** Writing a header in a packet of the pool. *)
Lemma header_sim c t b wnd lo hi :
  recv_host sid W bufs c t -> in_pool (cx_pool c) b -> sizeof_PktHdr <= bp_mtu_size (cx_pool c) ->
  let m' := PktHdr_store (cx_mem c) b wnd lo hi in
  let t' := t <| tr_rmem := m' |> in
  rtc library_step t t' /\ recv_host sid W bufs (c <| cx_mem := m' |>) t'.
Proof.
  intros Hr Hb Hsz m' t'. pose proof (rv_mem _ _ _ _ _ Hr) as Hm.
  assert (Hsp : forall k n, 0 <= k -> 0 <= n -> k + n <= 8 -> spares (b + k) n (live_posted t)).
  { intros k n Hk Hn Hkn d Hd. unfold sizeof_PktHdr in Hsz.
    pose proof (in_pool_spares (cx_pool c) b (bp_mtu_size (cx_pool c)) (live_posted t) Hb ltac:(lia)
      ltac:(apply Forall_drop, Hr) d Hd) as H. unfold apart in *. lia. }
  split.
  - unfold t', m', PktHdr_store, st16, st32. rewrite !st_le_bytes, <- Hm.
    eapply rtc_l; [apply (step_rwrite t b (le_bytes 2 wnd)); rewrite length_le_bytes;
      rewrite <- (Z.add_0_r b); apply Hsp; lia|].
    eapply rtc_l; [apply (step_rwrite _ (b + 2) (le_bytes 2 lo)); rewrite length_le_bytes; apply Hsp; lia|].
    eapply rtc_step_eq; [apply (step_rwrite _ (b + 4) (le_bytes 4 hi)); rewrite length_le_bytes; apply Hsp; lia|].
    reflexivity.
  - destruct Hr as [? ? ? ? ? ? ? ? ?]. by constructor.
Qed.

Lemma recv_host_acks c t l :
  recv_host sid W bufs c t -> recv_host sid W bufs c (t <| tr_acks := l |>).
Proof. intros [? ? ? ? ? ? ? ? ?]. by constructor. Qed.

(** One session's turn of [sendAckPackets]. *)
Record acked_by (c : Context) (t : transfer) (c' : Context) (t' : transfer) (ws : list ibv_wr) : Prop := {
  ab_steps : rtc library_step t t';
  ab_only : only_receives t t';
  ab_queue : tr_rq t' = tr_rq t;
  ab_host : recv_host sid W bufs c' t';
  ab_names : names_of c' = names_of c;
  ab_tasks : cx_task_map c' = cx_task_map c;
  ab_posted : cx_posted_send c' = cx_posted_send c ++ ws;
  ab_images : Forall (fun w => rq_tail (tr_rq t) ∈ tr_acks t' /\
    ack_image (rq_tail (tr_rq t)) (wr_imm w) (wr_bytes (cx_mem c') w)) ws
}.

(** The acknowledgement of a session, filled in and serialized. *)
Definition ack_handle (q : ReceiveQueue) (h : PacketHandle) : PacketHandle :=
  h <| ph_session := sid_session sid |> <| ph_cmd := PKT_CMD_ACK |>
    <| ph_wnd := u16 (Z.max (u64 (rq_head q - rq_tail q)) kMinWindowSize) |>
    <| ph_sn := ReceiveQueue_getAckSN q |> <| ph_ts := ReceiveQueue_getLastTS q |>
    <| ph_inflight := true |>.

Lemma ack_handle_image p q h m :
  ack_ready p h -> rq_near q -> rq_wnd_size q + 1 <= W -> 8 <= W -> is_u64 (rq_last_packet_ts q) ->
  let h1 := ack_handle q h in
  let m' := snd (PacketHandle_encode h1 m) in
  PacketHandle_serialize_array h1 m
    = (Some (mkBuffer (ph_packet_buf h) sizeof_PktHdr, mkBuffer 0 0, PacketHandle_imm h1),
       h1 <| ph_pkt_hdr_imm := PacketHandle_imm h1 |>, m') /\
  ack_image (rq_tail q) (PacketHandle_imm h1) (gather m' [mkBuffer (ph_packet_buf h) sizeof_PktHdr]).
Proof.
  intros ((Hnz & _) & _ & Hg & Hc & Hl & Hd) Hn Hw H8 Hts h1 m'.
  assert (Hnz1 : ph_packet_buf h1 <> 0) by done. split.
  - unfold PacketHandle_serialize_array. rewrite (proj2 (Z.eqb_neq _ 0)) by done.
    change (ph_with_grh h1) with (ph_with_grh h). rewrite Hg. unfold m'. rewrite PacketHandle_encode_eq by done.
    cbn. by rewrite Hd, Hl.
  - exists h1, m. split_and!; try done.
    + unfold PacketHandle_wf. cbn. rewrite Hl. pose proof (SHORT_SN_range (rq_tail q)).
      unfold ReceiveQueue_getAckSN, ReceiveQueue_getLastTS, sid_session, PKT_CMD_ACK.
      split_and!; try done; word_unfold; unfold is_u64 in *; try lia; word_lia.
    + cbn. unfold rq_near, kMinWindowSize in *. word_lia.
    + unfold m', PacketHandle_slices. cbn. by rewrite Hd, Hl.
Qed.

(** Posting an acknowledgement whose packet is [b]. *)
Lemma post_ack_sim c1 info1 t b k imm n r c' :
  recv_host sid W bufs c1 t -> cx_active_session_map c1 = {[sid := info1]} -> b <> 0 ->
  ('(request, c2) ← Context_new_request operator_new c1
     (Request_default <| req_addr0 := b |> <| req_length0 := sizeof_PktHdr |> <| req_lkey0 := k |>
        <| req_imm_data := imm |> <| req_context := Some sid |>);
   let '(endpoint, c3) := Context_endpoint c2 sid in
   match endpoint with
   | None => Ok (Some ERR, c3)
   | Some path =>
       '(ret, c4) ← Context_post_send ibv_post_send c3 path [request];
       if negb (ret =? 1) then Ok (Some ERR, c4)
       else Ok (None, (cx_set_session c4 sid (info1 <| si_ack_packets := n |>))
                        <| cx_stats := (cx_stats c4) <| st_ack_packets :=
                             u64 (st_ack_packets (cx_stats c4) + 1) |> |>)
   end) = Ok (r, c') ->
  exists ws, recv_host sid W bufs c' t /\ cx_mem c' = cx_mem c1 /\
    names_of c' = names_of c1 /\
    cx_task_map c' = cx_task_map c1 /\ cx_posted_send c' = cx_posted_send c1 ++ ws /\
    Forall (fun w => wr_imm w = imm /\
      wr_bytes (cx_mem c') w = gather (cx_mem c1) [mkBuffer b sizeof_PktHdr]) ws.
Proof.
  intros Hr Hmap Hb H. destruct (Context_new_request operator_new c1 _) as [[ptr c2]|] eqn:Hreq; [|done].
  cbn [mbind outcome_bind] in H. destruct (Context_endpoint c2 sid) as [ep c3] eqn:Hep.
  apply new_request_parts in Hreq as (Hsame2 & Hpost2 & Hptr & _).
  apply endpoint_parts in Hep as (Hsame3 & Hpost3 & Hheap3).
  assert (H13 : same_parts c1 c3) by exact (transitivity Hsame2 Hsame3).
  assert (Hp13 : cx_posted_send c3 = cx_posted_send c1) by (by rewrite Hpost3, Hpost2).
  destruct ep as [path|].
  - destruct (Context_post_send _ _ _ _) as [[ret c4]|] eqn:Hps; [|done]. cbn [mbind outcome_bind] in H.
    apply post_send_parts in Hps as [Hsame4 (ws & Hpo4 & Hfrom)]. rewrite Hp13 in Hpo4. exists ws.
    assert (H14 : same_parts c1 c4) by exact (transitivity H13 Hsame4).
    pose proof (same_parts_inv _ _ H14) as (Hm4 & _ & Hn4 & Ha4 & Ht4). rewrite Hmap in Ha4.
    pose proof (recv_host_same _ _ _ _ _ _ Hr H14) as Hr4.
    assert (Hws : Forall (fun w => wr_imm w = imm /\
              wr_bytes (cx_mem c4) w = gather (cx_mem c1) [mkBuffer b sizeof_PktHdr]) ws).
    { eapply Forall_impl; [exact Hfrom|]. intros w (p & rq & Hp & Hrw & Hwr).
      apply list_elem_of_singleton in Hp as ->. rewrite Hheap3, Hptr in Hrw. injection Hrw as <-.
      rewrite (wr_of_imm _ _ Hwr). split; [done|]. destruct Hwr as (Hsg & _). unfold wr_bytes.
      rewrite Hsg, Hm4. unfold Request_sges. cbn. by rewrite (proj2 (Z.eqb_neq _ 0)). }
    destruct (negb _); injection H as <- <-; [by split_and!|]. split_and!; try done.
    destruct Hr4 as [? ? (info4 & Hmap4 & Hinfo4) ? ? ? ? ? ?]. constructor; try done.
    rewrite Ha4 in Hmap4. apply (inj (singletonM sid)) in Hmap4 as <-.
    exists (info1 <| si_ack_packets := n |>). split; [|exact Hinfo4]. cbn. by rewrite Ha4, insert_singleton_eq.
  - injection H as <- <-. exists []. rewrite app_nil_r.
    pose proof (same_parts_inv _ _ H13) as (Hm3 & _ & Hn3 & _ & Ht3).
    split_and!; try done. by apply (recv_host_same _ _ _ c1).
Qed.

(** Storing the serialized acknowledgement and its handle. *)
Lemma ack_stored_sim c t info h2 m' wnd lo hi :
  recv_host sid W bufs c t -> cx_active_session_map c = {[sid := info]} ->
  ack_ready (cx_pool c) h2 -> ph_packet_buf h2 = ph_packet_buf (si_ack_handle info) ->
  m' = PktHdr_store (cx_mem c) (ph_packet_buf (si_ack_handle info)) wnd lo hi ->
  let info1 := info <| si_ack_handle := h2 |> in
  let c1 := (cx_set_session c sid info1) <| cx_mem := m' |> in
  let t2 := t <| tr_rmem := m' |> <| tr_acks := rq_tail (tr_rq t) :: tr_acks t |> in
  rtc library_step t t2 /\ only_receives t t2 /\ recv_host sid W bufs c1 t2 /\
  cx_active_session_map c1 = {[sid := info1]}.
Proof.
  intros Hr Hmap Hack Hbuf Hm' info1 c1 t2. pose proof Hack as (Hb & Hsz & _). rewrite Hbuf in Hb.
  destruct (header_sim c t _ wnd lo hi Hr Hb Hsz) as [Hst Hr1]. rewrite <- Hm' in Hst, Hr1.
  assert (Hmap1 : cx_active_session_map c1 = {[sid := info1]}) by (cbn; rewrite Hmap; apply insert_singleton_eq).
  split; [eapply rtc_r; [exact Hst|apply step_send_ack]|].
  split; [split; [by destruct t|cbn; set_solver]|]. split; [|done].
  apply (recv_host_acks _ _ (rq_tail (tr_rq t) :: tr_acks t)) in Hr1.
  destruct Hr1 as [? ? (info' & Hmap' & Hrq & Hsq & _) ? ? ? ? ? ?]. constructor; try done.
  change (cx_active_session_map c = {[sid := info']}) in Hmap'. rewrite Hmap in Hmap'.
  apply (inj (singletonM sid)) in Hmap' as <-. exists info1. by split_and!.
Qed.

Lemma send_ack_sim c t r c' :
  recv_host sid W bufs c t -> Context_send_ack ibv_post_send operator_new c sid = Ok (r, c') ->
  exists t' ws, acked_by c t c' t' ws.
Proof.
  intros Hr H. pose proof Hr as [Hm Hq (info & Hmap & Hrq & Hsq & Hack) Hid Hbu Hpo [Hwn H8] Hne Hts].
  unfold Context_send_ack in H. rewrite Hmap, lookup_singleton_eq in H. cbn [deref mbind outcome_bind] in H.
  destruct (_ || _).
  { injection H as <- <-. exists t, []. constructor; try done; [by destruct t|by rewrite app_nil_r]. }
  rewrite Hrq in H. cbn [deref mbind outcome_bind] in H. unfold cx_receive_queue in H. rewrite Hq in H.
  cbn [deref mbind outcome_bind ReceiveQueue_getIndexRange] in H.
  fold (ack_handle (tr_rq t) (si_ack_handle info)) in H.
  destruct (ack_handle_image (cx_pool c) (tr_rq t) (si_ack_handle info) (cx_mem c) Hack Hne Hwn H8 Hts)
    as [Hser Himg]. rewrite Hser in H. cbn [buf_addr buf_length] in H.
  assert (Hm' : exists wnd lo hi, snd (PacketHandle_encode (ack_handle (tr_rq t) (si_ack_handle info)) (cx_mem c))
            = PktHdr_store (cx_mem c) (ph_packet_buf (si_ack_handle info)) wnd lo hi).
  { rewrite PacketHandle_encode_eq by apply Hack. cbn [snd].
    change (ph_compacted (ack_handle _ _)) with (ph_compacted (si_ack_handle info)).
    destruct Hack as (_ & _ & _ & -> & _). by eexists _, _, _. }
  set (h2 := (ack_handle _ _) <| ph_pkt_hdr_imm := _ |>) in H.
  assert (Hack2 : ack_ready (cx_pool c) h2 /\ ph_packet_buf h2 = ph_packet_buf (si_ack_handle info)) by done.
  destruct Hm' as (wnd & lo & hi & Hm'), Hack2 as [Hack2 Hbuf2].
  set (imm := PacketHandle_imm _) in *. set (m' := snd _) in *. clearbody h2 imm m'. clear Hser.
  destruct (ack_stored_sim c t info h2 m' wnd lo hi Hr Hmap Hack2 Hbuf2 Hm') as (Hsteps & Honly & Hr1 & Hmap1).
  destruct (post_ack_sim _ _ _ _ _ imm _ r c' Hr1 Hmap1 (proj1 (proj1 Hack)) H)
    as (ws & Hr' & Hmem & Hnm & Htk & Hpost & Hws).
  eexists _, ws. constructor; [exact Hsteps|exact Honly|done|exact Hr'|exact Hnm|exact Htk|exact Hpost|].
  eapply Forall_impl; [exact Hws|]. intros w [-> ->]. split; [apply elem_of_cons; by left|]. exact Himg.
Qed.
End acks.
