(* ===== verification/Hosts.v ===== *)
(** * Two contexts and a network

    The composition of two objects of class [Context]
    (src/protocols/rdma_unreliable/context.cpp) that transfer data from one to the
    other.  The steps are the calls the library makes on its own behalf, in any order
    ([pollCompletedPackets] on packets that arrived and on sends that completed,
    [sendAckPackets], [sendDataPackets]: the parts of [runStep]) and the calls of the
    applications ([send], [receive], [freeTask], registering memory), with whatever
    results of the verbs, on hosts whose NICs exchange the bytes of the work requests
    they accepted over a network that loses, duplicates and reorders.

    The theorem is a simulation: every run is a run of the transfer of Transfer.v, so
    that what is shown there holds of the contexts.

    The NIC reads a work request at the end of the call that posts it, and a received
    packet is polled when it is written; each host has one session. *)

From S2P Require Import Prelude MemoryRegions Text Mem Packet BufferPool SecondaryQueue.
From S2P Require Import SendQueue McastSendQueue ReceiveQueue PacketManager Tasks Congestion.
From S2P Require Import RequestCache Posting UdEndpoint Controller Context Transfer ContextParts.
From S2P Require Import HostSend HostReceive.

(** ** Packets the sender holds stay held *)
Lemma held_out t out b : sender_inv t out -> held (tr_pool t) (tr_smem t) b -> b ∈ out.
Proof. intros Hs (out' & Hp & Hb). by rewrite (pool_inv_unique _ _ _ _ Hp (si_pool _ _ Hs)) in Hb. Qed.

Lemma library_step_held t t' b :
  transfer_inv t -> library_step t t' ->
  held (tr_pool t) (tr_smem t) b -> held (tr_pool t') (tr_smem t') b.
Proof.
  intros ([out Hs] & _) Hstep Hb. pose proof (held_out _ _ _ Hs Hb) as Hin.
  destruct Hstep as [t i now h s0 s1 imm h' m' Hi Hnow Hent Hser|t d junk buf grh rq' m' ? ? ? ? ? ?
    |t|t a rc q' p' Ha Hage Hrun|t w Hw|t c a l Hc Hlo Hhi|t a l Hsp]; try done.
  - destruct (PacketHandle_serialize_array_gather _ _ _ _ _ _ _ Hser) as [Hvec _].
    pose proof (transmit_sender_inv t out i now h _ imm h' m' Hs Hi Hnow Hent Hvec) as Hs'.
    exists out. split; [apply (si_pool _ _ Hs')|done].
  - pose proof Hs as [Hrep Hpool _ Hcap _ _ _].
    destruct (SendQueue_markCompleted_spec _ _ _ _ _ (SHORT_SN a) Hrep Hpool ltac:(lia) (SHORT_SN_range a))
      as (q1 & p1 & out1 & Hrun1 & _ & Hp1 & _ & Hsub & _).
    rewrite Hrun in Hrun1. injection Hrun1 as -> <- <-. exists out1. split; [done|by apply Hsub].
  - destruct (packet_sender_inv t out c a l Hs Hc Hlo Hhi) as [Hs' _].
    exists out. split; [apply (si_pool _ _ Hs')|done].
Qed.

Lemma rtc_library_held t t' b :
  rtc library_step t t' -> transfer_inv t ->
  held (tr_pool t) (tr_smem t) b -> held (tr_pool t') (tr_smem t') b.
Proof. induction 1; eauto using library_step_held, library_step_inv. Qed.

(** ** The sending host *)

(** Host [c] has the sending side of [t]: one session, on which it has received no
    data. *)
Record send_host (sid W : Z) (bufs : list Z) (c : Context) (t : transfer) : Prop := {
  sh_view : send_view c sid t;
  sh_session : exists info, cx_active_session_map c = {[sid := info]} /\
    si_send_queue info = Some sid /\ si_recv_packets info <= si_ack_packets info /\
    0 <= cw_cwnd (si_wnd info) <= W;
  sh_bufs : Forall (fun b => b <> 0 /\ held (tr_pool t) (tr_smem t) b) bufs;
  sh_cap : 4 <= W < sd_queue_capacity (tr_sq t);
  sh_mtu : 0 <= cx_mtu_size c
}.

(** Only the sending side changed. *)
Definition only_sender (t t' : transfer) : Prop :=
  t' = t <| tr_smem := tr_smem t' |> <| tr_pool := tr_pool t' |> <| tr_sq := tr_sq t' |>
         <| tr_data := tr_data t' |> /\
  tr_data t ⊆ tr_data t'.

Lemma names_mtu c c' : names_of c' = names_of c -> cx_mtu_size c' = cx_mtu_size c.
Proof. unfold names_of. by intros [= _ ->]. Qed.

Lemma send_host_parts sid W bufs c c' t :
  send_host sid W bufs c t -> parts_of c' = parts_of c ->
  cx_active_session_map c' = cx_active_session_map c -> send_host sid W bufs c' t.
Proof.
  intros [(Hv1 & Hv2 & Hv3) ? ? ? ?] Hp Ha. unfold parts_of, names_of in Hp. injection Hp as Hm Hpm _ Hn.
  constructor; unfold send_view, cx_pool in *; rewrite ?Hm, ?Hpm, ?Ha, ?Hn; done.
Qed.

Lemma send_host_same sid W bufs c c' t :
  send_host sid W bufs c t -> same_parts c c' -> send_host sid W bufs c' t.
Proof.
  intros Hs Hp. pose proof (same_parts_inv _ _ Hp) as (_ & _ & _ & Ha & _). destruct Hp as [Hp _].
  by apply (send_host_parts _ _ _ c).
Qed.

Section arrival.
Variable ibv_post_recv : Z -> list ibv_wr -> Z * nat.
Variable operator_new : heap -> Z.
Variable junk : PacketHandle.
Variables sid W : Z.
Variable bufs : list Z.

(** The NIC writes a packet. *)
Lemma packet_sim c t b l :
  transfer_inv t -> send_host sid W bufs c t -> b ∈ bufs ->
  Z.of_nat (length l) <= bp_mtu_size (cx_pool c) ->
  let t' := t <| tr_smem := st_bytes (tr_smem t) b l |> in
  library_step t t' /\ send_host sid W bufs (c <| cx_mem := st_bytes (cx_mem c) b l |>) t'.
Proof.
  intros Hinv Hs Hb Hl t'. pose proof Hs as [(Hv1 & Hv2 & Hv3) ? Hbu ? ?].
  assert (Hst : library_step t t').
  { rewrite Forall_forall in Hbu. apply (step_packet t b); [by apply Hbu|lia|rewrite Hv2; lia]. }
  split; [done|]. constructor; try done.
  - unfold send_view. cbn. by rewrite Hv1.
  - eapply Forall_impl; [exact Hbu|]. intros x [Hx Hh]. split; [done|]. by apply (library_step_held t).
Qed.

(** An acknowledgement is processed. *)
Lemma on_ack_sim c t now h a c' :
  transfer_inv t -> send_host sid W bufs c t -> a ∈ tr_acks t -> sd_head (tr_sq t) < a + 0x1000000 ->
  ph_sn h = SHORT_SN a -> 0 <= ph_wnd h <= W ->
  Context_on_ack c now sid h = Ok c' ->
  exists t', rtc library_step t t' /\ only_sender t t' /\ send_host sid W bufs c' t' /\
    names_of c' = names_of c /\ cx_task_map c' = cx_task_map c /\ cx_posted_send c' = cx_posted_send c.
Proof.
  intros Hinv Hs Ha Hage Hsn Hwnd H. pose proof Hs as [(Hv1 & Hv2 & Hv3) (info & Hmap & Hsq & Hrp & Hcw) Hbu Hcap Hmtu].
  unfold Context_on_ack in H. rewrite Hmap, lookup_singleton_eq in H. cbn [deref mbind outcome_bind] in H.
  rewrite Hsq in H. cbn [deref mbind outcome_bind] in H. unfold cx_send_queue in H. rewrite Hv3 in H.
  cbn [deref mbind outcome_bind] in H. rewrite <- Hv1, <- Hv2, Hsn in H.
  destruct (SendQueue_markCompleted _ _ _ _) as [[[rc q'] p']|] eqn:Hmark; [|done]. cbn [mbind outcome_bind] in H.
  pose proof (step_recv_ack t a rc q' p' Ha Hage Hmark) as Hst. set (t1 := _ <| tr_pool := p' |>) in Hst.
  pose proof Hinv as ([out Hsi] & _). pose proof Hsi as [Hrep Hpool _ Hc16 _ _ _].
  destruct (SendQueue_markCompleted_spec _ _ _ _ _ (SHORT_SN a) Hrep Hpool ltac:(lia) (SHORT_SN_range a))
    as (q1 & p1 & out1 & Hrun1 & _ & _ & _ & _ & _ & _ & _ & Hcap1 & _).
  rewrite Hmark in Hrun1. injection Hrun1 as -> <- <-.
  unfold Context_updateWndOnSuccess in H. cbn [cx_active_session_map cx_set_pool cx_set_send_queue] in H.
  match type of H with context [deref (?m !! sid)] => change m with (cx_active_session_map c) in H end.
  rewrite Hmap, lookup_singleton_eq in H. cbn [deref mbind outcome_bind] in H.
  destruct (updateWnd _ _ _) as [w|] eqn:Hup; [|done]. cbn [mbind outcome_bind] in H.
  apply updateWnd_range in Hup; [|done|lia|lia].
  assert (Hw : 0 <= cw_cwnd w <= W) by lia.
  unfold cx_send_queue in H. cbn in H. rewrite lookup_insert_eq in H. cbn in H. injection H as <-.
  assert (Hb1 : Forall (fun b => b <> 0 /\ held (tr_pool t1) (tr_smem t1) b) bufs).
  { eapply Forall_impl; [exact Hbu|]. intros x [Hx Hh]. split; [done|]. by apply (library_step_held t). }
  destruct (negb _).
  - exists (t1 <| tr_sq := SendQueue_setWndSize q' (cw_cwnd w) |>).
    assert (Hst2 : library_step t1 (t1 <| tr_sq := SendQueue_setWndSize q' (cw_cwnd w) |>)).
    { apply (step_window t1). cbn. rewrite Hcap1. word_lia. }
    split; [by eapply rtc_l, rtc_once|]. split; [split; [by destruct t|done]|]. split; [|done].
    constructor; try done; cbn; [|by rewrite Hmap, insert_singleton_eq; exists (info <| si_wnd := w |>)|by rewrite Hcap1].
    unfold send_view. cbn. split_and!; try done. by rewrite !lookup_insert_eq.
  - exists t1. split; [by apply rtc_once|]. split; [split; [by destruct t|done]|]. split; [|done].
    constructor; try done; cbn; [|by rewrite Hmap, insert_singleton_eq; exists (info <| si_wnd := w |>)|by rewrite Hcap1].
    unfold send_view. cbn. split_and!; try done. by rewrite !lookup_insert_eq.
Qed.

(** A packet with an acknowledgement arrives. *)
Lemma ack_arrives_sim c t a imm bytes request grh wc now c' :
  transfer_inv t -> send_host sid W bufs c t -> ack_image W a imm bytes ->
  a ∈ tr_acks t -> sd_head (tr_sq t) < a + 0x1000000 ->
  cx_heap c !! wc_wr_id wc = Some request -> req_addr0 request ∈ bufs ->
  length grh = Z.to_nat kGRHSize -> kGRHSize + Z.of_nat (length bytes) <= bp_mtu_size (cx_pool c) ->
  wc_opcode wc = IBV_WC_RECV -> (if wc_with_imm wc then wc_imm_data wc else 0) = imm ->
  wc_byte_len wc = kGRHSize + Z.of_nat (length bytes) ->
  Context_poll_loop ibv_post_recv operator_new junk
    (c <| cx_mem := st_bytes (cx_mem c) (req_addr0 request) (grh ++ bytes) |>) now [wc] = Ok c' ->
  exists t', rtc library_step t t' /\ only_sender t t' /\ send_host sid W bufs c' t' /\
    names_of c' = names_of c /\ cx_task_map c' = cx_task_map c /\ cx_posted_send c' = cx_posted_send c.
Proof.
  intros Hinv Hs (h & m0 & Hwf & Hb & Hg & Hcmd & Hsn & Hcp & Hw & Him & Hby) Ha Hage Hreq Hin Hgrh Hfit
    Hop Himm Hlen Hrun.
  set (buf := req_addr0 request) in *. pose proof (sh_bufs _ _ _ _ _ Hs) as Hbufs.
  rewrite Forall_forall in Hbufs. pose proof (Hbufs buf Hin) as [Hnz _].
  set (l := grh ++ bytes) in *.
  assert (Hl : Z.of_nat (length l) = kGRHSize + Z.of_nat (length bytes)).
  { unfold l. rewrite length_app, Hgrh. unfold kGRHSize. lia. }
  pose proof (image_decoded h m0 bytes (cx_mem c) buf grh Hwf Hb Hg Hby Hnz Hgrh) as Hdes. fold l in Hdes.
  destruct (packet_sim c t buf l Hinv Hs Hin ltac:(lia)) as [Hst Hs1].
  set (c1 := c <| cx_mem := _ |>) in *. set (t1 := t <| tr_smem := _ |>) in *.
  pose proof (library_step_inv _ _ Hst Hinv) as Hinv1.
  apply poll_one in Hrun as (s & ret & c2 & Hproc & Hsame & Hpost).
  pose proof (send_host_same sid W bufs c1 (cx_set_store c1 s) t1 Hs1 ltac:(done)) as Hs2.
  apply (process_received _ _ _ _ _ _ request (PacketHandle_received h (rx_handle buf)))
    in Hproc as (c3 & Hsame3 & Hpost3 & Hcase); [|done|done|cbn; by rewrite Himm, Hlen, Him].
  pose proof (same_parts_inv _ _ (transitivity Hsame3 Hsame)) as (_ & _ & Hn & _ & Htk).
  assert (Hon : exists t', rtc library_step t1 t' /\ only_sender t1 t' /\ send_host sid W bufs c3 t' /\
            names_of c3 = names_of c1 /\ cx_task_map c3 = cx_task_map c1 /\ cx_posted_send c3 = cx_posted_send c1).
  { destruct Hcase as [->|(session & Hact & Hack)].
    { exists t1. by split_and!. }
    rewrite (proj2 (Z.eqb_neq _ PKT_CMD_DATA)), (proj2 (Z.eqb_eq _ PKT_CMD_ACK)) in Hack
      by (cbn; by rewrite Hcmd).
    destruct (sh_session _ _ _ _ _ Hs2) as (info & Hmap & _). rewrite Hmap in Hact.
    destruct (decide (sid = session)) as [<-|Hne]; [|rewrite lookup_singleton_ne in Hact by done; by destruct Hact].
    eapply (on_ack_sim (cx_set_store c1 s)); try exact Hack; try done.
    - cbn. by rewrite Hsn, SHORT_SN_idem.
    - cbn. rewrite Hcp. destruct Hwf as (_ & _ & Hu & _). word_unfold. lia. }
  destruct Hon as (t' & Hsteps & Hon & Hs3 & Hn3 & Htk3 & Hp3). exists t'.
  split; [by eapply rtc_l|]. split.
  { destruct Hon as [Heq Hsub]. split; [by rewrite Heq|exact Hsub]. }
  split; [eapply send_host_same; [exact Hs3|exact (transitivity Hsame3 Hsame)]|].
  split_and!; [by rewrite Hn, Hn3|by rewrite Htk, Htk3|by rewrite Hpost, Hpost3, Hp3].
Qed.
End arrival.

(** ** The system *)

(** A packet on the network.  [pk_stamp] records how far the transfer was when it was
    sent: the tail of the queue that sent it. *)
Record packet := mkPacket { pk_stamp : Z; pk_imm : Z; pk_bytes : list Z }.

Definition wr_packet (stamp : Z) (m : mem) (w : ibv_wr) : packet := mkPacket stamp (wr_imm w) (wr_bytes m w).

(** What the NIC sends for the work requests that a call gave it. *)
Definition emitted (stamp : Z) (c c' : Context) : list packet :=
  wr_packet stamp (cx_mem c') <$> drop (length (cx_posted_send c)) (cx_posted_send c').

(** The calls inside the library.  [bufs] are the packets in which the host receives;
    the argument is the packet that arrives. *)
Inductive context_op (bufs : list Z) : Context -> option packet -> Context -> Prop :=
| op_arrival post_recv new junk c p request grh wc now c' :
    cx_heap c !! wc_wr_id wc = Some request -> req_addr0 request ∈ bufs ->
    length grh = Z.to_nat kGRHSize ->
    kGRHSize + Z.of_nat (length (pk_bytes p)) <= bp_mtu_size (cx_pool c) ->
    wc_opcode wc = IBV_WC_RECV -> (if wc_with_imm wc then wc_imm_data wc else 0) = pk_imm p ->
    wc_byte_len wc = kGRHSize + Z.of_nat (length (pk_bytes p)) ->
    Context_poll_loop post_recv new junk
      (c <| cx_mem := st_bytes (cx_mem c) (req_addr0 request) (grh ++ pk_bytes p) |>) now [wc] = Ok c' ->
    context_op bufs c (Some p) c'
| op_completions post_recv new junk c wcs now c' :
    Forall (fun wc => wc_opcode wc <> IBV_WC_RECV) wcs ->
    Context_poll_loop post_recv new junk c now wcs = Ok c' -> context_op bufs c None c'
| op_acks post_send new traverse c ret c' :
    (forall s, traverse s ≡ₚ (map_to_list s).*1) ->
    Context_sendAckPackets post_send new traverse c = Ok (ret, c') -> context_op bufs c None c'
| op_data post_send new traverse c now ret c' :
    (forall s, traverse s ≡ₚ (map_to_list s).*1) -> is_u64 now ->
    Context_sendDataPackets post_send new traverse c now = Ok (ret, c') -> context_op bufs c None c'
| op_free c id : context_op bufs c None (Context_freeTask c id).2
| op_register reg access c addr length :
    context_op bufs c None (Context_registerLocalMemory reg access c addr length).2
| op_unregister dereg c addr ret c' :
    Context_unregisterLocalMemory dereg c addr = Ok (ret, c') -> context_op bufs c None c'.

Record hosts := mkHosts {
  ho_a : Context;
  ho_b : Context;
  ho_data : list packet;
  ho_acks : list packet;
  ho_sent : list Buffer;
  ho_content : list (list Z);
  ho_posted : list Buffer;
  ho_read : list (list Z)
}.
#[export] Instance hosts_fields : Fields hosts := mkFields (fun x =>
  mkHosts (ho_a x) (ho_b x) (ho_data x) (ho_acks x) (ho_sent x) (ho_content x) (ho_posted x) (ho_read x)).

Section system.
(** The session ids of the two hosts, the name each has for the other and the packets
    in which each receives. *)
Variables sa sb : Z.
Variables name_a name_b : string.
Variables bufs_a bufs_b : list Z.

(** Fragments the application may not overwrite (sender) or has not read (receiver). *)
Definition unacked (x : hosts) (q : SendQueue) : list Buffer := drop (Z.to_nat (sd_tail q)) (ho_sent x).
Definition unread (x : hosts) : list Buffer := drop (length (ho_read x)) (ho_posted x).

Inductive hosts_step : hosts -> hosts -> Prop :=
| hs_a x q p a' :
    pm_send_queue (cx_packet_manager (ho_a x)) !! sa = Some q ->
    (forall k, p = Some k -> k ∈ ho_acks x /\ sd_head q < pk_stamp k + 0x1000000) ->
    context_op bufs_a (ho_a x) p a' ->
    hosts_step x (x <| ho_a := a' |> <| ho_data := emitted (sd_tail q) (ho_a x) a' ++ ho_data x |>)
| hs_b x q p b' :
    pm_receive_queue (cx_packet_manager (ho_b x)) !! sb = Some q ->
    (forall k, p = Some k -> k ∈ ho_data x /\ rq_tail q + rq_wnd_size q - 0x1000000 <= pk_stamp k) ->
    context_op bufs_b (ho_b x) p b' ->
    hosts_step x (x <| ho_b := b' |> <| ho_acks := emitted (rq_tail q) (ho_b x) b' ++ ho_acks x |>)
| hs_send x q junk l ret a' :
    pm_send_queue (cx_packet_manager (ho_a x)) !! sa = Some q ->
    let f := sq_fragment_size (sd_secondary_queue q) in
    let sent := ho_sent x ++ fragments f l in
    Forall (buffer_valid f) l -> Z.of_nat (length sent) < 0x10000000000000000 ->
    Forall (outside_pool (cx_pool (ho_a x))) (fragments f l) -> lengths_agree sent (ho_posted x) ->
    Context_send junk (ho_a x) name_b l = Ok (ret, a') ->
    hosts_step x (x <| ho_a := a' |> <| ho_sent := sent |>
      <| ho_content := ho_content x ++ (buffer_bytes (cx_mem (ho_a x)) <$> fragments f l) |>)
| hs_receive x q junk l ret b' :
    pm_receive_queue (cx_packet_manager (ho_b x)) !! sb = Some q ->
    let f := sq_fragment_size (rq_secondary_queue q) in
    let posted := ho_posted x ++ fragments f l in
    Forall (buffer_valid f) l ->
    Z.of_nat (length posted) + rq_queue_capacity q < 0x10000000000000000 ->
    Forall (outside_pool (cx_pool (ho_b x))) (fragments f l) ->
    disjoint_posted (drop (length (ho_read x)) posted) -> lengths_agree (ho_sent x) posted ->
    Context_receive junk (ho_b x) name_a l = Ok (ret, b') ->
    hosts_step x (x <| ho_b := b' |> <| ho_posted := posted |>)
| hs_write x q addr l :
    pm_send_queue (cx_packet_manager (ho_a x)) !! sa = Some q ->
    spares addr (Z.of_nat (length l)) (unacked x q) ->
    outside_pool (cx_pool (ho_a x)) (mkBuffer addr (Z.of_nat (length l))) ->
    hosts_step x (x <| ho_a := (ho_a x) <| cx_mem := st_bytes (cx_mem (ho_a x)) addr l |> |>)
| hs_read x q n :
    pm_receive_queue (cx_packet_manager (ho_b x)) !! sb = Some q ->
    (length (ho_read x) + n <= Z.to_nat (rq_tail q))%nat ->
    hosts_step x (x <| ho_read :=
      ho_read x ++ (buffer_bytes (cx_mem (ho_b x)) <$> take n (unread x)) |>)
| hs_rwrite x addr l :
    spares addr (Z.of_nat (length l)) (unread x) ->
    hosts_step x (x <| ho_b := (ho_b x) <| cx_mem := st_bytes (cx_mem (ho_b x)) addr l |> |>).
End system.

(** ** Simulation *)
Lemma rtc_library_transfer t t' : rtc library_step t t' -> rtc transfer_step t t'.
Proof. induction 1 as [|t1 t2 t3 H _ IH]; [done|]. eapply rtc_l; [by apply step_library|done]. Qed.

Lemma traverse_one {A} (traverse : gmap Z A -> list Z) sid (i : A) :
  (forall s, traverse s ≡ₚ (map_to_list s).*1) -> traverse {[sid := i]} = [sid].
Proof.
  intros Ht. specialize (Ht {[sid := i]}). rewrite map_to_list_singleton in Ht.
  by apply Permutation_singleton_r in Ht.
Qed.

Lemma emitted_nil stamp c c' : cx_posted_send c' = cx_posted_send c -> emitted stamp c c' = [].
Proof. intros H. unfold emitted. by rewrite H, drop_all. Qed.

Lemma emitted_app stamp c c' ws :
  cx_posted_send c' = cx_posted_send c ++ ws -> emitted stamp c c' = wr_packet stamp (cx_mem c') <$> ws.
Proof. intros H. unfold emitted. by rewrite H, drop_app_length. Qed.

(** What a call inside the sending host's library is. *)
Record a_simulated (sid W : Z) (bufs : list Z) (c : Context) (t : transfer) (c' : Context) (t' : transfer)
  : Prop := {
  as_steps : rtc library_step t t';
  as_only : only_sender t t';
  as_host : send_host sid W bufs c' t';
  as_names : names_of c' = names_of c;
  as_tasks : cx_task_map c' ⊆ cx_task_map c;
  as_emitted : forall p, p ∈ emitted (sd_tail (tr_sq t)) c c' ->
    exists d, d ∈ tr_data t' /\ dg_imm d = pk_imm p /\ dg_bytes d = pk_bytes p /\ pk_stamp p <= dg_index d
}.

Lemma a_same sid W bufs c t c' :
  send_host sid W bufs c' t -> names_of c' = names_of c -> cx_task_map c' ⊆ cx_task_map c ->
  cx_posted_send c' = cx_posted_send c -> a_simulated sid W bufs c t c' t.
Proof.
  intros Hs Hn Ht Hp. constructor; try done; [by destruct t|].
  intros p. rewrite emitted_nil by done. by intros ?%elem_of_nil.
Qed.

Lemma a_data_sim sid W bufs c t c' post_send new traverse now ret :
  transfer_inv t -> send_host sid W bufs c t ->
  (forall s, traverse s ≡ₚ (map_to_list s).*1) -> is_u64 now ->
  Context_sendDataPackets post_send new traverse c now = Ok (ret, c') ->
  exists t', a_simulated sid W bufs c t c' t'.
Proof.
  intros Hinv Hs Htr Hnow H. pose proof Hs as [Hv (info & Hmap & Hsq & Hrp & Hcw) Hbu Hcap Hmtu].
  unfold Context_sendDataPackets in H. rewrite Hmap, (traverse_one traverse) in H by done.
  cbn [Context_data_loop] in H.
  destruct (Context_send_session _ _ _ _ _) as [[r c1]|] eqn:Hses; [|done]. cbn [mbind outcome_bind] in H.
  assert (c1 = c') as -> by (destruct r; by injection H).
  destruct (send_session_sim post_send new sid now W t c Hinv Hnow Hcap info r c') as (t' & ds & ws & [? ? Hv' Hon Hda Hpm Hn Hse Hpo Hca]);
    try done; [by rewrite Hmap, lookup_singleton_eq|].
  destruct Hon as (Heq & Hhd & Htl & Hcp). injection Hse as Hact Hrto Htk. exists t'. constructor; try done.
  - split; [rewrite Heq; by destruct t|]. rewrite Hda. set_solver.
  - constructor; [done| | |lia|by rewrite (names_mtu _ _ Hn)].
    + rewrite Hact. by exists info.
    + eapply Forall_impl; [exact Hbu|]. intros x [Hx Hh]. split; [done|]. by apply (rtc_library_held t).
  - by rewrite Htk.
  - intros p. rewrite (emitted_app _ _ _ ws) by done. intros (w & -> & Hw)%list_elem_of_fmap.
    rewrite Forall_forall in Hca. destruct (Hca w Hw) as (d & Hd & Hidx & Him & Hby). exists d.
    rewrite Hda. split; [apply elem_of_app; by left|]. by split_and!.
Qed.

Lemma a_op_sim sid W bufs c t p c' :
  transfer_inv t -> send_host sid W bufs c t -> context_op bufs c p c' ->
  (forall k, p = Some k -> ack_image W (pk_stamp k) (pk_imm k) (pk_bytes k) /\ pk_stamp k ∈ tr_acks t /\
     sd_head (tr_sq t) < pk_stamp k + 0x1000000) ->
  exists t', a_simulated sid W bufs c t c' t'.
Proof.
  intros Hinv Hs Hop Hk. pose proof Hs as [Hv (info & Hmap & Hsq & Hrp & Hcw) Hbu Hcap Hmtu].
  destruct Hop as [post_recv new junk c p request grh wc now c' Hreq Hin Hgrh Hfit Hop Himm Hlen Hrun
    |post_recv new junk c wcs now c' Hall Hrun|post_send new traverse c ret c' Htr Hrun
    |post_send new traverse c now ret c' Htr Hnow Hrun|c id|reg access c addr len|dereg c addr ret c' Hrun].
  - destruct (Hk p eq_refl) as (Hik & Hin' & Hage).
    destruct (ack_arrives_sim post_recv new junk sid W bufs c t (pk_stamp p) (pk_imm p) (pk_bytes p) request
      grh wc now c') as (t' & Hst & Hon & Hs' & Hn & Htk & Hp); try done.
    exists t'. constructor; try done; [by rewrite Htk|]. intros k.
    rewrite emitted_nil by done. by intros ?%elem_of_nil.
  - eapply poll_sends in Hrun as (Hpt & Hp & Htk & Hact); [|done|exact Hmap]. exists t.
    unfold parts_of in Hpt. injection Hpt as Hm Hpm Hn Hmt.
    assert (Hnames : names_of c' = names_of c) by (unfold names_of; congruence).
    apply a_same; try done; [|by rewrite Htk]. constructor; try done; [| |by rewrite (names_mtu _ _ Hnames)].
    + unfold send_view, cx_pool. by rewrite Hm, Hpm.
    + destruct Hact as [->| ->]; [by exists info|].
      by exists (info <| si_ack_handle := ack_idle (si_ack_handle info) |>).
  - exists t. unfold Context_sendAckPackets in Hrun. rewrite Hmap, (traverse_one traverse) in Hrun by done.
    cbn [Context_ack_loop] in Hrun. unfold Context_send_ack in Hrun.
    rewrite Hmap, lookup_singleton_eq in Hrun. cbn [deref mbind outcome_bind] in Hrun.
    rewrite (proj2 (Z.leb_le _ _) Hrp) in Hrun. cbn in Hrun. injection Hrun as <- <-. by apply a_same.
  - by eapply a_data_sim.
  - exists t. unfold Context_freeTask. destruct (cx_task_map c !! id); [|by apply a_same].
    apply a_same; try done; [by apply (send_host_parts _ _ _ c)|apply delete_subseteq].
  - exists t. unfold Context_registerLocalMemory. destruct (RdmaContext_registerMemoryRegion _ _ _ _ _).
    apply a_same; try done. by apply (send_host_parts _ _ _ c).
  - exists t. unfold Context_unregisterLocalMemory in Hrun.
    destruct (RdmaContext_unregisterMemoryRegion _ _ _) as [[rc mrs]|]; [|done]. injection Hrun as <- <-.
    apply a_same; try done. by apply (send_host_parts _ _ _ c).
Qed.

(** What a call inside the receiving host's library is. *)
Record b_simulated (sid W : Z) (bufs : list Z) (c : Context) (t : transfer) (c' : Context) (t' : transfer)
  : Prop := {
  bs_steps : rtc library_step t t';
  bs_only : only_receives t t';
  bs_host : recv_host sid W bufs c' t';
  bs_names : names_of c' = names_of c;
  bs_tasks : cx_task_map c' ⊆ cx_task_map c;
  bs_emitted : forall p, p ∈ emitted (rq_tail (tr_rq t)) c c' ->
    pk_stamp p ∈ tr_acks t' /\ ack_image W (pk_stamp p) (pk_imm p) (pk_bytes p)
}.

Lemma b_same sid W bufs c t c' :
  recv_host sid W bufs c' t -> names_of c' = names_of c -> cx_task_map c' ⊆ cx_task_map c ->
  cx_posted_send c' = cx_posted_send c -> b_simulated sid W bufs c t c' t.
Proof.
  intros Hs Hn Ht Hp. constructor; try done; [by destruct t|].
  intros p. rewrite emitted_nil by done. by intros ?%elem_of_nil.
Qed.

(** A host that sends nothing has nothing to retransmit. *)
Lemma idle_data_sim sid W bufs c t c' post_send new traverse now ret :
  recv_host sid W bufs c t -> (forall s, traverse s ≡ₚ (map_to_list s).*1) ->
  Context_sendDataPackets post_send new traverse c now = Ok (ret, c') -> c' = c.
Proof.
  intros [_ _ (info & Hmap & _ & Hsq & _) (q & Hq & Hht) _ _ _ _ _] Htr H.
  unfold Context_sendDataPackets in H. rewrite Hmap, (traverse_one traverse) in H by done.
  cbn [Context_data_loop] in H. unfold Context_send_session in H.
  rewrite Hmap, lookup_singleton_eq in H. cbn [deref mbind outcome_bind] in H.
  destruct (_ <? _); [by injection H|]. rewrite Hsq in H. cbn [deref mbind outcome_bind] in H.
  unfold cx_send_queue in H. rewrite Hq in H. cbn [deref mbind outcome_bind SendQueue_getIndexRange] in H.
  rewrite Hht in H. replace (Z.to_nat _) with 0%nat in H by lia. cbn in H. by injection H.
Qed.

Lemma b_op_sim sid W bufs c t p c' :
  transfer_inv t -> recv_host sid W bufs c t -> context_op bufs c p c' ->
  (forall k, p = Some k -> exists d, d ∈ tr_data t /\ dg_imm d = pk_imm k /\ dg_bytes d = pk_bytes k /\
     rq_tail (tr_rq t) + rq_wnd_size (tr_rq t) - 0x1000000 <= dg_index d) ->
  exists t', b_simulated sid W bufs c t c' t'.
Proof.
  intros Hinv Hr Hop Hk. pose proof (rv_session _ _ _ _ _ Hr) as (info & Hmap & Hrq & Hsq & Hack).
  destruct Hop as [post_recv new junk c p request grh wc now c' Hreq Hin Hgrh Hfit Hop Himm Hlen Hrun
    |post_recv new junk c wcs now c' Hall Hrun|post_send new traverse c ret c' Htr Hrun
    |post_send new traverse c now ret c' Htr Hnow Hrun|c id|reg access c addr len|dereg c addr ret c' Hrun].
  - destruct (Hk p eq_refl) as (d & Hd & Hdi & Hdb & Hage). rewrite <- Hdi, <- Hdb in *.
    destruct (deliver_sim post_recv new junk sid W bufs c t d request grh wc now c')
      as (t' & Hst & Hon & Hr' & Hn & Htk & Hp); try done.
    exists t'. constructor; try done; [by rewrite Htk|]. intros k.
    rewrite emitted_nil by done. by intros ?%elem_of_nil.
  - eapply poll_sends in Hrun as (Hpt & Hp & Htk & Hact); [|done|exact Hmap]. exists t.
    pose proof Hpt as Hpt'. unfold parts_of in Hpt'. injection Hpt' as Hm Hpm Hn Hmt.
    assert (Hnames : names_of c' = names_of c) by (unfold names_of; congruence).
    apply b_same; try done; [|by rewrite Htk].
    destruct Hr as [? ? _ ? ? ? ? ? ?]. constructor; unfold cx_pool in *; rewrite ?Hm, ?Hpm; try done.
    destruct Hact as [->| ->]; [by exists info|].
    by exists (info <| si_ack_handle := ack_idle (si_ack_handle info) |>).
  - unfold Context_sendAckPackets in Hrun. rewrite Hmap, (traverse_one traverse) in Hrun by done.
    cbn [Context_ack_loop] in Hrun.
    destruct (Context_send_ack _ _ _ _) as [[r c1]|] eqn:Hsa; [|done]. cbn [mbind outcome_bind] in Hrun.
    assert (c1 = c') as -> by (destruct r; by injection Hrun).
    destruct (send_ack_sim post_send new sid W bufs c t r c' Hr Hsa) as (t' & ws & [? ? ? ? ? Htk Hpo Him]).
    exists t'. constructor; try done; [by rewrite Htk|]. intros p. rewrite (emitted_app _ _ _ ws) by done.
    intros (w & -> & Hw)%list_elem_of_fmap. rewrite Forall_forall in Him. by apply Him.
  - apply (idle_data_sim sid W bufs c t) in Hrun as ->; [|done..]. exists t. by apply b_same.
  - exists t. unfold Context_freeTask. destruct (cx_task_map c !! id); [|by apply b_same].
    apply b_same; try done; [by apply (recv_host_parts _ _ _ c)|apply delete_subseteq].
  - exists t. unfold Context_registerLocalMemory. destruct (RdmaContext_registerMemoryRegion _ _ _ _ _).
    apply b_same; try done. by apply (recv_host_parts _ _ _ c).
  - exists t. unfold Context_unregisterLocalMemory in Hrun.
    destruct (RdmaContext_unregisterMemoryRegion _ _ _) as [[rc mrs]|]; [|done]. injection Hrun as <- <-.
    apply b_same; try done. by apply (recv_host_parts _ _ _ c).
Qed.

Section simulation.
Variables sa sb W : Z.
Variables name_a name_b : string.
Variables bufs_a bufs_b : list Z.
Hypothesis sa_pos : 0 <= sa.
Hypothesis sb_pos : 0 <= sb.

(** A task of queue [sid] ends at the fragment whose number it records. *)
Definition task_ends (sid : Z) (is_send : bool) (n : nat) (task : Task) : Prop :=
  tk_queue task = sid /\ tk_is_send task = is_send /\
  exists k, (k <= n)%nat /\ tk_last_sn task = SHORT_SN (Z.of_nat k).

Record hosts_sim (x : hosts) (t : transfer) : Prop := {
  hm_inv : transfer_inv t;
  hm_a : send_host sa W bufs_a (ho_a x) t;
  hm_b : recv_host sb W bufs_b (ho_b x) t;
  hm_name_a : (names_of (ho_a x)).1 !! name_b = Some (sid_node sa) /\ session_id (sid_node sa) 0 = sa;
  hm_name_b : (names_of (ho_b x)).1 !! name_a = Some (sid_node sb) /\ session_id (sid_node sb) 0 = sb;
  hm_sent : tr_sent t = ho_sent x;
  hm_content : tr_content t = ho_content x;
  hm_posted : tr_posted t = ho_posted x;
  hm_read : tr_read t = ho_read x;
  hm_data : forall p, p ∈ ho_data x -> exists d, d ∈ tr_data t /\ dg_imm d = pk_imm p /\
    dg_bytes d = pk_bytes p /\ pk_stamp p <= dg_index d;
  hm_acks : forall p, p ∈ ho_acks x -> pk_stamp p ∈ tr_acks t /\ ack_image W (pk_stamp p) (pk_imm p) (pk_bytes p);
  hm_tasks_a : map_Forall (fun _ => task_ends sa true (length (ho_sent x))) (cx_task_map (ho_a x));
  hm_tasks_b : map_Forall (fun _ => task_ends sb false (length (ho_posted x))) (cx_task_map (ho_b x))
}.

Lemma recv_host_sender bufs sid c t t' :
  only_sender t t' -> recv_host sid W bufs c t -> recv_host sid W bufs c t'.
Proof. intros [-> _] [? ? ? ? ? ? ? ? ?]. by constructor. Qed.

Lemma send_host_receiver bufs sid c t t' :
  only_receives t t' -> send_host sid W bufs c t -> send_host sid W bufs c t'.
Proof. intros [-> _] [? ? ? ? ?]. by constructor. Qed.

Lemma map_Forall_sub {A} (P : A -> Prop) (m m' : gmap Z A) :
  m' ⊆ m -> map_Forall (fun _ => P) m -> map_Forall (fun _ => P) m'.
Proof. intros Hsub Hm k a Hk. apply (Hm k). by eapply lookup_weaken. Qed.

(** Calls inside the two libraries. *)
Lemma hosts_a_sim x t q p a' :
  hosts_sim x t -> pm_send_queue (cx_packet_manager (ho_a x)) !! sa = Some q ->
  (forall k, p = Some k -> k ∈ ho_acks x /\ sd_head q < pk_stamp k + 0x1000000) ->
  context_op bufs_a (ho_a x) p a' ->
  exists t', rtc transfer_step t t' /\
    hosts_sim (x <| ho_a := a' |> <| ho_data := emitted (sd_tail q) (ho_a x) a' ++ ho_data x |>) t'.
Proof.
  intros Hm Hq Hk Hop. pose proof Hm as [Hinv Ha Hb Hna Hnb Hse Hco Hpo Hre Hda Hac Hta Htb].
  pose proof (sh_view _ _ _ _ _ Ha) as (_ & _ & Hsq). rewrite Hq in Hsq. injection Hsq as ->.
  destruct (a_op_sim sa W bufs_a (ho_a x) t p a' Hinv Ha Hop) as (t' & [Hst Hon Ha' Hn Htk Hem]).
  { intros k Hpk. destruct (Hk k Hpk) as [Hin Hage]. by destruct (Hac k Hin). }
  exists t'. split; [by apply rtc_library_transfer|]. pose proof (recv_host_sender _ _ _ _ _ Hon Hb) as Hb'.
  destruct Hon as [Heq Hsub].
  constructor; cbn; try done; rewrite ?Hn; try done; try (by rewrite Heq).
  - by apply (rtc_library_inv t).
  - intros k [Hin|Hin]%elem_of_app; [by apply Hem|]. destruct (Hda k Hin) as (d & Hd & H). exists d.
    split; [by apply Hsub|done].
  - by eapply map_Forall_sub.
Qed.

Lemma hosts_b_sim x t q p b' :
  hosts_sim x t -> pm_receive_queue (cx_packet_manager (ho_b x)) !! sb = Some q ->
  (forall k, p = Some k -> k ∈ ho_data x /\ rq_tail q + rq_wnd_size q - 0x1000000 <= pk_stamp k) ->
  context_op bufs_b (ho_b x) p b' ->
  exists t', rtc transfer_step t t' /\
    hosts_sim (x <| ho_b := b' |> <| ho_acks := emitted (rq_tail q) (ho_b x) b' ++ ho_acks x |>) t'.
Proof.
  intros Hm Hq Hk Hop. pose proof Hm as [Hinv Ha Hb Hna Hnb Hse Hco Hpo Hre Hda Hac Hta Htb].
  pose proof (rv_queue _ _ _ _ _ Hb) as Hrq. rewrite Hq in Hrq. injection Hrq as ->.
  destruct (b_op_sim sb W bufs_b (ho_b x) t p b' Hinv Hb Hop) as (t' & [Hst Hon Hb' Hn Htk Hem]).
  { intros k Hpk. destruct (Hk k Hpk) as [Hin Hage]. destruct (Hda k Hin) as (d & Hd & Hi & Hy & Hs).
    exists d. split_and!; try done. lia. }
  exists t'. split; [by apply rtc_library_transfer|]. pose proof (send_host_receiver _ _ _ _ _ Hon Ha) as Ha'.
  destruct Hon as [Heq Hsub].
  constructor; cbn; try done; rewrite ?Hn; try done; try (by rewrite Heq).
  - by apply (rtc_library_inv t).
  - intros k [Hin|Hin]%elem_of_app; [by apply Hem|]. destruct (Hac k Hin) as (H1 & H2). split; [by apply Hsub|done].
  - by eapply map_Forall_sub.
Qed.

(** Calls of the applications. *)
Lemma task_ends_le sid is_send n n' task :
  (n <= n')%nat -> task_ends sid is_send n task -> task_ends sid is_send n' task.
Proof. intros Hn (? & ? & k & Hk & ?). split_and!; try done. exists k. split; [lia|done]. Qed.

Lemma find_session c name sid :
  (names_of c).1 !! name = Some (sid_node sid) -> session_id (sid_node sid) 0 = sid ->
  Controller_findSession_name (cx_controller c) name 0 = sid.
Proof. intros Hn Hs. unfold Controller_findSession_name. unfold names_of in Hn. cbn in Hn. by rewrite Hn. Qed.

Lemma hosts_send_sim x t q junk l ret a' :
  hosts_sim x t -> pm_send_queue (cx_packet_manager (ho_a x)) !! sa = Some q ->
  let f := sq_fragment_size (sd_secondary_queue q) in
  let sent := ho_sent x ++ fragments f l in
  Forall (buffer_valid f) l -> Z.of_nat (length sent) < 0x10000000000000000 ->
  Forall (outside_pool (cx_pool (ho_a x))) (fragments f l) -> lengths_agree sent (ho_posted x) ->
  Context_send junk (ho_a x) name_b l = Ok (ret, a') ->
  exists t', rtc transfer_step t t' /\ hosts_sim (x <| ho_a := a' |> <| ho_sent := sent |>
      <| ho_content := ho_content x ++ (buffer_bytes (cx_mem (ho_a x)) <$> fragments f l) |>) t'.
Proof.
  intros Hm Hq f sent Hv Htot Hout Hag H. pose proof Hm as [Hinv Ha Hb [Hna Hsa] Hnb Hse Hco Hpo Hre Hda Hac Hta Htb].
  pose proof Ha as [(Hv1 & Hv2 & Hv3) (info & Hmap & Hsq & Hrp & Hcw) Hbu Hcap Hmtu].
  rewrite Hq in Hv3. injection Hv3 as ->. unfold Context_send in H.
  rewrite (find_session _ _ sa Hna Hsa), (proj2 (Z.ltb_ge sa 0)) in H by lia.
  unfold Context_activate in H. rewrite Hmap, lookup_singleton_eq in H. cbn [mbind outcome_bind negb Z.eqb] in H.
  rewrite Hmap, lookup_singleton_eq in H. cbn [deref mbind outcome_bind] in H. rewrite Hsq in H.
  cbn [deref mbind outcome_bind] in H. unfold cx_send_queue in H. rewrite Hq in H.
  cbn [deref mbind outcome_bind] in H. rewrite <- Hv1, <- Hv2 in H.
  destruct (SendQueue_push _ _ _ _) as [[[[rc sn] q'] p']|] eqn:Hpush; [|done]. cbn [mbind outcome_bind] in H.
  pose proof Hinv as ([out Hsi] & _). pose proof Hsi as [Hrep Hpool _ _ _ _ _].
  destruct (SendQueue_push_spec _ _ _ _ _ l Hrep Hpool Hv) as
    (q1 & p1 & out1 & Hp1 & _ & Hpool1 & _ & Hsub & _ & _ & _ & Hcap1 & _); [by rewrite Hse|].
  rewrite Hpush in Hp1. injection Hp1 as -> -> <- <-. rewrite Hse in H. fold f sent in H.
  cbn [negb Z.eqb] in H. injection H as <- <-.
  rewrite <- Hv2 in Hout. unfold sent in Htot, Hag. rewrite <- Hse in Htot, Hag. rewrite <- Hpo in Hag.
  pose proof (step_send t l _ _ q' p' Hv Htot Hout Hag Hpush) as Hstep.
  eexists. split; [by apply rtc_once|]. constructor; cbn; try done.
  - by apply (transfer_step_inv t).
  - constructor; try done; cbn.
    + unfold send_view. cbn. split_and!; try done. by rewrite lookup_insert_eq.
    + by exists info.
    + eapply Forall_impl; [exact Hbu|]. intros b [Hz Hh]. split; [done|]. exists out1. split; [done|].
      apply Hsub. by apply (held_out t).
    + by rewrite Hcap1.
  - destruct Hb as [? ? ? ? ? ? ? ? ?]. by constructor.
  - by rewrite Hse.
  - by rewrite Hco, Hv1.
  - apply map_Forall_insert_2.
    + split_and!; try done. by exists (length sent).
    + intros k task Hk. apply (task_ends_le _ _ (length (ho_sent x))); [unfold sent; rewrite length_app; lia|].
      by apply (Hta k).
Qed.

Lemma hosts_receive_sim x t q junk l ret b' :
  hosts_sim x t -> pm_receive_queue (cx_packet_manager (ho_b x)) !! sb = Some q ->
  let f := sq_fragment_size (rq_secondary_queue q) in
  let posted := ho_posted x ++ fragments f l in
  Forall (buffer_valid f) l ->
  Z.of_nat (length posted) + rq_queue_capacity q < 0x10000000000000000 ->
  Forall (outside_pool (cx_pool (ho_b x))) (fragments f l) ->
  disjoint_posted (drop (length (ho_read x)) posted) -> lengths_agree (ho_sent x) posted ->
  Context_receive junk (ho_b x) name_a l = Ok (ret, b') ->
  exists t', rtc transfer_step t t' /\ hosts_sim (x <| ho_b := b' |> <| ho_posted := posted |>) t'.
Proof.
  intros Hm Hq f posted Hv Htot Hout Hdis Hag H.
  pose proof Hm as [Hinv Ha Hb Hna [Hnb Hsb] Hse Hco Hpo Hre Hda Hac Hta Htb].
  pose proof Hb as [Hrm Hrq (info & Hmap & Hrq' & Hsq & Hack) Hid Hbu Hpos Hwn Hne Hts].
  rewrite Hq in Hrq. injection Hrq as ->. unfold Context_receive in H.
  rewrite (find_session _ _ sb Hnb Hsb), (proj2 (Z.ltb_ge sb 0)) in H by lia.
  unfold Context_activate in H. rewrite Hmap, lookup_singleton_eq in H. cbn [mbind outcome_bind negb Z.eqb] in H.
  rewrite Hmap, lookup_singleton_eq in H. cbn [deref mbind outcome_bind] in H. rewrite Hrq' in H.
  cbn [deref mbind outcome_bind] in H. unfold cx_receive_queue in H. rewrite Hq in H.
  cbn [deref mbind outcome_bind] in H.
  destruct (ReceiveQueue_push _ _) as [[[rc sn] q']|] eqn:Hpush; [|done]. cbn [mbind outcome_bind] in H.
  pose proof Hinv as (_ & Hri & _). pose proof Hri as [Hrep Htight _ _ _ _ _ _].
  pose proof (rqr_cap _ _ _ Hrep) as Hcap.
  destruct (ReceiveQueue_push_spec _ _ _ l Hrep Htight Hv) as (q1 & Hp1 & _); [rewrite Hpo; fold f posted; lia|].
  rewrite Hpush in Hp1. injection Hp1 as -> -> <-. rewrite Hpo in H. fold f posted in H.
  cbn [negb Z.eqb] in H. injection H as <- <-.
  unfold posted in Htot, Hag, Hdis. rewrite <- Hpo in Htot, Hag, Hdis. rewrite <- Hre in Hdis. rewrite <- Hse in Hag.
  pose proof (step_post t l _ _ q' Hv Htot Hdis Hag Hpush) as Hstep.
  apply push_near in Hpush as (Hn' & Hw' & Hts'); [|done].
  eexists. split; [by apply rtc_once|]. constructor; cbn; try done.
  - by apply (transfer_step_inv t).
  - destruct Ha as [? ? ? ? ?]. by constructor.
  - constructor; cbn; rewrite ?Hw', ?Hts'; try done.
    + by rewrite lookup_insert_eq.
    + by exists info.
    + apply Forall_app. by split.
  - by rewrite Hpo.
  - apply map_Forall_insert_2.
    + split_and!; try done. by exists (length posted).
    + intros k task Hk. apply (task_ends_le _ _ (length (ho_posted x))); [unfold posted; rewrite length_app; lia|].
      by apply (Htb k).
Qed.

(** Every step of the hosts is a sequence of steps of the transfer. *)
Lemma hosts_step_sim x x' t :
  hosts_sim x t -> hosts_step sa sb name_a name_b bufs_a bufs_b x x' ->
  exists t', rtc transfer_step t t' /\ hosts_sim x' t'.
Proof.
  intros Hm Hstep. destruct Hstep as [x q p a' Hq Hk Hop|x q p b' Hq Hk Hop|x q junk l ret a' Hq f sent Hv Htot Hout Hag H
    |x q junk l ret b' Hq f posted Hv Htot Hout Hdis Hag H|x q addr l Hq Hsp Hout|x q n Hq Hn|x addr l Hsp].
  - by eapply hosts_a_sim.
  - by eapply hosts_b_sim.
  - by eapply hosts_send_sim.
  - by eapply hosts_receive_sim.
  - destruct Hm as [Hinv Ha Hb Hna Hnb Hse Hco Hpo Hre Hda Hac Hta Htb].
    pose proof Ha as [(Hv1 & Hv2 & Hv3) ? Hbu ? ?]. rewrite Hq in Hv3. injection Hv3 as ->.
    unfold unacked in Hsp. rewrite <- Hse in Hsp. rewrite <- Hv2 in Hout.
    pose proof (step_write t addr l Hsp Hout) as Hst. eexists. split; [by apply rtc_once|].
    pose proof Hinv as ([out Hsi] & _).
    constructor; cbn; try done; [by apply (transfer_step_inv t)| |by destruct Hb; constructor].
    constructor; try done; [unfold send_view; cbn; by rewrite Hv1|].
    eapply Forall_impl; [exact Hbu|]. intros b [Hz Hh]. split; [done|].
    exists out. split; [apply (si_pool _ _ (write_sender_inv t out addr l Hsi Hsp Hout))|by apply (held_out t)].
  - destruct Hm as [Hinv Ha Hb Hna Hnb Hse Hco Hpo Hre Hda Hac Hta Htb].
    pose proof (rv_queue _ _ _ _ _ Hb) as Hrq. rewrite Hq in Hrq. injection Hrq as ->. rewrite <- Hre in Hn.
    pose proof (step_read t n Hn) as Hst. eexists. split; [by apply rtc_once|].
    constructor; cbn; try done; [by apply (transfer_step_inv t)|by destruct Ha; constructor
      |by destruct Hb; constructor|].
    unfold unread, live_posted. by rewrite Hre, Hpo, (rv_mem _ _ _ _ _ Hb).
  - destruct Hm as [Hinv Ha Hb Hna Hnb Hse Hco Hpo Hre Hda Hac Hta Htb].
    unfold unread in Hsp. rewrite <- Hre, <- Hpo in Hsp.
    pose proof (step_rwrite t addr l Hsp) as Hst. eexists. split; [by apply rtc_once, step_library|].
    constructor; cbn; try done; [by apply (library_step_inv t)|by destruct Ha; constructor|].
    destruct Hb as [Hrm ? ? ? ? ? ? ? ?]. constructor; try done. cbn. by rewrite Hrm.
Qed.

Lemma hosts_run_sim x x' t :
  hosts_sim x t -> rtc (hosts_step sa sb name_a name_b bufs_a bufs_b) x x' ->
  exists t', rtc transfer_step t t' /\ hosts_sim x' t'.
Proof.
  intros Hm Hrun. revert t Hm. induction Hrun as [x|x y z Hs _ IH]; intros t Hm; [by exists t|].
  destruct (hosts_step_sim _ _ _ Hm Hs) as (t1 & H1 & Hm1). destruct (IH t1 Hm1) as (t2 & H2 & Hm2).
  exists t2. split; [by etrans|done].
Qed.
End simulation.

(** ** The first state *)

(** Host [c] has just activated session [sid] for the peer it knows as [name]; of its
    pool it holds at least the packets [bufs]. *)
Definition host_ready (sid : Z) (name : string) (bufs : list Z) (c : Context) : Prop :=
  exists c0 junk out,
    cx_active_session_map c0 = ∅ /\ cx_task_map c0 = ∅ /\
    pm_send_queue (cx_packet_manager c0) !! sid = None /\
    pm_receive_queue (cx_packet_manager c0) !! sid = None /\
    pm_config_ok (cx_packet_manager c0) /\ 0 <= cx_mtu_size c0 /\
    pool_inv (cx_pool c0) (cx_mem c0) out /\ 0 <= bp_max_packets (cx_pool c0) /\ bufs ⊆ out /\
    (names_of c0).1 !! name = Some (sid_node sid) /\ session_id (sid_node sid) 0 = sid /\ 0 <= sid /\
    Context_activate junk c0 sid = Ok (0, c).

Record ready_facts (sid : Z) (name : string) (bufs : list Z) (c : Context) : Prop := {
  rf_session : exists info, cx_active_session_map c = {[sid := info]} /\
    si_send_queue info = Some sid /\ si_receive_queue info = Some sid /\
    si_recv_packets info <= si_ack_packets info /\ cw_cwnd (si_wnd info) = 1 /\
    ack_ready (cx_pool c) (si_ack_handle info);
  rf_tasks : cx_task_map c = ∅;
  rf_config : pm_config_ok (cx_packet_manager c);
  rf_mtu : 0 <= cx_mtu_size c;
  rf_pool : exists out, pool_inv (cx_pool c) (cx_mem c) out /\ bufs ⊆ out;
  rf_max : 0 <= bp_max_packets (cx_pool c);
  rf_name : (names_of c).1 !! name = Some (sid_node sid) /\ session_id (sid_node sid) 0 = sid /\ 0 <= sid;
  rf_queues : exists junk sq rq, let pm := cx_packet_manager c in
    pm_send_queue pm !! sid = Some sq /\ pm_receive_queue pm !! sid = Some rq /\
    SendQueue_ctor (pm_mtu_size pm) (pm_queue_capacity pm) (pm_wnd_size pm) (sid_session sid) junk = Ok sq /\
    ReceiveQueue_ctor (pm_mtu_size pm) (pm_queue_capacity pm) (pm_wnd_size pm) (sid_session sid) = Ok rq
}.

Lemma pool_out_in_pool p m out b :
  pool_inv p m out -> 0 <= bp_max_packets p -> b ∈ out -> in_pool p b /\ sizeof_PktHdr <= bp_mtu_size p.
Proof.
  intros (fl & _ & HP & Hok) Hmax Hb.
  assert (Hin : b ∈ pool_blocks (bp_arena p) (bp_mtu_size p) (Z.to_nat (bp_max_packets p)))
    by (rewrite <- HP; set_solver).
  destruct (pool_block_range _ _ _ _ Hok Hin) as (_ & Hnz & Hlo & Hhi).
  rewrite Z2Nat.id in Hhi by lia. destruct Hok as (_ & Hm & _). by unfold in_pool.
Qed.

Lemma setup_queues pm sid junk pm' :
  pm_send_queue pm !! sid = None -> pm_receive_queue pm !! sid = None ->
  PacketManager_setup pm sid junk = Ok pm' ->
  pm_pool pm' = pm_pool pm /\ pm_mtu_size pm' = pm_mtu_size pm /\
  pm_queue_capacity pm' = pm_queue_capacity pm /\ pm_wnd_size pm' = pm_wnd_size pm /\
  exists sq rq, pm_send_queue pm' !! sid = Some sq /\ pm_receive_queue pm' !! sid = Some rq /\
    SendQueue_ctor (pm_mtu_size pm) (pm_queue_capacity pm) (pm_wnd_size pm) (sid_session sid) junk = Ok sq /\
    ReceiveQueue_ctor (pm_mtu_size pm) (pm_queue_capacity pm) (pm_wnd_size pm) (sid_session sid) = Ok rq.
Proof.
  intros Hs Hr H. unfold PacketManager_setup, PacketManager_getSendQueue in H. rewrite Hs in H.
  destruct (SendQueue_ctor _ _ _ _ _) as [sq|] eqn:Hsq; [|done]. cbn [mbind outcome_bind] in H.
  unfold PacketManager_getReceiveQueue in H. cbn [pm_receive_queue] in H.
  match type of H with context [match ?e !! sid with _ => _ end] => change e with (pm_receive_queue pm) in H end.
  rewrite Hr in H. cbn [pm_mtu_size pm_queue_capacity pm_wnd_size] in H.
  destruct (ReceiveQueue_ctor _ _ _ _) as [rq|] eqn:Hrq; [|done]. cbn [mbind outcome_bind] in H.
  unfold PacketManager_getMcastSendQueue in H. outcome_run; subst pm'; cbn;
    (split_and!; try done; exists sq, rq; rewrite !lookup_insert_eq; by split_and!).
Qed.

Lemma host_ready_facts sid name bufs c : host_ready sid name bufs c -> ready_facts sid name bufs c.
Proof.
  intros (c0 & junk & out & Hact & Htk & Hsq & Hrq & Hcfg & Hmtu & Hpool & Hmax & Hsub & Hn & Hid & Hpos & H).
  unfold Context_activate in H. rewrite Hact, lookup_empty in H.
  destruct (allocatePacket_inv (cx_pool c0) (cx_mem c0) out (si_ack_handle (SessionInfo_ctor junk)) false Hpool)
    as [(p' & h' & Ha & Hpb & Hg & Hnz & Hnin & Hblk & Har & Hmt & Hmx & Hpool')|[Ha _]]; [|by rewrite Ha in H].
  assert (Hh : h' = mkPacketHandle 0 0 0 0 0 false false 0 false (ph_packet_buf h') 0 0).
  { unfold PacketBufferPool_allocatePacket in Ha. destruct (_ =? 0); [done|]. by injection Ha as _ <-. }
  rewrite Ha in H. cbn [negb Z.eqb] in H.
  destruct (PacketManager_setup _ _ _) as [pm|] eqn:Hset; [|done]. injection H as <-.
  apply setup_queues in Hset as (Hpp & Hpm & Hpc & Hpw & sq & rq & Hs & Hr & Hsc & Hrc); [|done..].
  cbn in Hpp, Hpm, Hpc, Hpw, Hsc, Hrc.
  assert (Hmax' : 0 <= bp_max_packets p') by (by rewrite Hmx).
  constructor; unfold cx_pool; cbn; rewrite ?Hpp; try done.
  - eexists. split; [by rewrite Hact, insert_insert_eq, insert_empty|]. cbn. split_and!; try done.
    destruct (pool_out_in_pool p' (cx_mem c0) _ (ph_packet_buf h') Hpool' Hmax') as [Hin Hsz]; [set_solver|].
    unfold ack_ready. rewrite Hh. by split_and!.
  - unfold pm_config_ok in *. by rewrite Hpm, Hpc, Hpw.
  - exists (ph_packet_buf h' :: out). split; [done|set_solver].
  - exists junk, sq, rq. rewrite Hpm, Hpc, Hpw. by split_and!.
Qed.

Definition hosts_init (sa sb : Z) (name_a name_b : string) (bufs_a bufs_b : list Z) (x : hosts) : Prop :=
  host_ready sa name_b bufs_a (ho_a x) /\ host_ready sb name_a bufs_b (ho_b x) /\
  Z.max 8 (pm_wnd_size (cx_packet_manager (ho_b x)) + 1) < pm_queue_capacity (cx_packet_manager (ho_a x)) /\
  (pm_queue_capacity (cx_packet_manager (ho_b x)) | 0x1000000) /\
  ho_data x = [] /\ ho_acks x = [] /\ ho_sent x = [] /\ ho_content x = [] /\ ho_posted x = [] /\ ho_read x = [].

Lemma hosts_init_sim sa sb name_a name_b bufs_a bufs_b x :
  hosts_init sa sb name_a name_b bufs_a bufs_b x ->
  exists t W, transfer_init t /\ 0 <= sa /\ 0 <= sb /\ hosts_sim sa sb W name_a name_b bufs_a bufs_b x t.
Proof.
  intros (Ha & Hb & Hw & Hdiv & Hda & Hac & Hse & Hco & Hpo & Hre).
  apply host_ready_facts in Ha as [(ia & Hia & Hia1 & Hia2 & Hia3 & Hia4 & Hia5) Hta (Hma & Hca & Hwa) Hmtu
    (outa & Hpa & Hsuba) Hmxa (Hna & Hida & Hsa) (junk & sqa & rqa & Hsqa & _ & Hscta & _)].
  apply host_ready_facts in Hb as [(ib & Hib & Hib1 & Hib2 & Hib3 & Hib4 & Hib5) Htb (Hmb & Hcb & Hwb) _
    (outb & Hpb & Hsubb) Hmxb (Hnb & Hidb & Hsb) (junkb & sqb & rqb & Hsqb & Hrqb & Hsctb & Hrctb)].
  set (W := Z.max 8 (pm_wnd_size (cx_packet_manager (ho_b x)) + 1)) in *.
  set (t := mkTransfer (cx_mem (ho_a x)) (cx_pool (ho_a x)) sqa (cx_mem (ho_b x)) rqb [] [] [] [] [] ∅ []).
  assert (Hinit : transfer_init t).
  { split_and!; try done.
    - exists (pm_mtu_size (cx_packet_manager (ho_a x))), (pm_queue_capacity (cx_packet_manager (ho_a x))),
        (pm_wnd_size (cx_packet_manager (ho_a x))), (sid_session sa), junk, outa.
      split_and!; try done; try lia. unfold sid_session. word_lia.
    - exists (pm_mtu_size (cx_packet_manager (ho_b x))), (pm_queue_capacity (cx_packet_manager (ho_b x))),
        (pm_wnd_size (cx_packet_manager (ho_b x))), (sid_session sb). by split_and!; try lia. }
  destruct (SendQueue_ctor_rep _ _ _ (sid_session sa) junk Hma Hca Hwa) as (qa & Hqa & _ & _ & _ & _ & Hcapa & _).
  rewrite Hscta in Hqa. injection Hqa as <-.
  destruct (SendQueue_ctor_rep _ _ _ (sid_session sb) junkb Hmb Hcb Hwb) as (qb & Hqb & _ & Hhb & Htlb & _).
  rewrite Hsctb in Hqb. injection Hqb as <-.
  destruct (ReceiveQueue_ctor_rep _ _ _ (sid_session sb) Hmb Hcb Hwb) as (rb & Hrb & _ & _ & Hrh & Hrt & Hrw & _).
  rewrite Hrctb in Hrb. injection Hrb as <-.
  exists t, W. split_and!; try done. constructor; rewrite ?Hda, ?Hac, ?Hse, ?Hco, ?Hpo, ?Hre, ?Hta, ?Htb; try done.
  - by apply transfer_init_inv.
  - constructor; try done; cbn; [exists ia; split_and!; try done; lia| |lia].
    apply Forall_forall. intros b Hbin. apply Hsuba in Hbin.
    destruct (pool_out_in_pool _ _ _ b Hpa Hmxa Hbin) as [[Hnz _] _]. split; [done|]. by exists outa.
  - constructor; try done; cbn.
    + by exists ib.
    + exists sqb. split; [done|]. by rewrite Hhb, Htlb.
    + apply Forall_forall. intros b Hbin. apply Hsubb in Hbin. by apply (pool_out_in_pool _ _ _ b Hpb Hmxb).
    + rewrite Hrw. lia.
    + unfold rq_near. rewrite Hrh, Hrt, Hrw. change (u64 (0 - 0)) with 0. lia.
    + unfold ReceiveQueue_ctor in Hrctb. destruct (_ <? _); [done|]. by injection Hrctb as <-.
  - intros p Hp. by apply elem_of_nil in Hp.
  - intros p Hp. by apply elem_of_nil in Hp.
Qed.

(** ** Theorems *)

(** The transfer [t] that two hosts carry out. *)
Definition hosts_view (sa sb : Z) (x : hosts) (t : transfer) : Prop :=
  tr_smem t = cx_mem (ho_a x) /\ tr_pool t = cx_pool (ho_a x) /\
  pm_send_queue (cx_packet_manager (ho_a x)) !! sa = Some (tr_sq t) /\
  tr_rmem t = cx_mem (ho_b x) /\ pm_receive_queue (cx_packet_manager (ho_b x)) !! sb = Some (tr_rq t) /\
  tr_sent t = ho_sent x /\ tr_content t = ho_content x /\ tr_posted t = ho_posted x /\ tr_read t = ho_read x /\
  (forall p, p ∈ ho_data x -> exists d, d ∈ tr_data t /\ dg_imm d = pk_imm p /\ dg_bytes d = pk_bytes p).

Lemma hosts_sim_view sa sb W name_a name_b bufs_a bufs_b x t :
  hosts_sim sa sb W name_a name_b bufs_a bufs_b x t -> hosts_view sa sb x t.
Proof.
  intros [_ Ha Hb _ _ ? ? ? ? Hda _ _ _]. destruct (sh_view _ _ _ _ _ Ha) as (? & ? & ?).
  destruct Hb as [? ? _ _ _ _ _ _ _]. unfold hosts_view. split_and!; try done.
  intros p Hp. destruct (Hda p Hp) as (d & ? & ? & ? & _). by exists d.
Qed.

(** Within one cycle of sequence numbers a task reported complete is complete. *)
Lemma status_complete {Q : Type} `{WindowQueue Q} (q : Q) n k :
  wq_wf q -> wq_head q <= n < 0x1000000 -> (Z.of_nat k <= n) ->
  queue_status q (SHORT_SN (Z.of_nat k)) = Ok SUCCESS -> Z.of_nat k <= wq_tail q.
Proof.
  intros Hwf Hn Hk Hs. pose proof (wq_window q Hwf) as [Ho _].
  rewrite status_in_cycle in Hs by (try done; unfold cycle; rewrite !Z.div_small by lia; done).
  by destruct (decide _) in Hs.
Qed.

Lemma send_status_complete sa sb W name_a name_b bufs_a bufs_b x t id :
  hosts_sim sa sb W name_a name_b bufs_a bufs_b x t -> Z.of_nat (length (ho_sent x)) < 0x1000000 ->
  Context_getStatus (ho_a x) id = Ok SUCCESS ->
  exists task k, cx_task_map (ho_a x) !! id = Some task /\ tk_last_sn task = SHORT_SN (Z.of_nat k) /\
    (k <= length (ho_sent x))%nat /\ Z.of_nat k <= sd_tail (tr_sq t).
Proof.
  intros [Hinv Ha _ _ _ Hse _ _ _ _ _ Hta _] Hn H. unfold Context_getStatus in H.
  destruct (cx_task_map (ho_a x) !! id) as [task|] eqn:Htask; [|done].
  destruct (Hta id task Htask) as (Hq & Hsd & k & Hk & Hsn). rewrite Hsd, Hq in H.
  destruct (sh_view _ _ _ _ _ Ha) as (_ & _ & Hsq). unfold cx_send_queue in H. rewrite Hsq in H.
  cbn [deref mbind outcome_bind] in H. rewrite Hsn in H. exists task, k. split_and!; try done.
  destruct Hinv as ([out Hs] & _). destruct Hs as [Hrep _ _ Hcap _ _ _].
  pose proof (sqb_bound _ _ _ (sdr_backlog _ _ _ Hrep)) as Hb. rewrite Hse in Hb, Hrep.
  change (Z.of_nat k <= wq_tail (tr_sq t)).
  apply (status_complete (tr_sq t) (Z.of_nat (length (ho_sent x)))); try done; try (cbn; lia).
  split; [lia|by exists (ho_sent x), out].
Qed.

Lemma receive_status_complete sa sb W name_a name_b bufs_a bufs_b x t id :
  hosts_sim sa sb W name_a name_b bufs_a bufs_b x t -> Z.of_nat (length (ho_posted x)) < 0x1000000 ->
  rq_queue_capacity (tr_rq t) < 0x1000000 -> Context_getStatus (ho_b x) id = Ok SUCCESS ->
  exists task k, cx_task_map (ho_b x) !! id = Some task /\ tk_last_sn task = SHORT_SN (Z.of_nat k) /\
    (k <= length (ho_posted x))%nat /\ Z.of_nat k <= rq_tail (tr_rq t).
Proof.
  intros [Hinv _ Hb _ _ _ _ Hpo _ _ _ _ Htb] Hn Hcap H. unfold Context_getStatus in H.
  destruct (cx_task_map (ho_b x) !! id) as [task|] eqn:Htask; [|done].
  destruct (Htb id task Htask) as (Hq & Hsd & k & Hk & Hsn). rewrite Hsd, Hq in H.
  unfold cx_receive_queue in H. rewrite (rv_queue _ _ _ _ _ Hb) in H.
  cbn [deref mbind outcome_bind] in H. rewrite Hsn in H. exists task, k. split_and!; try done.
  destruct Hinv as (_ & [Hrep _ _ _ _ _ _ _] & _).
  pose proof (sqb_bound _ _ _ (rqr_backlog _ _ _ Hrep)) as Hbd. rewrite Hpo in Hbd, Hrep.
  change (Z.of_nat k <= wq_tail (tr_rq t)).
  apply (status_complete (tr_rq t) (Z.of_nat (length (ho_posted x)))); try done; try (cbn; lia).
  split; [lia|by exists (ho_posted x), (tr_received t)].
Qed.

(** [C2] The contexts implement the transfer.  From two contexts that have activated
    a session with each other, every run of their methods ([send], [receive],
    [freeTask], registration of memory, [pollCompletedPackets], [sendAckPackets],
    [sendDataPackets]), in any interleaving, with any results of the verbs and any
    loss, duplication and reordering of the packets the NICs accepted, is a run of
    the two-host transfer: memories, queues and histories are the same, and every
    data packet on the network is one of its datagrams. *)
Theorem contexts_refine_transfer sa sb name_a name_b bufs_a bufs_b x0 x :
  hosts_init sa sb name_a name_b bufs_a bufs_b x0 ->
  rtc (hosts_step sa sb name_a name_b bufs_a bufs_b) x0 x ->
  exists t0 t, transfer_init t0 /\ rtc transfer_step t0 t /\ hosts_view sa sb x t.
Proof.
  intros Hinit Hrun. destruct (hosts_init_sim _ _ _ _ _ _ _ Hinit) as (t0 & W & Ht0 & Hsa & Hsb & Hsim).
  destruct (hosts_run_sim _ _ _ _ _ _ _ Hsa Hsb _ _ _ Hsim Hrun) as (t & Hsteps & Hsim').
  exists t0, t. split_and!; try done. by eapply hosts_sim_view.
Qed.


(** ** A run: "Hello" from one context to the other *)

(** A connected context with one packet posted for receiving. *)
Definition demo_posted : Context := Eval vm_compute in
  outcome_state (demo_connected 8)
    (Context_post_handles Context.demo_post demo_new 1 0
       ((demo_connected 8) <| cx_recv_handles := [demo_junk] |>)).
Definition demo_buf : Z := Eval vm_compute in
  match map_to_list (cx_heap demo_posted) with (_, r) :: _ => req_addr0 r | [] => 0 end.
Definition demo_host : Context := Eval vm_compute in
  outcome_state demo_posted (Context_activate demo_junk demo_posted 0).

Lemma demo_host_ready : host_ready 0 "b" [demo_buf] demo_host.
Proof.
  assert (Hpool : pool_inv (cx_pool demo_posted) (cx_mem demo_posted) [demo_buf]).
  { destruct (construct_inv (fun _ _ => 4096) 0 256 8 ∅) as (p & m & Hc & _ & _ & _ & Hinv);
      [unfold arena_ok, sizeof_PktHdr; lia|].
    assert (HE : match PacketBufferPool_construct (fun _ _ => 4096) 0 (PacketBufferPool_ctor 256 8) ∅ with
                 | Ok (_, p, m) =>
                     let '(rc, p', h') := PacketBufferPool_allocatePacket p m demo_junk true in
                     rc = 0 /\ cx_pool demo_posted = p' /\ cx_mem demo_posted = m /\ demo_buf = ph_packet_buf h'
                 | Trap _ => False
                 end) by (vm_compute; repeat split; reflexivity).
    rewrite Hc in HE. destruct (allocatePacket_inv p m [] demo_junk true Hinv)
      as [(p' & h' & Ha & _ & _ & _ & _ & _ & _ & _ & _ & Hinv')|[Ha _]]; rewrite Ha in HE; [|by destruct HE].
    destruct HE as (_ & -> & -> & ->). exact Hinv'. }
  exists demo_posted, demo_junk, [demo_buf]. split_and!; try done; by vm_compute.
Qed.

Definition demo_grh : list Z := repeat 0 8 ++ repeat 8 16 ++ repeat 0 16.
Definition demo_wc (p : packet) : ibv_wc :=
  mkWc 1 true IBV_WC_RECV (pk_imm p) true (kGRHSize + Z.of_nat (length (pk_bytes p))) 31.
Definition demo_arrive (c : Context) (p : packet) (now : Z) : Context :=
  outcome_state c (c' ← Context_poll_loop Context.demo_post demo_new demo_junk
    (c <| cx_mem := st_bytes (cx_mem c) demo_buf (demo_grh ++ pk_bytes p) |>) now [demo_wc p]; Ok (0, c')).

(** The sender's application writes and submits, the receiver's posts a buffer. *)
Definition demo_a1 : Context := Eval vm_compute in
  outcome_state demo_host (Context_send demo_junk
    (demo_host <| cx_mem := st_bytes (cx_mem demo_host) 100000 [72; 101; 108; 108; 111] |>) "b"
    [mkBuffer 100000 5]).
Definition demo_b1 : Context := Eval vm_compute in
  outcome_state demo_host (Context_receive demo_junk demo_host "b" [mkBuffer 200000 5]).
(** The packet is sent, delivered and acknowledged. *)
Definition demo_a2 : Context := Eval vm_compute in
  outcome_state demo_a1 (Context_sendDataPackets Context.demo_post demo_new demo_traverse demo_a1 10000).
Definition demo_wire : list packet := Eval vm_compute in emitted 0 demo_a1 demo_a2.
Definition demo_b2 : Context := Eval vm_compute in
  match demo_wire with p :: _ => demo_arrive demo_b1 p 10100 | [] => demo_b1 end.
Definition demo_b3 : Context := Eval vm_compute in
  outcome_state demo_b2 (Context_sendAckPackets Context.demo_post demo_new demo_traverse demo_b2).
Definition demo_back : list packet := Eval vm_compute in emitted 1 demo_b2 demo_b3.
Definition demo_a3 : Context := Eval vm_compute in
  match demo_back with p :: _ => demo_arrive demo_a2 p 10200 | [] => demo_a2 end.

Definition demo_x0 : hosts := mkHosts demo_host demo_host [] [] [] [] [] [].
Definition demo_a0 : Context :=
  demo_host <| cx_mem := st_bytes (cx_mem demo_host) 100000 [72; 101; 108; 108; 111] |>.
Definition demo_x1 : hosts :=
  mkHosts demo_a1 demo_b1 [] [] [mkBuffer 100000 5] [[72; 101; 108; 108; 111]] [mkBuffer 200000 5] [].
Definition demo_x2 : hosts := demo_x1 <| ho_a := demo_a2 |> <| ho_data := demo_wire |>.
Definition demo_x3 : hosts := demo_x2 <| ho_b := demo_b2 |>.
Definition demo_x4 : hosts := demo_x3 <| ho_b := demo_b3 |> <| ho_acks := demo_back |>.
Definition demo_x5 : hosts :=
  demo_x4 <| ho_a := demo_a3 |> <| ho_read := [[72; 101; 108; 108; 111]] |>.

Notation demo_step := (hosts_step 0 0 "b" "b" [demo_buf] [demo_buf]).

Ltac demo_outside := repeat (apply Forall_cons; split); try apply Forall_nil; try done; right; congruence.

Lemma demo_submit : rtc demo_step demo_x0 demo_x1.
Proof.
  eapply rtc_l; [eapply (hs_write 0 0 "b" "b" _ _ demo_x0 _ 100000 [72; 101; 108; 108; 111])|].
  { vm_compute. reflexivity. }
  { intros b Hb. vm_compute in Hb. by apply elem_of_nil in Hb. }
  { right. vm_compute. congruence. }
  eapply rtc_l; [eapply (hs_send 0 0 "b" "b" _ _ _ _ demo_junk [mkBuffer 100000 5] 0 demo_a1)|].
  { vm_compute. reflexivity. }
  { repeat constructor; vm_compute; intuition congruence. }
  { vm_compute. reflexivity. }
  { vm_compute. demo_outside. }
  { intros [|i] b c _ Hc; by vm_compute in Hc. }
  { vm_compute. reflexivity. }
  eapply rtc_step_eq; [eapply (hs_receive 0 0 "b" "b" _ _ _ _ demo_junk [mkBuffer 200000 5] 0 demo_b1)|].
  { vm_compute. reflexivity. }
  { repeat constructor; vm_compute; intuition congruence. }
  { vm_compute. reflexivity. }
  { vm_compute. demo_outside. }
  { vm_compute. intros [|i] [|j] b c; intros [=] [=]; done. }
  { intros [|i] b c; intros Hb Hc; vm_compute in Hb, Hc; [|done]. injection Hb as <-. by injection Hc as <-. }
  { vm_compute. reflexivity. }
  vm_compute. reflexivity.
Qed.

Lemma demo_send : rtc demo_step demo_x1 demo_x2.
Proof.
  eapply rtc_step_eq; [eapply (hs_a 0 0 "b" "b" _ _ demo_x1 _ None demo_a2)|].
  { vm_compute. reflexivity. }
  { done. }
  { apply (op_data _ Context.demo_post demo_new demo_traverse _ 10000 0); [by intros|done|vm_compute; reflexivity]. }
  vm_compute. reflexivity.
Qed.

Lemma demo_deliver : rtc demo_step demo_x2 demo_x3.
Proof.
  eapply rtc_step_eq; [eapply (hs_b 0 0 "b" "b" _ _ demo_x2 _ (head demo_wire) demo_b2)|].
  { vm_compute. reflexivity. }
  { vm_compute. intros k [= <-]. split; [left|done]. }
  { eapply (op_arrival _ Context.demo_post demo_new demo_junk _ _ _ demo_grh
      (demo_wc (default (mkPacket 0 0 []) (head demo_wire))) 10100).
    - vm_compute. reflexivity.
    - apply list_elem_of_singleton. vm_compute. reflexivity.
    - reflexivity.
    - vm_compute. congruence.
    - reflexivity.
    - vm_compute. reflexivity.
    - vm_compute. reflexivity.
    - vm_compute. reflexivity. }
  vm_compute. reflexivity.
Qed.

Lemma demo_ack : rtc demo_step demo_x3 demo_x4.
Proof.
  eapply rtc_step_eq; [eapply (hs_b 0 0 "b" "b" _ _ demo_x3 _ None demo_b3)|].
  { vm_compute. reflexivity. }
  { done. }
  { apply (op_acks _ Context.demo_post demo_new demo_traverse _ 0); [by intros|vm_compute; reflexivity]. }
  vm_compute. reflexivity.
Qed.

Lemma demo_finish : rtc demo_step demo_x4 demo_x5.
Proof.
  eapply rtc_l; [eapply (hs_a 0 0 "b" "b" _ _ demo_x4 _ (head demo_back) demo_a3)|].
  { vm_compute. reflexivity. }
  { vm_compute. intros k [= <-]. split; [left|done]. }
  { eapply (op_arrival _ Context.demo_post demo_new demo_junk _ _ _ demo_grh
      (demo_wc (default (mkPacket 0 0 []) (head demo_back))) 10200).
    - vm_compute. reflexivity.
    - apply list_elem_of_singleton. vm_compute. reflexivity.
    - reflexivity.
    - vm_compute. congruence.
    - reflexivity.
    - vm_compute. reflexivity.
    - vm_compute. reflexivity.
    - vm_compute. reflexivity. }
  eapply rtc_step_eq; [eapply (hs_read 0 0 "b" "b" _ _ _ _ 1)|].
  { vm_compute. reflexivity. }
  { vm_compute. repeat constructor. }
  vm_compute. reflexivity.
Qed.

Lemma demo_hosts_run : rtc demo_step demo_x0 demo_x5.
Proof.
  etransitivity; [apply demo_submit|]. etransitivity; [apply demo_send|].
  etransitivity; [apply demo_deliver|]. etransitivity; [apply demo_ack|apply demo_finish].
Qed.

Lemma demo_hosts_init : hosts_init 0 0 "b" "b" [demo_buf] [demo_buf] demo_x0.
Proof.
  split; [apply demo_host_ready|]. split; [apply demo_host_ready|]. split_and!; try done.
  exists (0x1000000 / pm_queue_capacity (cx_packet_manager demo_host)). by vm_compute.
Qed.

Lemma contexts_refine_transfer_witness :
  exists t0 t, transfer_init t0 /\ rtc transfer_step t0 t /\ hosts_view 0 0 demo_x5 t.
Proof.
  apply (contexts_refine_transfer 0 0 "b" "b" [demo_buf] [demo_buf] demo_x0 demo_x5).
  - apply demo_hosts_init.
  - apply demo_hosts_run.
Defined.

