(* ===== verification/McastHostSend.v ===== *)
(** * Sending data to a group is a sequence of transfer steps

    [ContextMcast::sendDataPackets] (src/protocols/rdma_unreliable/context_mcast.cpp),
    for the session of one group, against the step relation of McastTransfer.v: the
    packets it serializes are transmissions of entries of the group's window, the
    windows it sets on a retransmission are window steps, and every work request that
    reaches the NIC carries the bytes and the immediate data of one of those
    transmissions.  Together with McastRound.v this is the exact behaviour of a round:
    which packets are sent, and what they hold. *)

From S2P Require Import Prelude MemoryRegions Text Mem Packet BufferPool SecondaryQueue.
From S2P Require Import SendQueue McastSendQueue ReceiveQueue PacketManager Tasks Congestion.
From S2P Require Import RequestCache Posting UdEndpoint Multicast Controller Context ContextMcast.
From S2P Require Import McastRound Transfer McastTransfer ContextParts HostSend.

(** The sending side of [c] for the group with queue [qid] is that of [t]. *)
Definition group_view (c : Context) (qid : Z) (t : mcast_transfer) : Prop :=
  mt_smem t = cx_mem c /\ mt_pool t = cx_pool c /\
  pm_mcast_send_queue (cx_packet_manager c) !! qid = Some (mt_sq t).

(** Everything but the sender's memory, the entries and window size of its queue and the
    datagrams. *)
Definition only_transmits (t t' : mcast_transfer) : Prop :=
  t' = t <| mt_smem := mt_smem t' |> <| mt_sq := mt_sq t' |> <| mt_data := mt_data t' |> /\
  ms_head (mt_sq t') = ms_head (mt_sq t) /\ ms_tail_list (mt_sq t') = ms_tail_list (mt_sq t) /\
  ms_queue_capacity (mt_sq t') = ms_queue_capacity (mt_sq t).

Lemma only_transmits_set t0 t m q ds :
  only_transmits t0 t -> ms_head q = ms_head (mt_sq t) -> ms_tail_list q = ms_tail_list (mt_sq t) ->
  ms_queue_capacity q = ms_queue_capacity (mt_sq t) ->
  only_transmits t0 (t <| mt_smem := m |> <| mt_sq := q |> <| mt_data := ds |>).
Proof. intros (H & Hh & Ht & Hc) ? ? ?. split; [by rewrite H|cbn; split_and!; congruence]. Qed.

Lemma only_transmits_min t t' :
  only_transmits t t' ->
  McastSendQueue_getMinTailIndex (mt_sq t') = McastSendQueue_getMinTailIndex (mt_sq t).
Proof. intros (_ & _ & Ht & _). unfold McastSendQueue_getMinTailIndex. by rewrite Ht. Qed.

Lemma rtc_mt_inv t t' : rtc mcast_transfer_step t t' -> mt_inv t -> mt_inv t'.
Proof. induction 1; eauto using mt_step_inv. Qed.

(** What the group's posting function hands to the NIC comes from the first requests, in
    order. *)
Lemma group_post_in_order post g hp l i rc g' hp' posted :
  RdmaMulticastContext_postSendRequest post g hp l i = Ok (rc, g', hp', posted) ->
  exists k, Forall2 (from_request hp) (take k l) posted.
Proof.
  unfold RdmaMulticastContext_postSendRequest. intros H.
  destruct (negb _); [injection H as <- <- <- <-; by exists 0%nat|].
  destruct (vec_at _ _) as [cn|]; [|done]. cbn [mbind outcome_bind] in H.
  destruct (post_batch _ _ _ _ _ _ _) as [[[[[rc0 d] hp0] po] err]|] eqn:Hp; [|done].
  cbn [mbind outcome_bind] in H. destruct (negb _); [done|]. injection H as <- <- <- <-.
  by eapply post_batch_in_order in Hp.
Qed.

Section loop.
Variable ibv_post_send : Z -> list ibv_wr -> Z * nat.
Variable operator_new : heap -> Z.
Variable addr : string.
Variables qid now : Z.
Variable t0 : mcast_transfer.
Variable r0 : replica.
Variable posted0 : list ibv_wr.
Hypothesis t0_inv : mt_inv t0.
Hypothesis now_u64 : is_u64 now.
Hypothesis new_fresh : forall hp, hp !! operator_new hp = None.
Hypothesis capacity_room : 1 < ms_queue_capacity (mt_sq t0).

(** The sender as seen by the slowest replica. *)
Definition slowest (t : mcast_transfer) : transfer :=
  mt_view t (McastSendQueue_getMinTailIndex (mt_sq t)) r0.

(** Requests at [ps] and work requests [ws] of the entries [js], below [curr]. *)
Definition carry_request (t : mcast_transfer) (ds : list datagram) (hp : heap) (j p : Z) : Prop :=
  exists r, hp !! p = Some r /\ carried_by (slowest t) j ds (Request_sges r) (req_imm_data r).
Definition carry_wr (t : mcast_transfer) (ds : list datagram) (j : Z) (w : ibv_wr) : Prop :=
  carried_by (slowest t) j ds (wr_sg_list w) (wr_imm w).

(** After the entries below [curr]: the context is that of [t], which is reached by
    steps that transmitted [ds]; entries [js] have been handed to the NIC as [ws], in
    this order, and entries [ps] are those of the requests still to be posted. *)
Record group_sending (curr : Z) (st : mcast_loop) (t : mcast_transfer) (ds : list datagram)
    (js ps : list Z) (ws : list ibv_wr) : Prop := {
  gs_steps : rtc mcast_transfer_step t0 t;
  gs_view : group_view (ml_context st) qid t;
  gs_only : only_transmits t0 t;
  gs_data : mt_data t = ds ++ mt_data t0;
  gs_posted : cx_posted_send (ml_context st) = posted0 ++ ws;
  gs_range : Forall (fun j => McastSendQueue_getMinTailIndex (mt_sq t0) <= j < curr) (js ++ ps);
  gs_ws : Forall2 (carry_wr t ds) js ws;
  gs_requests : Forall2 (carry_request t ds (cx_heap (ml_context st))) ps (ml_request_list st)
}.

Lemma group_flush_sim curr st t ds js ps ws st' :
  group_sending curr st t ds js ps ws -> ContextMcast_flush ibv_post_send addr st = Ok st' ->
  exists k ws', group_sending curr st' t ds (js ++ take k ps) [] ws'.
Proof.
  intros [? Hv ? ? Hp Hra Hws Hrq] H. unfold ContextMcast_flush in H.
  destruct (group_find _ _) as [g|]; [|done]. cbn [deref mbind outcome_bind] in H.
  destruct (RdmaMulticastContext_postSendRequest _ _ _ _ _) as [[[[rc g'] hp] new]|] eqn:Hpost; [|done].
  injection H as <-. apply group_post_in_order in Hpost as [k Hk]. exists k, (ws ++ new).
  constructor; cbn; try done.
  - by rewrite Hp, app_assoc.
  - rewrite app_nil_r. apply Forall_app in Hra as [? ?]. apply Forall_app. split; [done|by apply Forall_take].
  - apply Forall2_app; [done|]. apply (Forall2_take _ _ _ k) in Hrq.
    apply Forall2_same_length_lookup. split; [by rewrite (Forall2_length _ _ _ Hrq), (Forall2_length _ _ _ Hk)|].
    intros i j w Hj Hw. destruct (Forall2_lookup_l _ _ _ _ _ Hrq Hj) as (p & Hpp & r & Hr & Hc).
    destruct (Forall2_lookup_lr _ _ _ _ _ _ Hk Hpp Hw) as (r' & Hr' & Hwr).
    rewrite Hr in Hr'. injection Hr' as <-. unfold carry_wr. rewrite (wr_of_imm r w Hwr).
    destruct Hwr as (-> & _). done.
Qed.

(** Transmitting an entry, after the window may have been set to 1. *)
Lemma group_transmit_sim curr t h sq :
  mt_inv t -> only_transmits t0 t ->
  McastSendQueue_getMinTailIndex (mt_sq t) <= curr < ms_head (mt_sq t) ->
  McastSendQueue_getMutableEntry (mt_sq t) curr = Ok h -> ph_packet_buf h <> 0 -> ph_with_grh h = false ->
  sq = mt_sq t \/ sq = McastSendQueue_setWndSize (mt_sq t) 1 ->
  let h1 := h <| ph_ts := now |> in
  let h' := h1 <| ph_pkt_hdr_imm := PacketHandle_imm h1 |> in
  let m' := snd (PacketHandle_encode h1 (mt_smem t)) in
  let d := mkDatagram curr (PacketHandle_imm h1) (gather m' (PacketHandle_slices h1)) in
  let t' := t <| mt_smem := m' |> <| mt_sq := McastSendQueue_setEntry sq curr h' |>
              <| mt_data := d :: mt_data t |> in
  rtc mcast_transfer_step t t' /\ only_transmits t0 t' /\
  forall ds, (forall j l im, McastSendQueue_getMinTailIndex (mt_sq t) <= j < curr ->
      carried_by (slowest t) j ds l im -> carried_by (slowest t') j (d :: ds) l im) /\
    (forall l, sge_buffer <$> l = PacketHandle_slices h1 ->
       carried_by (slowest t') curr (d :: ds) l (PacketHandle_imm h1)).
Proof.
  intros Hinv Hon Hi Hent Hnz Hg Hsq h1 h' m' d t'. pose proof Hinv as [[out Hs] _].
  assert (Hsqf : ms_head sq = ms_head (mt_sq t) /\ ms_tail_list sq = ms_tail_list (mt_sq t) /\
            ms_queue_capacity sq = ms_queue_capacity (mt_sq t) /\ ms_handle sq = ms_handle (mt_sq t))
    by (destruct Hsq as [->| ->]; done).
  destruct Hsqf as (Hs1 & Hs2 & Hs3 & Hs4).
  assert (Hmin : McastSendQueue_getMinTailIndex sq = McastSendQueue_getMinTailIndex (mt_sq t))
    by (unfold McastSendQueue_getMinTailIndex; by rewrite Hs2).
  assert (H1 : rtc mcast_transfer_step t (t <| mt_sq := sq |>)).
  { destruct Hsq as [->| ->]; [by destruct t|]. apply rtc_once, mstep_window.
    destruct Hon as (_ & _ & _ & ->). word_lia. }
  split; [|split; [by apply only_transmits_set|]].
  { eapply rtc_r; [exact H1|].
    refine (mstep_transmit (t <| mt_sq := sq |>) curr now h (PacketHandle_slices h1) (PacketHandle_imm h1)
      h' m' _ _ _ _); cbn; try done; [by rewrite Hmin, Hs1| |by apply PacketHandle_serialize_vector_eq].
    unfold McastSendQueue_getMutableEntry. by rewrite Hs3, Hs4. }
  intros ds. apply (carried_transmit (slowest t) out curr now h h' d ds (slowest t')); try done.
  - by apply mt_sender_min.
  - intros j. unfold SendQueue_getMutableEntry. cbn. by rewrite Hs3, Hs4.
Qed.

(** The request for an entry gathers the slices of its packet. *)
Lemma group_request g t out curr h :
  mt_sender t out -> McastSendQueue_getMinTailIndex (mt_sq t) <= curr < ms_head (mt_sq t) ->
  McastSendQueue_getMutableEntry (mt_sq t) curr = Ok h ->
  ph_packet_buf h <> 0 /\ ph_with_grh h = false /\
  exists r, let h1 := h <| ph_ts := now |> in
    data_request g (PacketHandle_slices h1) (PacketHandle_imm h1) = Some r /\
    sge_buffer <$> Request_sges r = PacketHandle_slices h1 /\ req_imm_data r = PacketHandle_imm h1.
Proof.
  intros Hs Hi Hent.
  destruct (window_entry (slowest t) out curr (mt_sender_min t out r0 Hs) Hi)
    as (h0 & b & Hh0 & _ & _ & Hok & _ & Hpos & Hlen & _).
  change (McastSendQueue_getMutableEntry (mt_sq t) curr = Ok h0) in Hh0. rewrite Hent in Hh0.
  injection Hh0 as <-. destruct Hok as (Hnz & Hg & _ & _ & _ & _ & Hda & Hdl & _).
  split; [done|]. split; [done|]. unfold PacketHandle_slices. cbn [ph_data_buf ph_packet_buf ph_data_len field_set].
  rewrite Hda, Hdl, (proj2 (Z.eqb_neq _ 0)) by done. eexists. split; [reflexivity|]. split; [|done].
  apply request_sges_slices; cbn; try lia; unfold sizeof_PktHdr; word_lia.
Qed.

(** One more request: entry [curr] was transmitted as [d]. *)
Lemma group_sending_add curr st t ds js ps ws d r st' t' :
  group_sending curr st t ds js ps ws -> McastSendQueue_getMinTailIndex (mt_sq t0) <= curr ->
  rtc mcast_transfer_step t0 t' -> group_view (ml_context st') qid t' -> only_transmits t0 t' ->
  mt_data t' = d :: mt_data t -> cx_posted_send (ml_context st') = cx_posted_send (ml_context st) ->
  (forall j l im, McastSendQueue_getMinTailIndex (mt_sq t0) <= j < curr ->
     carried_by (slowest t) j ds l im -> carried_by (slowest t') j (d :: ds) l im) ->
  carried_by (slowest t') curr (d :: ds) (Request_sges r) (req_imm_data r) ->
  let ptr := operator_new (cx_heap (ml_context st)) in
  cx_heap (ml_context st') = <[ptr := r]> (cx_heap (ml_context st)) ->
  ml_request_list st' = ml_request_list st ++ [ptr] ->
  group_sending (curr + 1) st' t' (d :: ds) js (ps ++ [curr]) ws.
Proof.
  intros [Hst Hv Hon Hda Hp Hra Hws Hrq] Hlo Hst' Hv' Hon' Hda' Hp' Hold Hnew ptr Hheap Hlist.
  pose proof (new_fresh (cx_heap (ml_context st))) as Hfresh. fold ptr in Hfresh.
  apply Forall_app in Hra as [Hjs Hps]. constructor; try done.
  - by rewrite Hda', Hda.
  - by rewrite Hp'.
  - rewrite !Forall_app, Forall_singleton. split; [eapply Forall_impl; [exact Hjs|cbn; lia]|].
    split; [eapply Forall_impl; [exact Hps|cbn; lia]|lia].
  - apply Forall2_same_length_lookup. apply Forall2_same_length_lookup in Hws as [Hl Hws]. split; [done|].
    intros i j w Hj Hw. apply Hold; [|by eapply Hws]. by apply (Forall_lookup_1 _ _ _ _ Hjs Hj).
  - rewrite Hlist. apply Forall2_app; [|constructor; [|constructor]; exists r; by rewrite Hheap, lookup_insert_eq].
    apply Forall2_same_length_lookup. apply Forall2_same_length_lookup in Hrq as [Hl Hrq]. split; [done|].
    intros i j p Hj Hpp. destruct (Hrq i j p Hj Hpp) as (r1 & Hr1 & Hc). exists r1.
    rewrite Hheap, lookup_insert_ne by congruence. split; [done|]. apply Hold; [|done].
    by apply (Forall_lookup_1 _ _ _ _ Hps Hj).
Qed.

Lemma group_packet_sim curr st t ds js ps ws rc st' :
  group_sending curr st t ds js ps ws ->
  McastSendQueue_getMinTailIndex (mt_sq t0) <= curr < ms_head (mt_sq t0) ->
  ContextMcast_send_packet ibv_post_send operator_new now addr qid curr st = Ok (rc, st') ->
  exists t' ds' js' ps' ws', group_sending (curr + 1) st' t' ds' js' ps' ws' /\
    js' ++ ps' `sublist_of` js ++ ps ++
      (if entry_due now (rt_rto (cx_rto (ml_context st))) (mt_sq t) curr then [curr] else []).
Proof.
  intros Hgs Hi H. pose proof Hgs as [Hst Hv Hon Hda Hp Hra Hws Hrq]. pose proof Hv as (Hv1 & Hv2 & Hv3).
  pose proof (rtc_mt_inv _ _ Hst t0_inv) as Hinv. pose proof Hinv as [[out Hs] _].
  pose proof (only_transmits_min _ _ Hon) as Hmin. pose proof Hon as (_ & Hhd & _).
  assert (Hra' : Forall (fun j => McastSendQueue_getMinTailIndex (mt_sq t0) <= j < curr + 1) (js ++ ps))
    by (eapply Forall_impl; [exact Hra|cbn; lia]).
  unfold ContextMcast_send_packet, mx_queue in H. rewrite Hv3 in H. cbn [deref mbind outcome_bind] in H.
  unfold entry_due. destruct (McastSendQueue_getMutableEntry (mt_sq t) curr) as [h|] eqn:Hent; [|done].
  cbn [mbind outcome_bind] in H. destruct (Z.ltb_spec (u64 (now - ph_ts h)) (rt_rto (cx_rto (ml_context st)))) as [Hlt|Hge].
  { injection H as <- <-. exists t, ds, js, ps, ws. rewrite (proj2 (Z.leb_gt _ _)), app_nil_r by lia.
    split; [by constructor|done]. }
  rewrite (proj2 (Z.leb_le _ _) Hge). clear Hge.
  assert (Hrange : McastSendQueue_getMinTailIndex (mt_sq t) <= curr < ms_head (mt_sq t)) by lia.
  set (sess := if negb (ph_ts h =? 0) then _ else ml_session st) in H.
  set (sq := if negb (ph_ts h =? 0) then McastSendQueue_setWndSize _ _ else mt_sq t) in H.
  assert (Hsq : sq = mt_sq t \/ sq = McastSendQueue_setWndSize (mt_sq t) 1)
    by (unfold sq, sess; destruct (negb _); eauto).
  clearbody sq sess. destruct (group_find _ _) as [g|]; [|by destruct (PacketHandle_serialize_vector _ _) as [[? ?] ?]].
  destruct (group_request g t out curr h Hs Hrange Hent) as (Hnz & Hg & r & Hreq & Hsges & Himm).
  destruct (group_transmit_sim curr t h sq Hinv Hon Hrange Hent Hnz Hg Hsq) as (Hsteps & Hon' & Hcar).
  rewrite <- Hv1, PacketHandle_serialize_vector_eq in H by done.
  cbn [deref mbind outcome_bind] in H. rewrite Hreq in H.
  set (m' := snd (PacketHandle_encode _ _)) in *. set (h' := _ <| ph_pkt_hdr_imm := _ |>) in *.
  set (d := mkDatagram curr _ _) in *. set (t' := _ <| mt_data := _ |>) in *.
  cbn [ContextMcast_new_request] in H. set (st1 := mkMcastLoop _ sess _) in H.
  assert (Hgs1 : group_sending (curr + 1) st1 t' (d :: ds) js (ps ++ [curr]) ws).
  { eapply (group_sending_add curr st t ds js ps ws d r); try done; cbn; try lia.
    - by etrans.
    - split_and!; [done|done|]. cbn. by rewrite lookup_insert_eq.
    - intros j l im Hj. apply Hcar. lia.
    - rewrite Himm. by apply Hcar. }
  destruct (Nat.eqb _ _).
  - destruct (ContextMcast_flush _ _ _) as [st2|] eqn:Hfl; [|done]. injection H as <- <-.
    destruct (group_flush_sim _ _ _ _ _ _ _ _ Hgs1 Hfl) as (k & ws' & Hs').
    eexists _, _, _, _, _. split; [exact Hs'|]. rewrite app_nil_r. apply sublist_app; [done|]. apply sublist_take.
  - injection H as <- <-. eexists _, _, _, _, _. split; [exact Hgs1|done].
Qed.
End loop.

(** ** A round *)

(** Work request [w] is the packet of entry [i], in memory [m]. *)
Definition packet_of (t : mcast_transfer) (m : mem) (i : Z) (w : ibv_wr) : Prop :=
  exists d bytes, d ∈ mt_data t /\ dg_index d = i /\ mt_content t !! Z.to_nat i = Some bytes /\
    datagram_ok d bytes /\ wr_imm w = dg_imm d /\ wr_bytes m w = dg_bytes d.

(** Every datagram of a state is the image of the fragment of its index. *)
Lemma mt_datagram_ok t d :
  mt_inv t -> d ∈ mt_data t ->
  exists bytes, mt_content t !! Z.to_nat (dg_index d) = Some bytes /\ datagram_ok d bytes.
Proof.
  intros [[out Hs] Hall] Hd. pose proof (msr_some _ _ _ (mi_rep _ _ Hs)) as Hne.
  destruct (ms_tail_list (mt_sq t)) as [|tl tls]; [done|].
  apply Forall2_cons_inv_l in Hall as (r & rs & [_ Hl] & _ & _). by destruct (li_data _ Hl d Hd) as [_ ?].
Qed.

Lemma sublist_full {A} (l1 l2 : list A) : l1 `sublist_of` l2 -> (length l2 <= length l1)%nat -> l1 = l2.
Proof.
  induction 1 as [|x l1 l2 _ IH|x l1 l2 Hs _]; cbn; intros Hl; [done|f_equal; apply IH; lia|].
  apply sublist_length in Hs. lia.
Qed.

Section round.
Variable ibv_post_send : Z -> list ibv_wr -> Z * nat.
Variable operator_new : heap -> Z.
Variable addr : string.
Variables qid now depth max : Z.
Variable t0 : mcast_transfer.
Variable r0 : replica.
Variable c0 : Context.
Hypothesis t0_inv : mt_inv t0.
Hypothesis now_u64 : is_u64 now.
Hypothesis new_fresh : forall hp, hp !! operator_new hp = None.
Hypothesis capacity_room : 1 < ms_queue_capacity (mt_sq t0).
Hypothesis verbs_succeed : forall qp wrs, fst (ibv_post_send qp wrs) = 0.
Hypothesis rto_pos : 0 < rt_rto (cx_rto c0).
Let q0 := mt_sq t0.
Let tail := McastSendQueue_getMinTailIndex q0.
Let rto := rt_rto (cx_rto c0).
Hypothesis depth_room : 0 <= depth /\ depth + (ms_head q0 - tail) <= max < 0x80000000.

(** The first [k] entries that are due. *)
Definition due_entries (k : Z) : list Z := filter (fun i => entry_due now rto q0 i = true) (seqZ tail k).

(** After [k] entries: McastRound's invariant and the simulation, of the same state. *)
Definition round_state (k : Z) (st : mcast_loop) : Prop :=
  round_inv addr qid now rto q0 (cx_active_session_map c0) (cx_rto c0) depth max (cx_posted_send c0) k st /\
  exists t ds js ps ws,
    group_sending qid t0 r0 (cx_posted_send c0) (tail + k) st t ds js ps ws /\
    js ++ ps `sublist_of` due_entries k.

Lemma round_packet k st :
  0 <= k < ms_head q0 - tail -> round_state k st ->
  exists rc st', ContextMcast_send_packet ibv_post_send operator_new now addr qid (tail + k) st = Ok (rc, st') /\
    round_state (k + 1) st'.
Proof.
  intros Hk [Hro (t & ds & js & ps & ws & Hgs & Hsub)]. pose proof t0_inv as [[out Hs] _].
  destruct (send_packet_round ibv_post_send operator_new addr qid now rto q0 (cx_active_session_map c0)
    (cx_rto c0) (mt_sent t0) out depth max (cx_posted_send c0) verbs_succeed (mi_rep _ _ Hs) eq_refl rto_pos
    depth_room k st Hk Hro) as (rc & st' & Hrun & Hro').
  exists rc, st'. split; [exact Hrun|]. split; [exact Hro'|].
  eapply group_packet_sim in Hrun as (t' & ds' & js' & ps' & ws' & Hgs' & Hsub');
    try exact Hgs; try done; [|fold q0 tail; lia].
  exists t', ds', js', ps', ws'. rewrite Z.add_assoc. split; [done|]. etrans; [exact Hsub'|].
  destruct Hro as [[_ Hti] (q & Hq & _ & _ & _ & _ & _ & Hold) _ _].
  destruct (gs_view _ _ _ _ _ _ _ _ _ _ _ Hgs) as (_ & _ & Hq'). rewrite Hq in Hq'. injection Hq' as ->.
  replace (entry_due _ _ (mt_sq t) (tail + k)) with (entry_due now rto q0 (tail + k))
    by (unfold entry_due; by rewrite Hold, Hti by (fold tail; lia)).
  unfold due_entries. rewrite (seqZ_app tail k 1), filter_app by lia.
  rewrite (seqZ_cons (tail + k) 1), filter_cons by lia. rewrite (seqZ_nil (Z.succ (tail + k)) (Z.pred 1)) by lia.
  rewrite app_assoc. apply sublist_app; [exact Hsub|]. by destruct (entry_due now rto q0 (tail + k)).
Qed.

Lemma round_forEach n : forall k st,
  0 <= k -> k + Z.of_nat n = ms_head q0 - tail -> round_state k st ->
  exists st', ContextMcast_forEach ibv_post_send operator_new n now addr qid (tail + k) st = Ok st' /\
    round_state (ms_head q0 - tail) st'.
Proof.
  pose proof t0_inv as [[out Hs] _]. pose proof (ms_rep_head _ _ _ (mi_rep _ _ Hs)) as (Hmin & Hhd & _).
  fold q0 tail in Hmin, Hhd.
  induction n as [|n IH]; intros k st Hk Hn Hst; cbn [ContextMcast_forEach].
  { exists st. split; [done|]. by replace (ms_head q0 - tail) with k by lia. }
  destruct (round_packet k st ltac:(lia) Hst) as (rc & st1 & Hrun & Hst1).
  rewrite Hrun. cbn [mbind outcome_bind].
  replace (u64 (tail + k + 1)) with (tail + (k + 1)) by word_lia.
  apply IH; [lia|lia|done].
Qed.

(** The requests that remain are posted. *)
Lemma round_flush st :
  let n := ms_head q0 - tail in
  0 <= n -> round_state n st ->
  exists st', match ml_request_list st with
              | [] => Ok (ml_context st)
              | _ => st' ← ContextMcast_flush ibv_post_send addr st; Ok (ml_context st')
              end = Ok (ml_context st') /\ ml_request_list st' = [] /\ round_state n st'.
Proof.
  intros n Hn Hst. destruct (ml_request_list st) eqn:Hl; [by exists st|].
  pose proof Hst as [Hro (t & ds & js & ps & ws & Hgs & Hsub)].
  destruct (flush_round ibv_post_send addr qid now rto q0 _ _ _ _ _ verbs_succeed depth_room n st
    ltac:(fold tail; unfold n in *; lia) Hro) as (st' & Hrun & Hro' & Hnil).
  exists st'. rewrite Hrun. split; [done|]. split; [done|]. split; [exact Hro'|].
  eapply group_flush_sim in Hrun as (k & ws' & Hgs'); [|exact Hgs].
  eexists _, _, _, _, _. split; [exact Hgs'|]. rewrite app_nil_r. etrans; [|exact Hsub].
  apply sublist_app; [done|apply sublist_take].
Qed.

(** What the state shows once nothing remains. *)
Lemma round_done st :
  let n := ms_head q0 - tail in
  round_state n st -> ml_request_list st = [] ->
  exists t' posted, rtc mcast_transfer_step t0 t' /\ group_view (ml_context st) qid t' /\
    only_transmits t0 t' /\ cx_posted_send (ml_context st) = cx_posted_send c0 ++ posted /\
    cx_active_session_map (ml_context st) = cx_active_session_map c0 /\
    (forall i, tail <= i < ms_head q0 -> entry_fresh now rto (mt_sq t') i) /\
    Forall2 (packet_of t' (cx_mem (ml_context st))) (due_entries n) posted.
Proof.
  intros n [[[Hse _] (q & Hq & _ & _ & _ & _ & Hfresh & _) (g & cn & posted & _ & _ & _ & _ & Hp & Hcount) _]
    (t' & ds & js & ps & ws & Hgs & Hsub)] Hnil.
  pose proof Hgs as [Hst Hv Hon Hda Hpo _ Hws Hrq]. rewrite Hnil in Hrq, Hcount.
  apply Forall2_nil_inv_r in Hrq as ->. rewrite app_nil_r in Hsub. rewrite Hp in Hpo.
  apply app_inv_head in Hpo as <-. cbn in Hcount. rewrite Nat.add_0_r in Hcount.
  assert (js = due_entries n) as ->.
  { apply sublist_full; [done|]. rewrite (Forall2_length _ _ _ Hws), Hcount. done. }
  destruct Hv as (Hv1 & Hv2 & Hv3). rewrite Hq in Hv3. injection Hv3 as ->.
  exists t', posted. split_and!; try done.
  - intros i Hi. apply Hfresh. unfold n, tail in *. lia.
  - eapply Forall2_impl; [exact Hws|]. intros j w (h & d & _ & Hsl & Hd & Hidx & Him & Hby).
    assert (Hdt : d ∈ mt_data t') by (rewrite Hda; apply elem_of_app; by left).
    destruct (mt_datagram_ok t' d (rtc_mt_inv _ _ Hst t0_inv) Hdt) as (bytes & Hc & Hok).
    exists d, bytes. rewrite <- Hidx. split_and!; try done. unfold wr_bytes. rewrite Hsl, Hby. cbn. by rewrite <- Hv1.
Qed.
End round.

(** [C17] A round sends exactly the packets that are due, with their content.  In any
    reachable state of a transfer to a group whose first queue pair has room for the
    window, [sendDataPackets] for the group's session returns, and hands to the NIC, in
    order and once each, the packets of those entries of the window that were never sent
    or whose timer has run out: each work request gathers a header with the entry's
    number and the bytes the fragment held when it was pushed.  What it does is a run of
    the transfer; the window does not move, no entry of it is due afterwards, and the
    congestion state it computes on a retransmission is not kept: the session is as it
    was. *)
Theorem mcast_round_exact post_send new c now sid info name g cn qid ti t :
  (forall qp wrs, fst (post_send qp wrs) = 0) -> (forall hp : heap, hp !! new hp = None) ->
  mcast_transfer_init ti -> rtc mcast_transfer_step ti t -> group_view c qid t ->
  cx_active_session_map c !! sid = Some info ->
  ct_peer_name_rev_map (cx_controller c) !! sid_node sid = Some name ->
  group_find name (mx_groups c) = Some g -> mc_connections g !! 0%nat = Some cn ->
  si_mcast_send_queue info = Some qid ->
  0 < rt_rto (cx_rto c) -> is_u64 now -> 1 < ms_queue_capacity (mt_sq t) ->
  let tail := McastSendQueue_getMinTailIndex (mt_sq t) in
  let n := ms_head (mt_sq t) - tail in
  0 <= cn_send_wr_depth cn -> cn_send_wr_depth cn + n <= mc_max_wr_per_qp g < 0x80000000 ->
  exists c' t' posted,
    ContextMcast_send_session post_send new c now sid = Ok c' /\
    rtc mcast_transfer_step t t' /\ group_view c' qid t' /\ only_transmits t t' /\
    cx_active_session_map c' = cx_active_session_map c /\
    (forall i, tail <= i < ms_head (mt_sq t) -> entry_fresh now (rt_rto (cx_rto c)) (mt_sq t') i) /\
    cx_posted_send c' = cx_posted_send c ++ posted /\
    Forall2 (packet_of t' (cx_mem c'))
      (filter (fun i => entry_due now (rt_rto (cx_rto c)) (mt_sq t) i = true) (seqZ tail n)) posted.
Proof.
  intros Hverbs Hnew Hinit Hrtc Hv Hinfo Hname Hg Hcn Hqid Hrto Hnow Hcap tail n Hd0 Hroom.
  pose proof (mt_reachable_inv _ _ Hinit Hrtc) as Hinv. pose proof Hinv as [[out Hs] Hall].
  pose proof (ms_rep_head _ _ _ (mi_rep _ _ Hs)) as (Hmin & Hhd & _). fold tail in Hmin.
  destruct (mt_replicas t) as [|r0 rs].
  { apply Forall2_nil_inv_r in Hall. by pose proof (msr_some _ _ _ (mi_rep _ _ Hs)). }
  unfold ContextMcast_send_session, Controller_getMulticastContext, mx_queue.
  pose proof Hg as Hg'. unfold mx_groups in Hg'. rewrite Hinfo. cbn [deref mbind outcome_bind].
  rewrite Hname, Hg'. cbn [deref mbind outcome_bind]. rewrite Hqid. cbn [deref mbind outcome_bind].
  rewrite (proj2 (proj2 Hv)). cbn [deref mbind outcome_bind McastSendQueue_getIndexRange]. fold tail.
  replace (u64 (ms_head (mt_sq t) - tail)) with n by (unfold n; word_lia).
  assert (Hst0 : round_state name qid now (cn_send_wr_depth cn) (mc_max_wr_per_qp g) t r0 c 0
            (mkMcastLoop c info [])).
  { split.
    - split; cbn; [done| | |constructor].
      + exists (mt_sq t). split_and!; try done; [apply Hv|]. intros i Hi. lia.
      + exists g, cn, []. rewrite app_nil_r. split_and!; try done. cbn. lia.
    - exists t, [], [], [], []. split; [|apply sublist_nil_l]. constructor; cbn; try done.
      + split; [by destruct t|done].
      + by rewrite app_nil_r. }
  destruct (round_forEach post_send new name qid now (cn_send_wr_depth cn) (mc_max_wr_per_qp g) t r0 c Hinv
    Hnow Hnew Hcap Hverbs Hrto (conj Hd0 Hroom) (Z.to_nat n) 0 _ ltac:(lia) ltac:(fold tail n; lia) Hst0)
    as (st & Hrun & Hst). fold tail in Hrun, Hst. rewrite Z.add_0_r in Hrun. rewrite Hrun.
  cbn [mbind outcome_bind].
  destruct (round_flush post_send name qid now (cn_send_wr_depth cn) (mc_max_wr_per_qp g) t r0 c Hverbs
    (conj Hd0 Hroom) st ltac:(fold tail n; lia) Hst) as (st' & -> & Hnil & Hst').
  destruct (round_done name qid now _ _ t r0 c Hinv st' Hst' Hnil) as (t' & posted & Hdone).
  exists (ml_context st'), t', posted. by destruct Hdone as (? & ? & ? & ? & ? & ? & ?).
Qed.

(** ** A concrete round: the demonstration transfer with its packet not yet sent *)
Definition demo_gtransfer : Context :=
  demo_gsender <| cx_mem := mt_smem demo_m1 |>
    <| cx_packet_manager := (cx_packet_manager demo_gsender) <| pm_pool := mt_pool demo_m1 |>
         <| pm_mcast_send_queue := {[0 := mt_sq demo_m1]} |> |>.

Lemma demo_new_fresh hp : hp !! demo_new hp = None.
Proof.
  assert (Hmax : forall l x, x ∈ l -> x <= foldr Z.max 0 l).
  { induction l as [|y l IH]; intros x Hx; [by apply elem_of_nil in Hx|].
    cbn. apply elem_of_cons in Hx as [->|Hx]; [lia|]. specialize (IH x Hx). lia. }
  destruct (hp !! demo_new hp) as [r|] eqn:Hr; [|done].
  apply elem_of_map_to_list in Hr.
  assert (Hin : demo_new hp ∈ (map_to_list hp).*1) by (apply list_elem_of_fmap; by exists (demo_new hp, r)).
  apply Hmax in Hin. unfold demo_new in Hin. lia.
Qed.

Lemma mcast_round_exact_witness : exists c' t' w,
  ContextMcast_send_session Context.demo_post demo_new demo_gtransfer 10000 0 = Ok c' /\
  rtc mcast_transfer_step demo_m1 t' /\ cx_posted_send c' = [w] /\ packet_of t' (cx_mem c') 0 w.
Proof.
  destruct (mcast_round_exact Context.demo_post demo_new demo_gtransfer 10000 0 demo_gsession "g"
    ((demo_group [21]) <| mc_replicas := ["a"; "b"] |>) (Connection_ctor <| cn_qp_num := 21 |>) 0
    demo_m0 demo_m1) as (c' & t' & posted & Hrun & Hst & _ & _ & _ & _ & Hp & Hall);
    try done; [apply demo_new_fresh|apply demo_m0_init|apply demo_mrun_m1|].
  change (filter _ _) with [0] in Hall. apply Forall2_cons_inv_l in Hall as (w & ws & Hw & Hnil & ->).
  apply Forall2_nil_inv_l in Hnil as ->. by exists c', t', w.
Defined.
