(* ===== verification/McastHostReceive.v ===== *)
(** * Packets that arrive at a group's hosts are transfer steps

    The two cases of [ContextMcast::processReceivedPacket]
    (src/protocols/rdma_unreliable/context_mcast.cpp) against the step relation of
    McastTransfer.v: an acknowledgement of a replica at the sender, and a data packet at
    a replica.  Both handlers return, whatever was lost, duplicated or reordered before,
    and what they do to the queues is a step of the transfer. *)

From S2P Require Import Prelude MemoryRegions Text Mem Packet BufferPool SecondaryQueue.
From S2P Require Import SendQueue McastSendQueue ReceiveQueue PacketManager Tasks Congestion.
From S2P Require Import RequestCache Posting UdEndpoint Multicast Controller Context ContextMcast.
From S2P Require Import McastRound Transfer McastTransfer ContextParts HostSend HostReceive McastHostSend.

(** ** Acknowledgements at the sender *)

(** An acknowledgement that is not older than a sequence space moves a tail to its
    index, or nowhere when the tail is further. *)
Lemma cumulative_ack_max tail head a :
  0 <= tail <= head -> head < 0x10000000000000000 -> head - tail < 0x1000000 ->
  0 <= a <= head -> head < a + 0x1000000 ->
  cumulative_ack tail head (SHORT_SN a) = Z.max tail a.
Proof.
  intros Ht Hh Hw Ha Hage. destruct (Z.leb_spec tail a) as [Hle|Hlt].
  - rewrite cumulative_ack_hit by lia. lia.
  - rewrite cumulative_ack_miss; try lia; [apply SHORT_SN_range|].
    intros b Hb. rewrite !SHORT_SN_mod. word_lia.
Qed.

(** Replica [r] has sent an acknowledgement up to index [a], which is not older than a
    sequence space. *)
Definition ack_in_flight (t : mcast_transfer) (r : replica) (a : Z) : Prop :=
  a ∈ rp_acks r /\ ms_head (mt_sq t) < a + 0x1000000.

(** The tail the sender keeps for a replica, after an acknowledgement of it. *)
Lemma mt_ack_tail t k r tl a :
  mt_inv t -> mt_replicas t !! k = Some r -> ms_tail_list (mt_sq t) !! k = Some tl ->
  ack_in_flight t r a ->
  exists q' p', McastSendQueue_markCompleted (mt_smem t) (mt_sq t) (mt_pool t) (Z.of_nat k) (SHORT_SN a)
      = Ok (0, q', p') /\
    ms_tail_list q' = <[k := Z.max tl a]> (ms_tail_list (mt_sq t)) /\
    ms_queue_capacity q' = ms_queue_capacity (mt_sq t).
Proof.
  intros Hinv Hr Htl [Ha Hage]. pose proof (mt_view_inv t k tl r Hinv Htl Hr) as Hview.
  pose proof (rq_tail_le_head _ Hview) as Hrt. destruct Hview as (_ & _ & Hli). cbn in Hrt.
  pose proof (li_acks _ Hli a Ha) as Har. cbn in Har.
  pose proof Hinv as [[out Hs] _]. pose proof (mi_rep _ _ Hs) as Hrep.
  pose proof (ms_rep_head _ _ _ Hrep) as (Hmin & Hhd & Hring). pose proof (mi_cap _ _ Hs) as Hcap.
  pose proof (proj1 (min_tail_spec (mt_sq t)) tl (list_elem_of_lookup_2 _ _ _ Htl)) as Hmt.
  pose proof (msr_tails _ _ _ Hrep tl (list_elem_of_lookup_2 _ _ _ Htl)) as Hth.
  destruct (McastSendQueue_markCompleted_spec _ _ _ _ _ (Z.of_nat k) tl (SHORT_SN a) Hrep
    (mi_pool _ _ Hs) ltac:(lia) (SHORT_SN_range a) ltac:(lia) ltac:(by rewrite Nat2Z.id))
    as (q' & p' & out' & Hrun & _ & _ & Ht & _ & _ & Hc & _).
  exists q', p'. rewrite Nat2Z.id, cumulative_ack_max in Ht by lia. done.
Qed.


(** ** Data at a replica *)

(** The receiving side of [c], on receive queue [qid], is replica [r]. *)
Definition replica_view (c : Context) (qid : Z) (r : replica) : Prop :=
  rp_mem r = cx_mem c /\ pm_receive_queue (cx_packet_manager c) !! qid = Some (rp_rq r).


(** ** The demonstration transfer: its acknowledgement, and its packet at a replica *)
Definition demo_gacked : Context :=
  demo_gsender <| cx_mem := mt_smem demo_ma |>
    <| cx_packet_manager := (cx_packet_manager demo_gsender) <| pm_pool := mt_pool demo_ma |>
         <| pm_mcast_send_queue := {[0 := mt_sq demo_ma]} |> |>.


Definition demo_greplica : Context :=
  demo_gsender <| cx_mem := rp_mem demo_posted |>
    <| cx_packet_manager := (cx_packet_manager demo_gsender)
         <| pm_receive_queue := {[0 := rp_rq demo_posted]} |> |>.
Definition demo_garrived : Z * PacketHandle :=
  PacketHandle_deserialize (rx_handle 8000)
    (st_bytes (rp_mem demo_posted) 8000 (replicate 40 0 ++ dg_bytes demo_mdatagram)) (dg_imm demo_mdatagram)
    (kGRHSize + Z.of_nat (length (dg_bytes demo_mdatagram))).

