(* ===== verification/FileIO.v ===== *)
(** * Reading and writing files

    Models [readFully] and [writeFully] of src/example/file_transfer.cpp, the loops
    around the system calls [read] and [write], and [split].

    The results of the calls are an argument: the file transfer is correct whatever
    they are.  A loop that has not returned after the given calls is [None]. *)

From S2P Require Import Prelude Text Mem.

(** What one call does: transfer up to [n] bytes (never more than were asked for),
    fail with [EAGAIN] or [EINTR], or fail otherwise. *)
Inductive sysret : Type := Bytes (n : nat) | Retry | Error.

(** The loop of [writeFully] with [data] left to write, to a file that holds
    [out]. *)
Fixpoint write_loop (rs : list sysret) (len : Z) (data out : list Z) : option (Z * list Z) :=
  match data with
  | [] => Some (len, out)
  | _ :: _ =>
      match rs with
      | [] => None
      | Retry :: rs => write_loop rs len data out
      | Error :: _ => Some (ERR, out)
      | Bytes O :: _ => Some (len - Z.of_nat (length data), out)
      | Bytes n :: rs => write_loop rs len (drop n data) (out ++ take n data)
      end
  end.
Definition writeFully (rs : list sysret) (out : list Z) (m : mem) (buf len : Z)
  : option (Z * list Z) :=
  write_loop rs len (ld_bytes m buf (Z.to_nat len)) out.

(** The loop of [readFully] with [nbytes] left to read at [pos], from a file of
    which [rest] is unread.  A call that transfers nothing is the end of the
    file. *)
Fixpoint read_loop (rs : list sysret) (len : Z) (rest : list Z) (m : mem) (pos : Z) (nbytes : nat)
  : option (Z * list Z * mem) :=
  match nbytes with
  | O => Some (len, rest, m)
  | S _ =>
      match rs with
      | [] => None
      | Retry :: rs => read_loop rs len rest m pos nbytes
      | Error :: _ => Some (ERR, rest, m)
      | Bytes n :: rs =>
          let got := take (Nat.min n nbytes) rest in
          match got with
          | [] => Some (len - Z.of_nat nbytes, rest, m)
          | _ :: _ =>
              read_loop rs len (drop (length got) rest) (st_bytes m pos got)
                (pos + Z.of_nat (length got)) (nbytes - length got)
          end
      end
  end.
Definition readFully (rs : list sysret) (rest : list Z) (m : mem) (buf len : Z)
  : option (Z * list Z * mem) :=
  read_loop rs len rest m buf (Z.to_nat len).

(** [split] on a delimiter. *)
Definition split (s : text) (delimiter : ascii) : list text := getline_tokens delimiter s [].

(** ** What the loops do *)
Lemma write_loop_spec rs : forall len data out ret out',
  Z.of_nat (length data) <= len -> write_loop rs len data out = Some (ret, out') ->
  exists k, (k <= length data)%nat /\ out' = out ++ take k data /\
    (ret = len <-> k = length data).
Proof.
  induction rs as [|r rs IH]; intros len data out ret out' Hlen Hrun; cbn [write_loop] in Hrun.
  - destruct data as [|b data]; [|done]. injection Hrun as <- <-. exists 0%nat.
    by rewrite app_nil_r.
  - destruct data as [|b data]; [injection Hrun as <- <-; exists 0%nat; by rewrite app_nil_r|].
    set (d := b :: data) in *. assert (Hd : (0 < length d)%nat) by (cbn; lia).
    destruct r as [[|n]| |].
    + injection Hrun as <- <-. exists 0%nat. rewrite app_nil_r. split_and!; [lia|done|lia].
    + apply IH in Hrun as (k & Hk & -> & Hret); [|rewrite length_drop; lia].
      rewrite length_drop in Hk, Hret. exists (length (take (S n) d) + k)%nat.
      rewrite length_take. split_and!; [lia| |lia].
      rewrite <- app_assoc. f_equal. rewrite take_take_drop.
      destruct (Nat.le_gt_cases (S n) (length d)) as [Hle|Hgt].
      * by rewrite Nat.min_l.
      * rewrite Nat.min_r, !take_ge by lia. done.
    + by apply IH in Hrun.
    + injection Hrun as <- <-. exists 0%nat. rewrite app_nil_r. unfold ERR. split_and!; [lia|done|lia].
Qed.

Lemma st_bytes_app l1 : forall m a l2,
  st_bytes m a (l1 ++ l2) = st_bytes (st_bytes m a l1) (a + Z.of_nat (length l1)) l2.
Proof.
  induction l1 as [|b l1 IH]; intros m a l2; cbn [app st_bytes length].
  - by rewrite Z.add_0_r.
  - rewrite IH. f_equal. lia.
Qed.

Lemma read_loop_spec rs : forall len rest m pos nbytes ret rest' m',
  Z.of_nat nbytes <= len -> read_loop rs len rest m pos nbytes = Some (ret, rest', m') ->
  exists k, (k <= nbytes)%nat /\ (k <= length rest)%nat /\ rest' = drop k rest /\
    m' = st_bytes m pos (take k rest) /\ (ret = len <-> k = nbytes).
Proof.
  induction rs as [|r rs IH]; intros len rest m pos nbytes ret rest' m' Hlen Hrun;
    cbn [read_loop] in Hrun; destruct nbytes as [|nb].
  - injection Hrun as <- <- <-. exists 0%nat. split_and!; done || lia.
  - done.
  - injection Hrun as <- <- <-. exists 0%nat. split_and!; done || lia.
  - set (nbytes := S nb) in *. destruct r as [n| |]; [|by apply IH in Hrun|].
    + set (got := take (Nat.min n nbytes) rest) in *.
      assert (Hg : (length got <= nbytes)%nat /\ (length got <= length rest)%nat).
      { unfold got. rewrite length_take. lia. }
      assert (Hgot : got = take (length got) rest).
      { unfold got at 2. by rewrite length_take, <- take_take, (take_ge rest (length rest)). }
      destruct got as [|b got'] eqn:Hcase.
      * injection Hrun as <- <- <-. exists 0%nat. split_and!; done || lia.
      * rewrite <- Hcase in *. assert (Hpos : (0 < length got)%nat) by (rewrite Hcase; cbn; lia).
        apply IH in Hrun as (k & Hk & Hkr & -> & -> & Hret); [|lia].
        rewrite length_drop in Hkr. exists (length got + k)%nat.
        rewrite drop_drop. split_and!; [lia|lia|f_equal; lia| |lia].
        rewrite <- (take_take_drop _ (length got)), st_bytes_app, <- Hgot. done.
    + injection Hrun as <- <- <-. exists 0%nat. unfold ERR. split_and!; done || lia.
Qed.

(** [len] calls that do not end in [EAGAIN] or [EINTR] are enough to return. *)
Definition settled (r : sysret) : bool := match r with Retry => false | _ => true end.
Definition settled_calls (rs : list sysret) : nat := length (List.filter settled rs).

Lemma write_loop_returns rs : forall len data out,
  (length data <= settled_calls rs)%nat -> is_Some (write_loop rs len data out).
Proof.
  induction rs as [|r rs IH]; intros len data out Hc; cbn [write_loop];
    (destruct data as [|b data]; [by eexists|]); [cbn in Hc; lia|].
  destruct r as [[|n]| |]; try by eexists.
  - apply IH. unfold settled_calls in *. cbn [List.filter settled length] in Hc.
    rewrite length_drop. cbn [length] in *. lia.
  - apply IH. exact Hc.
Qed.

Lemma read_loop_returns rs : forall len rest m pos nbytes,
  (nbytes <= settled_calls rs)%nat -> is_Some (read_loop rs len rest m pos nbytes).
Proof.
  induction rs as [|r rs IH]; intros len rest m pos nbytes Hc; cbn [read_loop];
    (destruct nbytes as [|nb]; [by eexists|]); [cbn in Hc; lia|].
  destruct r as [n| |]; [|by apply IH|by eexists].
  destruct (take (Nat.min n (S nb)) rest) as [|b got]; [by eexists|].
  apply IH. unfold settled_calls in *. cbn [List.filter settled length] in *. lia.
Qed.

(** ** The functions *)
Lemma writeFully_spec rs out m buf len ret out' :
  0 <= len -> writeFully rs out m buf len = Some (ret, out') ->
  exists k, (k <= Z.to_nat len)%nat /\ out' = out ++ take k (ld_bytes m buf (Z.to_nat len)) /\
    (ret = len <-> k = Z.to_nat len).
Proof.
  intros Hlen Hrun. apply write_loop_spec in Hrun as (k & Hk & Hout & Hret).
  - rewrite length_ld_bytes in Hk, Hret. by exists k.
  - rewrite length_ld_bytes. lia.
Qed.

Lemma readFully_spec rs rest m buf len ret rest' m' :
  0 <= len -> readFully rs rest m buf len = Some (ret, rest', m') ->
  exists k, (k <= Z.to_nat len)%nat /\ (k <= length rest)%nat /\ rest' = drop k rest /\
    m' = st_bytes m buf (take k rest) /\ (ret = len <-> k = Z.to_nat len).
Proof. intros Hlen Hrun. apply read_loop_spec in Hrun; [done|lia]. Qed.

Lemma file_calls_return rs out rest m buf len :
  (Z.to_nat len <= settled_calls rs)%nat ->
  is_Some (writeFully rs out m buf len) /\ is_Some (readFully rs rest m buf len).
Proof.
  intros Hc. split; [apply write_loop_returns; by rewrite length_ld_bytes|by apply read_loop_returns].
Qed.

Lemma split_join delimiter l :
  Forall (fun t => delimiter ∉ t) l -> last l <> Some [] ->
  split (join_tokens delimiter l) delimiter = l.
Proof. apply getline_join. Qed.
