(* ===== verification/FileTransfer.v ===== *)
(** * Sending a file

    Models the two programs of src/example/file_transfer.cpp, [sender] and
    [receiver], and composes them with the library over a network that loses,
    duplicates and reorders (Transfer.v).

    A program is a state with a program counter and a function that runs one
    statement: filling the buffer, submitting it, one iteration of
    [wait_for_completion], reading or writing the file.  The functions work on the
    host's own memory and queue; [send] and [receive] are the pushes that
    [Context::send] and [Context::receive] make, and [getStatus] is the test on the
    sequence number that the task records ([None] when no task was created, whose
    status is UNKNOWN).  Each program has one peer.

    The composed system interleaves statements of both programs with any steps of
    the library and the network.  The programs are shown to meet what Transfer.v
    requires of applications; in particular they fill the same buffer again and
    again, which is safe only because they wait for completion first. *)

From S2P Require Import Prelude Text Mem Packet BufferPool SecondaryQueue SendQueue McastSendQueue.
From S2P Require Import ReceiveQueue Tasks Transfer FileIO.

(** ** The programs *)
Inductive sender_pc : Type :=
| SStoreSize
| SSendSize
| SWaitSize (task : option Z)
| SLoop
| SSendChunk (chunk_size : Z)
| SWaitChunk (task : option Z)
| SExit (ret : Z).
Record sender := mkSender {
  fs_addr : Z;
  fs_fd : option (list Z);     (** the unread bytes of the file; [None]: no file *)
  fs_file_size : Z;
  fs_offset : Z;
  fs_pc : sender_pc
}.
#[export] Instance sender_fields : Fields sender := mkFields (fun s =>
  mkSender (fs_addr s) (fs_fd s) (fs_file_size s) (fs_offset s) (fs_pc s)).

Inductive receiver_pc : Type :=
| RRecvSize
| RWaitSize (task : option Z)
| RReadSize
| RLoop
| RWaitChunk (chunk_size : Z) (task : option Z)
| RWriteChunk (chunk_size : Z)
| RExit (ret : Z).
Record receiver := mkReceiver {
  fr_addr : Z;
  fr_file_size : Z;
  fr_offset : Z;
  fr_out : list Z;             (** what the file holds *)
  fr_pc : receiver_pc
}.
#[export] Instance receiver_fields : Fields receiver := mkFields (fun r =>
  mkReceiver (fr_addr r) (fr_file_size r) (fr_offset r) (fr_out r) (fr_pc r)).
#[export] Instance receiver_pc_eq_dec : EqDecision receiver_pc.
Proof. solve_decision. Defined.

(** [send] and [receive] return the id of a task, or -1 without one. *)
Definition task_of (rc sn : Z) : option Z := if rc =? 0 then Some sn else None.
Definition task_status {Q : Type} `{WindowQueue Q} (q : Q) (task : option Z) : outcome Status :=
  match task with None => Ok UNKNOWN | Some sn => queue_status q sn end.

(** One iteration of [wait_for_completion]: go on, fail, or poll again. *)
Definition wait_for_completion {P : Type} (status : Status) (on_success on_failure again : P) : P :=
  match status with SUCCESS => on_success | FAILED => on_failure | _ => again end.

Section programs.
(** [dram_buffer_size], which is also the receiver's [transferred_size]. *)
Variable dram_buffer_size : Z.

Definition sender_step (s : sender) (m : mem) (q : SendQueue) (p : PacketBufferPool)
    (rs : list sysret) : outcome (sender * mem * SendQueue * PacketBufferPool) :=
  match fs_pc s with
  | SStoreSize => Ok (s <| fs_pc := SSendSize |>, st64 m (fs_addr s) (fs_file_size s), q, p)
  | SSendSize =>
      '(rc, sn, q', p') ← SendQueue_push m q p [mkBuffer (fs_addr s) 8];
      Ok (s <| fs_pc := SWaitSize (task_of rc sn) |>, m, q', p')
  | SWaitSize task =>
      status ← task_status q task;
      Ok (s <| fs_pc := wait_for_completion status SLoop (SExit ERR) (SWaitSize task) |>, m, q, p)
  | SLoop =>
      if fs_offset s <? fs_file_size s then
        let chunk_size := Z.min dram_buffer_size (u64 (fs_file_size s - fs_offset s)) in
        match fs_fd s with
        | None => Ok (s <| fs_pc := SSendChunk chunk_size |>, m, q, p)
        | Some rest =>
            match readFully rs rest m (fs_addr s) chunk_size with
            | None => Ok (s, m, q, p)
            | Some (ret, rest', m') =>
                Ok (s <| fs_fd := Some rest' |>
                      <| fs_pc := if chunk_size =? ret then SSendChunk chunk_size else SExit ERR |>,
                    m', q, p)
            end
        end
      else Ok (s <| fs_pc := SExit 0 |>, m, q, p)
  | SSendChunk chunk_size =>
      '(rc, sn, q', p') ← SendQueue_push m q p [mkBuffer (fs_addr s) chunk_size];
      Ok (s <| fs_pc := SWaitChunk (task_of rc sn) |>, m, q', p')
  | SWaitChunk task =>
      status ← task_status q task;
      Ok (wait_for_completion status
            (s <| fs_offset := u64 (fs_offset s + dram_buffer_size) |> <| fs_pc := SLoop |>)
            (s <| fs_pc := SExit ERR |>) s, m, q, p)
  | SExit _ => Ok (s, m, q, p)
  end.

Definition receiver_step (r : receiver) (m : mem) (q : ReceiveQueue) (ws : list sysret)
  : outcome (receiver * ReceiveQueue) :=
  match fr_pc r with
  | RRecvSize =>
      '(rc, sn, q') ← ReceiveQueue_push q [mkBuffer (fr_addr r) 8];
      Ok (r <| fr_pc := RWaitSize (task_of rc sn) |>, q')
  | RWaitSize task =>
      status ← task_status q task;
      Ok (r <| fr_pc := wait_for_completion status RReadSize (RExit ERR) (RWaitSize task) |>, q)
  | RReadSize =>
      let file_size := ld64 m (fr_addr r) in
      if (0 <? file_size) && (file_size <? 0x800000000)
      then Ok (r <| fr_file_size := file_size |> <| fr_offset := 0 |> <| fr_pc := RLoop |>, q)
      else Trap TrapAssert
  | RLoop =>
      if fr_offset r <? fr_file_size r then
        let chunk_size := Z.min dram_buffer_size (u64 (fr_file_size r - fr_offset r)) in
        '(rc, sn, q') ← ReceiveQueue_push q [mkBuffer (fr_addr r) chunk_size];
        Ok (r <| fr_pc := RWaitChunk chunk_size (task_of rc sn) |>, q')
      else Ok (r <| fr_pc := RExit 0 |>, q)
  | RWaitChunk chunk_size task =>
      status ← task_status q task;
      Ok (r <| fr_pc := wait_for_completion status (RWriteChunk chunk_size) (RExit ERR)
                          (RWaitChunk chunk_size task) |>, q)
  | RWriteChunk chunk_size =>
      match writeFully ws (fr_out r) m (fr_addr r) chunk_size with
      | None => Ok (r, q)
      | Some (ret, out) =>
          if chunk_size =? ret
          then Ok (r <| fr_out := out |> <| fr_offset := u64 (fr_offset r + dram_buffer_size) |>
                     <| fr_pc := RLoop |>, q)
          else Ok (r <| fr_out := out |> <| fr_pc := RExit ERR |>, q)
      end
  | RExit _ => Ok (r, q)
  end.

(** ** The system *)

(** The buffer a statement submits, and whether it is done reading one. *)
Definition sender_submits (s : sender) : list Buffer :=
  match fs_pc s with
  | SSendSize => [mkBuffer (fs_addr s) 8]
  | SSendChunk chunk_size => [mkBuffer (fs_addr s) chunk_size]
  | _ => []
  end.
Definition receiver_submits (r : receiver) : list Buffer :=
  match fr_pc r with
  | RRecvSize => [mkBuffer (fr_addr r) 8]
  | RLoop =>
      if fr_offset r <? fr_file_size r
      then [mkBuffer (fr_addr r) (Z.min dram_buffer_size (u64 (fr_file_size r - fr_offset r)))] else []
  | _ => []
  end.
Definition receiver_reads (r r' : receiver) : bool :=
  match fr_pc r with
  | RReadSize => true
  | RWriteChunk _ => negb (bool_decide (fr_pc r' = fr_pc r))
  | _ => false
  end.

Record file_run := mkFileRun {
  ft_net : transfer;
  ft_sender : sender;
  ft_receiver : receiver
}.

Inductive file_step : file_run -> file_run -> Prop :=
| fstep_library x t' :
    library_step (ft_net x) t' -> file_step x (mkFileRun t' (ft_sender x) (ft_receiver x))
| fstep_sender x rs s' m' q' p' :
    let t := ft_net x in
    let frags := fragments (sq_fragment_size (sd_secondary_queue (tr_sq t))) (sender_submits (ft_sender x)) in
    sender_step (ft_sender x) (tr_smem t) (tr_sq t) (tr_pool t) rs = Ok (s', m', q', p') ->
    file_step x (mkFileRun
      (t <| tr_smem := m' |> <| tr_sq := q' |> <| tr_pool := p' |>
         <| tr_sent := tr_sent t ++ frags |>
         <| tr_content := tr_content t ++ (buffer_bytes (tr_smem t) <$> frags) |>)
      s' (ft_receiver x))
| fstep_receiver x ws r' q' :
    let t := ft_net x in
    let frags := fragments (sq_fragment_size (rq_secondary_queue (tr_rq t)))
                   (receiver_submits (ft_receiver x)) in
    receiver_step (ft_receiver x) (tr_rmem t) (tr_rq t) ws = Ok (r', q') ->
    file_step x (mkFileRun
      (t <| tr_rq := q' |> <| tr_posted := tr_posted t ++ frags |>
         <| tr_read := tr_read t ++
              (if receiver_reads (ft_receiver x) r'
               then buffer_bytes (tr_rmem t) <$> live_posted t else []) |>)
      (ft_sender x) r').
End programs.

(** ** Messages and their fragments *)

(** The bytes of a message, cut like a buffer of its length. *)
Definition chop (f : Z) (l : list Z) : list (list Z) :=
  (fun b => take (Z.to_nat (buf_length b)) (drop (Z.to_nat (buf_addr b)) l))
    <$> slice_fragments f (mkBuffer 0 (Z.of_nat (length l))).
Definition fragment_lengths (f n : Z) : list Z := buf_length <$> slice_fragments f (mkBuffer 0 n).
Definition content_of (f : Z) (ms : list (list Z)) : list (list Z) := concat (chop f <$> ms).
Definition lengths_of (f : Z) (ms : list (list Z)) : list Z :=
  concat ((fun l => fragment_lengths f (Z.of_nat (length l))) <$> ms).

Lemma slice_lengths f b : buf_length <$> slice_fragments f b = fragment_lengths f (buf_length b).
Proof. unfold fragment_lengths, slice_fragments. cbn. by rewrite <- !list_fmap_compose. Qed.

(** The [i]-th fragment lies in the buffer. *)
Lemma fragment_range f len i :
  0 < f -> 0 < len -> i ∈ seqZ 0 (fragment_count f len) ->
  0 <= f * i /\ f * i + Z.min f (len - f * i) <= len /\ 0 < Z.min f (len - f * i).
Proof.
  intros Hf Hl Hi%elem_of_seqZ. unfold fragment_count in Hi.
  assert (Hd : i <= (len - 1) / f).
  { replace (len + f - 1) with (len - 1 + 1 * f) in Hi by lia. rewrite Z.div_add in Hi by lia.
    pose proof (Z.div_pos (len - 1) f ltac:(lia) Hf). lia. }
  pose proof (Z.mul_div_le (len - 1) f Hf). nia.
Qed.

Lemma chop_bytes f m a len :
  0 < f -> 0 < len ->
  buffer_bytes m <$> slice_fragments f (mkBuffer a len) = chop f (buffer_bytes m (mkBuffer a len)).
Proof.
  intros Hf Hl. unfold chop, buffer_bytes at 3. rewrite length_ld_bytes, Z2Nat.id by (cbn; lia).
  unfold slice_fragments. cbn [buf_addr buf_length]. rewrite <- !list_fmap_compose.
  apply list_fmap_ext. intros k i Hi%list_elem_of_lookup_2. cbn.
  destruct (fragment_range f len i Hf Hl Hi) as (H1 & H2 & H3).
  unfold buffer_bytes. cbn [buf_addr buf_length].
  rewrite (ld_bytes_sub (Z.to_nat len)) by lia. done.
Qed.

Lemma concat_chop f l : 0 < f -> l <> [] -> u8 <$> l = l -> concat (chop f l) = l.
Proof.
  intros Hf Hne Hu. set (n := Z.of_nat (length l)).
  assert (Hn : 0 < n) by (unfold n; destruct l; [done|cbn; lia]).
  assert (Hb : buffer_bytes (st_bytes ∅ 0 l) (mkBuffer 0 n) = l).
  { unfold buffer_bytes. cbn. unfold n. by rewrite Nat2Z.id, ld_bytes_st_bytes_eq. }
  rewrite <- Hb at 1. rewrite <- chop_bytes by done.
  change (gather (st_bytes ∅ 0 l) (slice_fragments f (mkBuffer 0 n)) = l).
  rewrite gather_slice_fragments by lia. exact Hb.
Qed.

Lemma content_lengths f ms : length (content_of f ms) = length (lengths_of f ms).
Proof.
  unfold content_of, lengths_of. induction ms as [|l ms IH]; [done|]. cbn. rewrite !length_app, IH.
  f_equal. unfold chop, fragment_lengths. by rewrite !length_fmap.
Qed.

Lemma content_of_app f ms ms' : content_of f (ms ++ ms') = content_of f ms ++ content_of f ms'.
Proof. unfold content_of. by rewrite fmap_app, concat_app. Qed.
Lemma lengths_of_app f ms ms' : lengths_of f (ms ++ ms') = lengths_of f ms ++ lengths_of f ms'.
Proof. unfold lengths_of. by rewrite fmap_app, concat_app. Qed.
Lemma content_of_one f l : content_of f [l] = chop f l.
Proof. unfold content_of. cbn. by rewrite app_nil_r. Qed.
Lemma lengths_of_one f l : lengths_of f [l] = fragment_lengths f (Z.of_nat (length l)).
Proof. unfold lengths_of. cbn. by rewrite app_nil_r. Qed.
Lemma fragments_one f b : fragments f [b] = slice_fragments f b.
Proof. unfold fragments. cbn. by rewrite app_nil_r. Qed.

Lemma content_of_prefix f ms j : content_of f (take j ms) `prefix_of` content_of f ms.
Proof. rewrite <- (take_drop j ms) at 2. rewrite content_of_app. by apply prefix_app_r. Qed.
Lemma lengths_of_prefix f ms j : lengths_of f (take j ms) `prefix_of` lengths_of f ms.
Proof. rewrite <- (take_drop j ms) at 2. rewrite lengths_of_app. by apply prefix_app_r. Qed.

(** Both sides submit fragments of the lengths of the same messages. *)
Lemma lengths_of_agree f ms j k S T :
  buf_length <$> S = lengths_of f (take j ms) -> buf_length <$> T = lengths_of f (take k ms) ->
  lengths_agree S T.
Proof.
  intros HS HT i b c Hb Hc.
  assert (H1 : lengths_of f ms !! i = Some (buf_length b)).
  { eapply prefix_lookup_Some; [|apply (lengths_of_prefix f ms j)].
    by rewrite <- HS, list_lookup_fmap, Hb. }
  assert (H2 : lengths_of f ms !! i = Some (buf_length c)).
  { eapply prefix_lookup_Some; [|apply (lengths_of_prefix f ms k)].
    by rewrite <- HT, list_lookup_fmap, Hc. }
  congruence.
Qed.

(** The fragments of one buffer do not overlap and lie where the buffer lies. *)
Lemma slice_disjoint f a len : 0 < f -> 0 < len -> disjoint_posted (slice_fragments f (mkBuffer a len)).
Proof.
  intros Hf Hl i j b c Hb Hc Hne. unfold slice_fragments in Hb, Hc.
  rewrite list_lookup_fmap in Hb, Hc. cbn [buf_length buf_addr] in *.
  destruct (seqZ _ _ !! i) as [x|] eqn:Hx; [|done]. destruct (seqZ _ _ !! j) as [y|] eqn:Hy; [|done].
  injection Hb as <-. injection Hc as <-. unfold apart. cbn.
  apply lookup_seqZ in Hx as [-> _], Hy as [-> _]. nia.
Qed.

Lemma slice_outside p f a len :
  0 < f -> 0 < len -> outside_pool p (mkBuffer a len) ->
  Forall (outside_pool p) (slice_fragments f (mkBuffer a len)).
Proof.
  intros Hf Hl Hap. unfold slice_fragments. apply Forall_fmap, Forall_forall. intros i Hi. cbn.
  destruct (fragment_range f len i Hf Hl Hi) as (H1 & H2 & H3).
  unfold outside_pool, apart in *. cbn in *. lia.
Qed.

Lemma prefix_same_length {A} (l1 l2 l : list A) :
  l1 `prefix_of` l -> l2 `prefix_of` l -> length l1 = length l2 -> l1 = l2.
Proof.
  intros [k1 ->] [k2 Hk] Hl. by apply (f_equal (take (length l1))) in Hk;
    rewrite take_app_length, Hl, take_app_length in Hk.
Qed.

(** ** The messages of a file *)
Lemma le_value_bytes v : is_u64 v -> le_value (le_bytes 8 v) = v.
Proof.
  intros Hv. rewrite <- (ld64_st64_eq ∅ 0 v Hv) at 2. unfold ld64, st64.
  by rewrite ld_le_value, st_le_bytes, ld_st_le_bytes.
Qed.

Section file.
Context (cap f : Z) (file : list Z).

Definition file_length : Z := Z.of_nat (length file).
Definition chunk_count : nat := Z.to_nat ((file_length + cap - 1) / cap).
Definition file_chunk (i : nat) : list Z :=
  take (Z.to_nat cap) (drop (Z.to_nat cap * i) file).
Definition file_header : list Z := le_bytes 8 file_length.
Definition messages : list (list Z) := file_header :: (file_chunk <$> seq 0 chunk_count).

(** What the theorems ask of a file: its bytes are bytes, it has a 64-bit size, and
    all its fragments have numbers in one cycle of the sequence space. *)
Record file_ok : Prop := {
  fo_cap : 8 <= cap;
  fo_frag : 0 < f < 0x100000000;
  fo_bytes : u8 <$> file = file;
  fo_size : file_length + cap + f < 0x10000000000000000;
  fo_cycle : Z.of_nat (length (lengths_of f messages)) < 0x1000000
}.

Context (Hok : file_ok).

Lemma chunk_index i : cap * Z.of_nat i < file_length <-> (i < chunk_count)%nat.
Proof.
  destruct Hok as [Hc _ _ _ _]. unfold chunk_count.
  pose proof (Z.div_pos (file_length + cap - 1) cap ltac:(unfold file_length; lia) ltac:(lia)).
  pose proof (Z.mul_div_le (file_length + cap - 1) cap ltac:(lia)).
  pose proof (Z.mul_succ_div_gt (file_length + cap - 1) cap ltac:(lia)). split; nia.
Qed.

Lemma remaining_u64 i : cap * Z.of_nat i < file_length -> is_u64 (file_length - cap * Z.of_nat i).
Proof.
  intros Hi. destruct Hok as [Hc Hf _ Hs _]. assert (0 <= cap * Z.of_nat i) by nia. unfold is_u64. lia.
Qed.
Lemma next_offset i :
  cap * Z.of_nat i < file_length -> u64 (cap * Z.of_nat i + cap) = cap * Z.of_nat (S i).
Proof.
  intros Hi. destruct Hok as [Hc Hf _ Hs _]. assert (0 <= cap * Z.of_nat i) by nia.
  rewrite u64_small by (unfold is_u64; lia). lia.
Qed.

Lemma messages_header l : messages !! 0%nat = Some l -> l = file_header.
Proof. intros H. cbn [messages lookup list_lookup] in H. congruence. Qed.
Lemma messages_chunk i : (i < chunk_count)%nat -> messages !! S i = Some (file_chunk i).
Proof.
  intros Hi. change (messages !! S i) with ((file_chunk <$> seq 0 chunk_count) !! i).
  by rewrite list_lookup_fmap, lookup_seq_lt.
Qed.

Lemma chunk_length i :
  (i < chunk_count)%nat ->
  Z.of_nat (length (file_chunk i)) = Z.min cap (file_length - cap * Z.of_nat i) /\
  0 < Z.of_nat (length (file_chunk i)).
Proof.
  intros Hi. apply chunk_index in Hi. destruct Hok as [Hc _ _ _ _]. unfold file_chunk, file_length in *.
  rewrite length_take, length_drop. nia.
Qed.

Lemma take_chunk i :
  take (Z.to_nat cap * S i) file = take (Z.to_nat cap * i) file ++ file_chunk i.
Proof.
  unfold file_chunk. rewrite take_take_drop. f_equal. lia.
Qed.

Lemma take_chunks : take (Z.to_nat cap * chunk_count) file = file.
Proof.
  apply take_ge. destruct Hok as [Hc _ _ _ _].
  assert (Hn : ~ cap * Z.of_nat chunk_count < file_length) by (rewrite chunk_index; lia).
  unfold file_length in Hn. nia.
Qed.

Lemma messages_bytes j l : messages !! j = Some l -> u8 <$> l = l /\ l <> [].
Proof.
  destruct j as [|j]; [intros Hl; apply messages_header in Hl as ->; split; [apply u8_le_bytes|done]|].
  change (messages !! S j) with ((file_chunk <$> seq 0 chunk_count) !! j).
  rewrite list_lookup_fmap. destruct (seq 0 chunk_count !! j) as [i|] eqn:Hi; [|done].
  apply lookup_seq in Hi as [-> Hi]. cbn. intros [= <-]. split.
  - unfold file_chunk. by rewrite fmap_take, fmap_drop, (fo_bytes Hok).
  - intros He. pose proof (chunk_length j Hi) as [_ Hl]. rewrite He in Hl. done.
Qed.

Lemma take_messages j l :
  messages !! j = Some l -> take (S j) messages = take j messages ++ [l].
Proof. apply take_S_r. Qed.

Lemma message_length j l :
  messages !! j = Some l -> Z.of_nat (length l) <= cap /\ 0 < Z.of_nat (length l).
Proof.
  destruct j as [|j].
  { intros Hl. apply messages_header in Hl as ->. unfold file_header. destruct Hok.
    rewrite length_le_bytes. lia. }
  change (messages !! S j) with ((file_chunk <$> seq 0 chunk_count) !! j).
  rewrite list_lookup_fmap. destruct (seq 0 chunk_count !! j) as [i|] eqn:Hi; [|done].
  apply lookup_seq in Hi as [-> Hi]. cbn. intros [= <-]. pose proof (chunk_length j Hi). lia.
Qed.

Lemma short_cycle i : 0 <= i <= Z.of_nat (length (lengths_of f messages)) -> cycle i = 0.
Proof. intros Hi. pose proof (fo_cycle Hok). unfold cycle. apply Z.div_small. lia. Qed.

Lemma lengths_of_take_le j : (length (lengths_of f (take j messages)) <= length (lengths_of f messages))%nat.
Proof. apply prefix_length, lengths_of_prefix. Qed.

(** ** The invariant *)
Definition sent_upto (t : transfer) (j : nat) : Prop :=
  tr_content t = content_of f (take j messages) /\
  buf_length <$> tr_sent t = lengths_of f (take j messages).
Definition posted_upto (t : transfer) (k : nat) : Prop :=
  buf_length <$> tr_posted t = lengths_of f (take k messages).
Definition read_upto (t : transfer) (k : nat) : Prop :=
  length (tr_read t) = length (lengths_of f (take k messages)).
Definition all_acked (t : transfer) : Prop := sd_tail (tr_sq t) = Z.of_nat (length (tr_sent t)).
Definition all_arrived (t : transfer) : Prop := rq_tail (tr_rq t) = Z.of_nat (length (tr_posted t)).

Definition sender_at (t : transfer) (s : sender) (i : nat) : Prop :=
  match fs_pc s with
  | SStoreSize => i = O /\ sent_upto t 0 /\ fs_fd s = Some file
  | SSendSize => i = O /\ sent_upto t 0 /\ fs_fd s = Some file /\
      buffer_bytes (tr_smem t) (mkBuffer (fs_addr s) 8) = file_header
  | SWaitSize task => i = O /\ sent_upto t 1 /\ fs_fd s = Some file /\
      task = Some (SHORT_SN (Z.of_nat (length (tr_sent t))))
  | SLoop => sent_upto t (S i) /\ all_acked t /\ fs_fd s = Some (drop (Z.to_nat cap * i) file)
  | SSendChunk c => (i < chunk_count)%nat /\ c = Z.of_nat (length (file_chunk i)) /\
      sent_upto t (S i) /\ fs_fd s = Some (drop (Z.to_nat cap * S i) file) /\
      buffer_bytes (tr_smem t) (mkBuffer (fs_addr s) c) = file_chunk i
  | SWaitChunk task => (i < chunk_count)%nat /\ sent_upto t (S (S i)) /\
      fs_fd s = Some (drop (Z.to_nat cap * S i) file) /\
      task = Some (SHORT_SN (Z.of_nat (length (tr_sent t))))
  | SExit ret => exists j, sent_upto t j /\ (ret = 0 -> j = length messages /\ all_acked t)
  end.

Definition receiver_at (t : transfer) (r : receiver) (i : nat) : Prop :=
  match fr_pc r with
  | RRecvSize => posted_upto t 0 /\ read_upto t 0 /\ fr_out r = []
  | RWaitSize task => posted_upto t 1 /\ read_upto t 0 /\ fr_out r = [] /\
      live_posted t = slice_fragments f (mkBuffer (fr_addr r) 8) /\
      task = Some (SHORT_SN (Z.of_nat (length (tr_posted t))))
  | RReadSize => posted_upto t 1 /\ read_upto t 0 /\ fr_out r = [] /\
      live_posted t = slice_fragments f (mkBuffer (fr_addr r) 8) /\ all_arrived t
  | RLoop => fr_file_size r = file_length /\ fr_offset r = cap * Z.of_nat i /\
      (i <= chunk_count)%nat /\ posted_upto t (S i) /\ read_upto t (S i) /\
      fr_out r = take (Z.to_nat cap * i) file
  | RWaitChunk c task => fr_file_size r = file_length /\ fr_offset r = cap * Z.of_nat i /\
      (i < chunk_count)%nat /\ c = Z.of_nat (length (file_chunk i)) /\
      posted_upto t (S (S i)) /\ read_upto t (S i) /\ fr_out r = take (Z.to_nat cap * i) file /\
      live_posted t = slice_fragments f (mkBuffer (fr_addr r) c) /\
      task = Some (SHORT_SN (Z.of_nat (length (tr_posted t))))
  | RWriteChunk c => fr_file_size r = file_length /\ fr_offset r = cap * Z.of_nat i /\
      (i < chunk_count)%nat /\ c = Z.of_nat (length (file_chunk i)) /\
      posted_upto t (S (S i)) /\ read_upto t (S i) /\ fr_out r = take (Z.to_nat cap * i) file /\
      live_posted t = slice_fragments f (mkBuffer (fr_addr r) c) /\ all_arrived t
  | RExit ret => exists k, posted_upto t k /\ read_upto t k /\ fr_out r `prefix_of` file /\
      (ret = 0 -> fr_out r = file)
  end.

Record run_inv (x : file_run) : Prop := {
  ru_transfer : transfer_inv (ft_net x);
  ru_sfrag : sq_fragment_size (sd_secondary_queue (tr_sq (ft_net x))) = f;
  ru_rfrag : sq_fragment_size (rq_secondary_queue (tr_rq (ft_net x))) = f;
  ru_rcap : rq_queue_capacity (tr_rq (ft_net x)) < 0x10000;
  ru_saddr : 0 < fs_addr (ft_sender x);
  ru_raddr : 0 < fr_addr (ft_receiver x);
  ru_outside : outside_pool (tr_pool (ft_net x)) (mkBuffer (fs_addr (ft_sender x)) cap);
  ru_fsize : fs_file_size (ft_sender x) = file_length;
  ru_sender : exists i, fs_offset (ft_sender x) = cap * Z.of_nat i /\ (i <= chunk_count)%nat /\
    sender_at (ft_net x) (ft_sender x) i;
  ru_receiver : exists i, receiver_at (ft_net x) (ft_receiver x) i
}.

(** ** What the two programs know of each other *)
Lemma sender_at_sent t s i : sender_at t s i -> exists j, sent_upto t j.
Proof. unfold sender_at. destruct (fs_pc s); intros H; destruct_and?; eauto. by destruct H as (j & ? & _); exists j. Qed.

Lemma receiver_at_posted t r i : receiver_at t r i -> exists k, posted_upto t k.
Proof. unfold receiver_at. destruct (fr_pc r); intros H; destruct_and?; eauto. by destruct H as (k & ? & _); exists k. Qed.

Lemma sent_length t j : sent_upto t j -> (length (tr_sent t) <= length (lengths_of f messages))%nat.
Proof.
  intros [_ Hs]. apply (f_equal length) in Hs. rewrite length_fmap in Hs. rewrite Hs.
  apply lengths_of_take_le.
Qed.
Lemma posted_length t k : posted_upto t k -> (length (tr_posted t) <= length (lengths_of f messages))%nat.
Proof.
  intros Hs. apply (f_equal length) in Hs. rewrite length_fmap in Hs. rewrite Hs.
  apply lengths_of_take_le.
Qed.

(** ** Waiting *)
Lemma sender_waits t j status :
  transfer_inv t -> sent_upto t j ->
  task_status (tr_sq t) (Some (SHORT_SN (Z.of_nat (length (tr_sent t))))) = Ok status ->
  status = SUCCESS /\ all_acked t \/ status = PENDING.
Proof.
  intros ([out Hs] & _ & _) Hj Hst. pose proof (sent_length t j Hj) as Hlen.
  pose proof Hs as [Hrep _ _ Hcap _ _ _]. pose proof (sdr_order _ _ _ Hrep) as Ho.
  pose proof (sqb_bound _ _ _ (sdr_backlog _ _ _ Hrep)) as Hb. cbn [task_status] in Hst.
  rewrite status_in_cycle in Hst; cbn [wq_tail wq_head SendQueue_window] in *.
  - injection Hst as <-. destruct (decide _) as [Hle|]; [left|by right]. split; [done|].
    unfold all_acked. lia.
  - split; [lia|eauto].
  - rewrite !short_cycle; [done|lia..].
  - rewrite !short_cycle; [done|lia..].
Qed.

Lemma receiver_waits t k status :
  transfer_inv t -> rq_queue_capacity (tr_rq t) < 0x10000 -> posted_upto t k ->
  task_status (tr_rq t) (Some (SHORT_SN (Z.of_nat (length (tr_posted t))))) = Ok status ->
  status = SUCCESS /\ all_arrived t \/ status = PENDING.
Proof.
  intros (_ & Hr & _) Hcap Hk Hst. pose proof (posted_length t k Hk) as Hlen.
  pose proof (ri_rep _ Hr) as Hrep. pose proof (rqr_order _ _ _ Hrep) as Ho.
  pose proof (sqb_bound _ _ _ (rqr_backlog _ _ _ Hrep)) as Hb. cbn [task_status] in Hst.
  rewrite status_in_cycle in Hst; cbn [wq_tail wq_head ReceiveQueue_window] in *.
  - injection Hst as <-. destruct (decide _) as [Hle|]; [left|by right]. split; [done|].
    unfold all_arrived. lia.
  - split; [lia|eauto].
  - rewrite !short_cycle; [done|lia..].
  - rewrite !short_cycle; [done|lia..].
Qed.

(** ** Steps of the library *)
Lemma sender_at_frame t t' s i :
  library_frame t t' -> transfer_inv t' -> outside_pool (tr_pool t) (mkBuffer (fs_addr s) cap) ->
  sender_at t s i -> sender_at t' s i.
Proof.
  intros [Hs Hc Hp Hrd _ _ _ _ Hst _ Hby] ([out Hinv'] & _ & _) Hout.
  assert (Hsu : forall j, sent_upto t j -> sent_upto t' j) by (unfold sent_upto; by rewrite Hs, Hc).
  assert (Hack : all_acked t -> all_acked t').
  { unfold all_acked. intros Ha. pose proof (sdr_order _ _ _ (si_rep _ _ Hinv')).
    pose proof (sqb_bound _ _ _ (sdr_backlog _ _ _ (si_rep _ _ Hinv'))). rewrite Hs in *. lia. }
  assert (Hbytes : forall n, 0 <= n <= cap -> buffer_bytes (tr_smem t') (mkBuffer (fs_addr s) n)
                     = buffer_bytes (tr_smem t) (mkBuffer (fs_addr s) n)).
  { intros n Hn. apply Hby; [cbn; lia|]. unfold outside_pool, apart in *. cbn in *. lia. }
  pose proof (fo_cap Hok). unfold sender_at. destruct (fs_pc s) as [| |task| |c|task|ret].
  - intuition.
  - intros (? & ? & ? & Hb). rewrite Hbytes by lia. intuition.
  - rewrite Hs. intuition.
  - intuition.
  - intros (Hi & -> & ? & ? & Hb). destruct (chunk_length i Hi). rewrite Hbytes by lia. intuition.
  - rewrite Hs. intuition.
  - intros (j & ? & Hj). exists j. split; [auto|]. intros Hret. destruct (Hj Hret). auto.
Qed.

Lemma receiver_at_frame t t' r i :
  library_frame t t' -> transfer_inv t' -> receiver_at t r i -> receiver_at t' r i.
Proof.
  intros [_ _ Hp Hrd _ _ _ _ _ Hrt _] (_ & Hinv' & _).
  assert (Harr : all_arrived t -> all_arrived t').
  { unfold all_arrived. intros Ha. pose proof (rqr_order _ _ _ (ri_rep _ Hinv')).
    pose proof (sqb_bound _ _ _ (rqr_backlog _ _ _ (ri_rep _ Hinv'))). rewrite Hp in *. lia. }
  unfold receiver_at, posted_upto, read_upto, live_posted. rewrite Hp, Hrd.
  destruct (fr_pc r); intuition.
Qed.

Lemma library_run_inv x t' :
  run_inv x -> library_step (ft_net x) t' -> run_inv (mkFileRun t' (ft_sender x) (ft_receiver x)).
Proof.
  intros [Hinv Hsf Hrf Hrc Hsa Hra Hout Hfs (i & Hi & Hic & Hs) (k & Hr)] Hstep.
  pose proof (library_step_frame _ _ Hstep Hinv) as Hfr.
  pose proof (library_step_inv _ _ Hstep Hinv) as Hinv'.
  constructor; cbn; rewrite ?(lf_sfrag _ _ Hfr), ?(lf_rfrag _ _ Hfr), ?(lf_rcap _ _ Hfr); try done.
  - eapply outside_pool_geom; [apply (lf_geom _ _ Hfr)|done].
  - exists i. split_and!; try done. by apply (sender_at_frame (ft_net x)).
  - exists k. by apply (receiver_at_frame (ft_net x)).
Qed.

(** ** Statements of the sender *)

(** Submitting message [j] from the buffer that holds it. *)
Lemma send_message x j l rc sn q' p' :
  let t := ft_net x in
  let b := mkBuffer (fs_addr (ft_sender x)) (Z.of_nat (length l)) in
  let t' := t <| tr_smem := tr_smem t |> <| tr_sq := q' |> <| tr_pool := p' |>
              <| tr_sent := tr_sent t ++ fragments f [b] |>
              <| tr_content := tr_content t ++ (buffer_bytes (tr_smem t) <$> fragments f [b]) |> in
  run_inv x -> sent_upto t j -> messages !! j = Some l -> buffer_bytes (tr_smem t) b = l ->
  SendQueue_push (tr_smem t) (tr_sq t) (tr_pool t) [b] = Ok (rc, sn, q', p') ->
  rc = 0 /\ sn = SHORT_SN (Z.of_nat (length (tr_sent t'))) /\ transfer_step t t' /\
  sent_upto t' (S j) /\ pool_geom p' = pool_geom (tr_pool t) /\
  sq_fragment_size (sd_secondary_queue q') = f.
Proof.
  intros t b t' [Hinv Hsf Hrf Hrc Hsa Hra Hout Hfs _ (k & Hr)] Hj Hl Hb Hpush.
  fold t in Hinv, Hsf, Hrf, Hout, Hr.
  destruct (message_length j l Hl) as [Hlc Hl0]. pose proof (fo_frag Hok) as Hf.
  pose proof (fo_size Hok) as Hsz. unfold file_length in Hsz.
  destruct (receiver_at_posted _ _ _ Hr) as [k' Hk].
  assert (Et : tr_content t' = tr_content t ++ (buffer_bytes (tr_smem t) <$> fragments f [b])) by done.
  assert (Es : tr_sent t' = tr_sent t ++ fragments f [b]) by done.
  assert (Hv : Forall (buffer_valid f) [b]).
  { repeat constructor; cbn; lia. }
  assert (Hj' : sent_upto t' (S j)).
  { destruct Hj as [Hc Hlen]. unfold sent_upto. rewrite Et, Es, fragments_one, (take_messages j l Hl). split.
    - rewrite Hc, content_of_app, content_of_one. f_equal. unfold b. rewrite chop_bytes by lia.
      f_equal. exact Hb.
    - rewrite fmap_app, Hlen, lengths_of_app, lengths_of_one, slice_lengths. done. }
  pose proof (sent_length t' (S j) Hj') as Hbound. rewrite Es in Hbound. pose proof (fo_cycle Hok) as Hcyc.
  pose proof Hinv as ([out Hs] & _ & _). clearbody t.
  destruct (SendQueue_push_spec _ _ _ _ _ [b] (si_rep _ _ Hs) (si_pool _ _ Hs))
    as (q1 & p1 & out1 & Hrun & _ & _ & Hgeo & _ & _ & _ & _ & _ & _ & Hz); rewrite ?Hsf; [done|lia|].
  rewrite Hsf in Hrun, Hz. rewrite Hpush in Hrun. injection Hrun as -> -> <- <-.
  split_and!; try done.
  pose proof (fun sn => step_send t [b] 0 sn q' p') as Hstep. cbv zeta in Hstep.
  rewrite Hsf in Hstep. refine (eq_ind _ (transfer_step t) (Hstep _ _ _ _ _ Hpush) _ _); try done.
  - lia.
  - rewrite fragments_one. apply slice_outside; [lia|lia|].
    unfold outside_pool, apart in *. cbn in *. lia.
  - destruct Hj' as [_ Hlen]. rewrite Es in Hlen. by apply (lengths_of_agree f messages (S j) k').
Qed.
(** A statement of the sender: what is left to check. *)
Lemma sender_moves x t' s' i :
  run_inv x -> (transfer_step (ft_net x) t' \/ t' = ft_net x) ->
  tr_rq t' = tr_rq (ft_net x) -> tr_posted t' = tr_posted (ft_net x) ->
  tr_read t' = tr_read (ft_net x) ->
  sq_fragment_size (sd_secondary_queue (tr_sq t')) = f ->
  pool_geom (tr_pool t') = pool_geom (tr_pool (ft_net x)) ->
  fs_addr s' = fs_addr (ft_sender x) -> fs_file_size s' = fs_file_size (ft_sender x) ->
  fs_offset s' = cap * Z.of_nat i -> (i <= chunk_count)%nat -> sender_at t' s' i ->
  rtc transfer_step (ft_net x) t' /\ run_inv (mkFileRun t' s' (ft_receiver x)).
Proof.
  intros [Hinv Hsf Hrf Hrc Hsa Hra Hout Hfs _ (k & Hr)] Ht Hq Hp Hrd Hz Hgeo Ha Hn Ho Hi Hs.
  split; [destruct Ht as [Ht| ->]; [by apply rtc_once|done]|].
  constructor; cbn [ft_net ft_sender ft_receiver]; rewrite ?Hq, ?Ha, ?Hn; try done.
  - destruct Ht as [Ht| ->]; [by apply (transfer_step_inv (ft_net x))|done].
  - by eapply outside_pool_geom.
  - by exists i.
  - exists k. revert Hr. unfold receiver_at, posted_upto, read_upto, live_posted, all_arrived.
    by rewrite Hq, Hp, Hrd.
Qed.

(** The application fills its buffer when nothing is outstanding. *)
Lemma sender_fills x l :
  run_inv x -> live_sent (ft_net x) = [] -> Z.of_nat (length l) <= cap ->
  transfer_step (ft_net x) ((ft_net x) <| tr_smem := st_bytes (tr_smem (ft_net x)) (fs_addr (ft_sender x)) l |>).
Proof.
  intros Hx Hlive Hl. apply step_write.
  - intros b Hb. rewrite Hlive in Hb. by apply elem_of_nil in Hb.
  - pose proof (ru_outside _ Hx) as Hout. unfold outside_pool, apart in *. cbn in *. lia.
Qed.

Lemma acked_live t : all_acked t -> live_sent t = [].
Proof. unfold all_acked, live_sent. intros ->. rewrite Nat2Z.id. by rewrite drop_all. Qed.

(** Steps that submit nothing leave the history alone. *)
Lemma net_unsent t m q p :
  t <| tr_smem := m |> <| tr_sq := q |> <| tr_pool := p |> <| tr_sent := tr_sent t ++ [] |>
    <| tr_content := tr_content t ++ [] |>
  = t <| tr_smem := m |> <| tr_sq := q |> <| tr_pool := p |>.
Proof. destruct t. cbn. by rewrite !app_nil_r. Qed.
Lemma net_same t : t <| tr_smem := tr_smem t |> <| tr_sq := tr_sq t |> <| tr_pool := tr_pool t |> = t.
Proof. by destruct t. Qed.
Lemma net_mem t m : t <| tr_smem := m |> <| tr_sq := tr_sq t |> <| tr_pool := tr_pool t |> = t <| tr_smem := m |>.
Proof. by destruct t. Qed.

(** Reading the next chunk of the file. *)
Lemma sender_reads x i rs rest ret rest' m' :
  run_inv x -> all_acked (ft_net x) -> (i < chunk_count)%nat -> rest = drop (Z.to_nat cap * i) file ->
  let c := Z.of_nat (length (file_chunk i)) in
  let t' := (ft_net x) <| tr_smem := m' |> in
  readFully rs rest (tr_smem (ft_net x)) (fs_addr (ft_sender x)) c = Some (ret, rest', m') ->
  transfer_step (ft_net x) t' /\
  (c = ret -> rest' = drop (Z.to_nat cap * S i) file /\
     buffer_bytes m' (mkBuffer (fs_addr (ft_sender x)) c) = file_chunk i).
Proof.
  intros Hx Hack Hi -> c t' Hrun. destruct (chunk_length i Hi) as [Hc Hc0]. fold c in Hc, Hc0.
  assert (Hn : Z.to_nat c = length (file_chunk i)) by (unfold c; lia).
  apply readFully_spec in Hrun as (k & Hk & Hkr & Hrest & -> & Hret); [|lia].
  split.
  - apply sender_fills; [done|by apply acked_live|]. rewrite length_take. lia.
  - intros <-. pose proof (proj1 Hret eq_refl) as ->. rewrite Hrest.
    assert (Htake : take (Z.to_nat c) (drop (Z.to_nat cap * i) file) = file_chunk i).
    { rewrite Hn. unfold file_chunk at 1. rewrite length_take. unfold file_chunk.
      rewrite <- take_take. by rewrite (take_ge _ (length (drop _ _))). }
    split.
    + rewrite drop_drop. pose proof (fo_cap Hok).
      destruct (decide (Z.to_nat c = Z.to_nat cap)) as [->|Hne]; [f_equal; lia|].
      unfold file_length in Hc. rewrite !drop_ge by lia. done.
    + rewrite Htake. unfold buffer_bytes. cbn [buf_addr buf_length]. rewrite Hn.
      rewrite ld_bytes_st_bytes_eq. by apply (messages_bytes (S i)), messages_chunk.
Qed.
(** The state after a statement of the sender. *)
Definition after_sender (x : file_run) (s' : sender) (m' : mem) (q' : SendQueue)
    (p' : PacketBufferPool) : file_run :=
  let t := ft_net x in
  let frags := fragments (sq_fragment_size (sd_secondary_queue (tr_sq t))) (sender_submits (ft_sender x)) in
  mkFileRun
    (t <| tr_smem := m' |> <| tr_sq := q' |> <| tr_pool := p' |> <| tr_sent := tr_sent t ++ frags |>
       <| tr_content := tr_content t ++ (buffer_bytes (tr_smem t) <$> frags) |>)
    s' (ft_receiver x).

Lemma after_sender_quiet x s' m' q' p' :
  sender_submits (ft_sender x) = [] ->
  after_sender x s' m' q' p' =
    mkFileRun ((ft_net x) <| tr_smem := m' |> <| tr_sq := q' |> <| tr_pool := p' |>) s' (ft_receiver x).
Proof. unfold after_sender. intros ->. cbn [fragments fmap list_fmap concat]. by rewrite net_unsent. Qed.

(** A statement that only moves the program counter. *)
Lemma sender_local x s' i :
  run_inv x -> sender_submits (ft_sender x) = [] -> fs_addr s' = fs_addr (ft_sender x) ->
  fs_file_size s' = fs_file_size (ft_sender x) -> fs_offset s' = cap * Z.of_nat i ->
  (i <= chunk_count)%nat -> sender_at (ft_net x) s' i ->
  let x' := after_sender x s' (tr_smem (ft_net x)) (tr_sq (ft_net x)) (tr_pool (ft_net x)) in
  rtc transfer_step (ft_net x) (ft_net x') /\ run_inv x'.
Proof.
  intros Hx Hsub Ha Hn Ho Hi Hs x'. unfold x'. rewrite after_sender_quiet, net_same by done.
  apply (sender_moves x _ s' i); try done; [by right|apply Hx].
Qed.

Lemma sender_submit_inv x i j l s' rc sn q' p' :
  let b := mkBuffer (fs_addr (ft_sender x)) (Z.of_nat (length l)) in
  run_inv x -> sent_upto (ft_net x) j -> messages !! j = Some l ->
  buffer_bytes (tr_smem (ft_net x)) b = l -> sender_submits (ft_sender x) = [b] ->
  SendQueue_push (tr_smem (ft_net x)) (tr_sq (ft_net x)) (tr_pool (ft_net x)) [b] = Ok (rc, sn, q', p') ->
  fs_addr s' = fs_addr (ft_sender x) -> fs_file_size s' = fs_file_size (ft_sender x) ->
  fs_offset s' = cap * Z.of_nat i -> (i <= chunk_count)%nat ->
  let x' := after_sender x s' (tr_smem (ft_net x)) q' p' in
  (sent_upto (ft_net x') (S j) -> task_of rc sn = Some (SHORT_SN (Z.of_nat (length (tr_sent (ft_net x'))))) ->
   sender_at (ft_net x') s' i) ->
  rtc transfer_step (ft_net x) (ft_net x') /\ run_inv x'.
Proof.
  intros b Hx Hj Hl Hb Hsub Hpush Ha Hn Ho Hi x' Hat. subst x'. unfold after_sender in *. cbv zeta in *.
  rewrite Hsub, (ru_sfrag _ Hx) in *. cbn [ft_net ft_sender] in *.
  destruct (send_message x j l rc sn q' p' Hx Hj Hl Hb Hpush) as (-> & -> & Hstep & Hj' & Hgeo & Hz).
  apply (sender_moves x _ s' i); try done; [by left|]. by apply Hat.
Qed.

(** The head of the loop: read the next chunk, or finish. *)
Lemma sender_loop_inv x i rs s' m' q' p' :
  run_inv x -> fs_pc (ft_sender x) = SLoop -> fs_offset (ft_sender x) = cap * Z.of_nat i ->
  (i <= chunk_count)%nat -> sent_upto (ft_net x) (S i) -> all_acked (ft_net x) ->
  fs_fd (ft_sender x) = Some (drop (Z.to_nat cap * i) file) ->
  sender_step cap (ft_sender x) (tr_smem (ft_net x)) (tr_sq (ft_net x)) (tr_pool (ft_net x)) rs
    = Ok (s', m', q', p') ->
  let x' := after_sender x s' m' q' p' in
  rtc transfer_step (ft_net x) (ft_net x') /\ run_inv x'.
Proof.
  intros Hx Hpc Ho Hi Hj Hack Hfd Hrun. unfold sender_step in Hrun. rewrite Hpc in Hrun.
  assert (Hsub : sender_submits (ft_sender x) = []) by (unfold sender_submits; by rewrite Hpc).
  rewrite Ho, (ru_fsize _ Hx) in Hrun. destruct (Z.ltb_spec (cap * Z.of_nat i) file_length) as [Hlt|Hge].
  - apply chunk_index in Hlt as Hic. destruct (chunk_length i Hic) as [Hc Hc0].
    rewrite (u64_small _ (remaining_u64 i Hlt)), <- Hc, Hfd in Hrun.
    destruct (readFully _ _ _ _ _) as [[[ret rest'] m1]|] eqn:Hread.
    2: { injection Hrun as <- <- <- <-. apply (sender_local x _ i); try done.
         unfold sender_at. by rewrite Hpc. }
    injection Hrun as <- <- <- <-. rewrite after_sender_quiet, net_mem by done.
    destruct (sender_reads x i _ _ _ _ _ Hx Hack Hic eq_refl Hread) as [Hstep Hdone].
    apply (sender_moves x _ _ i); try done; [by left|apply Hx|].
    destruct (Z.eqb_spec (Z.of_nat (length (file_chunk i))) ret) as [He|Hne].
    + destruct (Hdone He) as [-> Hbytes]. unfold sender_at. cbn [fs_pc field_set]. split_and!; done.
    + unfold sender_at. cbn [fs_pc field_set]. by exists (S i).
  - injection Hrun as <- <- <- <-. apply (sender_local x _ i); try done.
    assert (i = chunk_count) as ->.
    { destruct (decide (i < chunk_count)%nat) as [H%chunk_index|]; lia. }
    unfold sender_at. cbn [fs_pc field_set]. exists (S chunk_count). split; [done|].
    intros _. split; [|done]. unfold messages. cbn. by rewrite length_fmap, length_seq.
Qed.

Lemma sender_run_inv x rs s' m' q' p' :
  run_inv x ->
  sender_step cap (ft_sender x) (tr_smem (ft_net x)) (tr_sq (ft_net x)) (tr_pool (ft_net x)) rs
    = Ok (s', m', q', p') ->
  let x' := after_sender x s' m' q' p' in
  rtc transfer_step (ft_net x) (ft_net x') /\ run_inv x'.
Proof.
  intros Hx Hrun. pose proof Hx as [Hinv _ _ _ _ _ _ Hfs (i & Ho & Hi & Hs) _].
  destruct (fs_pc (ft_sender x)) as [| |task| |c|task|ret] eqn:Hpc;
    unfold sender_at in Hs; rewrite Hpc in Hs; [| | |by destruct_and?; apply (sender_loop_inv x i rs)| | |];
    unfold sender_step in Hrun; rewrite Hpc in Hrun.
  - destruct Hs as (-> & Hj & Hfd). injection Hrun as <- <- <- <-.
    rewrite after_sender_quiet, net_mem by (unfold sender_submits; by rewrite Hpc).
    unfold st64. rewrite st_le_bytes.
    apply (sender_moves x _ _ 0); try done; [left|apply Hx|].
    + apply sender_fills; [done| |rewrite length_le_bytes; apply Hok].
      unfold live_sent. destruct Hj as [_ Hl]. destruct (tr_sent (ft_net x)); [by rewrite drop_nil|done].
    + unfold sender_at. cbn [fs_pc field_set]. split_and!; try done.
      unfold file_header. rewrite <- Hfs. apply (ld_st_le_bytes 8).
  - destruct Hs as (-> & Hj & Hfd & Hb).
    destruct (SendQueue_push _ _ _ _) as [[[[rc sn] q1] p1]|] eqn:Hpush; [|done].
    cbn [mbind outcome_bind] in Hrun. injection Hrun as <- <- <- <-.
    apply (sender_submit_inv x 0 0 file_header _ rc sn); try done.
    unfold sender_submits. by rewrite Hpc.
  - destruct Hs as (-> & Hj & Hfd & ->).
    destruct (task_status _ _) as [status|] eqn:E; [|done].
    cbn [mbind outcome_bind] in Hrun. injection Hrun as <- <- <- <-.
    apply (sender_local x _ 0); try done; [unfold sender_submits; by rewrite Hpc|].
    destruct (sender_waits _ _ _ Hinv Hj E) as [[-> Hack]| ->]; unfold sender_at; cbn.
    + split_and!; [done|done|]. by rewrite Nat.mul_0_r.
    + by split_and!.
  - destruct Hs as (Hic & -> & Hj & Hfd & Hb).
    destruct (SendQueue_push _ _ _ _) as [[[[rc sn] q1] p1]|] eqn:Hpush; [|done].
    cbn [mbind outcome_bind] in Hrun. injection Hrun as <- <- <- <-.
    apply (sender_submit_inv x i (S i) (file_chunk i) _ rc sn); try done.
    + by apply messages_chunk.
    + unfold sender_submits. by rewrite Hpc.
  - destruct Hs as (Hic & Hj & Hfd & ->).
    destruct (task_status _ _) as [status|] eqn:E; [|done].
    cbn [mbind outcome_bind] in Hrun. injection Hrun as <- <- <- <-.
    assert (Hsub : sender_submits (ft_sender x) = []) by (unfold sender_submits; by rewrite Hpc).
    destruct (sender_waits _ _ _ Hinv Hj E) as [[-> Hack]| ->]; cbn [wait_for_completion].
    + apply (sender_local x _ (S i)); try done.
      cbn [fs_offset field_set]. rewrite Ho. by apply next_offset, chunk_index.
    + apply (sender_local x _ i); try done. unfold sender_at. by rewrite Hpc.
  - injection Hrun as <- <- <- <-. apply (sender_local x _ i); try done.
    + unfold sender_submits. by rewrite Hpc.
    + unfold sender_at. by rewrite Hpc.
Qed.

(** ** Statements of the receiver *)
Definition after_receiver (x : file_run) (r' : receiver) (q' : ReceiveQueue) : file_run :=
  let t := ft_net x in
  let frags := fragments (sq_fragment_size (rq_secondary_queue (tr_rq t)))
                 (receiver_submits cap (ft_receiver x)) in
  mkFileRun
    (t <| tr_rq := q' |> <| tr_posted := tr_posted t ++ frags |>
       <| tr_read := tr_read t ++
            (if receiver_reads (ft_receiver x) r'
             then buffer_bytes (tr_rmem t) <$> live_posted t else []) |>)
    (ft_sender x) r'.

Lemma receiver_moves x t' r' i :
  run_inv x -> (transfer_step (ft_net x) t' \/ t' = ft_net x) ->
  tr_sq t' = tr_sq (ft_net x) -> tr_pool t' = tr_pool (ft_net x) -> tr_smem t' = tr_smem (ft_net x) ->
  tr_sent t' = tr_sent (ft_net x) -> tr_content t' = tr_content (ft_net x) ->
  sq_fragment_size (rq_secondary_queue (tr_rq t')) = f ->
  rq_queue_capacity (tr_rq t') = rq_queue_capacity (tr_rq (ft_net x)) ->
  fr_addr r' = fr_addr (ft_receiver x) -> receiver_at t' r' i ->
  rtc transfer_step (ft_net x) t' /\ run_inv (mkFileRun t' (ft_sender x) r').
Proof.
  intros [Hinv Hsf Hrf Hrc Hsa Hra Hout Hfs (j & Ho & Hj & Hs) _] Ht Hq Hp Hm Hse Hco Hz Hc Ha Hr.
  split; [destruct Ht as [Ht| ->]; [by apply rtc_once|done]|].
  constructor; cbn [ft_net ft_sender ft_receiver]; rewrite ?Hq, ?Hp, ?Hc, ?Ha; try done.
  - destruct Ht as [Ht| ->]; [by apply (transfer_step_inv (ft_net x))|done].
  - exists j. split_and!; try done. revert Hs. unfold sender_at, sent_upto, all_acked.
    by rewrite Hq, Hm, Hse, Hco.
  - by exists i.
Qed.

(** Posting a buffer for message [k]. *)
Lemma post_message x k l rc sn q' :
  let t := ft_net x in
  let b := mkBuffer (fr_addr (ft_receiver x)) (Z.of_nat (length l)) in
  let t' := t <| tr_rq := q' |> <| tr_posted := tr_posted t ++ fragments f [b] |> in
  run_inv x -> posted_upto t k -> read_upto t k -> messages !! k = Some l ->
  ReceiveQueue_push (tr_rq t) [b] = Ok (rc, sn, q') ->
  rc = 0 /\ sn = SHORT_SN (Z.of_nat (length (tr_posted t'))) /\ transfer_step t t' /\
  posted_upto t' (S k) /\ live_posted t' = slice_fragments f b /\
  sq_fragment_size (rq_secondary_queue q') = f /\
  rq_queue_capacity q' = rq_queue_capacity (tr_rq t).
Proof.
  intros t b t' [Hinv Hsf Hrf Hrc Hsa Hra Hout Hfs (i & _ & _ & Hs) _] Hk Hrd Hl Hpush.
  fold t in Hinv, Hrf, Hrc, Hs.
  destruct (message_length k l Hl) as [Hlc Hl0]. pose proof (fo_frag Hok) as Hf.
  pose proof (fo_size Hok) as Hsz. unfold file_length in Hsz.
  destruct (sender_at_sent _ _ _ Hs) as [j [_ Hj]].
  assert (Hv : Forall (buffer_valid f) [b]) by (repeat constructor; cbn; lia).
  assert (Ep : tr_posted t' = tr_posted t ++ fragments f [b]) by done.
  assert (Hk' : posted_upto t' (S k)).
  { unfold posted_upto in *. rewrite Ep, fragments_one, (take_messages k l Hl).
    by rewrite fmap_app, Hk, lengths_of_app, lengths_of_one, slice_lengths. }
  assert (Hlive : drop (length (tr_read t)) (tr_posted t ++ fragments f [b]) = slice_fragments f b).
  { unfold read_upto in Hrd. rewrite Hrd, <- Hk, length_fmap, drop_app_length. apply fragments_one. }
  pose proof (posted_length t' (S k) Hk') as Hbound. rewrite Ep in Hbound. pose proof (fo_cycle Hok) as Hcyc.
  pose proof Hinv as (_ & Hr & _). clearbody t.
  destruct (ReceiveQueue_push_spec _ _ _ [b] (ri_rep _ Hr) (ri_tight _ Hr))
    as (q1 & Hrun & _ & _ & _ & _ & _ & Hc & Hz & _); rewrite ?Hrf; [done|lia|].
  rewrite Hrf in Hrun, Hz. rewrite Hpush in Hrun. injection Hrun as -> -> <-.
  split_and!; try done.
  pose proof (fun sn => step_post t [b] 0 sn q') as Hstep. cbv zeta in Hstep. rewrite Hrf in Hstep.
  refine (Hstep _ Hv _ _ _ Hpush); [lia| |].
  - rewrite Hlive. apply slice_disjoint; lia.
  - apply (lengths_of_agree f messages j (S k)); [done|]. exact Hk'.
Qed.

(** A prefix of all fragments as long as those of the first [k] messages. *)
Lemma content_prefix l k :
  l `prefix_of` content_of f messages -> length l = length (lengths_of f (take k messages)) ->
  l = content_of f (take k messages).
Proof.
  intros Hp Hl. apply (prefix_same_length _ _ (content_of f messages)); [done|apply content_of_prefix|].
  by rewrite content_lengths.
Qed.

(** Reading message [k] from the buffer it has arrived in. *)
Lemma read_message x k l :
  let t := ft_net x in
  let b := mkBuffer (fr_addr (ft_receiver x)) (Z.of_nat (length l)) in
  let t' := t <| tr_read := tr_read t ++ (buffer_bytes (tr_rmem t) <$> live_posted t) |> in
  run_inv x -> posted_upto t (S k) -> read_upto t k -> messages !! k = Some l ->
  live_posted t = slice_fragments f b -> all_arrived t ->
  transfer_step t t' /\ read_upto t' (S k) /\ buffer_bytes (tr_rmem t) b = l.
Proof.
  intros t b t' [Hinv Hsf Hrf Hrc Hsa Hra Hout Hfs (i & _ & _ & Hs) _] Hk Hrd Hl Hlive Harr.
  fold t in Hinv, Hs. destruct (message_length k l Hl) as [Hlc Hl0]. pose proof (fo_frag Hok) as Hf.
  destruct (sender_at_sent _ _ _ Hs) as [j [Hc _]]. clearbody t.
  assert (Hlen : (length (tr_read t) + length (live_posted t) = length (tr_posted t))%nat).
  { unfold live_posted, read_upto, posted_upto in *. apply (f_equal length) in Hk.
    rewrite length_fmap, (take_messages k l Hl), lengths_of_app, length_app in Hk.
    rewrite length_drop. lia. }
  assert (Hstep : transfer_step t t').
  { pose proof (step_read t (length (live_posted t))) as Hst. rewrite firstn_all in Hst.
    apply Hst. unfold all_arrived in Harr. lia. }
  assert (Hrd' : read_upto t' (S k)).
  { unfold read_upto, posted_upto in *. cbn [tr_read field_set t'].
    rewrite length_app, length_fmap, Hlen, <- Hk. by rewrite length_fmap. }
  split_and!; [done|done|].
  pose proof (transfer_step_inv _ _ Hstep Hinv) as (_ & Hr' & _).
  pose proof (ri_read _ Hr') as Hpre'. cbn [tr_read tr_content field_set t'] in Hpre'. rewrite Hc in Hpre'.
  assert (Hplan : tr_read t ++ (buffer_bytes (tr_rmem t) <$> live_posted t) = content_of f (take (S k) messages)).
  { apply content_prefix; [|exact Hrd']. etrans; [exact Hpre'|apply content_of_prefix]. }
  assert (Hold : tr_read t = content_of f (take k messages)).
  { apply content_prefix; [|exact Hrd].
    etrans; [apply prefix_app_r; reflexivity|]. rewrite Hplan. apply content_of_prefix. }
  rewrite (take_messages k l Hl), content_of_app, content_of_one, <- Hold in Hplan.
  apply app_inv_head in Hplan. rewrite Hlive in Hplan. unfold b in Hplan. rewrite chop_bytes in Hplan by lia.
  apply (f_equal (@concat Z)) in Hplan. destruct (messages_bytes k l Hl) as [Hu Hne].
  rewrite (concat_chop f l), (concat_chop f) in Hplan; try done; try lia.
  - intros Hnil%(f_equal length). unfold buffer_bytes in Hnil. rewrite length_ld_bytes in Hnil.
    cbn in Hnil. lia.
  - apply u8_ld_bytes.
Qed.
Lemma net_unread t : t <| tr_rq := tr_rq t |> <| tr_posted := tr_posted t ++ [] |> <| tr_read := tr_read t ++ [] |> = t.
Proof. destruct t. cbn. by rewrite !app_nil_r. Qed.

(** A statement that only moves the program counter. *)
Lemma receiver_local x r' i :
  run_inv x -> receiver_submits cap (ft_receiver x) = [] -> receiver_reads (ft_receiver x) r' = false ->
  fr_addr r' = fr_addr (ft_receiver x) -> receiver_at (ft_net x) r' i ->
  let x' := after_receiver x r' (tr_rq (ft_net x)) in
  rtc transfer_step (ft_net x) (ft_net x') /\ run_inv x'.
Proof.
  intros Hx Hsub Hrd Ha Hr x'. unfold x', after_receiver. rewrite Hsub, Hrd.
  cbn [fragments fmap list_fmap concat]. rewrite net_unread.
  apply (receiver_moves x _ r' i); try done; [by right|apply Hx].
Qed.

Lemma receiver_post_inv x i k l r' rc sn q' :
  let b := mkBuffer (fr_addr (ft_receiver x)) (Z.of_nat (length l)) in
  run_inv x -> posted_upto (ft_net x) k -> read_upto (ft_net x) k -> messages !! k = Some l ->
  receiver_submits cap (ft_receiver x) = [b] -> receiver_reads (ft_receiver x) r' = false ->
  ReceiveQueue_push (tr_rq (ft_net x)) [b] = Ok (rc, sn, q') ->
  fr_addr r' = fr_addr (ft_receiver x) ->
  let x' := after_receiver x r' q' in
  (posted_upto (ft_net x') (S k) -> read_upto (ft_net x') k ->
   live_posted (ft_net x') = slice_fragments f b ->
   task_of rc sn = Some (SHORT_SN (Z.of_nat (length (tr_posted (ft_net x'))))) ->
   receiver_at (ft_net x') r' i) ->
  rtc transfer_step (ft_net x) (ft_net x') /\ run_inv x'.
Proof.
  intros b Hx Hk Hrd Hl Hsub Hre Hpush Ha x' Hat. subst x'. unfold after_receiver in *. cbv zeta in *.
  rewrite Hsub, Hre, (ru_rfrag _ Hx) in *. cbn [ft_net ft_receiver] in *.
  destruct (post_message x k l rc sn q' Hx Hk Hrd Hl Hpush) as (-> & -> & Hstep & Hk' & Hlive & Hz & Hc).
  assert (Heq : (ft_net x) <| tr_rq := q' |> <| tr_posted := tr_posted (ft_net x) ++ fragments f [b] |>
                  <| tr_read := tr_read (ft_net x) ++ [] |>
                = (ft_net x) <| tr_rq := q' |> <| tr_posted := tr_posted (ft_net x) ++ fragments f [b] |>).
  { rewrite (app_nil_r (tr_read (ft_net x))). by destruct (ft_net x). }
  rewrite Heq in *. apply (receiver_moves x _ r' i); try done; [by left|]. by apply Hat.
Qed.

Lemma receiver_read_inv x i k l r' :
  let b := mkBuffer (fr_addr (ft_receiver x)) (Z.of_nat (length l)) in
  run_inv x -> posted_upto (ft_net x) (S k) -> read_upto (ft_net x) k -> messages !! k = Some l ->
  live_posted (ft_net x) = slice_fragments f b -> all_arrived (ft_net x) ->
  receiver_submits cap (ft_receiver x) = [] -> receiver_reads (ft_receiver x) r' = true ->
  fr_addr r' = fr_addr (ft_receiver x) ->
  let x' := after_receiver x r' (tr_rq (ft_net x)) in
  (posted_upto (ft_net x') (S k) -> read_upto (ft_net x') (S k) -> receiver_at (ft_net x') r' i) ->
  rtc transfer_step (ft_net x) (ft_net x') /\ run_inv x'.
Proof.
  intros b Hx Hk Hrd Hl Hlive Harr Hsub Hre Ha x' Hat. subst x'. unfold after_receiver in *. cbv zeta in *.
  rewrite Hsub, Hre in *. cbn [ft_net ft_receiver fragments fmap list_fmap concat] in *.
  destruct (read_message x k l Hx Hk Hrd Hl Hlive Harr) as (Hstep & Hrd' & _).
  assert (Heq : (ft_net x) <| tr_rq := tr_rq (ft_net x) |> <| tr_posted := tr_posted (ft_net x) ++ [] |>
      <| tr_read := tr_read (ft_net x) ++ (buffer_bytes (tr_rmem (ft_net x)) <$> live_posted (ft_net x)) |>
    = (ft_net x) <| tr_read := tr_read (ft_net x) ++ (buffer_bytes (tr_rmem (ft_net x)) <$> live_posted (ft_net x)) |>).
  { destruct (ft_net x). cbn. by rewrite app_nil_r. }
  rewrite Heq in *. apply (receiver_moves x _ r' i); try done; [by left|apply Hx|]. by apply Hat.
Qed.

(** The size that arrived is the file's. *)
Lemma received_size x :
  run_inv x -> posted_upto (ft_net x) 1 -> read_upto (ft_net x) 0 ->
  live_posted (ft_net x) = slice_fragments f (mkBuffer (fr_addr (ft_receiver x)) 8) ->
  all_arrived (ft_net x) -> ld64 (tr_rmem (ft_net x)) (fr_addr (ft_receiver x)) = file_length.
Proof.
  intros Hx Hk Hrd Hlive Harr.
  destruct (read_message x 0 file_header Hx Hk Hrd eq_refl Hlive Harr) as (_ & _ & Hb).
  unfold ld64. rewrite ld_le_value. pose proof (fo_size Hok). pose proof (fo_frag Hok). pose proof (fo_cap Hok).
  rewrite <- (le_value_bytes file_length) by (unfold is_u64, file_length in *; lia).
  f_equal. exact Hb.
Qed.

(** Writing a chunk to the file. *)
Lemma receiver_writes x i ws ret out :
  run_inv x -> (i < chunk_count)%nat ->
  let c := Z.of_nat (length (file_chunk i)) in
  posted_upto (ft_net x) (S (S i)) -> read_upto (ft_net x) (S i) ->
  live_posted (ft_net x) = slice_fragments f (mkBuffer (fr_addr (ft_receiver x)) c) ->
  all_arrived (ft_net x) -> fr_out (ft_receiver x) = take (Z.to_nat cap * i) file ->
  writeFully ws (fr_out (ft_receiver x)) (tr_rmem (ft_net x)) (fr_addr (ft_receiver x)) c = Some (ret, out) ->
  out `prefix_of` file /\ (c = ret -> out = take (Z.to_nat cap * S i) file).
Proof.
  intros Hx Hi c Hk Hrd Hlive Harr Hout Hw.
  destruct (read_message x (S i) (file_chunk i) Hx Hk Hrd (messages_chunk i Hi) Hlive Harr) as (_ & _ & Hb).
  apply writeFully_spec in Hw as (k & Hkc & -> & Hret); [|unfold c; lia].
  unfold buffer_bytes in Hb. cbn [buf_addr buf_length] in Hb. fold c in Hb. rewrite Hb, Hout. split.
  - unfold file_chunk. rewrite take_take, take_take_drop. apply prefix_take.
  - intros Hc. rewrite take_chunk. f_equal. apply take_ge. rewrite (proj1 Hret (eq_sym Hc)). unfold c. lia.
Qed.

Lemma receiver_write_inv x i c ws r' q' :
  run_inv x -> fr_pc (ft_receiver x) = RWriteChunk c -> receiver_at (ft_net x) (ft_receiver x) i ->
  receiver_step cap (ft_receiver x) (tr_rmem (ft_net x)) (tr_rq (ft_net x)) ws = Ok (r', q') ->
  let x' := after_receiver x r' q' in
  rtc transfer_step (ft_net x) (ft_net x') /\ run_inv x'.
Proof.
  intros Hx Hpc Hr Hrun. unfold receiver_step in Hrun. pose proof Hr as Hr0.
  unfold receiver_at in Hr. rewrite Hpc in Hr, Hrun.
  destruct Hr as (Hsz & Ho & Hi & -> & Hk & Hrd & Hout & Hlive & Harr).
  assert (Hsub : receiver_submits cap (ft_receiver x) = []) by (unfold receiver_submits; by rewrite Hpc).
  destruct (writeFully _ _ _ _ _) as [[ret out]|] eqn:Hw.
  2: { injection Hrun as <- <-. apply (receiver_local x _ i); try done.
       unfold receiver_reads. by rewrite Hpc, bool_decide_eq_true_2. }
  destruct (receiver_writes x i ws ret out Hx Hi Hk Hrd Hlive Harr Hout Hw) as [Hpre Hfull].
  assert (Hre : forall r, fr_pc r <> RWriteChunk (Z.of_nat (length (file_chunk i))) ->
                  receiver_reads (ft_receiver x) r = true).
  { intros r Hne. unfold receiver_reads. rewrite Hpc. by rewrite bool_decide_eq_false_2. }
  destruct (Z.eqb_spec (Z.of_nat (length (file_chunk i))) ret) as [He|Hne]; injection Hrun as <- <-.
  - apply (receiver_read_inv x (S i) (S i) (file_chunk i)); try done; [by apply messages_chunk|by apply Hre|].
    intros Hk' Hrd'. unfold receiver_at. cbn [fr_pc fr_file_size fr_offset fr_out field_set].
    rewrite Ho, next_offset, (Hfull He) by (by apply chunk_index). by split_and!.
  - apply (receiver_read_inv x (S i) (S i) (file_chunk i)); try done; [by apply messages_chunk|by apply Hre|].
    intros Hk' Hrd'. unfold receiver_at. cbn [fr_pc fr_out field_set]. by exists (S (S i)).
Qed.

(** The head of the loop: post the next chunk, or finish. *)
Lemma receiver_loop_inv x i ws r' q' :
  run_inv x -> fr_pc (ft_receiver x) = RLoop -> receiver_at (ft_net x) (ft_receiver x) i ->
  receiver_step cap (ft_receiver x) (tr_rmem (ft_net x)) (tr_rq (ft_net x)) ws = Ok (r', q') ->
  let x' := after_receiver x r' q' in
  rtc transfer_step (ft_net x) (ft_net x') /\ run_inv x'.
Proof.
  intros Hx Hpc Hr Hrun. unfold receiver_step in Hrun. unfold receiver_at in Hr. rewrite Hpc in Hr, Hrun.
  destruct Hr as (Hsz & Ho & Hi & Hk & Hrd & Hout). rewrite Hsz, Ho in Hrun.
  destruct (Z.ltb_spec (cap * Z.of_nat i) file_length) as [Hlt|Hge].
  - apply chunk_index in Hlt as Hic. destruct (chunk_length i Hic) as [Hc _].
    rewrite (u64_small _ (remaining_u64 i Hlt)), <- Hc in Hrun.
    destruct (ReceiveQueue_push _ _) as [[[rc sn] q1]|] eqn:Hpush; [|done].
    cbn [mbind outcome_bind] in Hrun. injection Hrun as <- <-.
    apply (receiver_post_inv x i (S i) (file_chunk i) _ rc sn); try done;
      [by apply messages_chunk| |unfold receiver_reads; by rewrite Hpc].
    unfold receiver_submits. rewrite Hpc, Hsz, Ho, (proj2 (Z.ltb_lt _ _) Hlt).
    by rewrite (u64_small _ (remaining_u64 i Hlt)), <- Hc.
  - injection Hrun as <- <-. apply (receiver_local x _ i); try done.
    + unfold receiver_submits. by rewrite Hpc, Hsz, Ho, (proj2 (Z.ltb_ge _ _) Hge).
    + unfold receiver_reads. by rewrite Hpc.
    + assert (i = chunk_count) as ->.
      { destruct (decide (i < chunk_count)%nat) as [H%chunk_index|]; lia. }
      unfold receiver_at. cbn [fr_pc fr_out field_set]. exists (S chunk_count).
      rewrite Hout, take_chunks. by split_and!.
Qed.

Lemma receiver_run_inv x ws r' q' :
  run_inv x ->
  receiver_step cap (ft_receiver x) (tr_rmem (ft_net x)) (tr_rq (ft_net x)) ws = Ok (r', q') ->
  let x' := after_receiver x r' q' in
  rtc transfer_step (ft_net x) (ft_net x') /\ run_inv x'.
Proof.
  intros Hx Hrun. pose proof Hx as [Hinv _ _ Hrc _ _ _ _ _ (i & Hr)].
  destruct (fr_pc (ft_receiver x)) as [|task| | |c task|c|ret] eqn:Hpc;
    [| | |by apply (receiver_loop_inv x i ws)| |by apply (receiver_write_inv x i c ws)|];
    unfold receiver_at in Hr; rewrite Hpc in Hr; unfold receiver_step in Hrun; rewrite Hpc in Hrun.
  - destruct Hr as (Hk & Hrd & Hout).
    destruct (ReceiveQueue_push _ _) as [[[rc sn] q1]|] eqn:Hpush; [|done].
    cbn [mbind outcome_bind] in Hrun. injection Hrun as <- <-.
    apply (receiver_post_inv x 0 0 file_header _ rc sn); try done;
      [unfold receiver_submits; by rewrite Hpc|unfold receiver_reads; by rewrite Hpc].
  - destruct Hr as (Hk & Hrd & Hout & Hlive & ->).
    destruct (task_status _ _) as [status|] eqn:E; [|done].
    cbn [mbind outcome_bind] in Hrun. injection Hrun as <- <-.
    apply (receiver_local x _ 0); try done;
      [unfold receiver_submits; by rewrite Hpc|unfold receiver_reads; by rewrite Hpc|].
    destruct (receiver_waits _ _ _ Hinv Hrc Hk E) as [[-> Harr]| ->]; by unfold receiver_at.
  - destruct Hr as (Hk & Hrd & Hout & Hlive & Harr).
    rewrite (received_size x Hx Hk Hrd Hlive Harr) in Hrun. destruct (_ && _); [|done].
    injection Hrun as <- <-.
    apply (receiver_read_inv x 0 0 file_header); try done;
      [unfold receiver_submits; by rewrite Hpc|unfold receiver_reads; by rewrite Hpc|].
    intros Hk' Hrd'. unfold receiver_at. cbn [fr_pc fr_file_size fr_offset fr_out field_set].
    rewrite Hout, Nat.mul_0_r. split_and!; done || lia.
  - destruct Hr as (Hsz & Ho & Hi & -> & Hk & Hrd & Hout & Hlive & ->).
    destruct (task_status _ _) as [status|] eqn:E; [|done].
    cbn [mbind outcome_bind] in Hrun. injection Hrun as <- <-.
    apply (receiver_local x _ i); try done;
      [unfold receiver_submits; by rewrite Hpc|unfold receiver_reads; by rewrite Hpc|].
    destruct (receiver_waits _ _ _ Hinv Hrc Hk E) as [[-> Harr]| ->]; unfold receiver_at;
      cbn [fr_pc fr_addr fr_out fr_offset fr_file_size field_set wait_for_completion]; by split_and!.
  - injection Hrun as <- <-. apply (receiver_local x _ i); try done;
      [unfold receiver_submits; by rewrite Hpc|unfold receiver_reads; by rewrite Hpc|].
    unfold receiver_at. by rewrite Hpc.
Qed.

Lemma file_step_inv x x' :
  file_step cap x x' -> run_inv x -> rtc transfer_step (ft_net x) (ft_net x') /\ run_inv x'.
Proof.
  intros Hstep Hx. destruct Hstep as [x t' Hl|x rs s' m' q' p' t frags Hrun|x ws r' q' t frags Hrun].
  - split; [by apply rtc_once, step_library|by apply library_run_inv].
  - by apply (sender_run_inv x rs).
  - by apply (receiver_run_inv x ws).
Qed.

Lemma file_run_inv x0 x :
  run_inv x0 -> rtc (file_step cap) x0 x -> rtc transfer_step (ft_net x0) (ft_net x) /\ run_inv x.
Proof.
  intros Hx0 Hrun. induction Hrun as [|x0 x1 x Hs _ IH]; [done|].
  destruct (file_step_inv _ _ Hs Hx0) as [Hr1 Hx1]. destruct (IH Hx1) as [Hr2 Hx].
  split; [by etrans|done].
Qed.

(** ** What the invariant gives *)
Lemma run_out x : run_inv x ->
  fr_out (ft_receiver x) `prefix_of` file /\
  (fr_pc (ft_receiver x) = RExit 0 -> fr_out (ft_receiver x) = file).
Proof.
  intros [_ _ _ _ _ _ _ _ _ (i & Hr)]. unfold receiver_at in Hr.
  destruct (fr_pc (ft_receiver x)); destruct_and?; split; try done;
    try match goal with H : fr_out _ = _ |- _ => rewrite H end;
    try apply prefix_nil; try apply prefix_take.
  - by destruct Hr as (k & _ & _ & Hp & _).
  - intros [= ->]. destruct Hr as (k & _ & _ & _ & Hf). by apply Hf.
Qed.

Lemma run_sent x : run_inv x -> fs_pc (ft_sender x) = SExit 0 ->
  tr_content (ft_net x) = content_of f messages /\
  Z.of_nat (length (content_of f messages)) <= rq_tail (tr_rq (ft_net x)).
Proof.
  intros [Hinv _ _ _ _ _ _ _ (i & _ & _ & Hs) _] Hpc. unfold sender_at in Hs. rewrite Hpc in Hs.
  destruct Hs as (j & [Hc Hl] & Hret). destruct (Hret eq_refl) as [-> Hack].
  rewrite firstn_all in Hc, Hl. split; [done|]. apply (f_equal length) in Hl. rewrite length_fmap in Hl.
  rewrite content_lengths, <- Hl. unfold all_acked in Hack. rewrite <- Hack. by apply (li_tails _ (proj2 (proj2 Hinv))).
Qed.

(** ** No statement traps *)
Lemma submit_bounds (frags : list Buffer) j l a :
  buf_length <$> frags = lengths_of f (take j messages) -> messages !! j = Some l -> 0 < a ->
  let b := mkBuffer a (Z.of_nat (length l)) in
  Forall (buffer_valid f) [b] /\ Z.of_nat (length (frags ++ fragments f [b])) < 0x1000000.
Proof.
  intros Hfr Hl Ha b. destruct (message_length j l Hl). pose proof (fo_size Hok). pose proof (fo_frag Hok).
  unfold file_length in *. split; [repeat constructor; cbn; lia|].
  assert (Hlen : length (frags ++ fragments f [b]) = length (lengths_of f (take (S j) messages))).
  { rewrite (take_messages j l Hl), lengths_of_app, lengths_of_one, fragments_one, !length_app, <- Hfr.
    rewrite length_fmap. f_equal. unfold fragment_lengths. rewrite length_fmap.
    apply Nat2Z.inj. by rewrite !length_slice_fragments. }
  pose proof (lengths_of_take_le (S j)). pose proof (fo_cycle Hok). lia.
Qed.

Lemma sender_push_ok x j l :
  run_inv x -> sent_upto (ft_net x) j -> messages !! j = Some l -> exists res,
  SendQueue_push (tr_smem (ft_net x)) (tr_sq (ft_net x)) (tr_pool (ft_net x))
    [mkBuffer (fs_addr (ft_sender x)) (Z.of_nat (length l))] = Ok res.
Proof.
  intros Hx [_ Hj] Hl. destruct (submit_bounds _ j l _ Hj Hl (ru_saddr _ Hx)) as [Hv Hb].
  pose proof (ru_transfer _ Hx) as ([out Hs] & _ & _).
  destruct (SendQueue_push_spec _ _ _ _ _ [mkBuffer (fs_addr (ft_sender x)) (Z.of_nat (length l))]
    (si_rep _ _ Hs) (si_pool _ _ Hs)) as (q' & p' & out' & Hrun & _); rewrite ?(ru_sfrag _ Hx); [done|lia|].
  eauto.
Qed.

Lemma receiver_push_ok x k l :
  run_inv x -> posted_upto (ft_net x) k -> messages !! k = Some l -> exists res,
  ReceiveQueue_push (tr_rq (ft_net x)) [mkBuffer (fr_addr (ft_receiver x)) (Z.of_nat (length l))] = Ok res.
Proof.
  intros Hx Hk Hl. destruct (submit_bounds _ k l _ Hk Hl (ru_raddr _ Hx)) as [Hv Hb].
  pose proof (ru_transfer _ Hx) as (_ & Hr & _).
  destruct (ReceiveQueue_push_spec _ _ _ [mkBuffer (fr_addr (ft_receiver x)) (Z.of_nat (length l))]
    (ri_rep _ Hr) (ri_tight _ Hr)) as (q' & Hrun & _); rewrite ?(ru_rfrag _ Hx); [done|lia|].
  eauto.
Qed.

Lemma task_status_ok {Q : Type} `{WindowQueue Q} (q : Q) task : exists status, task_status q task = Ok status.
Proof. destruct task as [sn|]; cbn; [rewrite queue_status_eq|]; eauto. Qed.

Lemma sender_step_ok x rs : run_inv x -> exists res,
  sender_step cap (ft_sender x) (tr_smem (ft_net x)) (tr_sq (ft_net x)) (tr_pool (ft_net x)) rs = Ok res.
Proof.
  intros Hx. pose proof (ru_sender _ Hx) as (i & Ho & Hi & Hs). unfold sender_at in Hs. unfold sender_step.
  destruct (fs_pc (ft_sender x)) as [| |task| |c|task|ret]; eauto; destruct_and?.
  - destruct (sender_push_ok x 0 file_header) as [[[[rc sn] q'] p'] Hp]; try done.
    change (Z.of_nat (length file_header)) with 8 in Hp. rewrite Hp. eauto.
  - destruct (task_status_ok (tr_sq (ft_net x)) task) as [st ->]. eauto.
  - destruct (_ <? _); [|eauto]. destruct (fs_fd _) as [rest|]; [|eauto].
    destruct (readFully _ _ _ _ _) as [[[ret rest'] m']|]; eauto.
  - subst c. destruct (sender_push_ok x (S i) (file_chunk i)) as [[[[rc sn] q'] p'] Hp]; try done;
      [by apply messages_chunk|]. rewrite Hp. eauto.
  - destruct (task_status_ok (tr_sq (ft_net x)) task) as [st ->]. eauto.
Qed.

Lemma receiver_step_ok x ws :
  run_inv x ->
  (exists res, receiver_step cap (ft_receiver x) (tr_rmem (ft_net x)) (tr_rq (ft_net x)) ws = Ok res) \/
  fr_pc (ft_receiver x) = RReadSize /\ ~ 0 < file_length < 0x800000000 /\
  receiver_step cap (ft_receiver x) (tr_rmem (ft_net x)) (tr_rq (ft_net x)) ws = Trap TrapAssert.
Proof.
  intros Hx. pose proof (ru_receiver _ Hx) as (i & Hr). unfold receiver_at in Hr. unfold receiver_step.
  destruct (fr_pc (ft_receiver x)) as [|task| | |c task|c|ret]; [left..| |left|left|left|left]; eauto.
  - destruct_and?. destruct (receiver_push_ok x 0 file_header) as [[[rc sn] q'] Hp]; try done.
    change (Z.of_nat (length file_header)) with 8 in Hp. rewrite Hp. eauto.
  - destruct (task_status_ok (tr_rq (ft_net x)) task) as [st ->]. eauto.
  - destruct Hr as (Hk & Hrd & _ & Hlive & Harr). rewrite (received_size x Hx Hk Hrd Hlive Harr).
    destruct (Z.ltb_spec 0 file_length), (Z.ltb_spec file_length 0x800000000); cbn [andb];
      [left; eauto|right; split_and!; [done|lia|done]..].
  - destruct Hr as (Hsz & Ho & Hi & Hk & Hrd & Hout). rewrite Hsz, Ho.
    destruct (Z.ltb_spec (cap * Z.of_nat i) file_length) as [Hlt|Hge]; [|eauto].
    apply chunk_index in Hlt as Hic. destruct (chunk_length i Hic) as [Hc _].
    rewrite (u64_small _ (remaining_u64 i Hlt)), <- Hc.
    destruct (receiver_push_ok x (S i) (file_chunk i)) as [[[rc sn] q'] Hp]; try done; [by apply messages_chunk|].
    rewrite Hp. eauto.
  - destruct (task_status_ok (tr_rq (ft_net x)) task) as [st ->]. eauto.
  - destruct (writeFully _ _ _ _ _) as [[ret out]|]; [|eauto]. destruct (_ =? ret); eauto.
Qed.
End file.

(** ** Theorems *)

(** Two new hosts with the same MTU; the sender has opened [file], its buffer is not
    part of the packet pool; the receiver has opened an empty file. *)
Definition file_init (cap : Z) (file : list Z) (x : file_run) : Prop :=
  let f := sq_fragment_size (sd_secondary_queue (tr_sq (ft_net x))) in
  transfer_init (ft_net x) /\
  sq_fragment_size (rq_secondary_queue (tr_rq (ft_net x))) = f /\ file_ok cap f file /\
  (exists addr, 0 < addr /\ outside_pool (tr_pool (ft_net x)) (mkBuffer addr cap) /\
     ft_sender x = mkSender addr (Some file) (Z.of_nat (length file)) 0 SStoreSize) /\
  (exists addr size offset, 0 < addr /\ ft_receiver x = mkReceiver addr size offset [] RRecvSize).

Lemma file_init_inv cap file x :
  file_init cap file x ->
  let f := sq_fragment_size (sd_secondary_queue (tr_sq (ft_net x))) in
  file_ok cap f file /\ run_inv cap f file x.
Proof.
  intros (Hinit & Hf & Hok & (sa & Hsa & Hout & Hs) & (ra & size & offset & Hra & Hr)) f.
  split; [done|]. pose proof (transfer_init_inv _ Hinit) as Hinv.
  destruct Hinit as (_ & (mtu & rcap & wnd & session & Hm & Hc & Hw & _ & Hrq) & _ & _ & Hst & Hct & Hp & _ & Hrd).
  destruct (ReceiveQueue_ctor_rep mtu rcap wnd session Hm Hc Hw) as (r0 & Hr0 & _ & _ & _ & _ & _ & Hrcap & _).
  rewrite Hrq in Hr0. injection Hr0 as <-.
  constructor; rewrite ?Hs, ?Hr, ?Hrcap; try done.
  - lia.
  - exists O. cbn. rewrite Z.mul_0_r. split; [done|]. split; [lia|].
    unfold sender_at, sent_upto. cbn. by rewrite Hct, Hst.
  - exists O. unfold receiver_at, posted_upto, read_upto. cbn. by rewrite Hp, Hrd.
Qed.



(** ** A run: a file of eleven bytes in two chunks

    An executable scheduler, which checks the conditions of the steps it takes. *)
Inductive action : Type :=
| ASender (rs : list sysret)
| AReceiver (ws : list sysret)
| ATransmit (i now : Z)
| ADeliver (k : nat) (packet_buf : Z)
| AAck.

Definition spares_b (a n : Z) (l : list Buffer) : bool :=
  forallb (fun b => (a + n <=? buf_addr b) || (buf_addr b + buf_length b <=? a)) l.
Lemma spares_b_ok a n l : spares_b a n l = true -> spares a n l.
Proof.
  unfold spares_b. rewrite forallb_forall. intros H b Hb%list_elem_of_In.
  specialize (H b Hb). unfold apart. lia.
Qed.

Section scheduler.
Variables (cap : Z) (junk : PacketHandle) (grh : list Z).
Hypothesis Hgrh : length grh = Z.to_nat kGRHSize.

Definition act (x : file_run) (a : action) : option file_run :=
  let t := ft_net x in
  let net t' := mkFileRun t' (ft_sender x) (ft_receiver x) in
  match a with
  | ASender rs =>
      match sender_step cap (ft_sender x) (tr_smem t) (tr_sq t) (tr_pool t) rs with
      | Ok (s', m', q', p') => Some (after_sender x s' m' q' p')
      | Trap _ => None
      end
  | AReceiver ws =>
      match receiver_step cap (ft_receiver x) (tr_rmem t) (tr_rq t) ws with
      | Ok (r', q') => Some (after_receiver cap x r' q')
      | Trap _ => None
      end
  | ATransmit i now =>
      if (sd_tail (tr_sq t) <=? i) && (i <? sd_head (tr_sq t)) && (0 <=? now) && (now <? 0x10000000000000000)
      then match SendQueue_getMutableEntry (tr_sq t) i with
           | Ok h =>
               match PacketHandle_serialize_array (h <| ph_ts := now |>) (tr_smem t) with
               | (Some (s0, s1, imm), h', m') =>
                   Some (net (t <| tr_smem := m' |> <| tr_sq := SendQueue_setEntry (tr_sq t) i h' |>
                     <| tr_data := mkDatagram i imm (gather m' [s0; s1]) :: tr_data t |>))
               | _ => None
               end
           | Trap _ => None
           end
      else None
  | ADeliver k packet_buf =>
      match tr_data t !! k with
      | None => None
      | Some d =>
          if negb (packet_buf =? 0) &&
             spares_b packet_buf (kGRHSize + Z.of_nat (length (dg_bytes d))) (live_posted t) &&
             (rq_tail (tr_rq t) + rq_wnd_size (tr_rq t) - 0x1000000 <=? dg_index d)
          then match receive_datagram (tr_rmem t) (tr_rq t) junk packet_buf grh d with
               | Ok (rq', m') =>
                   Some (net (t <| tr_rq := rq' |> <| tr_rmem := m' |>
                     <| tr_received := match rx_hit (tr_rq t) (tr_received t) (SHORT_SN (dg_index d)) with
                                       | Some i => {[i]} ∪ tr_received t
                                       | None => tr_received t end |>))
               | Trap _ => None
               end
          else None
      end
  | AAck =>
      let a := rq_tail (tr_rq t) in
      if sd_head (tr_sq t) <? a + 0x1000000 then
        match SendQueue_markCompleted (tr_smem t) (tr_sq t) (tr_pool t) (SHORT_SN a) with
        | Ok (_, q', p') =>
            Some (net (t <| tr_acks := a :: tr_acks t |> <| tr_sq := q' |> <| tr_pool := p' |>))
        | Trap _ => None
        end
      else None
  end.

Lemma act_steps x a x' : act x a = Some x' -> rtc (file_step cap) x x'.
Proof using Hgrh.
  intros Ha. destruct a as [rs|ws|i now|k buf|]; cbn [act] in Ha.
  - destruct (sender_step _ _ _ _ _ _) as [[[[s' m'] q'] p']|] eqn:E; [|done]. injection Ha as <-.
    by apply rtc_once, (fstep_sender cap x rs).
  - destruct (receiver_step _ _ _ _ _) as [[r' q']|] eqn:E; [|done]. injection Ha as <-.
    by apply rtc_once, (fstep_receiver cap x ws).
  - destruct (_ && _) eqn:Hc; [|done]. destruct (SendQueue_getMutableEntry _ _) as [h|] eqn:Hent; [|done].
    destruct (PacketHandle_serialize_array _ _) as [[[[[s0 s1] imm]|] h'] m'] eqn:Hser; [|done].
    injection Ha as <-. apply andb_prop in Hc as [[[H1 H2]%andb_prop H3]%andb_prop H4].
    apply rtc_once, fstep_library. apply (step_transmit _ i now h s0 s1 imm h' m'); try done; [lia|].
    unfold is_u64. lia.
  - destruct (tr_data (ft_net x) !! k) as [d|] eqn:Hd; [|done]. destruct (_ && _) eqn:Hc; [|done].
    destruct (receive_datagram _ _ _ _ _ _) as [[rq' m']|] eqn:Hr; [|done]. injection Ha as <-.
    apply andb_prop in Hc as [[Hb Hs]%andb_prop Hage].
    apply rtc_once, fstep_library. eapply step_deliver; try done; [by eapply list_elem_of_lookup_2|lia| |lia].
    by apply spares_b_ok.
  - destruct (_ <? _) eqn:Hc; [|done]. destruct (SendQueue_markCompleted _ _ _ _) as [[[rc q'] p']|] eqn:Hm; [|done].
    injection Ha as <-. set (t1 := (ft_net x) <| tr_acks := rq_tail (tr_rq (ft_net x)) :: tr_acks (ft_net x) |>).
    assert (Hack : library_step t1 (t1 <| tr_sq := q' |> <| tr_pool := p' |>)).
    { apply (step_recv_ack t1 (rq_tail (tr_rq (ft_net x))) rc q' p'); [apply elem_of_cons; by left| |exact Hm].
      cbn. lia. }
    eapply rtc_l; [apply fstep_library, step_send_ack|].
    apply rtc_once, (fstep_library _ (mkFileRun _ _ _)). exact Hack.
Qed.

Definition script (x : file_run) (l : list action) : option file_run :=
  foldl (fun o a => x ← o; act x a) (Some x) l.
Lemma script_steps l : forall x x', script x l = Some x' -> rtc (file_step cap) x x'.
Proof using Hgrh.
  unfold script. induction l as [|a l IH]; intros x x' H; cbn in H; [by injection H as ->|].
  destruct (act x a) as [y|] eqn:Ha.
  - etrans; [by apply (act_steps x a)|by apply IH].
  - exfalso. clear -H. induction l as [|b l IH]; cbn in H; [done|by apply IH].
Qed.
End scheduler.

Definition demo_file : list Z := [104; 101; 108; 108; 111; 32; 119; 111; 114; 108; 100].
Definition demo_blocks : Z * PacketBufferPool * mem :=
  demo_get (0, one_block_pool, ∅)
    (PacketBufferPool_construct (fun _ _ => 4096) 0 (PacketBufferPool_ctor 64 6) ∅).
Definition demo_x0 (file : list Z) : file_run :=
  mkFileRun
    (mkTransfer (snd demo_blocks) (snd (fst demo_blocks))
       (demo_get demo_queue (SendQueue_ctor 64 4 2 3 test_handle)) ∅
       (demo_get demo_rx (ReceiveQueue_ctor 64 4 2 3)) [] [] [] [] [] ∅ [])
    (mkSender 1000 (Some file) (Z.of_nat (length file)) 0 SStoreSize) (mkReceiver 2000 0 0 [] RRecvSize).

Lemma demo_x0_init file : file_ok 8 16 file -> file_init 8 file (demo_x0 file).
Proof.
  intros Hok. split_and!; try done.
  - split_and!; try done.
    + destruct (construct_inv (fun _ _ => 4096) 0 64 6 ∅)
        as (p & m & Hc & _ & _ & _ & Hinv); [unfold arena_ok, sizeof_PktHdr; lia|].
      exists 64, 4, 2, 3, test_handle, []. split_and!; try done.
      unfold demo_x0, demo_blocks. rewrite Hc. exact Hinv.
    + exists 64, 4, 2, 3. split_and!; try lia; [by exists 0x400000|vm_compute; reflexivity].
  - exists 1000. split_and!; [done|left; vm_compute; congruence|done].
  - by exists 2000, 0, 0.
Qed.

(** Every message is sent once; the first and the last are delivered twice. *)
Definition demo_actions : list action :=
  let s := ASender [Retry; Bytes 3; Bytes 100] in
  let r := AReceiver [Bytes 2; Retry; Bytes 100] in
  [s; s; r; r; ATransmit 0 7; ADeliver 0 8000; ADeliver 0 8000; AAck; s; s; r; r; s; r; s;
   ATransmit 1 9; ADeliver 0 8000; r; r; AAck; s; s; s; ATransmit 2 11; r;
   ADeliver 0 8000; ADeliver 0 8000; ADeliver 1 8000; AAck; s; s; r; r; r].
(** Up to the announced size of the file. *)
Definition demo_announce : list action :=
  [ASender []; ASender []; AReceiver []; ATransmit 0 7; ADeliver 0 8000; AReceiver []].
Definition demo_run (file : list Z) (l : list action) : file_run :=
  default (demo_x0 file) (script 8 test_handle (replicate 40 0) (demo_x0 file) l).
Lemma demo_run_steps file l :
  is_Some (script 8 test_handle (replicate 40 0) (demo_x0 file) l) ->
  rtc (file_step 8) (demo_x0 file) (demo_run file l).
Proof.
  intros [x Hx]. apply (script_steps 8 test_handle (replicate 40 0) eq_refl l).
  unfold demo_run. by rewrite Hx.
Qed.


