(* ===== verification/BenchBarrier.v ===== *)
(** * The benchmark: how its threads synchronise

    Models [sender] and the frame of [sendThread] of src/example/benchmark.cpp: the
    main thread and [threads] workers meet at a barrier when the workers have warmed
    up, the workers transfer until [g_running] is cleared, all meet at the barrier
    again, and each worker adds what it transferred to [g_transferred_bytes].

    The barrier is that of pthreads with [threads + 1] participants: a thread that
    calls [pthread_barrier_wait] waits until that many do, and then all go on.  What
    a worker does between the barriers is in Benchmark.v. *)

From S2P Require Import Prelude.

Inductive worker_pc : Type :=
| WWarmUp                      (** before the first barrier *)
| WBarrier1
| WTransfer (bytes : Z)        (** in the loop over [g_running] *)
| WBarrier2 (bytes : Z)
| WAdd (bytes : Z)             (** past the second barrier *)
| WReturned (ret bytes : Z).
Inductive main_pc : Type := MStart | MBarrier1 | MSleep | MBarrier2 | MJoin | MReturned.
#[export] Instance main_pc_eq_dec : EqDecision main_pc.
Proof. solve_decision. Defined.

Record bench := mkBench {
  bn_main : main_pc;
  bn_workers : list worker_pc;
  bn_running : bool;
  bn_transferred : Z
}.
#[export] Instance bench_fields : Fields bench := mkFields (fun x =>
  mkBench (bn_main x) (bn_workers x) (bn_running x) (bn_transferred x)).
Definition bench_start (threads : nat) : bench := mkBench MStart (replicate threads WWarmUp) true 0.

(** ** The barrier *)
Definition worker_waits (w : worker_pc) : bool :=
  match w with WBarrier1 | WBarrier2 _ => true | _ => false end.
Definition main_waits (m : main_pc) : bool :=
  match m with MBarrier1 | MBarrier2 => true | _ => false end.
Definition waiting (x : bench) : nat :=
  length (List.filter worker_waits (bn_workers x)) + (if main_waits (bn_main x) then 1 else 0).

Definition worker_release (w : worker_pc) : worker_pc :=
  match w with WBarrier1 => WTransfer 0 | WBarrier2 b => WAdd b | _ => w end.
Definition main_release (m : main_pc) : main_pc :=
  match m with MBarrier1 => MSleep | MBarrier2 => MJoin | _ => m end.
Definition bench_release (x : bench) : bench :=
  x <| bn_main := main_release (bn_main x) |> <| bn_workers := worker_release <$> bn_workers x |>.

Definition set_worker (x : bench) (i : nat) (w : worker_pc) : bench :=
  x <| bn_workers := <[i := w]> (bn_workers x) |>.

(** ** The threads *)
Section steps.
Variable chunk_size : Z.

Inductive bench_step : bench -> bench -> Prop :=
| bp_fail x i : bn_workers x !! i = Some WWarmUp -> bench_step x (set_worker x i (WReturned ERR 0))
| bp_ready x i : bn_workers x !! i = Some WWarmUp -> bench_step x (set_worker x i WBarrier1)
| bp_transfer x i b :
    bn_workers x !! i = Some (WTransfer b) -> bn_running x = true ->
    bench_step x (set_worker x i (WTransfer (u64 (b + chunk_size))))
| bp_stop x i b :
    bn_workers x !! i = Some (WTransfer b) -> bn_running x = false ->
    bench_step x (set_worker x i (WBarrier2 b))
| bp_add x i b :
    bn_workers x !! i = Some (WAdd b) ->
    bench_step x ((set_worker x i (WReturned 0 b)) <| bn_transferred := u64 (bn_transferred x + b) |>)
| bp_main_wait x : bn_main x = MStart -> bench_step x (x <| bn_main := MBarrier1 |>)
| bp_main_stop x :
    bn_main x = MSleep -> bench_step x (x <| bn_main := MBarrier2 |> <| bn_running := false |>)
| bp_main_join x :
    bn_main x = MJoin -> Forall (fun w => exists r b, w = WReturned r b) (bn_workers x) ->
    bench_step x (x <| bn_main := MReturned |>)
| bp_barrier x :
    waiting x = S (length (bn_workers x)) -> bench_step x (bench_release x).
End steps.

(** ** Invariant *)

(** Where the workers can be while the main thread is at [m]. *)
Definition in_phase (m : main_pc) (w : worker_pc) : Prop :=
  match m, w with
  | (MStart | MBarrier1), (WWarmUp | WBarrier1) => True
  | (MStart | MBarrier1), WReturned r b => r = ERR /\ b = 0
  | MSleep, WTransfer _ => True
  | MBarrier2, (WTransfer _ | WBarrier2 _) => True
  | MJoin, WAdd _ => True
  | (MJoin | MReturned), WReturned r _ => r = 0
  | _, _ => False
  end.
Definition added (w : worker_pc) : Z := match w with WReturned _ b => b | _ => 0 end.
Fixpoint sum_added (l : list worker_pc) : Z :=
  match l with [] => 0 | w :: l => added w + sum_added l end.

Record bench_inv (threads : nat) (x : bench) : Prop := {
  bi_length : length (bn_workers x) = threads;
  bi_phase : Forall (in_phase (bn_main x)) (bn_workers x);
  bi_running : bn_running x = match bn_main x with MStart | MBarrier1 | MSleep => true | _ => false end;
  bi_total : bn_transferred x = u64 (sum_added (bn_workers x))
}.

Lemma all_waiting x :
  waiting x = S (length (bn_workers x)) ->
  main_waits (bn_main x) = true /\ Forall (fun w => worker_waits w = true) (bn_workers x).
Proof.
  unfold waiting. intros H. pose proof (List.filter_length_le worker_waits (bn_workers x)) as Hle.
  destruct (main_waits (bn_main x)); [|lia]. split; [done|].
  assert (Hl : length (List.filter worker_waits (bn_workers x)) = length (bn_workers x)) by lia. clear -Hl.
  induction (bn_workers x) as [|w l IH]; [done|]. cbn in Hl.
  pose proof (List.filter_length_le worker_waits l). destruct (worker_waits w) eqn:Hw; cbn in Hl; [|lia].
  constructor; [done|]. apply IH. lia.
Qed.

Lemma waiting_all x :
  main_waits (bn_main x) = true -> Forall (fun w => worker_waits w = true) (bn_workers x) ->
  waiting x = S (length (bn_workers x)).
Proof.
  intros Hm Hw. unfold waiting. rewrite Hm. enough (List.filter worker_waits (bn_workers x) = bn_workers x) as -> by lia.
  induction Hw as [|w l Hw _ IH]; [done|]. cbn. by rewrite Hw, IH.
Qed.

Lemma sum_added_insert l i w w' :
  l !! i = Some w -> sum_added (<[i := w']> l) = sum_added l - added w + added w'.
Proof.
  revert i. induction l as [|v l IH]; intros [|i] H; [done|done|injection H as ->; cbn; lia|].
  change (<[S i := w']> (v :: l)) with (v :: <[i := w']> l). cbn [sum_added].
  rewrite (IH i H). lia.
Qed.

Lemma sum_added_release l : Forall (fun w => worker_waits w = true) l -> sum_added (worker_release <$> l) = sum_added l.
Proof. induction 1 as [|w l Hw _ IH]; [done|]. rewrite fmap_cons. cbn [sum_added]. rewrite IH. by destruct w. Qed.

Lemma bench_start_inv threads : bench_inv threads (bench_start threads).
Proof.
  constructor; cbn; [apply length_replicate|by apply Forall_replicate|done|].
  by induction threads.
Qed.

(** A worker moves within its phase. *)
Lemma set_worker_inv threads x i w w' :
  bench_inv threads x -> bn_workers x !! i = Some w -> in_phase (bn_main x) w' -> added w = 0 ->
  bench_inv threads ((set_worker x i w') <| bn_transferred := u64 (bn_transferred x + added w') |>).
Proof.
  intros [Hl Hp Hr Ht] Hi Hw H0. constructor; cbn; rewrite ?length_insert; try done.
  - by apply Forall_insert.
  - rewrite Ht, (sum_added_insert _ _ w) by done. rewrite H0. unfold u64. rewrite Zplus_mod_idemp_l. f_equal. lia.
Qed.

Lemma set_worker_same threads x i w w' :
  bench_inv threads x -> bn_workers x !! i = Some w -> in_phase (bn_main x) w' -> added w = 0 -> added w' = 0 ->
  bench_inv threads (set_worker x i w').
Proof.
  intros Hinv Hi Hw H0 H1. pose proof (set_worker_inv _ _ _ _ _ Hinv Hi Hw H0) as [Hl Hp Hr Ht].
  constructor; try done. cbn in *. rewrite <- Ht, H1, Z.add_0_r, (bi_total _ _ Hinv). unfold u64. by rewrite Zmod_mod.
Qed.

Lemma in_phase_at x threads i w : bench_inv threads x -> bn_workers x !! i = Some w -> in_phase (bn_main x) w.
Proof. intros [_ Hp _ _] Hi. rewrite Forall_forall in Hp. apply Hp. by eapply list_elem_of_lookup_2. Qed.

Lemma bench_step_inv chunk threads x y : bench_inv threads x -> bench_step chunk x y -> bench_inv threads y.
Proof.
  intros Hinv Hstep. destruct Hstep as [x i Hi|x i Hi|x i b Hi Hr|x i b Hi Hr|x i b Hi|x Hm|x Hm|x Hm Hall|x Hw];
    try (pose proof (in_phase_at _ _ _ _ Hinv Hi) as Hp).
  1-4: eapply set_worker_same; try done; pose proof (bi_running _ _ Hinv) as Hrun; destruct (bn_main x); try done;
    rewrite ?Hr in Hrun; done.
  - eapply (set_worker_inv _ _ _ _ (WReturned 0 b)); try done. by destruct (bn_main x).
  - destruct Hinv as [Hl Hp Hr Ht]. constructor; cbn; rewrite ?Hm in *; done.
  - destruct Hinv as [Hl Hp Hr Ht]. constructor; cbn; rewrite ?Hm in *; try done.
    eapply Forall_impl; [exact Hp|]. by intros [].
  - destruct Hinv as [Hl Hp Hr Ht]. constructor; cbn; rewrite ?Hm in *; try done.
    apply Forall_forall. intros w Hw. rewrite Forall_forall in Hp, Hall. specialize (Hp w Hw).
    destruct (Hall w Hw) as (r & b & ->). done.
  - apply all_waiting in Hw as [Hm Hws]. destruct Hinv as [Hl Hp Hr Ht]. constructor; cbn.
    + by rewrite length_fmap.
    + apply Forall_fmap. rewrite Forall_forall in Hp, Hws |- *. intros w Hw. specialize (Hp w Hw).
      specialize (Hws w Hw). destruct (bn_main x), w; done.
    + by rewrite Hr; destruct (bn_main x).
    + by rewrite sum_added_release.
Qed.

Lemma bench_run_inv chunk threads x y :
  bench_inv threads x -> rtc (bench_step chunk) x y -> bench_inv threads y.
Proof. intros Hx. induction 1 as [|x y z H _ IH]; [done|]. apply IH. by eapply bench_step_inv. Qed.

(** ** Ending *)
Definition failed (x : bench) : Prop := exists i b, bn_workers x !! i = Some (WReturned ERR b).

(** A worker that has returned early stays so, and keeps everyone before the first
    barrier. *)
Lemma failed_stays chunk threads x y :
  bench_inv threads x -> failed x -> bench_step chunk x y -> failed y.
Proof.
  intros Hinv (k & b & Hk) Hstep. exists k, b.
  destruct Hstep as [x i Hi|x i Hi|x i c Hi Hr|x i c Hi Hr|x i c Hi|x Hm|x Hm|x Hm Hall|x Hw]; cbn; try done.
  1-5: rewrite list_lookup_insert_ne; [done|intros ->; congruence].
  rewrite list_lookup_fmap, Hk. done.
Qed.

Lemma failed_main threads x : bench_inv threads x -> failed x -> bn_main x = MStart \/ bn_main x = MBarrier1.
Proof. intros Hinv (i & b & Hi). pose proof (in_phase_at _ _ _ _ Hinv Hi) as Hp. destruct (bn_main x); auto; done. Qed.

(** How far the threads are from their end. *)
Definition worker_left (w : worker_pc) : nat :=
  match w with WWarmUp => 5 | WBarrier1 => 4 | WTransfer _ => 3 | WBarrier2 _ => 2 | WAdd _ => 1 | WReturned _ _ => 0 end.
Definition main_left (m : main_pc) : nat :=
  match m with MStart => 5 | MBarrier1 => 4 | MSleep => 3 | MBarrier2 => 2 | MJoin => 1 | MReturned => 0 end.
Definition bench_left (x : bench) : nat := main_left (bn_main x) + list_sum (worker_left <$> bn_workers x).

Lemma left_insert l i w w' :
  l !! i = Some w -> (worker_left w' < worker_left w)%nat ->
  (list_sum (worker_left <$> <[i := w']> l) < list_sum (worker_left <$> l))%nat.
Proof.
  revert i. induction l as [|v l IH]; intros [|i] H Hlt; [done|done|injection H as ->; cbn; lia|].
  change (<[S i := w']> (v :: l)) with (v :: <[i := w']> l). rewrite !fmap_cons. cbn [list_sum foldr].
  specialize (IH i H Hlt). unfold list_sum in IH. lia.
Qed.

(** Either everyone waits, or some thread can go on. *)
Lemma find_worker (f : worker_pc -> bool) l :
  Forall (fun w => f w = true) l \/ exists i w, l !! i = Some w /\ f w = false.
Proof.
  induction l as [|w l [IH|(i & v & Hi & Hv)]]; [by left| |right; by exists (S i), v].
  destruct (f w) eqn:Hw; [left; by constructor|right; by exists 0%nat, w].
Qed.

Lemma not_failed_set x i w : ~ failed x -> (forall b, w <> WReturned ERR b) -> ~ failed (set_worker x i w).
Proof.
  intros Hx Hw (k & b & Hk). cbn in Hk. destruct (decide (i = k)) as [<-|Hne].
  - destruct (decide (i < length (bn_workers x))%nat) as [Hlt|Hge].
    + rewrite list_lookup_insert_eq in Hk by done. injection Hk as ->. by eapply Hw.
    + rewrite list_insert_ge in Hk by lia. apply Hx. by exists i, b.
  - rewrite list_lookup_insert_ne in Hk by done. apply Hx. by exists k, b.
Qed.

Lemma release_left l : Forall (fun w => worker_waits w = true) l ->
  (list_sum (worker_left <$> (worker_release <$> l)) <= list_sum (worker_left <$> l))%nat.
Proof.
  induction 1 as [|w l Hw _ IH]; [done|]. rewrite !fmap_cons. unfold list_sum in *. cbn [foldr].
  destruct w; cbn in Hw |- *; (done || lia).
Qed.

Lemma barrier_progress chunk threads x :
  bench_inv threads x -> ~ failed x -> main_waits (bn_main x) = true ->
  Forall (fun w => worker_waits w = true) (bn_workers x) ->
  exists y, bench_step chunk x y /\ (bench_left y < bench_left x)%nat /\ ~ failed y.
Proof.
  intros Hinv Hf Hm Hw. exists (bench_release x). split_and!.
  - apply bp_barrier. by apply waiting_all.
  - pose proof (release_left _ Hw). unfold bench_left.
    change (bn_main (bench_release x)) with (main_release (bn_main x)).
    change (bn_workers (bench_release x)) with (worker_release <$> bn_workers x).
    destruct (bn_main x); cbn [main_left main_release] in *; (done || lia).
  - intros (i & b & Hi). cbn in Hi. rewrite list_lookup_fmap in Hi.
    destruct (bn_workers x !! i) as [w|] eqn:Hw'; [|done]. injection Hi as Hi. apply Hf. exists i, b.
    rewrite Hw'. destruct w; cbn in Hi; congruence.
Qed.

Local Ltac left_main Hm := unfold bench_left; apply Nat.add_lt_mono_r; rewrite Hm; cbn; lia.

Lemma bench_progress chunk threads x :
  bench_inv threads x -> ~ failed x -> bn_main x <> MReturned ->
  exists y, bench_step chunk x y /\ (bench_left y < bench_left x)%nat /\ ~ failed y.
Proof.
  intros Hinv Hf Hend. destruct (bn_main x) eqn:Hm; try done.
  - exists (x <| bn_main := MBarrier1 |>). split; [by constructor|]. split; [|done]. left_main Hm.
  - destruct (find_worker worker_waits (bn_workers x)) as [Hall|(i & w & Hi & Hw)];
      [eapply barrier_progress; try done; by rewrite Hm|].
    pose proof (in_phase_at _ _ _ _ Hinv Hi) as Hp. rewrite Hm in Hp. destruct w as [| | | | |r b]; try done.
    + exists (set_worker x i WBarrier1). split; [by constructor|]. split; [|by apply not_failed_set].
      apply Nat.add_lt_mono_l. cbn. eapply left_insert; [exact Hi|cbn; lia].
    + exfalso. destruct Hp as [-> _]. apply Hf. by exists i, b.
  - exists (x <| bn_main := MBarrier2 |> <| bn_running := false |>). split; [by constructor|]. split; [|done].
    left_main Hm.
  - destruct (find_worker worker_waits (bn_workers x)) as [Hall|(i & w & Hi & Hw)];
      [eapply barrier_progress; try done; by rewrite Hm|].
    pose proof (in_phase_at _ _ _ _ Hinv Hi) as Hp. rewrite Hm in Hp. destruct w as [| |b| | |]; try done.
    exists (set_worker x i (WBarrier2 b)). split; [constructor; [done|]; by rewrite (bi_running _ _ Hinv), Hm|].
    split; [|by apply not_failed_set]. apply Nat.add_lt_mono_l. cbn. eapply left_insert; [exact Hi|cbn; lia].
  - destruct (find_worker (fun w => match w with WReturned _ _ => true | _ => false end) (bn_workers x))
      as [Hall|(i & w & Hi & Hw)].
    + exists (x <| bn_main := MReturned |>). split; [|split; [|done]].
      * constructor; [done|]. eapply Forall_impl; [exact Hall|]. intros [] H; try done. by eexists _, _.
      * left_main Hm.
    + pose proof (in_phase_at _ _ _ _ Hinv Hi) as Hp. rewrite Hm in Hp. destruct w as [| | | |b|]; try done.
      eexists. split; [by apply (bp_add _ _ i b)|].
      split; [|eapply (not_failed_set x i (WReturned 0 b)); done]. apply Nat.add_lt_mono_l. cbn.
      eapply left_insert; [exact Hi|cbn; lia].
Qed.

Lemma bench_can_end chunk threads n : forall x,
  (bench_left x < n)%nat -> bench_inv threads x -> ~ failed x ->
  exists y, rtc (bench_step chunk) x y /\ bn_main y = MReturned.
Proof.
  induction n as [|n IH]; intros x Hlt Hinv Hf; [lia|].
  destruct (decide (bn_main x = MReturned)) as [He|He]; [by exists x|].
  destruct (bench_progress chunk threads x Hinv Hf He) as (y & Hs & Hd & Hfy).
  destruct (IH y) as (z & Hz & Hend); [lia|by eapply bench_step_inv|done|].
  exists z. split; [by eapply rtc_l|done].
Qed.


