(* ===== verification/ProtocolTasks.v ===== *)
(** * Tasks of a protocol

    [ProtocolTasks] is what an application relies on of the tasks of a protocol
    (Session.v): an id is new when it is handed out and stays until it is freed, and
    nothing else creates or removes tasks.  The unreliable protocol (Unreliable.v)
    promises it as long as fewer than 2^31 tasks are created: the frame lemmas show
    that the methods of [Context] (src/protocols/rdma_unreliable/context.cpp) other
    than [send], [receive] and [freeTask] leave the tasks alone. *)

From S2P Require Import Prelude MemoryRegions Text Mem Packet BufferPool SecondaryQueue SendQueue ReceiveQueue.
From S2P Require Import PacketManager Tasks Congestion RequestCache Posting UdEndpoint Controller Context.
From S2P Require Import Session Unreliable.

(** The interface.  [pt_ok k]: at least [k] more tasks can
    be created before the ids are used up. *)
Class ProtocolTasks (P : Type) `{Protocol P} := {
  pt_ok : nat -> P -> Prop;
  pt_tasks : P -> gset Z;
  pt_mono : forall k p, pt_ok (S k) p -> pt_ok k p;
  pt_send : forall k p peer l ret p', pt_ok (S k) p -> proto_send p peer l = Ok (ret, p') ->
    (ret < 0 /\ pt_ok (S k) p' /\ pt_tasks p' = pt_tasks p) \/
    (0 <= ret /\ pt_ok k p' /\ ret ∉ pt_tasks p /\ pt_tasks p' = {[ret]} ∪ pt_tasks p);
  pt_receive : forall k p peer l ret p', pt_ok (S k) p -> proto_receive p peer l = Ok (ret, p') ->
    (ret < 0 /\ pt_ok (S k) p' /\ pt_tasks p' = pt_tasks p) \/
    (0 <= ret /\ pt_ok k p' /\ ret ∉ pt_tasks p /\ pt_tasks p' = {[ret]} ∪ pt_tasks p);
  pt_status : forall k p id status p', pt_ok k p -> proto_getStatus p id = Ok (status, p') ->
    pt_ok k p' /\ pt_tasks p' = pt_tasks p;
  pt_free : forall k p id, pt_ok k p -> pt_ok k (proto_freeTask p id).2 /\
    pt_tasks (proto_freeTask p id).2 = pt_tasks p ∖ {[id]};
  pt_step : forall k p ret p', pt_ok k p -> proto_runStep p = Ok (ret, p') ->
    pt_ok k p' /\ pt_tasks p' = pt_tasks p;
  pt_prepare : forall k p peer l ret p' a, pt_ok k p -> prepareConnection p peer l = Ok (ret, p', a) ->
    pt_ok k p' /\ pt_tasks p' = pt_tasks p;
  pt_setup : forall k p peer a ret p', pt_ok k p -> setupConnection p peer a = Ok (ret, p') ->
    pt_ok k p' /\ pt_tasks p' = pt_tasks p
}.

(** ** The tasks of a context *)
Definition tasks_of (c : Context) : gmap Z Task * Z := (cx_task_map c, cx_next_task_id c).

Section frame.
Variable ibv_post_send : Z -> list ibv_wr -> Z * nat.
Variable ibv_post_recv : Z -> list ibv_wr -> Z * nat.
Variable operator_new : heap -> Z.
Variable traverse : gmap Z SessionInfo -> list Z.
Variable junk : PacketHandle.

Lemma new_request_tasks c r ptr c' :
  Context_new_request operator_new c r = Ok (ptr, c') -> tasks_of c' = tasks_of c.
Proof. unfold Context_new_request. intros H. outcome_run. by simplify_eq. Qed.
Lemma endpoint_tasks c sid e c' : Context_endpoint c sid = (e, c') -> tasks_of c' = tasks_of c.
Proof. unfold Context_endpoint. destruct (Controller_getOrCreateEndpoint _ _). by intros [= <- <-]. Qed.
Lemma ensure_endpoint_tasks c sid e0 e c' :
  Context_ensure_endpoint c sid e0 = (e, c') -> tasks_of c' = tasks_of c.
Proof. destruct e0; [by intros [= <- <-]|apply endpoint_tasks]. Qed.
Lemma post_send_tasks c path l ret c' :
  Context_post_send ibv_post_send c path l = Ok (ret, c') -> tasks_of c' = tasks_of c.
Proof. unfold Context_post_send. intros H. outcome_run. by simplify_eq. Qed.

Ltac frame_step :=
  repeat match goal with
  | H : Context_new_request _ _ _ = Ok _ |- _ => apply new_request_tasks in H
  | H : Context_endpoint _ _ = _ |- _ => apply endpoint_tasks in H
  | H : Context_ensure_endpoint _ _ _ = _ |- _ => apply ensure_endpoint_tasks in H
  | H : Context_post_send _ _ _ _ = Ok _ |- _ => apply post_send_tasks in H
  end.
Ltac frame_done := unfold tasks_of in *; cbn in *; congruence.

Lemma submit_tasks c raw ret c' :
  Context_submitNormalRecvWR ibv_post_recv operator_new c raw = Ok (ret, c') -> tasks_of c' = tasks_of c.
Proof. unfold Context_submitNormalRecvWR. intros H. outcome_run. simplify_eq. frame_step. frame_done. Qed.
Lemma flush_tasks st st' :
  Context_flush ibv_post_send st = Ok st' -> tasks_of (sl_context st') = tasks_of (sl_context st).
Proof. unfold Context_flush. intros H. outcome_run; simplify_eq; [done|..]; frame_step; frame_done. Qed.

Lemma send_packet_tasks now sid qid curr st e st' :
  Context_send_packet ibv_post_send operator_new now sid qid curr st = Ok (e, st') ->
  tasks_of (sl_context st') = tasks_of (sl_context st).
Proof.
  unfold Context_send_packet. intros H. outcome_run; simplify_eq; try done.
  all: repeat match goal with E : Context_flush _ _ = Ok _ |- _ => apply flush_tasks in E end; frame_step; frame_done.
Qed.
Lemma packet_loop_tasks n now sid qid : forall curr st r st',
  Context_packet_loop ibv_post_send operator_new n now sid qid curr st = Ok (r, st') ->
  tasks_of (sl_context st') = tasks_of (sl_context st).
Proof.
  induction n as [|n IH]; intros curr st r st' H; cbn [Context_packet_loop] in H; outcome_run; simplify_eq; try done;
    match goal with E : Context_send_packet _ _ _ _ _ _ _ = _ |- _ => apply send_packet_tasks in E end; try done.
  by rewrite (IH _ _ _ _ H).
Qed.
Lemma data_loop_tasks now sids : forall c ret c',
  Context_data_loop ibv_post_send operator_new c now sids = Ok (ret, c') -> tasks_of c' = tasks_of c.
Proof.
  assert (Hone : forall c sid r c', Context_send_session ibv_post_send operator_new c now sid = Ok (r, c') ->
    tasks_of c' = tasks_of c).
  { unfold Context_send_session. intros c sid r c' H. outcome_run; simplify_eq; try done;
      match goal with E : Context_packet_loop _ _ _ _ _ _ _ _ = _ |- _ => apply packet_loop_tasks in E end; [done|].
    match goal with E : Context_flush _ _ = _ |- _ => apply flush_tasks in E end. frame_done. }
  induction sids as [|sid sids IH]; intros c ret c' H; cbn [Context_data_loop] in H; outcome_run; simplify_eq; try done;
    match goal with E : Context_send_session _ _ _ _ _ = _ |- _ => apply Hone in E end; [done|].
  by rewrite (IH _ _ _ H).
Qed.
Lemma ack_loop_tasks sids : forall c ret c',
  Context_ack_loop ibv_post_send operator_new c sids = Ok (ret, c') -> tasks_of c' = tasks_of c.
Proof.
  assert (Hone : forall c sid r c', Context_send_ack ibv_post_send operator_new c sid = Ok (r, c') ->
    tasks_of c' = tasks_of c).
  { unfold Context_send_ack. intros c sid r c' H. outcome_run; simplify_eq; try done; frame_step; frame_done. }
  induction sids as [|sid sids IH]; intros c ret c' H; cbn [Context_ack_loop] in H; outcome_run; simplify_eq; try done;
    match goal with E : Context_send_ack _ _ _ _ = _ |- _ => apply Hone in E end; [done|].
  by rewrite (IH _ _ _ H).
Qed.

Lemma process_tasks c now wc ret c' :
  Context_processReceivedPacket ibv_post_recv operator_new junk c now wc = Ok (ret, c') -> tasks_of c' = tasks_of c.
Proof.
  unfold Context_processReceivedPacket, Context_on_data, Context_on_ack, Context_updateWndOnSuccess. intros H.
  outcome_run; simplify_eq; try done;
    match goal with E : Context_submitNormalRecvWR _ _ _ _ = _ |- _ => apply submit_tasks in E end;
    unfold tasks_of in *; cbn in *; repeat case_match; cbn in *; congruence.
Qed.
Lemma poll_loop_tasks now wcs : forall c c',
  Context_poll_loop ibv_post_recv operator_new junk c now wcs = Ok c' -> tasks_of c' = tasks_of c.
Proof.
  induction wcs as [|wc wcs IH]; intros c c' H; cbn [Context_poll_loop] in H; outcome_run; simplify_eq; [done|].
  match goal with E : Context_processReceivedPacket _ _ _ _ _ _ = _ |- _ => apply process_tasks in E end.
  rewrite (IH _ _ H). frame_done.
Qed.
Lemma run_step_tasks c now recv_polled send_polled ret c' :
  Context_runStep ibv_post_send ibv_post_recv operator_new traverse junk c now recv_polled send_polled = Ok (ret, c') ->
  tasks_of c' = tasks_of c.
Proof.
  unfold Context_runStep, Context_sendAckPackets, Context_sendDataPackets, Context_pollCompletedPackets. intros H.
  outcome_run; simplify_eq; repeat match goal with
  | E : Context_poll_loop _ _ _ _ _ _ = _ |- _ => apply poll_loop_tasks in E
  | E : Context_ack_loop _ _ _ _ = _ |- _ => apply ack_loop_tasks in E
  | E : Context_data_loop _ _ _ _ _ = _ |- _ => apply data_loop_tasks in E
  end; congruence.
Qed.

(** ** Creating a task *)
Lemma allocate_code p m h grh ret p' h' :
  PacketBufferPool_allocatePacket p m h grh = (ret, p', h') -> ret = 0 \/ ret = ERR.
Proof.
  unfold PacketBufferPool_allocatePacket, PacketHandle_setRawPacket. intros H.
  repeat case_match; simplify_eq; auto.
Qed.
Lemma fill_code m fuel : forall q p rc q' p',
  SendQueue_fill_loop fuel m q p = Ok (rc, q', p') -> rc = 0 \/ rc = ERR.
Proof.
  induction fuel as [|fuel IH]; intros q p rc q' p' H; [done|]. cbn [SendQueue_fill_loop] in H.
  destruct (_ && _); [|simplify_eq; auto]. destruct (_ =? 0); [done|].
  destruct (vec_at _ _) as [h|]; [|done]. cbn [mbind outcome_bind] in H.
  repeat case_match; simplify_eq; eauto.
Qed.

Lemma send_push_code m q p l rc sn q' p' :
  SendQueue_push m q p l = Ok (rc, sn, q', p') -> rc = 0 \/ rc = ERR.
Proof.
  unfold SendQueue_push, SendQueue_fillPrimaryQueue. intros H. outcome_run. simplify_eq.
  match goal with E : SendQueue_fill_loop _ _ _ _ = _ |- _ => by apply fill_code in E end.
Qed.
Lemma receive_fill_code fuel : forall q rc q', ReceiveQueue_fill_loop fuel q = Ok (rc, q') -> rc = 0.
Proof.
  induction fuel as [|fuel IH]; intros q rc q' H; [done|]. cbn [ReceiveQueue_fill_loop] in H.
  destruct (_ && _); [|by simplify_eq]. destruct (SecondaryQueue_popFragment _) as [slice sq]. cbn zeta in H.
  destruct (ReceiveQueue_request _ _); [|done]. cbn [mbind outcome_bind] in H. by eapply IH.
Qed.
Lemma receive_push_code q l rc sn q' : ReceiveQueue_push q l = Ok (rc, sn, q') -> rc = 0 \/ rc = ERR.
Proof.
  unfold ReceiveQueue_push, ReceiveQueue_fillPrimaryQueue. intros H. outcome_run. simplify_eq. left.
  match goal with E : ReceiveQueue_fill_loop _ _ = _ |- _ => by apply receive_fill_code in E end.
Qed.

Lemma activate_tasks c sid ret c' :
  Context_activate junk c sid = Ok (ret, c') -> tasks_of c' = tasks_of c /\ (ret = 0 \/ ret = ERR).
Proof.
  unfold Context_activate. destruct (cx_active_session_map c !! sid); [intros; simplify_eq; auto|].
  destruct (PacketBufferPool_allocatePacket _ _ _ _) as [[r p] h] eqn:Ha. apply allocate_code in Ha. intros H.
  outcome_run; simplify_eq; auto.
Qed.

(** [send] and [receive] create the next task, or none. *)
Definition creates_task (c : Context) (ret : Z) (c' : Context) : Prop :=
  (ret = ERR /\ tasks_of c' = tasks_of c) \/
  (ret = cx_next_task_id c /\ exists t, tasks_of c' = (<[ret := t]> (cx_task_map c), i32 (ret + 1))).

Lemma creates_add c c1 ret c' rc t :
  tasks_of c1 = tasks_of c -> rc = 0 \/ rc = ERR ->
  (if negb (rc =? 0) then Ok (rc, c1) else Ok (Context_add_task c1 t)) = Ok (ret, c') -> creates_task c ret c'.
Proof.
  intros Ht [-> | ->] H; cbn in H.
  - right. unfold tasks_of in Ht. injection Ht as Ht1 Ht2. unfold Context_add_task in H.
    injection H as <- <-. split; [done|]. exists t. unfold tasks_of. cbn. by rewrite Ht1.
  - left. by injection H as <- <-.
Qed.

Ltac activate_first H c1 Ht :=
  let r := fresh "r" in let Ha := fresh "Ha" in let Hr := fresh "Hr" in
  destruct (Context_activate _ _ _) as [[r c1]|] eqn:Ha; [|done]; apply activate_tasks in Ha as [Ht Hr];
  cbn [mbind outcome_bind] in H; destruct (Z.eqb_spec r 0) as [->|?]; cbn [negb] in H;
  [|destruct Hr as [| ->]; [done|]; injection H as <- <-; by left];
  destruct (deref (cx_active_session_map c1 !! _)); [|done]; cbn [mbind outcome_bind] in H;
  destruct (deref _); [|done]; cbn [mbind outcome_bind] in H.

Lemma context_send_tasks c peer l ret c' :
  Context_send junk c peer l = Ok (ret, c') -> creates_task c ret c'.
Proof.
  unfold Context_send. intros H. destruct (_ <? 0); [left; by simplify_eq|]. activate_first H c1 Ht.
  destruct (cx_send_queue c1 _) as [q|]; [|done]. cbn [mbind outcome_bind] in H.
  destruct (SendQueue_push _ _ _ _) as [[[[r2 sn] q'] p]|] eqn:Hp; [|done]. cbn [mbind outcome_bind] in H.
  apply send_push_code in Hp. eapply creates_add; [|exact Hp|exact H]. exact Ht.
Qed.
Lemma context_receive_tasks c peer l ret c' :
  Context_receive junk c peer l = Ok (ret, c') -> creates_task c ret c'.
Proof.
  unfold Context_receive. intros H. destruct (_ <? 0); [left; by simplify_eq|]. activate_first H c1 Ht.
  destruct (cx_receive_queue c1 _) as [q|]; [|done]. cbn [mbind outcome_bind] in H.
  destruct (ReceiveQueue_push _ _) as [[[r2 sn] q']|] eqn:Hp; [|done]. cbn [mbind outcome_bind] in H.
  apply receive_push_code in Hp. eapply creates_add; [|exact Hp|exact H]. exact Ht.
Qed.
End frame.

(** ** The unreliable protocol *)

(** All ids are below the next one, and [k] more are left. *)
Record tasks_ok (k : nat) (c : Context) : Prop := {
  tk_below : forall id, is_Some (cx_task_map c !! id) -> id < cx_next_task_id c;
  tk_pos : 0 <= cx_next_task_id c;
  tk_room : cx_next_task_id c + Z.of_nat k < 0x80000000
}.

Lemma tasks_ok_same k c c' : tasks_of c' = tasks_of c -> tasks_ok k c ->
  tasks_ok k c' /\ (dom (cx_task_map c') : gset Z) = dom (cx_task_map c).
Proof. intros [= Hm Hn] [? ? ?]. split; [constructor|]; by rewrite ?Hm, ?Hn. Qed.

Lemma creates_ok k c ret c' :
  tasks_ok (S k) c -> creates_task c ret c' ->
  (ret < 0 /\ tasks_ok (S k) c' /\ (dom (cx_task_map c') : gset Z) = dom (cx_task_map c)) \/
  (0 <= ret /\ tasks_ok k c' /\ ret ∉ (dom (cx_task_map c) : gset Z) /\
   (dom (cx_task_map c') : gset Z) = {[ret]} ∪ dom (cx_task_map c)).
Proof.
  intros Hk [[-> Hs]|[-> [t Hs]]].
  - left. split; [done|]. by apply tasks_ok_same.
  - right. destruct Hk as [Hb Hp Hr]. injection Hs as Hm Hn. split; [done|].
    assert (Hi : i32 (cx_next_task_id c + 1) = cx_next_task_id c + 1) by word_lia. rewrite Hi in Hn. split_and!.
    + constructor; rewrite ?Hm, ?Hn; try lia. intros id.
      destruct (decide (id = cx_next_task_id c)) as [->|Hne]; [lia|].
      rewrite lookup_insert_ne by done. intros Hid%Hb. lia.
    + rewrite elem_of_dom. intros Hid%Hb. lia.
    + by rewrite Hm, dom_insert_L.
Qed.

Section instance.
Variable ibv_post_send : Z -> list ibv_wr -> Z * nat.
Variable ibv_post_recv : Z -> list ibv_wr -> Z * nat.
Variable operator_new : heap -> Z.
Variable traverse : gmap Z SessionInfo -> list Z.
Variable junk : PacketHandle.
Variable ibv_create_ah : list Z -> Z -> Z.
Variable junk_gid : list Z.
Variable ibv_reg_mr : Z -> Z -> Z -> option ibv_mr.
Variable ibv_dereg_mr : ibv_mr -> Z.
Variable access : Z.
Variable clock : Context -> Z.
Variable polls : Context -> option (list ibv_wc) * option (list ibv_wc).
Notation protocol := (unreliable_protocol ibv_post_send ibv_post_recv operator_new traverse junk ibv_create_ah
  junk_gid ibv_reg_mr ibv_dereg_mr access clock polls).

Lemma unreliable_step_tasks k c ret c' :
  tasks_ok k c -> unreliable_step ibv_post_send ibv_post_recv operator_new traverse junk clock polls c = Ok (ret, c') ->
  tasks_ok k c' /\ (dom (cx_task_map c') : gset Z) = dom (cx_task_map c).
Proof. intros Hk H. apply run_step_tasks in H. by apply tasks_ok_same. Qed.

Definition unreliable_tasks : @ProtocolTasks (RdmaUnreliableProtocol Context) protocol.
Proof.
  refine {| pt_ok := fun k p => tasks_ok k (un_context p);
            pt_tasks := fun p => dom (cx_task_map (un_context p)) |}.
  - intros k p [? ? ?]. constructor; try done. lia.
  - intros k p peer l ret p' Hk H. cbn in H. unfold lift_context in H.
    destruct (Context_send _ _ _ _) as [[r c]|] eqn:E; [|done]. cbn in H. simplify_eq.
    apply context_send_tasks in E. by apply creates_ok.
  - intros k p peer l ret p' Hk H. cbn in H. unfold lift_context in H.
    destruct (Context_receive _ _ _ _) as [[r c]|] eqn:E; [|done]. cbn in H. simplify_eq.
    apply context_receive_tasks in E. by apply creates_ok.
  - intros k p id status p' Hk H. cbn in H. unfold Unreliable_getStatus, Unreliable_runStep in H.
    outcome_run; simplify_eq; try done; cbn; try done.
    match goal with E : unreliable_step _ _ _ _ _ _ _ _ = _ |- _ => by eapply unreliable_step_tasks in E end.
  - intros k p id Hk. cbn. unfold Context_freeTask. destruct (cx_task_map (un_context p) !! id) eqn:Hl; cbn.
    + split; [|by rewrite dom_delete_L]. destruct Hk as [Hb ? ?]. constructor; try done. cbn.
      intros j Hj. apply Hb. destruct (decide (id = j)) as [<-|Hne]; [by rewrite lookup_delete_eq in Hj; destruct Hj|].
      by rewrite lookup_delete_ne in Hj.
    + split; [done|]. assert (id ∉ dom (cx_task_map (un_context p))) by (by apply not_elem_of_dom). set_solver.
  - intros k p ret p' Hk H. cbn in H. unfold Unreliable_runStep in H. outcome_run; simplify_eq; try done.
    match goal with E : unreliable_step _ _ _ _ _ _ _ _ = _ |- _ => by eapply unreliable_step_tasks in E end.
  - intros k p peer l ret p' a Hk H. cbn in H. unfold Context_prepareConnection in H.
    destruct (Controller_prepareConnection _ _ _) as [[r ct] at1]. cbn in H. simplify_eq. split; [|done].
    by destruct Hk.
  - intros k p peer a ret p' Hk H. cbn in H. unfold lift_context, Context_setupConnection in H.
    destruct (Controller_setupConnection _ _ _ _ _) as [[r ct]|]; [|done]. cbn in H. simplify_eq. split; [|done].
    by destruct Hk.
Defined.
End instance.
