(* ===== verification/Benchmark.v ===== *)
(** * The benchmark: what a sending thread does

    Models [sendThread] of src/example/benchmark.cpp over the public API (Session.v):
    the memory pool and its slots, the choice of peers and ports, warming up, and the
    loop that keeps one task per slot.  The thread is proved against the interface
    [ProtocolTasks].

    Inputs are the values [dist(rng)] gives, the results of the clock tests, and the
    number of attempts after which the loops around [send] and [getStatus] are not
    followed any further ([TrapFuel]). *)

From S2P Require Import Prelude Text Packet Tasks Controller Session ProtocolTasks.

(** ** The memory pool *)

(** [FLAGS_block_size * FLAGS_depth * 2]: a product of 32-bit numbers. *)
Definition bench_pool_size (block_size depth : Z) : Z := u32 (u32 (block_size * depth) * 2).
(** The address of slot [d]: the offset is a 64-bit product in [sendThread] ... *)
Definition send_slot (addr chunk_size : Z) (d : nat) : Buffer :=
  mkBuffer (u64 (addr + u64 (Z.of_nat d * chunk_size))) chunk_size.
(** ... and a 32-bit product in [receiveThread]. *)
Definition receive_slot (addr block_size : Z) (d : nat) : Buffer :=
  mkBuffer (u64 (addr + u32 (Z.of_nat d * block_size))) block_size.

Definition in_memory (addr size : Z) (b : Buffer) : Prop :=
  addr <= buf_addr b /\ buf_addr b + buf_length b <= addr + size.

(** The slots of the benchmark.  For a pool that ends below 2^64, all slots of
    [sendThread] lie in the pool exactly when twice the slots' size fits in 32 bits;
    then those of [receiveThread] are the same, and different slots do not overlap.
    From [--block_size] and [--depth] on whose product is 2^31, the pool that is
    allocated is smaller than the slots that are used. *)
Theorem bench_slots_exact addr block depth :
  0 <= addr -> 0 < block < 0x100000000 -> (0 < depth)%nat -> Z.of_nat depth < 0x100000000 ->
  addr + block * Z.of_nat depth < 0x10000000000000000 ->
  ((forall d, (d < depth)%nat -> in_memory addr (bench_pool_size block (Z.of_nat depth)) (send_slot addr block d)) <->
     block * Z.of_nat depth < 0x80000000) /\
  (block * Z.of_nat depth < 0x80000000 ->
     (forall d, (d < depth)%nat -> receive_slot addr block d = send_slot addr block d) /\
     (forall i j, (i < j < depth)%nat ->
        buf_addr (send_slot addr block i) + block <= buf_addr (send_slot addr block j))).
Proof.
  intros Ha Hb Hd Hd32 Hend. set (D := Z.of_nat depth) in *.
  assert (Hoff : forall d, (d < depth)%nat -> 0 <= Z.of_nat d * block /\ Z.of_nat d * block + block <= block * D)
    by (intros d Hlt; subst D; nia).
  assert (Hslot : forall d, (d < depth)%nat -> buf_addr (send_slot addr block d) = addr + Z.of_nat d * block).
  { intros d Hlt. specialize (Hoff d Hlt). cbn. unfold u64. rewrite !Z.mod_small; lia || nia || idtac.
    rewrite Z.mod_small by lia. lia. }
  split; [split|].
  - intros Hall. destruct (Hall (depth - 1)%nat ltac:(lia)) as [_ Hhi]. rewrite Hslot in Hhi by lia. cbn in Hhi.
    assert (Hlast : Z.of_nat (depth - 1) * block + block = block * D) by (subst D; nia).
    unfold bench_pool_size, u32 in Hhi. rewrite Zmult_mod_idemp_l in Hhi.
    assert (Hpos : 0 < block * D) by (subst D; nia). assert (HX : block * D <= (block * D * 2) mod 4294967296) by lia.
    clear -HX Hpos. generalize dependent (block * D). intros X Hpos HX. Z.div_mod_to_equations. lia.
  - intros Hfit d Hlt. specialize (Hoff d Hlt). unfold in_memory. rewrite Hslot by done. cbn.
    unfold bench_pool_size, u32. rewrite (Z.mod_small (block * D)), Z.mod_small by lia. lia.
  - intros Hfit. split.
    + intros d Hlt. specialize (Hoff d Hlt). unfold receive_slot, send_slot. do 3 f_equal.
      unfold u32, u64. rewrite !Z.mod_small by lia. done.
    + intros i j Hij. rewrite !Hslot by lia. nia.
Qed.

Lemma bench_slots_exact_witness :
  in_memory 4096 (bench_pool_size 65536 8) (send_slot 4096 65536 7) /\
  ~ (forall d, (d < 2)%nat -> in_memory 4096 (bench_pool_size 0x40000000 2) (send_slot 4096 0x40000000 d)).
Proof.
  split.
  - destruct (bench_slots_exact 4096 65536 8) as [[_ H] _]; [lia..|]. apply H; lia.
  - destruct (bench_slots_exact 4096 0x40000000 2) as [[H _] _]; [lia..|]. intros Hall. apply H in Hall. lia.
Defined.

(** ** Peers *)

(** [thread_id % device_list.size()] *)
Definition bench_group (thread_id device_count : Z) : outcome Z :=
  if device_count =? 0 then Trap TrapDivZero else Ok (thread_id mod device_count).

(** [selectPeerIndex] with [r] from the random number generator. *)
Definition selectPeerIndex (threads device_count group_id r : Z) : outcome Z :=
  if device_count =? 0 then Trap TrapDivZero
  else
    let class_count := u64 (u64 (threads + device_count) - 1) / device_count in
    if class_count =? 0 then Trap TrapDivZero
    else
      let base_index := u64 (device_count * (u64 r mod class_count)) in
      Ok (Z.min (i32 (i32 threads - 1)) (i32 (u64 (group_id + base_index)))).

(** The ports of the warming-up loop from [port] on. *)
Fixpoint warm_up_ports (fuel : nat) (port limit device_count : Z) : outcome (list Z) :=
  match fuel with
  | O => Trap TrapFuel
  | S fuel =>
      if port <? limit
      then l ← warm_up_ports fuel (u32 (port + device_count)) limit device_count; Ok (port :: l)
      else Ok []
  end.

Lemma warm_up_ports_spec dev fuel : forall port limit,
  0 < dev -> 0 <= port -> limit + dev < 0x100000000 -> limit - port < Z.of_nat fuel -> (0 < fuel)%nat ->
  exists ports, warm_up_ports fuel port limit dev = Ok ports /\
    (forall p, p ∈ ports <-> port <= p < limit /\ exists j, 0 <= j /\ p = port + j * dev) /\
    StronglySorted Z.lt ports.
Proof.
  induction fuel as [|fuel IH]; intros port limit Hdev Hport Hlim Hfuel Hpos; [lia|]. cbn [warm_up_ports].
  destruct (Z.ltb_spec port limit) as [Hlt|Hge].
  - destruct (IH (port + dev) limit) as (ports & Hrun & Hin & Hs); [lia..|].
    unfold u32. rewrite Z.mod_small by lia. rewrite Hrun. exists (port :: ports). split; [done|]. split.
    + intros p. rewrite elem_of_cons, Hin. split.
      * intros [->|(Hp & j & Hj & ->)]; [split; [lia|]; exists 0; lia|]. split; [lia|]. exists (j + 1). lia.
      * intros (Hp & j & Hj & ->). destruct (decide (j = 0)) as [->|Hne]; [left; lia|right].
        split; [nia|]. exists (j - 1). split; [lia|ring].
    + constructor; [done|]. apply Forall_forall. intros p [Hp _]%Hin. lia.
  - exists []. split; [done|]. split; [|constructor]. intros p. rewrite elem_of_nil. split; [done|]. lia.
Qed.

Lemma select_peer_spec threads dev group r :
  0 < dev < 0x40000000 -> 0 <= group < dev -> group < threads < 0x40000000 -> 0 <= r < 0x80000000 ->
  exists k, selectPeerIndex threads dev group r = Ok k /\ 0 <= k < threads /\ (k mod dev = group \/ k = threads - 1).
Proof.
  intros Hdev Hg Hthr Hr. unfold selectPeerIndex. rewrite (proj2 (Z.eqb_neq dev 0)) by lia.
  assert (Hc : u64 (u64 (threads + dev) - 1) = threads + dev - 1) by (clear -Hdev Hthr Hg; word_lia).
  rewrite Hc. set (c := (threads + dev - 1) / dev).
  assert (Hcb : 1 <= c /\ c * dev <= threads + dev - 1).
  { subst c. split; [apply Z.div_le_lower_bound; lia|]. rewrite Z.mul_comm. apply Z.mul_div_le. lia. }
  rewrite (proj2 (Z.eqb_neq c 0)) by lia. cbn zeta.
  assert (Hru : u64 r = r) by (unfold u64; apply Z.mod_small; lia). rewrite Hru.
  pose proof (Z.mod_pos_bound r c ltac:(lia)) as Hrc.
  assert (Hbase : 0 <= dev * (r mod c) <= c * dev - dev) by nia.
  assert (Hsum : i32 (u64 (group + u64 (dev * (r mod c)))) = group + dev * (r mod c))
    by (assert (Hb : 0 <= group + dev * (r mod c) < 0x80000000) by lia; generalize dependent (dev * (r mod c));
        clear -Hg; intros; word_lia).
  assert (Hlast : i32 (i32 threads - 1) = threads - 1) by (clear -Hthr Hg; word_lia).
  rewrite Hsum, Hlast. eexists. split; [done|]. split; [lia|].
  destruct (Z.min_spec (threads - 1) (group + dev * (r mod c))) as [[_ ->]|[_ ->]]; [by right|left].
  rewrite (Z.mul_comm dev), Z.mod_add, Z.mod_small by lia. done.
Qed.

(** The peers of a thread.  With at least one device, as many threads and devices
    as an [int] holds and ports that fit in 32 bits: warming up ends, and connects to exactly
    the ports of the peers whose number is the thread's group modulo the number of
    devices, in order; every peer chosen later has a number of that group or, where
    that would be past the end, is the last one. *)
Theorem bench_peers_exact threads device_count thread_id first r :
  0 < device_count < 0x40000000 -> 0 <= thread_id < threads -> threads < 0x40000000 -> 0 <= r < 0x80000000 ->
  0 <= first -> first + threads + device_count < 0x100000000 ->
  exists group ports k, bench_group thread_id device_count = Ok group /\
    warm_up_ports (S (Z.to_nat threads)) (u32 (first + group)) (u32 (first + threads)) device_count = Ok ports /\
    (forall p, p ∈ ports <-> first <= p < first + threads /\ (p - first) mod device_count = group) /\
    StronglySorted Z.lt ports /\
    selectPeerIndex threads device_count group r = Ok k /\ 0 <= k < threads /\
    (k mod device_count = group \/ k = threads - 1).
Proof.
  intros Hdev Hid Hthr Hr Hfirst Hlim. unfold bench_group. rewrite (proj2 (Z.eqb_neq device_count 0)) by lia.
  set (group := thread_id mod device_count).
  assert (Hg : 0 <= group < device_count /\ group <= thread_id) by (subst group; split; [apply Z.mod_pos_bound|apply Z.mod_le]; lia).
  destruct (warm_up_ports_spec device_count (S (Z.to_nat threads)) (first + group) (first + threads))
    as (ports & Hports & Hin & Hsorted); [lia..|].
  destruct (select_peer_spec threads device_count group r) as (k & Hk & Hrange & Hclass); [lia..|].
  exists group, ports, k. unfold u32. rewrite !Z.mod_small by lia. split_and!; try done; try lia.
  intros p. rewrite Hin. split.
  - intros (Hp & j & Hj & ->). split; [lia|]. replace (first + group + j * device_count - first) with (group + j * device_count) by lia.
    rewrite Z.mod_add, Z.mod_small by lia. done.
  - intros [Hp Hm]. pose proof (Z.div_mod (p - first) device_count ltac:(lia)) as Hdiv. rewrite Hm in Hdiv.
    assert (0 <= (p - first) / device_count) by (apply Z.div_pos; lia).
    split; [nia|]. exists ((p - first) / device_count). split; [done|lia].
Qed.

Lemma bench_peers_exact_witness : exists ports,
  warm_up_ports 9 18889 18896 2 = Ok ports /\
  (forall p, p ∈ ports <-> 18888 <= p < 18888 + 8 /\ (p - 18888) mod 2 = 1).
Proof.
  destruct (bench_peers_exact 8 2 3 18888 5) as (group & ports & k & Hg & Hp & Hin & _); [lia..|].
  vm_compute in Hg. injection Hg as <-. exists ports. split; [exact Hp|exact Hin].
Defined.

(** [extractTargetHostName] *)
Definition COMMA : ascii := char_of 44.
Definition extractTargetHostName (flag : text) : list text := getline_tokens COMMA flag [].

(** ** The thread *)

Section send_thread.
Context {P : Type} `{Protocol P}.
Variable json_write : Attributes -> text.
Variable json_parse : text -> option (option Attributes).
Variable W : Type.
Variable rpc : string -> text -> W -> outcome (option (option text) * W).

Variable rand : nat -> Z.
Variable expired : nat -> bool.
Variable attempts : nat.
Variables addr chunk_size first_port threads device_count group_id : Z.
Variable depth : nat.
Variable target_hostname_list : list text.

(** [bs_rng] and [bs_clock] count the random numbers and the readings of the clock. *)
Record send_state := mkSendState {
  bs_engine : RapidTransfer P;
  bs_world : W;
  bs_task_id_list : list Z;
  bs_transferred_bytes : Z;
  bs_rng : nat;
  bs_clock : nat
}.
#[local] Instance send_state_fields : Fields send_state := mkFields (fun s =>
  mkSendState (bs_engine s) (bs_world s) (bs_task_id_list s) (bs_transferred_bytes s) (bs_rng s) (bs_clock s)).

(** [hostname + ":" + std::to_string(port)] *)
Definition target_name (hostname : text) (port : Z) : string :=
  String.string_of_list_ascii (hostname ++ COLON :: to_string port).

(** The loop around [send]. *)
Fixpoint send_retry (fuel : nat) (target : string) (b : Buffer) (s : send_state) : outcome (Z * send_state) :=
  match fuel with
  | O => Trap TrapFuel
  | S fuel =>
      '(task_id, t, w) ← RapidTransfer_send json_write json_parse W rpc (bs_engine s) target [b] (bs_world s);
      let s1 := s <| bs_engine := t |> <| bs_world := w |> in
      if task_id <? 0 then send_retry fuel target b s1 else Ok (task_id, s1)
  end.

(** *** Warming up *)
Inductive warm_up_result : Type := WarmDone | WarmFailed | WarmExit.

(** The loop that waits for one task; a wait of more than ten seconds ends the
    process. *)
Fixpoint warm_up_wait (fuel : nat) (task_id : Z) (s : send_state) : outcome (warm_up_result * send_state) :=
  match fuel with
  | O => Trap TrapFuel
  | S fuel =>
      '(_, t) ← RapidTransfer_runStep (bs_engine s);
      let late := expired (bs_clock s) in
      let s1 := s <| bs_engine := t |> <| bs_clock := S (bs_clock s) |> in
      if late then Ok (WarmExit, s1)
      else
        '(status, t1) ← RapidTransfer_getStatus (bs_engine s1) task_id;
        let s2 := s1 <| bs_engine := t1 |> in
        match status with
        | FAILED => Ok (WarmFailed, s2)
        | SUCCESS => Ok (WarmDone, s2 <| bs_engine := (RapidTransfer_freeTask (bs_engine s2) task_id).2 |>)
        | _ => warm_up_wait fuel task_id s2
        end
  end.
Fixpoint warm_up_loop (ports : list Z) (s : send_state) : outcome (warm_up_result * send_state) :=
  match ports with
  | [] => Ok (WarmDone, s)
  | port :: ports =>
      hostname ← vec_at target_hostname_list 0;
      '(task_id, s1) ← send_retry attempts (target_name hostname port) (mkBuffer addr chunk_size) s;
      '(r, s2) ← warm_up_wait attempts task_id s1;
      match r with WarmDone => warm_up_loop ports s2 | _ => Ok (r, s2) end
  end.
Definition warm_up (s : send_state) : outcome (warm_up_result * send_state) :=
  ports ← warm_up_ports (S (Z.to_nat threads)) (u32 (first_port + group_id)) (u32 (first_port + threads)) device_count;
  warm_up_loop ports s.

(** *** One task per slot *)
Definition submit_slot (d : nat) (s : send_state) : outcome send_state :=
  peer ← selectPeerIndex threads device_count group_id (rand (bs_rng s));
  let port := u16 (first_port + peer) in
  if Nat.eqb (length target_hostname_list) 0 then Trap TrapDivZero
  else
    hostname ← vec_at target_hostname_list
      (Z.to_nat (u64 (rand (S (bs_rng s))) mod Z.of_nat (length target_hostname_list)));
    '(task_id, s1) ← send_retry attempts (target_name hostname port) (send_slot addr chunk_size d)
      (s <| bs_rng := S (S (bs_rng s)) |>);
    Ok (s1 <| bs_task_id_list := <[d := task_id]> (bs_task_id_list s1) |>).

(** The loop before [while (g_running)]: slots [d], ..., [d + n - 1]. *)
Fixpoint submit_slots (n d : nat) (s : send_state) : outcome send_state :=
  match n with
  | O => Ok s
  | S n => s1 ← submit_slot d s; submit_slots n (S d) s1
  end.

(** The loop over the slots; a task that failed ends it. *)
Fixpoint check_slots (n d : nat) (s : send_state) : outcome send_state :=
  match n with
  | O => Ok s
  | S n =>
      task_id ← vec_at (bs_task_id_list s) d;
      '(status, t) ← RapidTransfer_getStatus (bs_engine s) task_id;
      let s1 := s <| bs_engine := t |> in
      match status with
      | FAILED => Ok s1
      | SUCCESS =>
          s2 ← submit_slot d (s1 <| bs_engine := (RapidTransfer_freeTask (bs_engine s1) task_id).2 |>);
          check_slots n (S d)
            (s2 <| bs_transferred_bytes := u64 (bs_transferred_bytes s2 + chunk_size) |>)
      | _ => check_slots n (S d) s1
      end
  end.
Definition bench_round (s : send_state) : outcome send_state :=
  '(_, t) ← RapidTransfer_runStep (bs_engine s);
  check_slots depth 0 (s <| bs_engine := t |>).
Fixpoint bench_rounds (n : nat) (s : send_state) : outcome send_state :=
  match n with
  | O => Ok s
  | S n => s1 ← bench_round s; bench_rounds n s1
  end.

(** From warming up to the end of [while (g_running)] after [n] rounds; [None] for a
    thread that has returned or ended the process. *)
Definition send_thread (junk : list Z) (n : nat) (s : send_state) : outcome (option send_state) :=
  '(r, s1) ← warm_up s;
  match r with
  | WarmDone =>
      s2 ← submit_slots depth 0 (s1 <| bs_task_id_list := junk |>);
      s3 ← bench_rounds n s2; Ok (Some s3)
  | _ => Ok None
  end.

(** ** Tasks of the thread *)
Context `{!ProtocolTasks P}.
Notation proto s := (rt_protocol (bs_engine s)).

Lemma connect_tasks k t peer w ret t' w' :
  pt_ok k (rt_protocol t) ->
  RapidTransfer_makeConnectionIfNeeded json_write json_parse W rpc t peer w = Ok (ret, t', w') ->
  pt_ok k (rt_protocol t') /\ pt_tasks (rt_protocol t') = pt_tasks (rt_protocol t) /\ (ret = 0 \/ ret = ERR).
Proof.
  intros Hk Hrun. unfold RapidTransfer_makeConnectionIfNeeded, RapidTransfer_connect in Hrun.
  outcome_run; simplify_eq; try (by auto);
    repeat match goal with
    | E : prepareConnection _ _ _ = Ok _ |- _ => apply (pt_prepare k) in E as [? ?]; [|done]
    | E : setupConnection _ _ _ = Ok _ |- _ => apply (pt_setup k) in E as [? ?]; [|done]
    end; cbn in *; split_and!; auto; congruence.
Qed.

Lemma send_tasks k t peer l w ret t' w' :
  pt_ok (S k) (rt_protocol t) -> RapidTransfer_send json_write json_parse W rpc t peer l w = Ok (ret, t', w') ->
  (ret < 0 /\ pt_ok (S k) (rt_protocol t') /\ pt_tasks (rt_protocol t') = pt_tasks (rt_protocol t)) \/
  (0 <= ret /\ pt_ok k (rt_protocol t') /\ ret ∉ pt_tasks (rt_protocol t) /\
   pt_tasks (rt_protocol t') = {[ret]} ∪ pt_tasks (rt_protocol t)).
Proof.
  intros Hk Hrun. unfold RapidTransfer_send in Hrun.
  destruct (RapidTransfer_makeConnectionIfNeeded _ _ _ _ _ _ _) as [[[r t1] w1]|] eqn:Hc; [|done].
  apply (connect_tasks (S k)) in Hc as (Hk1 & Ht1 & Hr); [|done]. cbn [mbind outcome_bind] in Hrun.
  destruct (Z.eqb_spec r 0) as [->|Hne]; cbn [negb] in Hrun.
  - outcome_run. match goal with E : proto_send _ _ _ = Ok _ |- _ => apply (pt_send k) in E; [|done] end.
    rewrite Ht1 in *. simplify_eq. by destruct (ret <? 0).
  - destruct Hr as [| ->]; [done|]. simplify_eq. by left.
Qed.

Lemma send_retry_tasks k fuel target b : forall s id s',
  pt_ok (S k) (proto s) -> send_retry fuel target b s = Ok (id, s') ->
  0 <= id /\ pt_ok k (proto s') /\ id ∉ pt_tasks (proto s) /\ pt_tasks (proto s') = {[id]} ∪ pt_tasks (proto s) /\
  bs_task_id_list s' = bs_task_id_list s /\ bs_transferred_bytes s' = bs_transferred_bytes s.
Proof.
  induction fuel as [|fuel IH]; intros s id s' Hk Hrun; [done|]. cbn [send_retry] in Hrun.
  destruct (RapidTransfer_send _ _ _ _ _ _ _ _) as [[[r t] w]|] eqn:Hs; [|done]. cbn [mbind outcome_bind] in Hrun.
  apply (send_tasks k) in Hs; [|done]. destruct (Z.ltb_spec r 0) as [Hneg|Hpos].
  - destruct Hs as [(_ & Hk1 & Ht)|(? & _)]; [|lia]. apply IH in Hrun; [|done]. cbn in Hrun. by rewrite Ht in Hrun.
  - destruct Hs as [(? & _)|(_ & ? & ? & ?)]; [lia|]. by simplify_eq.
Qed.

Lemma status_tasks k t id status t' :
  pt_ok k (rt_protocol t) -> RapidTransfer_getStatus t id = Ok (status, t') ->
  pt_ok k (rt_protocol t') /\ pt_tasks (rt_protocol t') = pt_tasks (rt_protocol t).
Proof.
  unfold RapidTransfer_getStatus. intros Hk Hrun.
  destruct (proto_getStatus _ _) as [[st p]|] eqn:E; [|done]. apply (pt_status k) in E; [|done]. by injection Hrun as <- <-.
Qed.
Lemma step_tasks k t ret t' :
  pt_ok k (rt_protocol t) -> RapidTransfer_runStep t = Ok (ret, t') ->
  pt_ok k (rt_protocol t') /\ pt_tasks (rt_protocol t') = pt_tasks (rt_protocol t).
Proof.
  unfold RapidTransfer_runStep. intros Hk Hrun.
  destruct (proto_runStep _) as [[r p]|] eqn:E; [|done]. apply (pt_step k) in E; [|done]. by injection Hrun as <- <-.
Qed.

Lemma warm_up_wait_tasks k fuel id : forall s s',
  pt_ok k (proto s) -> warm_up_wait fuel id s = Ok (WarmDone, s') ->
  pt_ok k (proto s') /\ pt_tasks (proto s') = pt_tasks (proto s) ∖ {[id]} /\
  bs_transferred_bytes s' = bs_transferred_bytes s.
Proof.
  induction fuel as [|fuel IH]; intros s s' Hk Hrun; [done|]. cbn [warm_up_wait] in Hrun.
  destruct (RapidTransfer_runStep _) as [[r t]|] eqn:E1; [|done]. apply (step_tasks k) in E1 as [Hk1 Ht1]; [|done].
  cbn [mbind outcome_bind] in Hrun. destruct (expired _); [done|]. cbn in Hrun.
  destruct (RapidTransfer_getStatus _ _) as [[status t1]|] eqn:E2; [|done].
  apply (status_tasks k) in E2 as [Hk2 Ht2]; [|done]. cbn [mbind outcome_bind] in Hrun.
  destruct status; try (apply IH in Hrun; [|done]; cbn in Hrun; by rewrite Ht2, Ht1 in Hrun); [|done].
  simplify_eq. cbn. destruct (pt_free k (rt_protocol t1) id Hk2) as [? Hf]. split_and!; [done| |done].
  rewrite <- Ht1, <- Ht2. exact Hf.
Qed.

Lemma warm_up_loop_tasks k ports : forall s s',
  pt_ok (length ports + k) (proto s) -> warm_up_loop ports s = Ok (WarmDone, s') ->
  pt_ok k (proto s') /\ pt_tasks (proto s') = pt_tasks (proto s) /\ bs_transferred_bytes s' = bs_transferred_bytes s.
Proof.
  induction ports as [|port ports IH]; intros s s' Hk Hrun; [cbn in *; by simplify_eq|]. cbn [warm_up_loop] in Hrun.
  destruct (vec_at _ _) as [host|]; [|done]. cbn [mbind outcome_bind] in Hrun.
  destruct (send_retry _ _ _ _) as [[id s1]|] eqn:E1; [|done].
  apply (send_retry_tasks (length ports + k)) in E1 as (_ & Hk1 & Hid & Ht1 & _ & Hb1); [|done].
  cbn [mbind outcome_bind] in Hrun. destruct (warm_up_wait _ _ _) as [[[] s2]|] eqn:E2; try done.
  apply (warm_up_wait_tasks (length ports + k)) in E2 as (Hk2 & Ht2 & Hb2); [|done]. cbn [mbind outcome_bind] in Hrun.
  apply IH in Hrun as (? & -> & ->); [|done]. rewrite Ht2, Ht1, Hb2, Hb1. split_and!; [done|set_solver|done].
Qed.

Lemma warm_up_ports_length fuel : forall port limit ports,
  warm_up_ports fuel port limit device_count = Ok ports -> (length ports < fuel)%nat.
Proof.
  induction fuel as [|fuel IH]; intros port limit ports Hrun; [done|]. cbn [warm_up_ports] in Hrun.
  outcome_run; simplify_eq; cbn; [|lia]. match goal with E : warm_up_ports _ _ _ _ = _ |- _ => apply IH in E end. lia.
Qed.

Lemma submit_slot_tasks k d s s' :
  pt_ok (S k) (proto s) -> submit_slot d s = Ok s' ->
  exists id, 0 <= id /\ pt_ok k (proto s') /\ id ∉ pt_tasks (proto s) /\
    pt_tasks (proto s') = {[id]} ∪ pt_tasks (proto s) /\
    bs_task_id_list s' = <[d := id]> (bs_task_id_list s) /\ bs_transferred_bytes s' = bs_transferred_bytes s.
Proof.
  intros Hk Hrun. unfold submit_slot in Hrun. destruct (selectPeerIndex _ _ _ _) as [peer|]; [|done].
  cbn [mbind outcome_bind] in Hrun. destruct (Nat.eqb _ _); [done|]. destruct (vec_at _ _) as [host|]; [|done].
  cbn [mbind outcome_bind] in Hrun. destruct (send_retry _ _ _ _) as [[id s1]|] eqn:E; [|done].
  apply (send_retry_tasks k) in E as (? & ? & ? & ? & Hl & ?); [|done]. cbn in *. simplify_eq.
  exists id. cbn. by rewrite Hl.
Qed.
(** The first [d] slots have one task each, and there are no other tasks. *)
Record slots_live (d : nat) (s : send_state) : Prop := {
  sl_nodup : NoDup (take d (bs_task_id_list s));
  sl_live : pt_tasks (proto s) = list_to_set (take d (bs_task_id_list s));
  sl_pos : Forall (fun id => 0 <= id) (take d (bs_task_id_list s))
}.

Lemma submit_slots_live k n : forall d s s',
  slots_live d s -> (d + n <= length (bs_task_id_list s))%nat -> pt_ok (n + k) (proto s) ->
  submit_slots n d s = Ok s' ->
  slots_live (d + n) s' /\ pt_ok k (proto s') /\ length (bs_task_id_list s') = length (bs_task_id_list s) /\
  bs_transferred_bytes s' = bs_transferred_bytes s.
Proof.
  induction n as [|n IH]; intros d s s' Hl Hlen Hk Hrun; cbn [submit_slots] in Hrun.
  { simplify_eq. by rewrite Nat.add_0_r. }
  destruct (submit_slot d s) as [s1|] eqn:E; [|done]. cbn [mbind outcome_bind] in Hrun.
  apply (submit_slot_tasks (n + k)) in E as (id & Hid & Hk1 & Hnew & Ht & Hlist & Hb); [|done].
  assert (Htake : take (S d) (bs_task_id_list s1) = take d (bs_task_id_list s) ++ [id]).
  { rewrite Hlist, (take_S_r _ _ id) by (apply list_lookup_insert_eq; lia). by rewrite take_insert_ge. }
  assert (Hlen1 : length (bs_task_id_list s1) = length (bs_task_id_list s)) by (by rewrite Hlist, length_insert).
  destruct Hl as [Hnd Hlive Hpos]. rewrite Hlive in Hnew, Ht. apply IH in Hrun as (? & ? & ? & ?); [| |lia|done].
  { replace (d + S n)%nat with (S d + n)%nat by lia. split_and!; [done|done|congruence|congruence]. }
  constructor; rewrite Htake.
  - apply NoDup_app. split_and!; [done| |apply NoDup_singleton]. set_solver.
  - rewrite Ht, list_to_set_app_L. set_solver.
  - apply Forall_app. split; [done|]. by apply Forall_singleton.
Qed.

(** One task per slot. *)
Record one_task_per_slot (s : send_state) : Prop := {
  ot_length : length (bs_task_id_list s) = depth;
  ot_live : slots_live depth s
}.

Lemma one_task_step s t :
  one_task_per_slot s -> pt_tasks (rt_protocol t) = pt_tasks (proto s) ->
  one_task_per_slot (s <| bs_engine := t |>).
Proof. intros [? []] Ht. constructor; [done|]. constructor; try done. cbn. congruence. Qed.

(** The task of slot [d] is freed and replaced. *)
Lemma one_task_replace k d id s s1 s' :
  one_task_per_slot s -> bs_task_id_list s !! d = Some id ->
  pt_tasks (proto s1) = pt_tasks (proto s) ∖ {[id]} -> bs_task_id_list s1 = bs_task_id_list s ->
  pt_ok (S k) (proto s1) -> submit_slot d s1 = Ok s' ->
  one_task_per_slot s' /\ pt_ok k (proto s') /\ bs_transferred_bytes s' = bs_transferred_bytes s1.
Proof.
  intros [Hlen [Hnd Hlive Hpos]] Hd Ht1 Hl1 Hk Hrun.
  apply (submit_slot_tasks k) in Hrun as (id' & Hid & Hk1 & Hnew & Ht & Hlist & Hb); [|done].
  rewrite Hl1 in Hlist. destruct (list_focus _ _ _ Hd) as (l1 & l2 & Hl & Hins). rewrite Hins in Hlist.
  assert (Hlen' : length (bs_task_id_list s') = depth).
  { rewrite <- Hlen, Hlist, Hl, !length_app. done. }
  rewrite take_ge in Hnd, Hlive, Hpos by lia. rewrite Hl in Hnd, Hlive, Hpos.
  split_and!; try done. constructor; [done|]. constructor; rewrite take_ge by lia; rewrite Hlist.
  - apply NoDup_app in Hnd as (Hn1 & Hdis & [Hn2 Hn3]%NoDup_cons). rewrite Ht1, Hlive in Hnew.
    apply NoDup_app. split_and!; [done| |apply NoDup_cons; split; [|done]].
    + intros x Hx [->|Hx2]%elem_of_cons; [|apply (Hdis x Hx); set_solver].
      apply Hnew. specialize (Hdis id' Hx). set_solver.
    + intros Hin. apply Hnew. assert (id' <> id) by (by intros ->). set_solver.
  - apply NoDup_app in Hnd as (Hn1 & Hdis & [Hn2 Hn3]%NoDup_cons). rewrite Ht, Ht1, Hlive.
    rewrite !list_to_set_app_L, !list_to_set_cons. assert (id ∉ l1) by (intros Hx; apply (Hdis id Hx); set_solver).
    set_solver.
  - apply Forall_app in Hpos as [Hp1 [_ Hp2]%Forall_cons]. apply Forall_app. split; [done|]. by constructor.
Qed.

Lemma check_slots_live k n : forall d s s',
  one_task_per_slot s -> pt_ok (n + k) (proto s) -> check_slots n d s = Ok s' ->
  one_task_per_slot s' /\ pt_ok k (proto s') /\
  exists m, 0 <= m <= Z.of_nat n /\ u64 (bs_transferred_bytes s') = u64 (bs_transferred_bytes s + chunk_size * m).
Proof.
  assert (Hmono : forall m p, pt_ok (m + k) p -> pt_ok k p)
    by (induction m as [|m IHm]; intros p Hp; [done|]; by apply IHm, pt_mono).
  induction n as [|n IH]; intros d s s' Hot Hk Hrun; cbn [check_slots] in Hrun.
  { simplify_eq. split_and!; try done. exists 0. split; [lia|]. f_equal. lia. }
  destruct (vec_at (bs_task_id_list s) d) as [id|] eqn:Hid; [|done]. cbn [mbind outcome_bind] in Hrun.
  assert (Hd : bs_task_id_list s !! d = Some id) by (unfold vec_at in Hid; case_match; by simplify_eq).
  destruct (RapidTransfer_getStatus _ _) as [[status t]|] eqn:Hst; [|done]. cbn [mbind outcome_bind] in Hrun.
  apply (status_tasks (S n + k)) in Hst as [Hk1 Ht1]; [|done].
  pose proof (one_task_step s t Hot Ht1) as Hot1.
  assert (Hskip : check_slots n (S d) (s <| bs_engine := t |>) = Ok s' ->
    one_task_per_slot s' /\ pt_ok k (proto s') /\
    exists m, 0 <= m <= Z.of_nat (S n) /\ u64 (bs_transferred_bytes s') = u64 (bs_transferred_bytes s + chunk_size * m)).
  { intros H1. apply IH in H1 as (? & ? & m & Hm & Hb); [|done|by apply pt_mono].
    split_and!; try done. exists m. split; [lia|done]. }
  destruct status; [by apply Hskip|by apply Hskip| |].
  - cbn in Hrun. destruct (submit_slot d _) as [s2|] eqn:E; [|done]. cbn [mbind outcome_bind] in Hrun.
    destruct (pt_free _ (rt_protocol t) id Hk1) as [Hk2 Hf].
    eapply (one_task_replace (n + k)) in E as (Hot2 & Hk3 & Hb2); [|exact Hot1|done|done|done|done].
    apply IH in Hrun as (? & ? & m & Hm & Hb); [|by destruct Hot2 as [? []]|done]. split_and!; try done.
    exists (m + 1). split; [lia|]. cbn in Hb, Hb2. rewrite Hb, Hb2. unfold u64. rewrite Zplus_mod_idemp_l. f_equal. lia.
  - simplify_eq. split_and!; [done|by apply (Hmono (S n))|]. exists 0. split; [lia|]. cbn. f_equal. lia.
Qed.

Lemma bench_rounds_live k n : forall s s',
  one_task_per_slot s -> pt_ok (n * depth + k) (proto s) -> bench_rounds n s = Ok s' ->
  one_task_per_slot s' /\ pt_ok k (proto s') /\
  exists m, 0 <= m <= Z.of_nat (n * depth) /\
    u64 (bs_transferred_bytes s') = u64 (bs_transferred_bytes s + chunk_size * m).
Proof.
  induction n as [|n IH]; intros s s' Hot Hk Hrun; cbn [bench_rounds] in Hrun.
  { simplify_eq. split_and!; try done. exists 0. split; [lia|]. f_equal. lia. }
  unfold bench_round in Hrun. destruct (RapidTransfer_runStep _) as [[r t]|] eqn:E; [|done].
  apply (step_tasks (S n * depth + k)) in E as [Hk1 Ht1]; [|done]. cbn [mbind outcome_bind] in Hrun.
  destruct (check_slots depth 0 _) as [s1|] eqn:Ec; [|done]. cbn [mbind outcome_bind] in Hrun.
  apply (check_slots_live (n * depth + k)) in Ec as (Hot1 & Hk2 & m1 & Hm1 & Hb1);
    [|by apply one_task_step|by replace (depth + (n * depth + k))%nat with (S n * depth + k)%nat by lia].
  apply IH in Hrun as (? & ? & m2 & Hm2 & Hb2); [|done|done]. split_and!; try done. exists (m1 + m2). split; [lia|].
  rewrite Hb2. unfold u64 in *. rewrite <- Zplus_mod_idemp_l, Hb1, Zplus_mod_idemp_l. cbn. f_equal. lia.
Qed.

End send_thread.

(** ** The receiving thread *)
Section receive_thread.
Context {P : Type} `{Protocol P}.
Variables addr block_size : Z.
Variable depth : nat.

(** [task_id_map]: the peer, the task and the slot of each entry, in the order in
    which the map is traversed; a new entry may come anywhere in that order. *)
Record receive_state := mkReceiveState {
  br_engine : RapidTransfer P;
  br_task_id_map : list (string * Z * nat)
}.
#[local] Instance receive_state_fields : Fields receive_state := mkFields (fun s =>
  mkReceiveState (br_engine s) (br_task_id_map s)).

(** [on_new_connection]: slots [d], ..., [d + n - 1]; [place] is where the map puts
    each entry. *)
Fixpoint on_new_connection (place : nat -> nat) (peer : string) (n d : nat) (s : receive_state)
  : outcome receive_state :=
  match n with
  | O => Ok s
  | S n =>
      '(task_id, t) ← RapidTransfer_receive (br_engine s) peer [receive_slot addr block_size d];
      let l := br_task_id_map s in
      on_new_connection place peer n (S d)
        (mkReceiveState t (take (place d) l ++ (peer, task_id, d) :: drop (place d) l))
  end.

(** The loop over the entries: [passed] are those before, a task that failed ends it. *)
Fixpoint check_entries (passed rest : list (string * Z * nat)) (t : RapidTransfer P) : outcome receive_state :=
  match rest with
  | [] => Ok (mkReceiveState t passed)
  | (peer, id, d) :: rest =>
      '(status, t1) ← RapidTransfer_getStatus t id;
      match status with
      | FAILED => Ok (mkReceiveState t1 (passed ++ (peer, id, d) :: rest))
      | SUCCESS =>
          '(id', t2) ← RapidTransfer_receive (RapidTransfer_freeTask t1 id).2 peer
                         [receive_slot addr block_size d];
          check_entries (passed ++ [(peer, id', d)]) rest t2
      | _ => check_entries (passed ++ [(peer, id, d)]) rest t1
      end
  end.
Definition receive_round (s : receive_state) : outcome receive_state :=
  '(_, t) ← RapidTransfer_runStep (br_engine s); check_entries [] (br_task_id_map s) t.

(** What can happen to the map: a new connection, or a round of the loop. *)
Inductive receive_step : receive_state -> receive_state -> Prop :=
| rs_connect place peer s s' : on_new_connection place peer depth 0 s = Ok s' -> receive_step s s'
| rs_round s s' : receive_round s = Ok s' -> receive_step s s'.

(** *** Entries and tasks *)
Context `{!ProtocolTasks P}.

(** The tasks of the entries for which [receive] returned one. *)
Definition entry_tasks (l : list (string * Z * nat)) : list Z :=
  omap (fun e => if 0 <=? e.1.2 then Some e.1.2 else None) l.

Record entries_live (k : nat) (t : RapidTransfer P) (l : list (string * Z * nat)) : Prop := {
  el_ok : pt_ok k (rt_protocol t);
  el_nodup : NoDup (entry_tasks l);
  el_live : pt_tasks (rt_protocol t) = list_to_set (entry_tasks l)
}.

Lemma entries_perm k t l l' : l ≡ₚ l' -> entries_live k t l -> entries_live k t l'.
Proof.
  intros Hp [Hk Hnd Hl]. assert (Ht : entry_tasks l ≡ₚ entry_tasks l') by (by apply omap_Permutation).
  constructor; [done|by rewrite <- Ht|]. rewrite Hl. by apply list_to_set_perm_L.
Qed.
Lemma entries_mono k t l : entries_live (S k) t l -> entries_live k t l.
Proof. intros [Hk ? ?]. constructor; try done. by apply pt_mono. Qed.
Lemma entries_engine k t t' l :
  entries_live k t l -> pt_ok k (rt_protocol t') /\ pt_tasks (rt_protocol t') = pt_tasks (rt_protocol t) ->
  entries_live k t' l.
Proof. intros [Hk ? Hl] [Hk' Ht]. constructor; try done. congruence. Qed.

(** A new entry. *)
Lemma entries_receive k t peer b id t' d l :
  entries_live (S k) t l -> RapidTransfer_receive t peer [b] = Ok (id, t') ->
  entries_live k t' ((peer, id, d) :: l).
Proof.
  intros [Hk Hnd Hl] Hrun. unfold RapidTransfer_receive in Hrun.
  destruct (proto_receive _ _ _) as [[r p]|] eqn:E; [|done]. injection Hrun as <- <-.
  apply (pt_receive k) in E as [(Hneg & Hk' & Ht)|(Hpos & Hk' & Hnew & Ht)]; [| |done];
    constructor; cbn; try done; try (by apply pt_mono).
  - by rewrite (proj2 (Z.leb_gt 0 r)) by lia.
  - rewrite (proj2 (Z.leb_gt 0 r)) by lia. rewrite Ht. exact Hl.
  - rewrite (proj2 (Z.leb_le 0 r)) by lia. apply NoDup_cons. split; [|done]. rewrite Hl in Hnew. set_solver.
  - rewrite (proj2 (Z.leb_le 0 r)) by lia. rewrite Ht, Hl. by rewrite list_to_set_cons.
Qed.

(** An entry whose task is freed. *)
Lemma entries_free k t peer id d l :
  entries_live k t ((peer, id, d) :: l) -> entries_live k (RapidTransfer_freeTask t id).2 l.
Proof.
  intros [Hk Hnd Hl]. destruct (pt_free k _ id Hk) as [Hk' Ht]. constructor; [done| |].
  - cbn in Hnd. destruct (0 <=? id); [by apply NoDup_cons in Hnd as []|done].
  - transitivity (pt_tasks (rt_protocol t) ∖ {[id]}); [exact Ht|]. rewrite Hl. cbn in Hnd |- *.
    destruct (Z.leb_spec 0 id) as [Hpos|Hneg].
    + apply NoDup_cons in Hnd as [Hid _]. cbn. set_solver.
    + apply difference_disjoint_L, disjoint_singleton_r. rewrite elem_of_list_to_set.
      unfold entry_tasks. rewrite list_elem_of_omap. intros (e & _ & He). case_match; simplify_eq.
      match goal with Hx : (0 <=? _) = true |- _ => apply Z.leb_le in Hx end. lia.
Qed.

Lemma on_new_connection_live k place peer n : forall d s s',
  entries_live (n + k) (br_engine s) (br_task_id_map s) -> on_new_connection place peer n d s = Ok s' ->
  entries_live k (br_engine s') (br_task_id_map s').
Proof.
  induction n as [|n IH]; intros d s s' Hl Hrun; cbn [on_new_connection] in Hrun; [by simplify_eq|].
  destruct (RapidTransfer_receive _ _ _) as [[id t]|] eqn:E; [|done]. cbn [mbind outcome_bind] in Hrun.
  apply IH in Hrun; [done|]. cbn. eapply entries_perm; [|by eapply entries_receive].
  rewrite <- Permutation_middle. by rewrite take_drop.
Qed.

Lemma check_entries_live k rest : forall passed t s',
  entries_live (length rest + k) t (passed ++ rest) -> check_entries passed rest t = Ok s' ->
  entries_live k (br_engine s') (br_task_id_map s') /\
  (fun e => (e.1.1, e.2)) <$> br_task_id_map s' = (fun e : string * Z * nat => (e.1.1, e.2)) <$> (passed ++ rest).
Proof.
  assert (Hmono : forall m t l, entries_live (m + k) t l -> entries_live k t l)
    by (induction m as [|m IHm]; intros t l Hx; [done|]; by apply IHm, entries_mono).
  induction rest as [|[[peer id] d] rest IH]; intros passed t s' Hl Hrun; cbn [check_entries] in Hrun.
  { simplify_eq. cbn in *. by rewrite app_nil_r in *. }
  destruct (RapidTransfer_getStatus t id) as [[status t1]|] eqn:E; [|done]. cbn [mbind outcome_bind] in Hrun.
  assert (Hl1 : entries_live (S (length rest) + k) t1 (passed ++ (peer, id, d) :: rest)).
  { eapply entries_engine; [exact Hl|]. eapply status_tasks; [|exact E]. by destruct Hl. }
  assert (Hskip : check_entries (passed ++ [(peer, id, d)]) rest t1 = Ok s' ->
    entries_live k (br_engine s') (br_task_id_map s') /\
    (fun e => (e.1.1, e.2)) <$> br_task_id_map s' =
      (fun e : string * Z * nat => (e.1.1, e.2)) <$> (passed ++ (peer, id, d) :: rest)).
  { intros H1. replace (passed ++ (peer, id, d) :: rest) with ((passed ++ [(peer, id, d)]) ++ rest) in *
      by (by rewrite <- app_assoc). apply (IH _ _ _ (entries_mono _ _ _ Hl1) H1). }
  destruct status; [by apply Hskip|by apply Hskip| |by simplify_eq; split; [by apply (Hmono (S (length rest)))|]].
  destruct (RapidTransfer_receive _ _ _) as [[id' t2]|] eqn:E2; [|done]. cbn [mbind outcome_bind] in Hrun.
  assert (Hl2 : entries_live (length rest + k) t2 ((passed ++ [(peer, id', d)]) ++ rest)).
  { eapply entries_perm; [|eapply (entries_receive _ _ peer _ id' t2 d); [|exact E2]].
    - rewrite <- app_assoc. cbn. by rewrite <- Permutation_middle.
    - eapply (entries_free _ _ peer id d), entries_perm; [|exact Hl1]. by rewrite <- Permutation_middle. }
  apply (IH _ _ _ Hl2) in Hrun as [Hr Hk]. split; [exact Hr|]. rewrite Hk, !fmap_app. cbn. by rewrite <- app_assoc.
Qed.

(** Each entry for which [receive] gave a task has its own live task, and there are no
    others, after a new connection as after a round. *)
Lemma receive_step_live k s s' :
  entries_live (depth + length (br_task_id_map s) + k) (br_engine s) (br_task_id_map s) -> receive_step s s' ->
  entries_live k (br_engine s') (br_task_id_map s').
Proof.
  assert (Hmono : forall a b t l, (b <= a)%nat -> entries_live a t l -> entries_live b t l).
  { intros a b t l Hle. induction Hle as [|a Hle IH]; [done|]. intros Hx. by apply IH, entries_mono. }
  intros Hl Hstep. destruct Hstep as [place peer s s' Hrun|s s' Hrun].
  - eapply on_new_connection_live; [|exact Hrun]. eapply Hmono; [|exact Hl]. lia.
  - unfold receive_round in Hrun. destruct (RapidTransfer_runStep _) as [[r t]|] eqn:E; [|done].
    cbn [mbind outcome_bind] in Hrun. eapply check_entries_live in Hrun as [H1 _]; [exact H1|].
    eapply entries_engine; [eapply Hmono; [|exact Hl]; lia|]. eapply step_tasks; [|exact E].
    eapply Hmono in Hl; [by destruct Hl|lia].
Qed.
End receive_thread.

(** ** A run over a protocol that completes every task at once *)
Record loopback := mkLoopback { lb_next : Z; lb_tasks : gset Z }.
#[export] Instance loopback_protocol : Protocol loopback := {|
  prepareConnection := fun p _ _ => Ok (0, p, ∅);
  setupConnection := fun p _ _ => Ok (0, p);
  proto_send := fun p _ _ => Ok (lb_next p, mkLoopback (lb_next p + 1) ({[lb_next p]} ∪ lb_tasks p));
  proto_receive := fun p _ _ => Ok (lb_next p, mkLoopback (lb_next p + 1) ({[lb_next p]} ∪ lb_tasks p));
  proto_getStatus := fun p id => Ok (if decide (id ∈ lb_tasks p) then SUCCESS else UNKNOWN, p);
  proto_freeTask := fun p id => (0, mkLoopback (lb_next p) (lb_tasks p ∖ {[id]}));
  proto_registerLocalMemory := fun p _ _ => (0, p);
  proto_unregisterLocalMemory := fun p _ => Ok (0, p);
  proto_runStep := fun p => Ok (0, p);
  proto_joinMulticast := fun p _ => Ok (ERR, p);
  proto_leaveMulticast := fun p _ => Ok (ERR, p);
  proto_setMulticastReplicas := fun p _ _ => (ERR, p)
|}.
#[export] Instance loopback_tasks : ProtocolTasks loopback.
Proof.
  refine {| pt_ok := fun _ p => 0 <= lb_next p /\ forall id, id ∈ lb_tasks p -> id < lb_next p;
            pt_tasks := lb_tasks |}; cbn; intros; simplify_eq; try done.
  3: destruct_and?; split_and!; try done; intros j [Hj _]%elem_of_difference; auto.
  all: right; cbn; destruct_and?; split_and!; try lia; try done.
  1,3: intros id [->%elem_of_singleton|Hid]%elem_of_union; [lia|].
  all: try intros Hid; match goal with H : forall id, _ -> id < _, Hid : _ ∈ _ |- _ => specialize (H _ Hid) end; lia.
Defined.

Definition demo_thread (n : nat) :=
  send_thread (fun _ => []) (fun _ => None) unit (fun _ _ w => Ok (None, w)) (fun _ => 0) (fun _ => false) 3
    4096 65536 18888 1 1 0 2 [String.list_ascii_of_string "h"] [0; 0] n
    (mkSendState unit
       (mkRapidTransfer (SessionManager_ctor <| sm_sessions := {["h:18888"]} |>) (mkLoopback 0 ∅) []) tt [] 0 0 0).

Definition demo_end : send_state (P := loopback) unit :=
  mkSendState unit (mkRapidTransfer (SessionManager_ctor <| sm_sessions := {["h:18888"]} |>)
    (mkLoopback 5 {[3; 4]}) []) tt [3; 4] 131072 8 1.

